(* ===== verification/_CoqProject ===== *)
-Q . S2P
Prelude.v
Faults.v
Safety.v
Crc16.v
Frame.v
Fuzz.v
Reliable.v
Arq.v
Telem.v
Ring.v
Health.v
Config.v
Persist.v
Sensor.v
Float32.v
Rounding.v
Control.v
Node.v
Settle.v
App.v
Sched.v
Posts.v
Shutdown.v
Watchdog.v
Alive.v
Envelope.v
Standalone.v
Outage.v
