(* ===== verification/Prelude.v ===== *)
(** * Governor: a verification library for the telemetry-and-control node

    The program is the firmware of a small control node: a 100 Hz control loop whose output a safety
    state machine gates, a framed and acknowledged serial link to a ground station, telemetry, a
    sensor on a bus, persistent settings, and a hardware watchdog.  Its policy is in portable C
    libraries (lib/, drivers/, app/); src/main.c runs them in five Zephyr threads.  This library
    is a shallow embedding of all of that C code: a C function is a Gallina function on the same
    data, and every definition is executable.

    ** Conventions

    - A C integer is a [Z]; conversions to fixed widths are written out ([u8], [u16], [u32], [i32]).
      A [float] is an IEEE binary32 number ([Float32]), rounded to nearest after every operation, as
      a compiler with FLT_EVAL_METHOD 0 and no contraction does; the target's soft-float library is of
      that kind.
    - A struct is a Record with the C names under a short prefix, with a setter per field; an enum is an
      Inductive with the C names.  An operation that works through a pointer takes the object and
      returns it.  Where the code tests for NULL the API function takes an [option] and an inner
      definition is its body.
    - [None] as a result is undefined behaviour: an access out of range, a call of a missing callback, a
      cast out of range, signed overflow.  That an operation is defined is always a conclusion, never a
      hypothesis.
    - A callback is an output: the decoder's frames, the sender's and receiver's bytes and deliveries.
    - What is not in the repository is a parameter with its documented behaviour as a class: the bus
      ([BusLaws]), the settings service ([SettingsLaws], with a service in memory as an instance); the
      answers of hwinfo, the watchdog and the I2C driver are arguments.

    ** Files

    - Prelude: C integers, arrays with bounds ([load], [store]), machines fed with inputs.
    - Faults: lib/common/gov_faults.h.  The fault word, and the relations [has] and [within] on flags.
    - Safety: lib/safety.  [safety_step] is [gov_safety_step] after its NULL test, with one definition per
      case of its switch; [row] is the table T1..T12 of docs/SAFETY_SM.md.  A call does what
      the table says to the last field ([outcome]), outside the four kinds of call on which code and document disagree
      ([in_table]); the invariant of reachable objects; the safe states latch; a degraded condition escalates; the
      wrap of the uptime halts.
    - Crc16, Frame: lib/proto/crc16.c and frame.c.  The CRC is the remainder of a polynomial division and
      detects what such a code can; the decoder refines an abstract one on lists of bytes, from which
      the round trip, soundness, resynchronisation and rejection of corrupted frames follow.
    - Fuzz: fuzz/fuzz_frame.c.  The fuzz target returns 0 on every input.
    - Reliable, Arq: lib/proto/reliable.c, and two ends of it joined by lossy channels with the decoder's
      callback of main.c.  The branches of a send, the retransmission schedule, delivery in order at
      most once, and recovery.
    - Telem, Ring, Health: lib/telem.  Round trips of the payloads; the ring as an instance of the class
      [BoundedQueue] with its laws, and its lock-free use interleaved between any two accesses and any
      two bytes of the records copied; the aggregator as a function of the history of reports.
    - Config, Persist: lib/config and app/persist.c.  Crash consistency of the A/B slots over a store whose
      writes tear at any byte and whose calls may be undefined ([None]); a load finds the newest save that survived;
      the adapter discharges what Config asks of a store, its staging buffers accessed within bounds; a boot is counted.
    - Sensor: drivers.  Health flags and values as functions of the history of transfers; the retry
      policy and its termination; the Zephyr binding obeys the bus contract.
    - Float32, Rounding, Control: binary32 arithmetic as rounding of integers; how far each operation is from
      exact arithmetic; then lib/control.  The PID step is
      finite and within its limits for every measurement; the divergence report; the plant is a contraction.
    - Node: app/node_core.c.  Fault routing and its shadow, the authority of the safety machine over
      the actuator through the float arithmetic, recovery on schedule, truthful telemetry, and the
      numbers of the closed loop.
    - Settle: those numbers for ever.  A polytope that the truncation of the command and every rounding leave
      invariant, and its computed entry for each integer set point from 3 to 96.
    - App: src/main.c.  The shared objects and the five threads as program counters; a step is one access
      to the shared state.  No interleaving has undefined behaviour, and every object stays well formed.
    - Sched: the thread priorities, the runs that respect them, and what each thread puts on the wire in
      such a run; concrete races that the priorities do not exclude; the telemetry ring never holds more than
      one record on a board with a link, so that a stalled link loses telemetry without counting it.
    - Posts: which events the threads post; every step of App moves the safety machine by at most one.
    - Shutdown: the operator's stop from the byte on the wire to the actuator, over the whole stack, until an
      operator clear is posted.
    - Watchdog: a hung thread starves the hardware watchdog, and a watchdog reset stays in telemetry.
    - Alive: the converse.  A system scheduled in time never lets the watchdog expire; the three threads that
      report are instances of the class [Reporter], and the bound on the age of reports is proved from its laws.
    - Envelope: samples, measurement and telemetry stay within 0..100 in every run.  A consequence that
      control_config.h does not mean ([plant_never_diverges]): T5 cannot be taken with a set point within reach.
    - Standalone: on a board without sensor and link the node stays in RUN in every interleaving, and the
      plant settles at the set point and stays there.
    - Outage: a sensor bus that dies, in whatever way, takes the node out of RUN within a bounded number of the
      link thread's steps, from the transfer through the driver and the fault routing to the actuator.

    The interaction is that of the code: App calls Node (under its lock), Arq's link ends, Ring, Health
    and Sensor; Node calls Safety and Control; Arq is built on Reliable and Frame, Frame on Crc16; Persist
    gives Config its store.

    ** Bounds and fuel

    The only loop that is not structural is the sensor's retry loop: it takes fuel, more than [nak_retries]
    suffices ([Sensor.retry_policy]) and App passes four for three retries; and the loop over a payload in
    Fuzz, with one unit more than its length.  [Settle.entry], 134 control periods, is how long the
    transients of [Settle.transients_ok] are computed: the invariant takes over there, so
    [Standalone.standalone_settles] has no bound but the wrap of the 32-bit uptime.  ([Node.closed_loop_settles] is the
    loop of Node alone at the set point 50, computed for 3000 periods.)  The bound of 20 link thread steps per byte in
    [Shutdown.operator_stop_latches] is the longest way round the thread's loop, an acknowledgement of 9
    bytes included.  [Alive.round_ms], 75, is half the threshold of the feed decision, so that a report of the
    round before is still fresh; the turns [Alive.regular] asks for are one way round each thread's loop.

    ** Assumptions on concurrency

    Node accesses are critical sections of one mutex in the code and one step in App; the slot is guarded by
    a spinlock.  The telemetry ring's theorem [Ring.spsc_linearizable] assumes sequentially consistent
    memory and that the compiler keeps each side's accesses in program order: its fields are plain C.  The sender and the
    health record are shared without a lock.  App interleaves the sender
    access by access where accesses can conflict: the poll between its tests and its writes, and every byte
    that is sent from the shared buffer.  The rest is one step and, under the priorities, undisturbed: a
    send's writes (telemetry alone sends, and in IDLE the link_tx thread, which may preempt it, does not write),
    and the test and write of an acknowledgement (no thread above link_rx touches the sender).  So is each
    call on the health record, although [gov_health_all_alive] can be preempted between two subsystems: that the
    subsystems are read at one moment is an assumption.  The scheduler is arbitrary in all theorems but
    [Sched.wire_tells_truth], which is about runs that respect the priorities, and [Alive.healthy_system_never_reset],
    which is about runs in which the threads get their turns in time.

    ** What the model showed

    The lemmas [Envelope.plant_never_diverges], [Safety.late_selftest_enters_run],
    [Shutdown.clear_never_recovers], [Sensor.sensor_history_exact], [Node.escalation_keeps_driver_bits], [App.preempted_report_halts],
    [App.bus_not_ready_undefined], [App.timing_fault_unreachable], [Sched.acknowledgement_splits_frame],
    [Sched.acknowledgement_lost_to_fault], [Sched.torn_without_priorities], [Sched.stalled_link_loses_record], [Alive.late_reading_resets],
    [Shutdown.nak_hides_stop], [Safety.uptime_wrap_halts], [Safety.unmatched_fault_is_only_counted],
    [Node.top_setpoint_undefined], [Frame.garbage_swallows_frame] and [Config.torn_write_can_mix] state
    behaviours that differ from the documentation or from what the code means to do.

    ** Not modelled

    Zephyr itself; log output other than the telemetry thread's status line, the optional timing trace,
    stack sizes; the tests, the fuzz corpus, the Python ground station, the emulation and build files.

    ** Limits

    That a thread meets the periods of docs/TASKS.md is a hypothesis ([Alive.regular]): execution times
    are not in the source.  With a sensor in the loop the measurement comes from outside, so that the loop settles is
    shown for boards without one only. *)
From stdpp Require Export base decidable option list numbers tactics relations.
From Stdlib Require Export ZArith Lia.

#[export] Set Default Goal Selector "!".
#[global] Open Scope Z_scope.

(** ** C integers

    A C integer is a [Z]; the conversion the language performs on assignment to a
    [uint8_t], [uint16_t], [uint32_t] or [int32_t] object is written out. *)
Definition u8 (z : Z) : Z := z mod 2 ^ 8.
Definition u16 (z : Z) : Z := z mod 2 ^ 16.
Definition u32 (z : Z) : Z := z mod 2 ^ 32.
Definition i32 (z : Z) : Z := (z + 2 ^ 31) mod 2 ^ 32 - 2 ^ 31.

Definition is_u8 (z : Z) : Prop := 0 <= z < 2 ^ 8.
Definition is_u16 (z : Z) : Prop := 0 <= z < 2 ^ 16.
Definition is_u32 (z : Z) : Prop := 0 <= z < 2 ^ 32.
Definition is_i32 (z : Z) : Prop := - 2 ^ 31 <= z < 2 ^ 31.

(** The bit operators of C on values already converted to an unsigned type. *)
Declare Scope c_scope.
Delimit Scope c_scope with c.
Notation "a .<< b" := (Z.shiftl a b) (at level 38, left associativity) : c_scope.
Notation "a .>> b" := (Z.shiftr a b) (at level 38, left associativity) : c_scope.
Notation "a .& b" := (Z.land a b) (at level 43, left associativity) : c_scope.
Notation "a .^ b" := (Z.lxor a b) (at level 46, left associativity) : c_scope.
Notation "a .| b" := (Z.lor a b) (at level 48, left associativity) : c_scope.
#[global] Open Scope c_scope.

(** [~m] on a [uint32_t]. *)
Definition not32 (m : Z) : Z := u32 (Z.lnot m).

Lemma u8_range z : is_u8 (u8 z).
Proof. apply Z.mod_pos_bound. lia. Qed.
Lemma u16_range z : is_u16 (u16 z).
Proof. apply Z.mod_pos_bound. lia. Qed.
Lemma u32_range z : is_u32 (u32 z).
Proof. apply Z.mod_pos_bound. lia. Qed.
Lemma i32_range z : is_i32 (i32 z).
Proof. unfold is_i32, i32. pose proof (Z.mod_pos_bound (z + 2 ^ 31) (2 ^ 32)). lia. Qed.

Lemma u8_small z : is_u8 z -> u8 z = z.
Proof. apply Z.mod_small. Qed.
Lemma u16_small z : is_u16 z -> u16 z = z.
Proof. apply Z.mod_small. Qed.
Lemma u32_small z : is_u32 z -> u32 z = z.
Proof. apply Z.mod_small. Qed.
Lemma i32_small z : is_i32 z -> i32 z = z.
Proof. unfold is_i32, i32. intros ?. rewrite Z.mod_small; lia. Qed.

(** Conversion to [uint32_t] and back is the identity on [int32_t]. *)
Lemma i32_u32 z : is_i32 z -> i32 (u32 z) = z.
Proof.
  unfold is_i32, i32, u32. intros ?.
  rewrite Zplus_mod_idemp_l, Z.mod_small; lia.
Qed.

Lemma u32_i32 z : is_u32 z -> u32 (i32 z) = z.
Proof.
  unfold is_u32, i32, u32. intros ?.
  rewrite Zminus_mod_idemp_l. rewrite Z.mod_small; lia.
Qed.

Create HintDb cint.
Create Rewrite HintDb cint.
#[export] Hint Resolve u8_range u16_range u32_range i32_range : cint.
#[export] Hint Rewrite u8_small u16_small u32_small i32_small i32_u32 u32_i32
  using (unfold is_u8, is_u16, is_u32, is_i32 in *; lia) : cint.

(** [lia] with the integer ranges unfolded. *)
Ltac clia := unfold is_u8, is_u16, is_u32, is_i32, u8, u16, u32, i32 in *; lia.

(** [lia] on goals with division and modulo by constants. *)
Ltac dlia :=
  unfold is_u8, is_u16, is_u32, is_i32, u8, u16, u32, i32 in *;
  change (2 ^ 8) with 256 in *; change (2 ^ 16) with 65536 in *;
  change (2 ^ 31) with 2147483648 in *; change (2 ^ 32) with 4294967296 in *;
  Z.div_mod_to_equations; lia.

(** A boolean statement about a byte is decided by evaluation on the 256 bytes. *)
Lemma byte_forall (P : Z -> bool) :
  forallb P (seqZ 0 256) = true -> forall b, is_u8 b -> P b = true.
Proof.
  rewrite forallb_forall. intros H b Hb. apply H, list_elem_of_In, elem_of_seqZ. clia.
Qed.

(** Disjoint bit fields: [|] of a shifted value and a small one is a sum. *)
Lemma lor_shiftl hi lo k : 0 <= k -> 0 <= lo < 2 ^ k -> (hi .<< k) .| lo = hi * 2 ^ k + lo.
Proof.
  intros Hk Hlo. rewrite <-Z.shiftl_mul_pow2 by done.
  assert (Hand : (hi .<< k) .& lo = 0).
  { apply Z.bits_inj'. intros i Hi. rewrite Z.land_spec, Z.bits_0.
    destruct (Z.lt_ge_cases i k) as [Hlt|Hge].
    - by rewrite Z.shiftl_spec_low.
    - rewrite <-(Z.mod_small lo (2 ^ k)) by done. by rewrite Z.mod_pow2_bits_high, andb_false_r by lia. }
  by rewrite <-Z.lxor_lor, Z.add_nocarry_lxor by done.
Qed.

(** ** Undefined behaviour

    A definition that can step outside the C semantics (an array access out of bounds, a
    float conversion out of range) returns an [option]; [None] is undefined behaviour.  The
    notation [x <- e; k] of stdpp's option monad is written with an arrow [←]. *)
Definition load {A} (l : list A) (i : Z) : option A :=
  if bool_decide (0 <= i) then l !! Z.to_nat i else None.

Definition store {A} (l : list A) (i : Z) (x : A) : option (list A) :=
  if bool_decide (0 <= i < Z.of_nat (length l)) then Some (<[Z.to_nat i := x]> l) else None.

(** [memcpy(&l[off], src, length src)] and the bytes [l[off] .. l[off+len-1]]. *)
Definition store_bytes {A} (l : list A) (off : Z) (src : list A) : option (list A) :=
  if bool_decide (0 <= off /\ off + Z.of_nat (length src) <= Z.of_nat (length l))
  then Some (take (Z.to_nat off) l ++ src ++ drop (Z.to_nat off + length src) l)
  else None.

Definition load_bytes {A} (l : list A) (off len : Z) : option (list A) :=
  if bool_decide (0 <= off /\ 0 <= len /\ off + len <= Z.of_nat (length l))
  then Some (take (Z.to_nat len) (drop (Z.to_nat off) l))
  else None.

Lemma store_Some {A} (l : list A) i x :
  0 <= i < Z.of_nat (length l) -> store l i x = Some (<[Z.to_nat i := x]> l).
Proof. intros. unfold store. by rewrite bool_decide_true by lia. Qed.

Lemma load_Some {A} (l : list A) i x :
  0 <= i -> l !! Z.to_nat i = Some x -> load l i = Some x.
Proof. intros. unfold load. by rewrite bool_decide_true. Qed.

Lemma store_bytes_Some {A} (l : list A) off src :
  0 <= off -> off + Z.of_nat (length src) <= Z.of_nat (length l) ->
  store_bytes l off src = Some (take (Z.to_nat off) l ++ src ++ drop (Z.to_nat off + length src) l).
Proof. intros. unfold store_bytes. by rewrite bool_decide_true by lia. Qed.

Lemma load_bytes_Some {A} (l : list A) off len :
  0 <= off -> 0 <= len -> off + len <= Z.of_nat (length l) ->
  load_bytes l off len = Some (take (Z.to_nat len) (drop (Z.to_nat off) l)).
Proof. intros. unfold load_bytes. by rewrite bool_decide_true by lia. Qed.

Lemma load_store_eq {A} (l : list A) i x l' : store l i x = Some l' -> load l' i = Some x.
Proof.
  unfold store, load. case_bool_decide as H; [|done]. intros [= <-].
  rewrite bool_decide_true by lia. apply list_lookup_insert_eq. lia.
Qed.

Lemma load_store_ne {A} (l : list A) i j x l' :
  store l i x = Some l' -> 0 <= j -> i <> j -> load l' j = load l j.
Proof.
  unfold store, load. case_bool_decide as H; [|done]. intros [= <-] Hj Hne.
  rewrite !bool_decide_true by lia. apply list_lookup_insert_ne. lia.
Qed.

Lemma store_length {A} (l : list A) i x l' : store l i x = Some l' -> length l' = length l.
Proof. unfold store. case_bool_decide; [|done]. intros [= <-]. apply length_insert. Qed.

Lemma store_zero {A} (a : A) l y : store (a :: l) 0 y = Some (y :: l).
Proof. by rewrite store_Some by (cbn [length]; lia). Qed.

(** A write past a known prefix is a write in the rest. *)
Lemma store_past {A} (pre post : list A) i y :
  Z.of_nat (length pre) <= i ->
  store (pre ++ post) i y = (post' ← store post (i - Z.of_nat (length pre)) y; Some (pre ++ post')).
Proof.
  intros Hi. unfold store. rewrite length_app.
  destruct (decide (0 <= i < Z.of_nat (length pre + length post))).
  - rewrite !bool_decide_true by lia. cbn. rewrite insert_app_r_alt by lia.
    do 3 f_equal. lia.
  - by rewrite !bool_decide_false by lia.
Qed.

Lemma load_past {A} (pre post : list A) i :
  Z.of_nat (length pre) <= i -> load (pre ++ post) i = load post (i - Z.of_nat (length pre)).
Proof.
  intros Hi. unfold load. rewrite !bool_decide_true by lia. rewrite lookup_app_r by lia. f_equal. lia.
Qed.

Lemma store_cons {A} (a : A) l i y :
  0 < i -> store (a :: l) i y = (l' ← store l (i - 1) y; Some (a :: l')).
Proof. intros. apply (store_past [a] l). cbn. lia. Qed.

(** Writes at literal indices of a list whose head is known. *)
Ltac store_literal :=
  repeat (first [rewrite store_zero | rewrite store_cons by lia];
          cbn [mbind option_bind Z.sub Z.add Z.opp Z.pos_sub Pos.pred_double]).

(** ** Machines that consume a list of inputs and emit outputs *)
Section feed.
Context {S I O : Type} (step : S -> I -> option (S * list O)).

Fixpoint feed (s : S) (ins : list I) : option (S * list O) :=
  match ins with
  | [] => Some (s, [])
  | i :: ins' =>
      '(s1, o1) ← step s i;
      '(s2, o2) ← feed s1 ins';
      Some (s2, o1 ++ o2)
  end.

Lemma feed_app s ins1 ins2 :
  feed s (ins1 ++ ins2) =
    ('(s1, o1) ← feed s ins1; '(s2, o2) ← feed s1 ins2; Some (s2, o1 ++ o2)).
Proof.
  revert s. induction ins1 as [|i ins1 IH]; intros s; simpl.
  { destruct (feed s ins2) as [[??]|]; done. }
  destruct (step s i) as [[s1 o1]|]; simpl; [|done].
  rewrite IH. destruct (feed s1 ins1) as [[s2 o2]|]; simpl; [|done].
  destruct (feed s2 ins2) as [[s3 o3]|]; simpl; [|done].
  by rewrite app_assoc.
Qed.

(** Rule induction over a run: an invariant of every step is an invariant of the run. *)
Lemma feed_invariant (P : S -> Prop) s ins s' os :
  (forall s i s' o, P s -> step s i = Some (s', o) -> P s') ->
  P s -> feed s ins = Some (s', os) -> P s'.
Proof.
  intros Hstep. revert s s' os. induction ins as [|i ins IH]; intros s s' os HP; simpl.
  { intros [= <- <-]. done. }
  destruct (step s i) as [[s1 o1]|] eqn:E; simpl; [|done].
  destruct (feed s1 ins) as [[s2 o2]|] eqn:E2; simpl; [|done].
  intros [= <- <-]. eauto.
Qed.
End feed.
