(* ===== verification/Faults.v ===== *)
(** * Faults: the fault-flag bit layout (lib/common/gov_faults.h)

    The bit values shared by the safety machine, the sensor driver and telemetry. *)
From S2P Require Import Prelude.

Definition GOV_FAULT_NONE : Z := 0.
Definition GOV_FAULT_SENSOR_DROP : Z := 1 .<< 0.
Definition GOV_FAULT_SENSOR_STUCK : Z := 1 .<< 1.
Definition GOV_FAULT_SENSOR_RANGE : Z := 1 .<< 2.
Definition GOV_FAULT_BUS_NAK : Z := 1 .<< 3.
Definition GOV_FAULT_BUS_ERR : Z := 1 .<< 4.
Definition GOV_FAULT_LINK : Z := 1 .<< 5.
Definition GOV_FAULT_DIVERGE : Z := 1 .<< 6.
Definition GOV_FAULT_TIMING : Z := 1 .<< 7.
Definition GOV_FAULT_WATCHDOG : Z := 1 .<< 8.
Definition GOV_FAULT_OPERATOR_STOP : Z := 1 .<< 9.
Definition GOV_FAULT_INIT : Z := 1 .<< 10.
Definition GOV_FAULT_ESCALATED : Z := 1 .<< 11.
Definition GOV_FAULT_INTERNAL : Z := 1 .<< 12.
Definition GOV_FAULT_SENSOR_ACTIVE : Z := 1 .<< 13.

Definition GOV_FAULT_SENSOR_ANY : Z :=
  GOV_FAULT_SENSOR_DROP .| GOV_FAULT_SENSOR_STUCK .| GOV_FAULT_SENSOR_RANGE.

Definition GOV_FAULT_SENSOR_ANY_DRIVER : Z :=
  GOV_FAULT_SENSOR_ANY .| GOV_FAULT_BUS_NAK .| GOV_FAULT_BUS_ERR.

Definition GOV_FAULT_ALL : Z :=
  GOV_FAULT_SENSOR_DROP .| GOV_FAULT_SENSOR_STUCK .| GOV_FAULT_SENSOR_RANGE
  .| GOV_FAULT_BUS_NAK .| GOV_FAULT_BUS_ERR .| GOV_FAULT_LINK .| GOV_FAULT_DIVERGE
  .| GOV_FAULT_TIMING .| GOV_FAULT_WATCHDOG .| GOV_FAULT_OPERATOR_STOP .| GOV_FAULT_INIT
  .| GOV_FAULT_ESCALATED .| GOV_FAULT_INTERNAL .| GOV_FAULT_SENSOR_ACTIVE.

(** [has m f]: every bit of the mask [f] is set in the word [m]. *)
Definition has (m f : Z) : Prop := Z.land m f = f.
(** [within m f]: the word [m] has no bit outside the mask [f]. *)
Definition within (m f : Z) : Prop := Z.ldiff m f = 0.

#[export] Instance has_dec m f : Decision (has m f).
Proof. unfold has. apply _. Defined.
#[export] Instance within_dec m f : Decision (within m f).
Proof. unfold within. apply _. Defined.

Lemma has_spec m f : has m f <-> forall i, Z.testbit f i = true -> Z.testbit m i = true.
Proof.
  unfold has. split.
  - intros H i Hi. rewrite <-H, Z.land_spec in Hi. by apply andb_true_iff in Hi as [-> _].
  - intros H. apply Z.bits_inj. intros i. rewrite Z.land_spec.
    specialize (H i). destruct (Z.testbit f i); [rewrite H; done | by rewrite andb_false_r].
Qed.

Lemma within_spec m f : within m f <-> forall i, Z.testbit m i = true -> Z.testbit f i = true.
Proof.
  unfold within. split.
  - intros H i Hi. apply (f_equal (fun z => Z.testbit z i)) in H.
    rewrite Z.ldiff_spec, Hi, Z.bits_0 in H. by destruct (Z.testbit f i).
  - intros H. apply Z.bits_inj. intros i. rewrite Z.ldiff_spec, Z.bits_0.
    specialize (H i). destruct (Z.testbit m i); [by rewrite H | done].
Qed.

Create HintDb faults.

Lemma has_lor_r m f : has (m .| f) f.
Proof. apply has_spec. intros i Hi. by rewrite Z.lor_spec, Hi, orb_true_r. Qed.
Lemma has_lor_l m g f : has m f -> has (m .| g) f.
Proof. rewrite !has_spec. intros H i Hi. by rewrite Z.lor_spec, H. Qed.
Lemma has_land m g f : has m f -> has g f -> has (m .& g) f.
Proof. rewrite !has_spec. intros H1 H2 i Hi. by rewrite Z.land_spec, H1, H2. Qed.
Lemma has_refl f : has f f.
Proof. apply Z.land_diag. Qed.
Lemma has_trans m f g : has m f -> has f g -> has m g.
Proof. rewrite !has_spec. auto. Qed.
Lemma within_lor m g f : within m f -> within g f -> within (m .| g) f.
Proof. rewrite !within_spec. intros H1 H2 i. rewrite Z.lor_spec, orb_true_iff. intros [?|?]; auto. Qed.
Lemma within_land m g f : within m f -> within (m .& g) f.
Proof. rewrite !within_spec. intros H i. rewrite Z.land_spec, andb_true_iff. intros [? ?]; auto. Qed.
Lemma within_trans m g f : within m g -> within g f -> within m f.
Proof. rewrite !within_spec. auto. Qed.
Lemma within_0 f : within 0 f.
Proof. done. Qed.

#[export] Hint Resolve has_lor_r has_lor_l has_land has_refl within_lor within_land within_0 : faults.
#[export] Hint Extern 5 (within _ GOV_FAULT_ALL) => vm_compute; reflexivity : faults.

(** A word within the defined flags is a [uint32_t] (in fact fourteen bits wide). *)
Lemma within_all_u32 m : 0 <= m -> within m GOV_FAULT_ALL -> 0 <= m < 2 ^ 14.
Proof.
  intros Hm H. split; [done|]. rewrite within_spec in H.
  destruct (decide (m = 0)) as [->|]; [lia|].
  apply Z.log2_lt_pow2; [lia|].
  destruct (Z.lt_ge_cases (Z.log2 m) 14) as [|Hge]; [done|].
  specialize (H (Z.log2 m)). rewrite Z.bit_log2 in H by lia.
  rewrite Z.bits_above_log2 in H; [by specialize (H eq_refl) | done |].
  apply Z.lt_le_trans with 14; [vm_compute; done | done].
Qed.
