(* ===== verification/Safety.v ===== *)
(** * Safety: the safety state machine (lib/safety/safety.h, lib/safety/safety.c) *)
From stdpp Require Import strings.
From S2P Require Import Prelude Faults.

(** ** Data *)

(** [gov_state_t]; [GOV_ST_COUNT] is the enum's count sentinel. *)
Inductive gov_state_t :=
  | GOV_ST_INIT
  | GOV_ST_RUN
  | GOV_ST_DEGRADED
  | GOV_ST_SAFE_STOP
  | GOV_ST_FAULT_HALT
  | GOV_ST_COUNT.

Inductive gov_event_t :=
  | GOV_EV_POWER_ON
  | GOV_EV_SELFTEST_OK
  | GOV_EV_SELFTEST_FAIL
  | GOV_EV_SENSOR_FAULT
  | GOV_EV_LINK_FAULT
  | GOV_EV_DIVERGE
  | GOV_EV_CAUSE_CLEARED
  | GOV_EV_SECOND_FAULT
  | GOV_EV_OPERATOR_STOP
  | GOV_EV_OPERATOR_CLEAR
  | GOV_EV_DEADLINE_MISS
  | GOV_EV_WATCHDOG
  | GOV_EV_INTERNAL_VIOLATION
  | GOV_EV_TICK
  | GOV_EV_COUNT.

#[export] Instance gov_state_eq_dec : EqDecision gov_state_t.
Proof. solve_decision. Defined.
#[export] Instance gov_event_eq_dec : EqDecision gov_event_t.
Proof. solve_decision. Defined.

(** The enum's value, as telemetry encodes it in one byte. *)
Definition state_code (st : gov_state_t) : Z :=
  match st with
  | GOV_ST_INIT => 0
  | GOV_ST_RUN => 1
  | GOV_ST_DEGRADED => 2
  | GOV_ST_SAFE_STOP => 3
  | GOV_ST_FAULT_HALT => 4
  | GOV_ST_COUNT => 5
  end.

Definition GOV_INIT_TIMEOUT_MS : Z := 2000.
Definition GOV_RECOVER_MS : Z := 500.
Definition GOV_DEGRADE_MAX_MS : Z := 5000.
Definition GOV_SAFE_OUTPUT : Z := 0.
Definition GOV_DEGRADED_CLAMP_NUM : Z := 1.
Definition GOV_DEGRADED_CLAMP_DEN : Z := 2.

(** [gov_safety_t]; every integer field is a [uint32_t]. *)
Record gov_safety_t := mkSafety {
  s_state : gov_state_t;
  s_faults : Z;
  s_sticky : Z;
  s_now_ms : Z;
  s_state_since_ms : Z;
  s_cause_clear_ms : Z;
  s_init_start_ms : Z;
  s_rejected_events : Z;
  s_transitions : Z
}.

Definition set_s_state (v : gov_state_t) (r : gov_safety_t) : gov_safety_t :=
  {| s_state := v; s_faults := r.(s_faults); s_sticky := r.(s_sticky);
     s_now_ms := r.(s_now_ms); s_state_since_ms := r.(s_state_since_ms);
     s_cause_clear_ms := r.(s_cause_clear_ms); s_init_start_ms := r.(s_init_start_ms);
     s_rejected_events := r.(s_rejected_events); s_transitions := r.(s_transitions) |}.
Definition set_s_faults (v : Z) (r : gov_safety_t) : gov_safety_t :=
  {| s_state := r.(s_state); s_faults := v; s_sticky := r.(s_sticky); s_now_ms := r.(s_now_ms);
     s_state_since_ms := r.(s_state_since_ms); s_cause_clear_ms := r.(s_cause_clear_ms);
     s_init_start_ms := r.(s_init_start_ms); s_rejected_events := r.(s_rejected_events);
     s_transitions := r.(s_transitions) |}.
Definition set_s_sticky (v : Z) (r : gov_safety_t) : gov_safety_t :=
  {| s_state := r.(s_state); s_faults := r.(s_faults); s_sticky := v; s_now_ms := r.(s_now_ms);
     s_state_since_ms := r.(s_state_since_ms); s_cause_clear_ms := r.(s_cause_clear_ms);
     s_init_start_ms := r.(s_init_start_ms); s_rejected_events := r.(s_rejected_events);
     s_transitions := r.(s_transitions) |}.
Definition set_s_now_ms (v : Z) (r : gov_safety_t) : gov_safety_t :=
  {| s_state := r.(s_state); s_faults := r.(s_faults); s_sticky := r.(s_sticky); s_now_ms := v;
     s_state_since_ms := r.(s_state_since_ms); s_cause_clear_ms := r.(s_cause_clear_ms);
     s_init_start_ms := r.(s_init_start_ms); s_rejected_events := r.(s_rejected_events);
     s_transitions := r.(s_transitions) |}.
Definition set_s_state_since_ms (v : Z) (r : gov_safety_t) : gov_safety_t :=
  {| s_state := r.(s_state); s_faults := r.(s_faults); s_sticky := r.(s_sticky);
     s_now_ms := r.(s_now_ms); s_state_since_ms := v; s_cause_clear_ms := r.(s_cause_clear_ms);
     s_init_start_ms := r.(s_init_start_ms); s_rejected_events := r.(s_rejected_events);
     s_transitions := r.(s_transitions) |}.
Definition set_s_cause_clear_ms (v : Z) (r : gov_safety_t) : gov_safety_t :=
  {| s_state := r.(s_state); s_faults := r.(s_faults); s_sticky := r.(s_sticky);
     s_now_ms := r.(s_now_ms); s_state_since_ms := r.(s_state_since_ms); s_cause_clear_ms := v;
     s_init_start_ms := r.(s_init_start_ms); s_rejected_events := r.(s_rejected_events);
     s_transitions := r.(s_transitions) |}.
Definition set_s_init_start_ms (v : Z) (r : gov_safety_t) : gov_safety_t :=
  {| s_state := r.(s_state); s_faults := r.(s_faults); s_sticky := r.(s_sticky);
     s_now_ms := r.(s_now_ms); s_state_since_ms := r.(s_state_since_ms);
     s_cause_clear_ms := r.(s_cause_clear_ms); s_init_start_ms := v;
     s_rejected_events := r.(s_rejected_events); s_transitions := r.(s_transitions) |}.
Definition set_s_rejected_events (v : Z) (r : gov_safety_t) : gov_safety_t :=
  {| s_state := r.(s_state); s_faults := r.(s_faults); s_sticky := r.(s_sticky);
     s_now_ms := r.(s_now_ms); s_state_since_ms := r.(s_state_since_ms);
     s_cause_clear_ms := r.(s_cause_clear_ms); s_init_start_ms := r.(s_init_start_ms);
     s_rejected_events := v; s_transitions := r.(s_transitions) |}.
Definition set_s_transitions (v : Z) (r : gov_safety_t) : gov_safety_t :=
  {| s_state := r.(s_state); s_faults := r.(s_faults); s_sticky := r.(s_sticky);
     s_now_ms := r.(s_now_ms); s_state_since_ms := r.(s_state_since_ms);
     s_cause_clear_ms := r.(s_cause_clear_ms); s_init_start_ms := r.(s_init_start_ms);
     s_rejected_events := r.(s_rejected_events); s_transitions := v |}.

(** ** Operations *)
Definition enter (next : gov_state_t) (now : Z) (s : gov_safety_t) : gov_safety_t :=
  let s := set_s_state next s in
  let s := set_s_state_since_ms now s in
  let s := set_s_transitions (u32 (s.(s_transitions) + 1)) s in
  match next with GOV_ST_DEGRADED => s | _ => set_s_cause_clear_ms 0 s end.

#[global] Arguments enter : simpl never.

Definition to_safe_stop (flag now : Z) (s : gov_safety_t) : gov_safety_t :=
  enter GOV_ST_SAFE_STOP now (set_s_faults (s.(s_faults) .| flag) s).

Definition to_fault_halt (now : Z) (s : gov_safety_t) : gov_safety_t :=
  enter GOV_ST_FAULT_HALT now (set_s_faults (s.(s_faults) .| GOV_FAULT_INTERNAL) s).

(** The object [gov_safety_init_sticky] writes; no field of the old object is read. *)
Definition safety_init_sticky (sticky : Z) : gov_safety_t :=
  let sticky := sticky .& GOV_FAULT_WATCHDOG in
  {| s_state := GOV_ST_INIT; s_faults := sticky; s_sticky := sticky; s_now_ms := 0;
     s_state_since_ms := 0; s_cause_clear_ms := 0; s_init_start_ms := 0;
     s_rejected_events := 0; s_transitions := 0 |}.

Definition gov_safety_init_sticky (s : option gov_safety_t) (sticky : Z) : option gov_safety_t :=
  match s with None => None | Some _ => Some (safety_init_sticky sticky) end.

Definition gov_safety_init (s : option gov_safety_t) : option gov_safety_t :=
  gov_safety_init_sticky s GOV_FAULT_NONE.

Definition reject (s : gov_safety_t) : gov_safety_t :=
  set_s_rejected_events (u32 (s.(s_rejected_events) + 1)) s.

Definition service_timers (now : Z) (s : gov_safety_t) : gov_safety_t :=
  match s.(s_state) with
  | GOV_ST_INIT =>
      if GOV_INIT_TIMEOUT_MS <=? u32 (now - s.(s_init_start_ms))
      then to_safe_stop GOV_FAULT_INIT now s else s
  | GOV_ST_DEGRADED =>
      if GOV_DEGRADE_MAX_MS <=? u32 (now - s.(s_state_since_ms))
      then to_safe_stop GOV_FAULT_ESCALATED now s
      else if negb (s.(s_cause_clear_ms) =? 0) && (GOV_RECOVER_MS <=? u32 (now - s.(s_cause_clear_ms)))
      then enter GOV_ST_RUN now (set_s_faults (s.(s_faults) .& (GOV_FAULT_WATCHDOG .| s.(s_sticky))) s)
      else s
  | _ => s
  end.

(** The [switch (s->state)] of [gov_safety_step], one definition per case. *)
Definition step_init (ev : gov_event_t) (now : Z) (s : gov_safety_t) : gov_safety_t :=
  match ev with
  | GOV_EV_POWER_ON => set_s_state_since_ms now (set_s_init_start_ms now s)
  | GOV_EV_SELFTEST_OK => enter GOV_ST_RUN now s
  | GOV_EV_SELFTEST_FAIL => to_safe_stop GOV_FAULT_INIT now s
  | GOV_EV_TICK => s
  | _ => reject s
  end.

Definition step_run (ev : gov_event_t) (now : Z) (s : gov_safety_t) : gov_safety_t :=
  match ev with
  | GOV_EV_SENSOR_FAULT => enter GOV_ST_DEGRADED now (set_s_faults (s.(s_faults) .| GOV_FAULT_SENSOR_ACTIVE) s)
  | GOV_EV_LINK_FAULT => enter GOV_ST_DEGRADED now (set_s_faults (s.(s_faults) .| GOV_FAULT_LINK) s)
  | GOV_EV_DEADLINE_MISS => enter GOV_ST_DEGRADED now (set_s_faults (s.(s_faults) .| GOV_FAULT_TIMING) s)
  | GOV_EV_DIVERGE => to_safe_stop GOV_FAULT_DIVERGE now s
  | GOV_EV_TICK => s
  | _ => reject s
  end.

Definition step_degraded (ev : gov_event_t) (now : Z) (s : gov_safety_t) : gov_safety_t :=
  match ev with
  | GOV_EV_CAUSE_CLEARED => if s.(s_cause_clear_ms) =? 0 then set_s_cause_clear_ms now s else s
  | GOV_EV_LINK_FAULT =>
      let s := set_s_cause_clear_ms 0 s in set_s_faults (s.(s_faults) .| GOV_FAULT_LINK) s
  | GOV_EV_DEADLINE_MISS =>
      let s := set_s_cause_clear_ms 0 s in set_s_faults (s.(s_faults) .| GOV_FAULT_TIMING) s
  | GOV_EV_SENSOR_FAULT =>
      let s := set_s_cause_clear_ms 0 s in set_s_faults (s.(s_faults) .| GOV_FAULT_SENSOR_ACTIVE) s
  | GOV_EV_SECOND_FAULT => to_safe_stop GOV_FAULT_ESCALATED now s
  | GOV_EV_DIVERGE => to_safe_stop GOV_FAULT_DIVERGE now s
  | GOV_EV_TICK => s
  | _ => reject s
  end.

Definition step_safe_stop (ev : gov_event_t) (now : Z) (s : gov_safety_t) : gov_safety_t :=
  match ev with
  | GOV_EV_OPERATOR_CLEAR =>
      enter GOV_ST_INIT now (set_s_init_start_ms now (set_s_faults s.(s_sticky) s))
  | GOV_EV_TICK => s
  | _ => reject s
  end.

Definition step_fault_halt (ev : gov_event_t) (s : gov_safety_t) : gov_safety_t :=
  if decide (ev = GOV_EV_TICK) then s else reject s.

(** The [switch (s->state)] itself, followed by [service_timers] unless it returns early. *)
Definition dispatch (ev : gov_event_t) (now : Z) (s : gov_safety_t) : gov_safety_t :=
  match s.(s_state) with
  | GOV_ST_INIT => service_timers now (step_init ev now s)
  | GOV_ST_RUN => service_timers now (step_run ev now s)
  | GOV_ST_DEGRADED => service_timers now (step_degraded ev now s)
  | GOV_ST_SAFE_STOP => service_timers now (step_safe_stop ev now s)
  | GOV_ST_FAULT_HALT => service_timers now (step_fault_halt ev s)
  | GOV_ST_COUNT => to_fault_halt now s
  end.

(** The body of [gov_safety_step] after the NULL guard. *)
Definition safety_step (ev : gov_event_t) (now : Z) (s : gov_safety_t) : gov_safety_t :=
  if now <? s.(s_now_ms) then to_fault_halt s.(s_now_ms) s
  else
    let s := set_s_now_ms now s in
    if decide (ev = GOV_EV_INTERNAL_VIOLATION) then to_fault_halt now s
    else if decide (ev = GOV_EV_WATCHDOG) then
      let s := set_s_sticky (s.(s_sticky) .| GOV_FAULT_WATCHDOG) s in
      let s := set_s_faults (s.(s_faults) .| GOV_FAULT_WATCHDOG) s in
      let s := set_s_init_start_ms now s in
      enter GOV_ST_INIT now s
    else if decide (ev = GOV_EV_OPERATOR_STOP /\
                    (s.(s_state) = GOV_ST_RUN \/ s.(s_state) = GOV_ST_DEGRADED \/
                     s.(s_state) = GOV_ST_INIT))
    then to_safe_stop GOV_FAULT_OPERATOR_STOP now s
    else
      dispatch ev now s.

(** The API functions, on a possibly NULL pointer. *)
Definition gov_safety_step (s : option gov_safety_t) (ev : gov_event_t) (now : Z)
    : option gov_safety_t * gov_state_t :=
  match s with
  | None => (None, GOV_ST_FAULT_HALT)
  | Some s => let s := safety_step ev now s in (Some s, s.(s_state))
  end.

Definition gov_safety_actuation_allowed (s : option gov_safety_t) : bool :=
  match s with
  | None => false
  | Some s => bool_decide (s.(s_state) = GOV_ST_RUN) || bool_decide (s.(s_state) = GOV_ST_DEGRADED)
  end.

(** Signed division in C truncates towards zero ([Z.quot]); the [int32_t] arithmetic is the
    mathematical one where it does not overflow, and undefined ([None]) where it does. *)
Definition checked_i32 (z : Z) : option Z := if bool_decide (is_i32 z) then Some z else None.

Definition clamp_output (st : gov_state_t) (desired : Z) : option Z :=
  match st with
  | GOV_ST_RUN => Some desired
  | GOV_ST_DEGRADED =>
      span ← checked_i32 (desired - GOV_SAFE_OUTPUT);
      scaled ← checked_i32 (span * GOV_DEGRADED_CLAMP_NUM);
      limited ← checked_i32 (Z.quot scaled GOV_DEGRADED_CLAMP_DEN);
      checked_i32 (GOV_SAFE_OUTPUT + limited)
  | _ => Some GOV_SAFE_OUTPUT
  end.

Definition gov_safety_clamp_output (s : option gov_safety_t) (desired : Z) : option Z :=
  match s with
  | None => Some GOV_SAFE_OUTPUT
  | Some s => clamp_output s.(s_state) desired
  end.

Definition gov_safety_fault_flags (s : option gov_safety_t) : Z :=
  match s with None => GOV_FAULT_INTERNAL | Some s => s.(s_faults) end.

Definition gov_safety_state (s : option gov_safety_t) : gov_state_t :=
  match s with None => GOV_ST_FAULT_HALT | Some s => s.(s_state) end.

Definition gov_safety_state_name (st : gov_state_t) : string :=
  match st with
  | GOV_ST_INIT => "INIT"
  | GOV_ST_RUN => "RUN"
  | GOV_ST_DEGRADED => "DEGRADED"
  | GOV_ST_SAFE_STOP => "SAFE_STOP"
  | GOV_ST_FAULT_HALT => "FAULT_HALT"
  | GOV_ST_COUNT => "?"
  end.

(** ** The invariant *)

(** Field ranges and the links between fields. *)
Record safety_ok (s : gov_safety_t) : Prop := {
  ok_state : s.(s_state) <> GOV_ST_COUNT;
  ok_now : is_u32 s.(s_now_ms);
  ok_since : 0 <= s.(s_state_since_ms) <= s.(s_now_ms);
  ok_clear : 0 <= s.(s_cause_clear_ms) <= s.(s_now_ms);
  ok_init : 0 <= s.(s_init_start_ms) <= s.(s_now_ms);
  ok_rejected : is_u32 s.(s_rejected_events);
  ok_transitions : is_u32 s.(s_transitions);
  ok_dwell : s.(s_cause_clear_ms) <> 0 -> s.(s_state) = GOV_ST_DEGRADED;
  ok_faults_nonneg : 0 <= s.(s_faults);
  ok_faults : within s.(s_faults) GOV_FAULT_ALL;
  ok_sticky : s.(s_sticky) = 0 \/ s.(s_sticky) = GOV_FAULT_WATCHDOG;
  ok_sticky_visible : has s.(s_faults) s.(s_sticky)
}.

(** No timed state outlives its bound. *)
Record timers_ok (s : gov_safety_t) : Prop := {
  ok_init_timeout : s.(s_state) = GOV_ST_INIT ->
    s.(s_now_ms) - s.(s_init_start_ms) < GOV_INIT_TIMEOUT_MS;
  ok_degrade_max : s.(s_state) = GOV_ST_DEGRADED ->
    s.(s_now_ms) - s.(s_state_since_ms) < GOV_DEGRADE_MAX_MS;
  ok_recover : s.(s_cause_clear_ms) <> 0 ->
    s.(s_now_ms) - s.(s_cause_clear_ms) < GOV_RECOVER_MS
}.

Definition safety_inv (s : gov_safety_t) : Prop := safety_ok s /\ timers_ok s.

(** ** The transition table (docs/SAFETY_SM.md, section 3) *)

(** A recoverable fault event while degraded cancels the recovery dwell. *)
Definition reasserts (ev : gov_event_t) : bool :=
  match ev with
  | GOV_EV_SENSOR_FAULT | GOV_EV_LINK_FAULT | GOV_EV_DEADLINE_MISS => true
  | _ => false
  end.

(** The fault events. *)
Definition fault_event (ev : gov_event_t) : bool :=
  match ev with
  | GOV_EV_SELFTEST_FAIL | GOV_EV_SENSOR_FAULT | GOV_EV_LINK_FAULT | GOV_EV_DIVERGE | GOV_EV_SECOND_FAULT
  | GOV_EV_DEADLINE_MISS => true
  | _ => false
  end.

(** The events for which the table has a row in the state, T10 in DEGRADED being a row that leads back; T0 is
    for INIT and [GOV_EV_CAUSE_CLEARED] starts the dwell of T6. *)
Definition listed (st : gov_state_t) (ev : gov_event_t) : bool :=
  match st, ev with
  | _, (GOV_EV_INTERNAL_VIOLATION | GOV_EV_WATCHDOG) => true
  | GOV_ST_INIT, (GOV_EV_POWER_ON | GOV_EV_SELFTEST_OK | GOV_EV_SELFTEST_FAIL | GOV_EV_OPERATOR_STOP) => true
  | GOV_ST_RUN, (GOV_EV_SENSOR_FAULT | GOV_EV_LINK_FAULT | GOV_EV_DIVERGE | GOV_EV_DEADLINE_MISS | GOV_EV_OPERATOR_STOP) => true
  | GOV_ST_DEGRADED, (GOV_EV_CAUSE_CLEARED | GOV_EV_SECOND_FAULT | GOV_EV_DEADLINE_MISS | GOV_EV_OPERATOR_STOP) => true
  | GOV_ST_SAFE_STOP, GOV_EV_OPERATOR_CLEAR => true
  | _, _ => false
  end.

(** Where the code does what the table says.  [clear] tells whether the underlying cause reads clear, which the machine
    cannot see: T9 asks for it and the code does not.  Outside as well: T11, which the code collapses into a
    reset of the machine itself; a self-test that succeeds after the timeout has passed; and a fault event
    without a row for the state, which section 3 treats as T12 where it should have matched. *)
Definition in_table (clear : bool) (s : gov_safety_t) (now : Z) (ev : gov_event_t) : Prop :=
  ev <> GOV_EV_WATCHDOG /\
  (s.(s_state) = GOV_ST_SAFE_STOP -> ev = GOV_EV_OPERATOR_CLEAR -> clear = true) /\
  (s.(s_state) = GOV_ST_INIT -> ev = GOV_EV_SELFTEST_OK -> now - s.(s_init_start_ms) < GOV_INIT_TIMEOUT_MS) /\
  (fault_event ev = true -> listed s.(s_state) ev = true).

(** An event that leaves the decision to the timeouts. *)
Definition waits (st : gov_state_t) (ev : gov_event_t) : bool :=
  match st, ev with
  | GOV_ST_DEGRADED, (GOV_EV_CAUSE_CLEARED | GOV_EV_DEADLINE_MISS) => true
  | _, _ => negb (listed st ev)
  end.

(** What T10 flags when the machine is already degraded. *)
Definition raised (st : gov_state_t) (ev : gov_event_t) : Z :=
  match st, ev with GOV_ST_DEGRADED, GOV_EV_DEADLINE_MISS => GOV_FAULT_TIMING | _, _ => GOV_FAULT_NONE end.

(** [row clear s now ev next faults]: a row of the table applies in [s] to the event [ev] at [now]; it leads to [next] with
    the fault word [faults].  A row that names no event is a timeout. *)
Inductive row (clear : bool) (s : gov_safety_t) (now : Z) : gov_event_t -> gov_state_t -> Z -> Prop :=
  | T1 : s.(s_state) = GOV_ST_INIT -> now - s.(s_init_start_ms) < GOV_INIT_TIMEOUT_MS ->
      row clear s now GOV_EV_SELFTEST_OK GOV_ST_RUN s.(s_faults)
  | T2 : s.(s_state) = GOV_ST_INIT ->
      row clear s now GOV_EV_SELFTEST_FAIL GOV_ST_SAFE_STOP (s.(s_faults) .| GOV_FAULT_INIT)
  | T2_timeout ev : s.(s_state) = GOV_ST_INIT -> waits GOV_ST_INIT ev = true ->
      GOV_INIT_TIMEOUT_MS <= now - s.(s_init_start_ms) ->
      row clear s now ev GOV_ST_SAFE_STOP (s.(s_faults) .| GOV_FAULT_INIT)
  | T3 : s.(s_state) = GOV_ST_RUN ->
      row clear s now GOV_EV_SENSOR_FAULT GOV_ST_DEGRADED (s.(s_faults) .| GOV_FAULT_SENSOR_ACTIVE)
  | T4 : s.(s_state) = GOV_ST_RUN -> row clear s now GOV_EV_LINK_FAULT GOV_ST_DEGRADED (s.(s_faults) .| GOV_FAULT_LINK)
  | T5 : s.(s_state) = GOV_ST_RUN -> row clear s now GOV_EV_DIVERGE GOV_ST_SAFE_STOP (s.(s_faults) .| GOV_FAULT_DIVERGE)
  | T6 ev : s.(s_state) = GOV_ST_DEGRADED -> waits GOV_ST_DEGRADED ev = true -> ev <> GOV_EV_DEADLINE_MISS ->
      s.(s_cause_clear_ms) <> 0 -> GOV_RECOVER_MS <= now - s.(s_cause_clear_ms) ->
      now - s.(s_state_since_ms) < GOV_DEGRADE_MAX_MS ->
      row clear s now ev GOV_ST_RUN (s.(s_faults) .& (GOV_FAULT_WATCHDOG .| s.(s_sticky)))
  | T7 : s.(s_state) = GOV_ST_DEGRADED ->
      row clear s now GOV_EV_SECOND_FAULT GOV_ST_SAFE_STOP (s.(s_faults) .| GOV_FAULT_ESCALATED)
  | T7_timeout ev : s.(s_state) = GOV_ST_DEGRADED -> waits GOV_ST_DEGRADED ev = true ->
      GOV_DEGRADE_MAX_MS <= now - s.(s_state_since_ms) ->
      row clear s now ev GOV_ST_SAFE_STOP (s.(s_faults) .| raised GOV_ST_DEGRADED ev .| GOV_FAULT_ESCALATED)
  | T8 : s.(s_state) = GOV_ST_INIT \/ s.(s_state) = GOV_ST_RUN \/ s.(s_state) = GOV_ST_DEGRADED ->
      row clear s now GOV_EV_OPERATOR_STOP GOV_ST_SAFE_STOP (s.(s_faults) .| GOV_FAULT_OPERATOR_STOP)
  | T9 : s.(s_state) = GOV_ST_SAFE_STOP -> clear = true -> row clear s now GOV_EV_OPERATOR_CLEAR GOV_ST_INIT s.(s_sticky)
  | T10 : s.(s_state) = GOV_ST_RUN ->
      row clear s now GOV_EV_DEADLINE_MISS GOV_ST_DEGRADED (s.(s_faults) .| GOV_FAULT_TIMING)
  | T12 : row clear s now GOV_EV_INTERNAL_VIOLATION GOV_ST_FAULT_HALT (s.(s_faults) .| GOV_FAULT_INTERNAL).

(** An event the state has no row for is counted, a tick and T0 apart. *)
Definition counted (s : gov_safety_t) (ev : gov_event_t) : Z :=
  if listed s.(s_state) ev || bool_decide (ev = GOV_EV_TICK) then s.(s_rejected_events) else u32 (s.(s_rejected_events) + 1).

(** The object after a row: one transition more, entered now, and no dwell; T9 starts the clock of bring-up. *)
Definition entered (ev : gov_event_t) (now : Z) (s : gov_safety_t) (next : gov_state_t) (faults : Z) : gov_safety_t :=
  {| s_state := next; s_faults := faults; s_sticky := s.(s_sticky); s_now_ms := now; s_state_since_ms := now;
     s_cause_clear_ms := 0; s_init_start_ms := if bool_decide (next = GOV_ST_INIT) then now else s.(s_init_start_ms);
     s_rejected_events := counted s ev;
     s_transitions := u32 (s.(s_transitions) + 1) |}.

(** The object when no row applies: POWER_ON restarts the clock of INIT, CAUSE_CLEARED starts the dwell unless it
    is running, T10 in DEGRADED flags and cancels the dwell; nothing else but the time and the counter changes. *)
Definition stayed (ev : gov_event_t) (now : Z) (s : gov_safety_t) : gov_safety_t :=
  let restart := bool_decide (s.(s_state) = GOV_ST_INIT /\ ev = GOV_EV_POWER_ON) in
  {| s_state := s.(s_state); s_faults := s.(s_faults) .| raised s.(s_state) ev; s_sticky := s.(s_sticky); s_now_ms := now;
     s_state_since_ms := if restart then now else s.(s_state_since_ms);
     s_cause_clear_ms :=
       match s.(s_state), ev with
       | GOV_ST_DEGRADED, GOV_EV_CAUSE_CLEARED => if s.(s_cause_clear_ms) =? 0 then now else s.(s_cause_clear_ms)
       | GOV_ST_DEGRADED, GOV_EV_DEADLINE_MISS => 0
       | _, _ => s.(s_cause_clear_ms)
       end;
     s_init_start_ms := if restart then now else s.(s_init_start_ms);
     s_rejected_events := counted s ev; s_transitions := s.(s_transitions) |}.

(** Time that goes backwards is the machine's own invariant violation (T12). *)
Definition time_reversed (s : gov_safety_t) : gov_safety_t :=
  {| s_state := GOV_ST_FAULT_HALT; s_faults := s.(s_faults) .| GOV_FAULT_INTERNAL; s_sticky := s.(s_sticky);
     s_now_ms := s.(s_now_ms); s_state_since_ms := s.(s_now_ms); s_cause_clear_ms := 0; s_init_start_ms := s.(s_init_start_ms);
     s_rejected_events := s.(s_rejected_events); s_transitions := u32 (s.(s_transitions) + 1) |}.

(** What the table makes of an event, to the last field. *)
Definition outcome (clear : bool) (ev : gov_event_t) (now : Z) (s s' : gov_safety_t) : Prop :=
  if now <? s.(s_now_ms) then s' = time_reversed s
  else (exists next faults, row clear s now ev next faults /\ s' = entered ev now s next faults) \/
       ((forall next faults, ~ row clear s now ev next faults) /\ s' = stayed ev now s).

(** ** Reachability *)

(** One call of [gov_safety_step] at a [uint32_t] time; the object is born by
    [gov_safety_init_sticky]. *)
Definition sm_step (s s' : gov_safety_t) : Prop :=
  exists ev now, is_u32 now /\ s' = safety_step ev now s.

Definition sm_reachable (s : gov_safety_t) : Prop :=
  exists boot_flags, rtc sm_step (safety_init_sticky boot_flags) s.

(** A sequence of calls. *)
Fixpoint run_events (s : gov_safety_t) (evs : list (gov_event_t * Z)) : gov_safety_t :=
  match evs with
  | [] => s
  | (ev, now) :: evs => run_events (safety_step ev now s) evs
  end.

(** The times of a sequence of calls are [uint32_t] and do not go back before [t]. *)
Fixpoint monotone_from (t : Z) (evs : list (gov_event_t * Z)) : Prop :=
  match evs with
  | [] => True
  | (_, now) :: evs => t <= now /\ is_u32 now /\ monotone_from now evs
  end.

Definition safe_latched (s : gov_safety_t) : Prop :=
  s.(s_state) = GOV_ST_SAFE_STOP \/ s.(s_state) = GOV_ST_FAULT_HALT.

(** ** Preservation of the invariant *)
Create HintDb safety.
Create Rewrite HintDb safety.

Lemma u32_sub_le a b : 0 <= b <= a -> is_u32 a -> u32 (a - b) = a - b.
Proof. intros. apply u32_small. clia. Qed.

Lemma enter_state next now s : (enter next now s).(s_state) = next.
Proof. by destruct next. Qed.

Lemma enter_ok next now s :
  next <> GOV_ST_COUNT -> safety_ok s -> s.(s_now_ms) = now ->
  (next = GOV_ST_DEGRADED -> s.(s_cause_clear_ms) = 0) ->
  safety_ok (enter next now s).
Proof.
  intros Hn [] <- Hd. unfold enter. destruct next; split; cbn; auto with cint; try lia; done.
Qed.

Lemma set_faults_ok m s :
  safety_ok s -> 0 <= m -> within m GOV_FAULT_ALL -> has m s.(s_sticky) ->
  safety_ok (set_s_faults m s).
Proof. intros []. by split. Qed.

(** Raising a defined flag keeps the fault word well formed. *)
Lemma raise_ok f s :
  safety_ok s -> 0 <= f -> within f GOV_FAULT_ALL -> safety_ok (set_s_faults (s.(s_faults) .| f) s).
Proof.
  intros Hs Hf Hw. apply set_faults_ok; [done | | |].
  - apply Z.lor_nonneg. split; [apply Hs | done].
  - apply within_lor; [apply Hs | done].
  - apply has_lor_l, Hs.
Qed.

Lemma to_safe_stop_ok f now s :
  safety_ok s -> s.(s_now_ms) = now -> 0 <= f -> within f GOV_FAULT_ALL ->
  safety_ok (to_safe_stop f now s).
Proof. intros. apply enter_ok; [done | by apply raise_ok | done | done]. Qed.

Lemma to_fault_halt_ok now s : safety_ok s -> s.(s_now_ms) = now -> safety_ok (to_fault_halt now s).
Proof. intros. apply enter_ok; [done | by apply raise_ok | done | done]. Qed.

Lemma reject_ok s : safety_ok s -> safety_ok (reject s).
Proof. intros []. split; cbn; auto with cint. Qed.

(** Advancing the clock: every stamp stays in the past. *)
Lemma set_now_ok now s : safety_ok s -> s.(s_now_ms) <= now -> is_u32 now -> safety_ok (set_s_now_ms now s).
Proof. intros []. split; cbn; auto; lia. Qed.

#[export] Hint Resolve enter_ok raise_ok to_safe_stop_ok to_fault_halt_ok reject_ok set_now_ok : safety.

(** Recovery keeps the sticky bits and drops every other flag. *)
Lemma recover_faults_ok s :
  safety_ok s -> safety_ok (set_s_faults (s.(s_faults) .& (GOV_FAULT_WATCHDOG .| s.(s_sticky))) s).
Proof.
  intros Hs. apply set_faults_ok; [done | | |].
  - apply Z.land_nonneg. left. apply Hs.
  - apply within_land, Hs.
  - apply has_land; [apply Hs | apply has_lor_r].
Qed.

Lemma service_timers_ok now s :
  safety_ok s -> s.(s_now_ms) = now ->
  safety_ok (service_timers now s) /\ timers_ok (service_timers now s).
Proof.
  intros Hs <-. unfold service_timers.
  assert (Ht : s.(s_state) <> GOV_ST_INIT -> s.(s_state) <> GOV_ST_DEGRADED ->
               safety_ok s /\ timers_ok s).
  { intros. split; [done|]. split; [done..|]. intros Hc. by apply Hs in Hc. }
  destruct (s_state s) eqn:Est; try (apply Ht; done); clear Ht.
  all: rewrite !u32_sub_le by apply Hs.
  - destruct (Z.leb_spec GOV_INIT_TIMEOUT_MS (s_now_ms s - s_init_start_ms s)).
    + split; [by apply to_safe_stop_ok | by split].
    + split; [done|]. split; [done | by rewrite Est |]. intros Hc. apply Hs in Hc. congruence.
  - destruct (Z.leb_spec GOV_DEGRADE_MAX_MS (s_now_ms s - s_state_since_ms s)).
    { split; [by apply to_safe_stop_ok | by split]. }
    destruct (Z.eqb_spec (s_cause_clear_ms s) 0) as [E|E]; cbn.
    { split; [done|]. split; [by rewrite Est | done..]. }
    destruct (Z.leb_spec GOV_RECOVER_MS (s_now_ms s - s_cause_clear_ms s)).
    + split; [apply enter_ok; auto using recover_faults_ok; done | by split].
    + split; [done|]. split; [by rewrite Est | done..].
Qed.

Lemma step_init_ok ev now s :
  safety_ok s -> s.(s_state) = GOV_ST_INIT -> s.(s_now_ms) = now -> safety_ok (step_init ev now s).
Proof.
  intros Hs Est Hnow. destruct ev; cbn [step_init]; auto with safety; try by apply enter_ok.
  - destruct Hs. split; cbn; auto; lia.
  - by apply to_safe_stop_ok.
Qed.

Lemma no_dwell s : safety_ok s -> s.(s_state) <> GOV_ST_DEGRADED -> s.(s_cause_clear_ms) = 0.
Proof. intros Hs Hn. destruct (decide (s_cause_clear_ms s = 0)) as [|Hc]; [done|]. by apply Hs in Hc. Qed.

Lemma step_run_ok ev now s :
  safety_ok s -> s.(s_state) = GOV_ST_RUN -> s.(s_now_ms) = now -> safety_ok (step_run ev now s).
Proof.
  intros Hs Est Hnow. assert (s_cause_clear_ms s = 0) by (apply no_dwell; [done | by rewrite Est]).
  destruct ev; cbn [step_run]; auto with safety; try (by apply to_safe_stop_ok);
    (apply enter_ok; [done | by apply raise_ok | done | done]).
Qed.

Lemma cancel_dwell_ok s : safety_ok s -> safety_ok (set_s_cause_clear_ms 0 s).
Proof. intros []. split; cbn; auto; lia. Qed.

Lemma step_degraded_ok ev now s :
  safety_ok s -> s.(s_state) = GOV_ST_DEGRADED -> s.(s_now_ms) = now ->
  safety_ok (step_degraded ev now s).
Proof.
  intros Hs Est Hnow. pose proof (cancel_dwell_ok _ Hs) as Hc.
  destruct ev; cbn [step_degraded]; auto with safety;
    try (by apply to_safe_stop_ok); try (by apply (raise_ok _ _ Hc)).
  destruct (Z.eqb_spec (s_cause_clear_ms s) 0); [|done].
  destruct Hs. split; cbn; auto; lia.
Qed.

Lemma step_safe_stop_ok ev now s :
  safety_ok s -> s.(s_now_ms) = now -> safety_ok (step_safe_stop ev now s).
Proof.
  intros Hs Hnow. destruct ev; cbn [step_safe_stop]; auto with safety.
  apply enter_ok; [done | | done | done].
  pose proof (ok_sticky _ Hs) as Hst. destruct Hs. split; cbn; auto; try lia.
  - destruct Hst as [-> | ->]; [lia | done].
  - destruct Hst as [-> | ->]; done.
  - apply has_refl.
Qed.

Lemma step_fault_halt_ok ev s : safety_ok s -> safety_ok (step_fault_halt ev s).
Proof. intros. unfold step_fault_halt. destruct (decide _); auto with safety. Qed.

Lemma enter_init_start next now s : (enter next now s).(s_init_start_ms) = s.(s_init_start_ms).
Proof. by destruct next. Qed.

(** No event handler touches the clock. *)
Lemma enter_now next now s : (enter next now s).(s_now_ms) = s.(s_now_ms).
Proof. by destruct next. Qed.
Lemma step_init_now ev now s : (step_init ev now s).(s_now_ms) = s.(s_now_ms).
Proof. destruct ev; try done; apply enter_now. Qed.
Lemma step_run_now ev now s : (step_run ev now s).(s_now_ms) = s.(s_now_ms).
Proof. destruct ev; try done; apply enter_now. Qed.
Lemma step_degraded_now ev now s : (step_degraded ev now s).(s_now_ms) = s.(s_now_ms).
Proof. destruct ev; try done; try apply enter_now. cbn. by destruct (_ =? _). Qed.
Lemma step_safe_stop_now ev now s : (step_safe_stop ev now s).(s_now_ms) = s.(s_now_ms).
Proof. destruct ev; try done; apply enter_now. Qed.
Lemma step_fault_halt_now ev s : (step_fault_halt ev s).(s_now_ms) = s.(s_now_ms).
Proof. unfold step_fault_halt. by destruct (decide _). Qed.

(** Entering a state that carries no timer, or whose timer starts now, satisfies the timer
    bounds. *)
Lemma enter_timers next now s :
  safety_ok s -> s.(s_now_ms) = now -> next <> GOV_ST_DEGRADED ->
  (next = GOV_ST_INIT -> s.(s_init_start_ms) = now) -> timers_ok (enter next now s).
Proof.
  intros Hs <- Hd Hi. unfold enter. destruct next; split; cbn; try done.
  intros E. rewrite (Hi E). unfold GOV_INIT_TIMEOUT_MS. lia.
Qed.

Lemma safety_step_inv ev now s :
  safety_inv s -> is_u32 now -> safety_inv (safety_step ev now s).
Proof.
  intros [Hs Ht] Hnow. unfold safety_inv, safety_step.
  destruct (Z.ltb_spec now (s_now_ms s)) as [|Hle].
  { split; [by apply to_fault_halt_ok | by apply enter_timers; [apply raise_ok|..]]. }
  assert (Hn : safety_ok (set_s_now_ms now s)) by auto with safety.
  set (t := set_s_now_ms now s) in *. assert (s_now_ms t = now) as Hnt by done.
  clearbody t. clear Hs Ht Hle s.
  repeat case_decide.
  - split; [by apply to_fault_halt_ok | by apply enter_timers; [apply raise_ok|..]].
  - assert (Hw : safety_ok (set_s_init_start_ms now (set_s_faults (t.(s_faults) .| GOV_FAULT_WATCHDOG)
              (set_s_sticky (t.(s_sticky) .| GOV_FAULT_WATCHDOG) t)))).
    { pose proof (raise_ok GOV_FAULT_WATCHDOG _ Hn) as [];
        [done | vm_compute; done |]. split; cbn in *; auto; try lia.
      - right. destruct (ok_sticky _ Hn) as [-> | ->]; done.
      - destruct (ok_sticky _ Hn) as [-> | ->]; apply has_lor_r. }
    split; [by apply enter_ok | by apply enter_timers].
  - split; [by apply to_safe_stop_ok | by apply enter_timers; [apply raise_ok|..]].
  - unfold dispatch. destruct (s_state t) eqn:Est; try apply service_timers_ok; auto.
    all: try by (apply step_init_ok || apply step_run_ok || apply step_degraded_ok ||
                  apply step_safe_stop_ok || apply step_fault_halt_ok).
    all: try by rewrite ?step_init_now, ?step_run_now, ?step_degraded_now, ?step_safe_stop_now,
                        ?step_fault_halt_now.
    by destruct (ok_state _ Hn).
Qed.

(** ** Refinement of the transition table *)
(** Closes a step that takes the row [R], and one for which no row applies. *)
Ltac taken R := left; do 2 eexists; split; [apply R; cbn in *; solve [done | lia | tauto]|
  first [reflexivity | unfold entered, raised; cbn -[u32 Z.lor Z.land]; by rewrite ?Z.lor_0_r]].
Ltac not_taken :=
  right; split;
  [ intros ?? R; inversion R; cbn in *; solve [lia | congruence | intuition congruence]
  | unfold stayed, counted; cbn -[u32 Z.lor];
    try match goal with |- context [?c =? 0] => destruct (Z.eqb_spec c 0); try lia end; by rewrite ?Z.lor_0_r ].

(** Splits on the guards left over. *)
Ltac guards :=
  repeat (case_decide; try (exfalso; intuition congruence));
  repeat match goal with
  | |- context [?a <=? ?b] => destruct (Z.leb_spec a b)
  | |- context [?a =? ?b] => destruct (Z.eqb_spec a b)
  end; cbn [negb andb].

Ltac by_row :=
  guards; try (exfalso; lia); first
  [ taken T1 | taken T2 | taken T2_timeout | taken T3 | taken T4 | taken T5 | taken T6 | taken T7 | taken T7_timeout
  | taken T8 | taken T9 | taken T10 | taken T12 | not_taken ].

(** An event outside the table. *)
Ltac outside :=
  exfalso; match goal with
  | H : ?x <> ?x |- _ => by destruct H
  | H : true = true -> false = true |- _ => by specialize (H eq_refl)
  end.

(** One call at a time that does not go back. *)
Definition stepped (clear : bool) (ev : gov_event_t) (now : Z) (s : gov_safety_t) : Prop :=
  (exists next faults, row clear s now ev next faults /\ safety_step ev now s = entered ev now s next faults) \/
  ((forall next faults, ~ row clear s now ev next faults) /\ safety_step ev now s = stayed ev now s).

(** Runs the call on every event of the table, down to the guards of the timers. *)
Ltac start s ev :=
  intros [Hok _] Est Hle Hnow (Hw & Hc & H1 & Hf);
  destruct Hok as [_ Hn Hs Hd Hi _ _ Hdwell _ _ _ _];
  destruct s as [st f sk n since clr init rej tr]; cbn in *; subst;
  unfold stepped, safety_step; cbn [s_now_ms]; rewrite (proj2 (Z.ltb_ge _ _)) by done; destruct ev; cbn in *; try outside;
  try match goal with H : ?c <> 0 -> _ = GOV_ST_DEGRADED |- _ =>
    assert (c = 0) by (destruct (Z.eq_dec c 0) as [|E]; [done | discriminate (H E)]); subst c
  end;
  assert (0 < GOV_INIT_TIMEOUT_MS /\ 0 < GOV_RECOVER_MS /\ 0 < GOV_DEGRADE_MAX_MS) by done;
  cbn -[u32 Z.lor Z.land]; unfold dispatch, service_timers, to_safe_stop, to_fault_halt, enter, reject; cbn -[u32 Z.lor Z.land];
  try match goal with |- context [?c =? 0] => destruct (Z.eqb_spec c 0) end; cbn -[u32 Z.lor Z.land].

Lemma init_outcome clear ev now s :
  safety_inv s -> s.(s_state) = GOV_ST_INIT -> s.(s_now_ms) <= now -> is_u32 now -> in_table clear s now ev ->
  stepped clear ev now s.
Proof.
  start s ev. all: rewrite ?u32_sub_le by clia.
  all: by_row.
Qed.

Lemma run_outcome clear ev now s :
  safety_inv s -> s.(s_state) = GOV_ST_RUN -> s.(s_now_ms) <= now -> is_u32 now -> in_table clear s now ev ->
  stepped clear ev now s.
Proof.
  start s ev. all: rewrite ?u32_sub_le by clia.
  all: by_row.
Qed.

Lemma degraded_outcome clear ev now s :
  safety_inv s -> s.(s_state) = GOV_ST_DEGRADED -> s.(s_now_ms) <= now -> is_u32 now -> in_table clear s now ev ->
  stepped clear ev now s.
Proof.
  start s ev. all: rewrite ?u32_sub_le by clia.
  all: by_row.
Qed.

Lemma safe_stop_outcome clear ev now s :
  safety_inv s -> s.(s_state) = GOV_ST_SAFE_STOP -> s.(s_now_ms) <= now -> is_u32 now -> in_table clear s now ev ->
  stepped clear ev now s.
Proof.
  start s ev. all: rewrite ?u32_sub_le by clia.
  all: by_row.
Qed.

Lemma fault_halt_outcome clear ev now s :
  safety_inv s -> s.(s_state) = GOV_ST_FAULT_HALT -> s.(s_now_ms) <= now -> is_u32 now -> in_table clear s now ev ->
  stepped clear ev now s.
Proof.
  start s ev. all: rewrite ?u32_sub_le by clia.
  all: by_row.
Qed.

Lemma step_outcome clear ev now s :
  safety_inv s -> is_u32 now -> in_table clear s now ev -> outcome clear ev now s (safety_step ev now s).
Proof.
  intros Hi Hnow Hin. unfold outcome. destruct (Z.ltb_spec now (s_now_ms s)) as [Hlt|Hle].
  - unfold safety_step. by rewrite (proj2 (Z.ltb_lt _ _) Hlt).
  - destruct (s_state s) eqn:Est;
      try first [by apply init_outcome | by apply run_outcome | by apply degraded_outcome | by apply safe_stop_outcome
                | by apply fault_halt_outcome].
    by destruct (ok_state _ (proj1 Hi)).
Qed.

Lemma init_sticky_inv f : safety_inv (safety_init_sticky f).
Proof.
  assert (f .& GOV_FAULT_WATCHDOG = 0 \/ f .& GOV_FAULT_WATCHDOG = GOV_FAULT_WATCHDOG) as Hf.
  { destruct (Z.testbit f 8) eqn:E; [right | left]; apply Z.bits_inj; intros i;
      rewrite Z.land_spec; change GOV_FAULT_WATCHDOG with (2 ^ 8); rewrite Z.pow2_bits_eqb by lia;
      destruct (Z.eqb_spec 8 i) as [<-|]; rewrite ?E, ?andb_false_r, ?Z.bits_0; done. }
  split; [split; cbn; try done; auto | split; cbn; try done; lia].
  - destruct Hf as [-> | ->]; done.
  - destruct Hf as [-> | ->]; done.
  - apply has_refl.
Qed.

Lemma reachable_inv s : sm_reachable s -> safety_inv s.
Proof.
  intros [f Hr]. pose proof (init_sticky_inv f) as Hi. revert Hi.
  induction Hr as [|s1 s2 s3 (ev & now & Hnow & ->) _ IH]; [done|].
  intros Hi. by apply IH, safety_step_inv.
Qed.

(** C3: in every reachable state of the safety machine the fields are in range, only defined
    fault flags are raised, a sticky watchdog bit stays visible, and no bounded state has
    outlived its bound: INIT has lasted less than 2000 ms, DEGRADED less than 5000 ms, and a
    running recovery dwell less than 500 ms. *)
Theorem safety_reachable_invariant s : sm_reachable s -> safety_ok s /\ timers_ok s.
Proof. apply reachable_inv. Qed.

Lemma safety_reachable_invariant_witness :
  let s := safety_step GOV_EV_SENSOR_FAULT 20 (safety_step GOV_EV_SELFTEST_OK 10 (safety_init_sticky 0)) in
  s.(s_state) = GOV_ST_DEGRADED /\ safety_ok s /\ timers_ok s.
Proof.
  split; [reflexivity|]. apply safety_reachable_invariant. exists 0.
  eapply rtc_l; [exists GOV_EV_SELFTEST_OK, 10; split; [clia | reflexivity]|].
  eapply rtc_l; [exists GOV_EV_SENSOR_FAULT, 20; split; [clia | reflexivity]|].
  apply rtc_refl.
Defined.

(** C1: where the code means to follow the transition table of docs/SAFETY_SM.md, one call of [gov_safety_step] on a
    reachable state does exactly what the table says, to the last field of the object.  If a row applies, the
    machine goes to that row's state with that row's fault word, the entry stamped, one transition counted and no dwell
    left; if none applies, the state, the transition count and the flags are kept and only the stamps the document
    names move (T0 restarts the clock of INIT, CAUSE_CLEARED starts the dwell unless it runs, T10 while DEGRADED
    raises FAULT_TIMING and cancels it).  The rejected-event counter moves by one exactly when the state has no
    row for the event, a tick apart; time that goes backwards is T12.  The rows are T1-T10 and T12, the timeouts of
    T2, T6 and T7 included.  [in_table] leaves out the calls on which code and document disagree, which the
    findings list: an operator clear whose cause does not read clear (T9), a watchdog (T11), a self-test that succeeds
    after the INIT timeout (T1), and a fault event the state has no row for (section 3 treats it as T12 where it
    should have matched). *)
Theorem safety_step_refines_table clear ev now s :
  sm_reachable s -> is_u32 now -> in_table clear s now ev -> outcome clear ev now s (safety_step ev now s).
Proof. intros Hr Hnow. apply step_outcome; [by apply reachable_inv | done]. Qed.

Lemma reachable_boot f : sm_reachable (safety_init_sticky f).
Proof. exists f. apply rtc_refl. Qed.

Lemma reachable_step ev now s : sm_reachable s -> is_u32 now -> sm_reachable (safety_step ev now s).
Proof. intros [f Hr] Hn. exists f. eapply rtc_r; [done|]. by exists ev, now. Qed.

#[export] Hint Resolve reachable_boot reachable_step reachable_inv : safety.

Lemma safety_step_refines_table_witness :
  let s := safety_step GOV_EV_SELFTEST_OK 7 (safety_init_sticky 0) in
  let s' := safety_step GOV_EV_LINK_FAULT 9 s in
  in_table false s 9 GOV_EV_LINK_FAULT /\ s'.(s_state) = GOV_ST_DEGRADED /\ outcome false GOV_EV_LINK_FAULT 9 s s'.
Proof.
  assert (H : in_table false (safety_step GOV_EV_SELFTEST_OK 7 (safety_init_sticky 0)) 9 GOV_EV_LINK_FAULT)
    by (split_and!; done).
  split; [exact H|]. split; [reflexivity|].
  apply safety_step_refines_table; [apply reachable_step; [apply reachable_boot|]; clia | clia | exact H].
Defined.

(** ** Actuation authority *)

Lemma half_bounds z : is_i32 z ->
  is_i32 (Z.quot z 2) /\ Z.abs (2 * Z.quot z 2) <= Z.abs z /\ 0 <= z * Z.quot z 2.
Proof.
  intros Hz. pose proof (Z.quot_rem' z 2). pose proof (Z.rem_bound_abs z 2).
  pose proof (Z.rem_sign_mul z 2). unfold is_i32 in *. nia.
Qed.

(** The clamp never overflows; it passes the command through in RUN, halves it towards the
    safe value in DEGRADED (same sign, at most half the magnitude), and outputs the safe value
    in every state in which actuation is not allowed. *)
Theorem clamp_output_authority s desired :
  is_i32 desired ->
  exists out, gov_safety_clamp_output (Some s) desired = Some out /\ is_i32 out /\
    (gov_safety_actuation_allowed (Some s) = false -> out = GOV_SAFE_OUTPUT) /\
    (s.(s_state) = GOV_ST_RUN -> out = desired) /\
    (s.(s_state) = GOV_ST_DEGRADED -> Z.abs (2 * out) <= Z.abs desired /\ 0 <= desired * out).
Proof.
  intros Hd. unfold gov_safety_clamp_output, gov_safety_actuation_allowed, clamp_output.
  destruct (half_bounds _ Hd) as (Hh & Hm & Hp).
  destruct (s_state s); try (eexists; split; [done|]; split; [try done; clia|]; done).
  unfold checked_i32, GOV_SAFE_OUTPUT, GOV_DEGRADED_CLAMP_NUM, GOV_DEGRADED_CLAMP_DEN.
  rewrite Z.sub_0_r. rewrite (bool_decide_true (is_i32 desired)) by done. cbn.
  rewrite Z.mul_1_r. rewrite (bool_decide_true (is_i32 desired)) by done. cbn.
  rewrite !(bool_decide_true (is_i32 (Z.quot desired 2))) by done. cbn.
  rewrite Z.add_0_l. rewrite (bool_decide_true (is_i32 (Z.quot desired 2))) by done.
  eexists. split; [done|]. done.
Qed.

Lemma clamp_output_authority_witness :
  let s := set_s_state GOV_ST_DEGRADED (safety_init_sticky 0) in
  is_i32 (-75) /\ exists out, gov_safety_clamp_output (Some s) (-75) = Some out /\ is_i32 out /\
    (gov_safety_actuation_allowed (Some s) = false -> out = GOV_SAFE_OUTPUT) /\
    (s.(s_state) = GOV_ST_RUN -> out = -75) /\
    (s.(s_state) = GOV_ST_DEGRADED -> Z.abs (2 * out) <= Z.abs (-75) /\ 0 <= -75 * out).
Proof. split; [clia | apply clamp_output_authority; clia]. Defined.

(** ** Latching *)
Lemma step_latched ev now s :
  ev <> GOV_EV_OPERATOR_CLEAR -> ev <> GOV_EV_WATCHDOG -> safe_latched s ->
  safe_latched (safety_step ev now s) /\ has (safety_step ev now s).(s_faults) s.(s_faults) /\
  (s.(s_state) = GOV_ST_FAULT_HALT -> (safety_step ev now s).(s_state) = GOV_ST_FAULT_HALT).
Proof.
  intros Hc Hw Hl. unfold safety_step.
  destruct (now <? s_now_ms s).
  { split_and!; [by right | apply has_lor_l, has_refl | done]. }
  rewrite (decide_False (P := ev = GOV_EV_WATCHDOG)) by done. cbn.
  repeat case_decide.
  - split_and!; [by right | apply has_lor_l, has_refl | done].
  - destruct Hl as [E|E]; rewrite E in *; intuition congruence.
  - unfold dispatch; cbn.
    destruct Hl as [E|E]; rewrite E; unfold service_timers, step_fault_halt, safe_latched.
    + destruct ev; try congruence; cbn; rewrite E; cbn; rewrite E; split_and!; auto using has_refl.
    + case_decide; cbn; rewrite E; cbn; rewrite E; split_and!; auto using has_refl.
Qed.

Lemma safe_states_latch_run s evs :
  safe_latched s ->
  Forall (fun p => p.1 <> GOV_EV_OPERATOR_CLEAR /\ p.1 <> GOV_EV_WATCHDOG) evs ->
  let s' := run_events s evs in
  safe_latched s' /\ gov_safety_actuation_allowed (Some s') = false /\
  has s'.(s_faults) s.(s_faults) /\
  (s.(s_state) = GOV_ST_FAULT_HALT -> s'.(s_state) = GOV_ST_FAULT_HALT).
Proof.
  intros Hl Hevs. revert s Hl. induction Hevs as [|[ev now] evs [Hc Hw] _ IH]; intros s Hl; cbn.
  - split_and!; [done | by destruct Hl as [-> | ->] | apply has_refl | done].
  - destruct (step_latched ev now s Hc Hw Hl) as (Hl' & Hf & Hh).
    destruct (IH _ Hl') as (? & ? & Hf' & Hh'). split_and!; auto. by eapply has_trans.
Qed.

(** C4: the safe states latch.  From SAFE_STOP or FAULT_HALT, no sequence of calls of any length
    that contains neither an operator clear nor a watchdog reset, whatever the times passed,
    leaves the two safe states, re-enables the actuator or drops a raised fault flag; and
    FAULT_HALT stays FAULT_HALT. *)
Theorem safe_states_latch s evs :
  safe_latched s ->
  Forall (fun p => p.1 <> GOV_EV_OPERATOR_CLEAR /\ p.1 <> GOV_EV_WATCHDOG) evs ->
  let s' := run_events s evs in
  safe_latched s' /\ gov_safety_actuation_allowed (Some s') = false /\
  has s'.(s_faults) s.(s_faults) /\
  (s.(s_state) = GOV_ST_FAULT_HALT -> s'.(s_state) = GOV_ST_FAULT_HALT).
Proof. apply safe_states_latch_run. Qed.


Lemma safe_states_latch_witness :
  let s := safety_step GOV_EV_SELFTEST_FAIL 5 (safety_init_sticky 0) in
  let s' := run_events s [(GOV_EV_SELFTEST_OK, 6); (GOV_EV_TICK, 100000); (GOV_EV_TICK, 3)] in
  safe_latched s' /\ gov_safety_actuation_allowed (Some s') = false /\
  has s'.(s_faults) s.(s_faults) /\
  (s.(s_state) = GOV_ST_FAULT_HALT -> s'.(s_state) = GOV_ST_FAULT_HALT).
Proof.
  apply safe_states_latch; [by left|]. repeat constructor; done.
Defined.

(** ** Bounded stay in DEGRADED *)

(** The DEGRADED state while its cause persists: no recovery dwell runs. *)
Definition degraded_since (t0 : Z) (s : gov_safety_t) : Prop :=
  safety_inv s /\ s.(s_state) = GOV_ST_DEGRADED /\ s.(s_state_since_ms) = t0 /\
  s.(s_cause_clear_ms) = 0.

Definition persists (ev : gov_event_t) : bool := reasserts ev || bool_decide (ev = GOV_EV_TICK).

(** Events the step routes straight to the per-state switch. *)
Definition plain (ev : gov_event_t) : bool :=
  match ev with
  | GOV_EV_INTERNAL_VIOLATION | GOV_EV_WATCHDOG | GOV_EV_OPERATOR_STOP => false
  | _ => true
  end.

Lemma safety_step_plain ev now s :
  plain ev = true -> s.(s_now_ms) <= now ->
  safety_step ev now s = dispatch ev now (set_s_now_ms now s).
Proof.
  intros Hp Hle. unfold safety_step. rewrite (proj2 (Z.ltb_ge _ _) Hle).
  by destruct ev; try discriminate Hp.
Qed.

Lemma service_timers_now now s : (service_timers now s).(s_now_ms) = s.(s_now_ms).
Proof.
  unfold service_timers, to_safe_stop.
  destruct (s_state s); repeat case_match; by rewrite ?enter_now.
Qed.

#[export] Hint Rewrite enter_state enter_now service_timers_now step_init_now step_run_now
  step_degraded_now step_safe_stop_now step_fault_halt_now : safety.

Lemma safety_step_now ev now s : s.(s_now_ms) <= now -> (safety_step ev now s).(s_now_ms) = now.
Proof.
  intros Hle. unfold safety_step. rewrite (proj2 (Z.ltb_ge _ _) Hle). unfold dispatch, to_fault_halt, to_safe_stop.
  repeat case_decide; try by rewrite enter_now.
  destruct (s_state (set_s_now_ms now s)); by autorewrite with safety.
Qed.

Lemma step_degraded_persists t0 ev now s :
  degraded_since t0 s -> persists ev = true -> s.(s_now_ms) <= now -> is_u32 now ->
  (now < t0 + GOV_DEGRADE_MAX_MS -> degraded_since t0 (safety_step ev now s)) /\
  (t0 + GOV_DEGRADE_MAX_MS <= now ->
     let s' := safety_step ev now s in
     safe_latched s' /\ has s'.(s_faults) GOV_FAULT_ESCALATED).
Proof.
  intros (Hinv & Est & <- & Hc) Hp Hle Hnow.
  pose proof (safety_step_inv ev now s Hinv Hnow) as Hinv'. revert Hinv'. unfold degraded_since.
  rewrite safety_step_plain by (done || by destruct ev). unfold dispatch. cbn. rewrite Est.
  destruct Hinv as [[] _].
  destruct ev; try discriminate Hp; cbn; unfold service_timers; cbn; rewrite Est, ?Hc; cbn;
    rewrite u32_sub_le by clia;
    destruct (Z.leb_spec GOV_DEGRADE_MAX_MS (now - s_state_since_ms s)); cbn;
    intros Hinv'; (split; intros; [try lia | try lia]).
  all: try done.
  all: split; [by left | apply has_lor_r].
Qed.

(** A degraded condition cannot persist.  From a DEGRADED state entered at [t0] whose cause
    has not cleared, any sequence of fault re-assertions and ticks with monotone times that
    reaches [t0 + 5000] ms ends inhibited in a safe state with FAULT_ESCALATED raised; before
    that bound it is still DEGRADED, with the same entry stamp and no dwell running. *)
Theorem degraded_escalates s evs :
  sm_reachable s -> s.(s_state) = GOV_ST_DEGRADED -> s.(s_cause_clear_ms) = 0 ->
  Forall (fun p => persists p.1 = true) evs -> monotone_from s.(s_now_ms) evs ->
  let t0 := s.(s_state_since_ms) in
  let s' := run_events s evs in
  (Forall (fun p => p.2 < t0 + GOV_DEGRADE_MAX_MS) evs ->
     s'.(s_state) = GOV_ST_DEGRADED /\ s'.(s_state_since_ms) = t0 /\ s'.(s_cause_clear_ms) = 0) /\
  (Exists (fun p => t0 + GOV_DEGRADE_MAX_MS <= p.2) evs ->
     safe_latched s' /\ has s'.(s_faults) GOV_FAULT_ESCALATED).
Proof.
  intros Hr Est Hc Hev Hmono t0.
  assert (degraded_since t0 s) as Hd by (split_and!; auto with safety).
  clearbody t0. clear Hr Est Hc. revert s Hd Hmono.
  induction Hev as [|[ev now] evs Hp Hps IH]; intros s Hd Hmono; cbn in *.
  { split; [intros _; apply Hd | intros He; by apply Exists_nil in He]. }
  destruct Hmono as (Hle & Hnow & Hmono).
  destruct (step_degraded_persists t0 ev now s Hd Hp Hle Hnow) as [Hlow Hhigh].
  assert (Hn : s_now_ms (safety_step ev now s) = now) by by apply safety_step_now.
  destruct (Z.lt_ge_cases now (t0 + GOV_DEGRADE_MAX_MS)) as [Hlt|Hge].
  - rewrite <-Hn in Hmono. destruct (IH _ (Hlow Hlt) Hmono) as [IH1 IH2]. split.
    + intros Hf. apply IH1. by inversion Hf.
    + intros He. apply IH2. inversion He; [cbn in *; lia | done].
  - split; [intros Hf; inversion Hf; cbn in *; lia | intros _].
    destruct (Hhigh Hge) as [Hl Hf].
    destruct (safe_states_latch_run (safety_step ev now s) evs) as (? & _ & ? & _); [done | |].
    + eapply Forall_impl; [exact Hps|]. intros [[] ?]; done.
    + split; [done | by eapply has_trans].
Qed.

Lemma degraded_escalates_witness :
  let s := safety_step GOV_EV_LINK_FAULT 20 (safety_step GOV_EV_SELFTEST_OK 10 (safety_init_sticky 0)) in
  let evs := [(GOV_EV_TICK, 30); (GOV_EV_LINK_FAULT, 4000); (GOV_EV_TICK, 5020)] in
  let s' := run_events s evs in
  safe_latched s' /\ has s'.(s_faults) GOV_FAULT_ESCALATED.
Proof.
  refine (proj2 (degraded_escalates _ _ _ _ _ _ _) _).
  - apply reachable_step; [apply reachable_step; [apply reachable_boot|] |]; clia.
  - reflexivity.
  - reflexivity.
  - repeat constructor.
  - vm_compute. intuition discriminate.
  - apply Exists_cons_tl, Exists_cons_tl, Exists_cons_hd. vm_compute. discriminate.
Defined.

(** ** Recovery *)

Lemma step_recovering ev now s :
  safety_inv s -> s.(s_state) = GOV_ST_DEGRADED -> s.(s_cause_clear_ms) <> 0 ->
  ev = GOV_EV_TICK \/ ev = GOV_EV_CAUSE_CLEARED ->
  s.(s_now_ms) <= now -> is_u32 now -> now < s.(s_state_since_ms) + GOV_DEGRADE_MAX_MS ->
  safety_step ev now s =
    if s.(s_cause_clear_ms) + GOV_RECOVER_MS <=? now
    then enter GOV_ST_RUN now
           (set_s_faults (s.(s_faults) .& (GOV_FAULT_WATCHDOG .| s.(s_sticky))) (set_s_now_ms now s))
    else set_s_now_ms now s.
Proof.
  intros [[] _] Est Hc Hev Hle Hnow Hlt.
  rewrite safety_step_plain by (done || by destruct Hev as [-> | ->]).
  unfold dispatch. cbn. rewrite Est.
  assert (step_degraded ev now (set_s_now_ms now s) = set_s_now_ms now s) as ->.
  { destruct Hev as [-> | ->]; cbn; [done|]. by rewrite (proj2 (Z.eqb_neq _ _) Hc). }
  unfold service_timers. cbn. rewrite Est, !u32_sub_le by clia.
  rewrite (proj2 (Z.leb_gt GOV_DEGRADE_MAX_MS _)) by lia.
  rewrite (proj2 (Z.eqb_neq _ _) Hc). cbn.
  by destruct (Z.leb_spec GOV_RECOVER_MS (now - s_cause_clear_ms s)),
    (Z.leb_spec (s_cause_clear_ms s + GOV_RECOVER_MS) now); try lia.
Qed.

(** Once the cause has cleared at [c], the machine recovers by time alone and exactly on
    schedule.  Any calls that only tick (or repeat the clear) before [c + 500] ms keep DEGRADED
    with the flags still raised; the first one at or after it (and before the escalation bound)
    enters RUN, where actuation is allowed and every flag but the watchdog and sticky bits is
    cleared. *)
Theorem recovery_on_schedule s evs last :
  sm_reachable s -> s.(s_state) = GOV_ST_DEGRADED -> s.(s_cause_clear_ms) <> 0 ->
  Forall (fun p => (p.1 = GOV_EV_TICK \/ p.1 = GOV_EV_CAUSE_CLEARED) /\
                   p.2 < s.(s_cause_clear_ms) + GOV_RECOVER_MS) evs ->
  monotone_from s.(s_now_ms) (evs ++ [(GOV_EV_TICK, last)]) ->
  s.(s_cause_clear_ms) + GOV_RECOVER_MS <= last < s.(s_state_since_ms) + GOV_DEGRADE_MAX_MS ->
  let mid := run_events s evs in
  let s' := run_events s (evs ++ [(GOV_EV_TICK, last)]) in
  mid.(s_state) = GOV_ST_DEGRADED /\ mid.(s_faults) = s.(s_faults) /\
  s'.(s_state) = GOV_ST_RUN /\ s'.(s_cause_clear_ms) = 0 /\
  s'.(s_faults) = s.(s_faults) .& (GOV_FAULT_WATCHDOG .| s.(s_sticky)).
Proof.
  intros Hr%reachable_inv Est Hc Hevs Hmono Hlast. cbn zeta.
  revert s Hr Est Hc Hevs Hmono Hlast. induction evs as [|[ev now] evs IH]; intros s Hr Est Hc Hevs Hmono Hlast.
  { cbn in *. destruct Hmono as (? & ? & _).
    rewrite step_recovering by (auto; lia). rewrite (proj2 (Z.leb_le _ _)) by lia. done. }
  apply Forall_cons in Hevs as [[Hev Hlt] Hevs]. cbn in *. destruct Hmono as (Hle & Hnow & Hmono).
  assert (safety_step ev now s = set_s_now_ms now s) as E.
  { rewrite step_recovering by (auto; unfold GOV_RECOVER_MS in *; lia).
    by rewrite (proj2 (Z.leb_gt _ _)) by lia. }
  rewrite E. apply (IH (set_s_now_ms now s)); auto.
  rewrite <-E. by apply safety_step_inv.
Qed.

Lemma recovery_on_schedule_witness :
  let s := run_events (safety_init_sticky 0)
    [(GOV_EV_SELFTEST_OK, 10); (GOV_EV_SENSOR_FAULT, 20); (GOV_EV_CAUSE_CLEARED, 30)] in
  let s' := run_events s ([(GOV_EV_TICK, 40)] ++ [(GOV_EV_TICK, 530)]) in
  s'.(s_state) = GOV_ST_RUN.
Proof.
  refine (proj1 (proj2 (proj2 (recovery_on_schedule _ _ _ _ _ _ _ _ _)))).
  - cbn [run_events]. auto 10 using reachable_step, reachable_boot with cint.
    repeat (apply reachable_step; [|clia]). apply reachable_boot.
  - reflexivity.
  - vm_compute. discriminate.
  - repeat constructor; auto.
  - vm_compute. intuition discriminate.
  - vm_compute. intuition discriminate.
Defined.

(** ** No deadlock *)
Lemma state_after_selftest now s :
  s.(s_state) = GOV_ST_INIT -> s.(s_now_ms) <= now ->
  (safety_step GOV_EV_SELFTEST_OK now s).(s_state) = GOV_ST_RUN.
Proof.
  intros Est Hle. rewrite safety_step_plain by done. unfold dispatch. cbn. rewrite Est.
  unfold service_timers. by rewrite !enter_state.
Qed.

Lemma state_after_clear now s :
  s.(s_state) = GOV_ST_SAFE_STOP -> s.(s_now_ms) <= now ->
  (safety_step GOV_EV_OPERATOR_CLEAR now s).(s_state) = GOV_ST_INIT.
Proof.
  intros Est Hle. rewrite safety_step_plain by done. unfold dispatch. cbn. rewrite Est.
  unfold service_timers. rewrite enter_state, enter_init_start. cbn [s_init_start_ms set_s_init_start_ms]. rewrite Z.sub_diag. by apply enter_state.
Qed.

Lemma state_after_stop now s :
  s.(s_state) = GOV_ST_RUN \/ s.(s_state) = GOV_ST_DEGRADED \/ s.(s_state) = GOV_ST_INIT ->
  s.(s_now_ms) <= now -> (safety_step GOV_EV_OPERATOR_STOP now s).(s_state) = GOV_ST_SAFE_STOP.
Proof.
  intros Est Hle. unfold safety_step. rewrite (proj2 (Z.ltb_ge _ _) Hle). cbn.
  rewrite 2!decide_False by done. rewrite decide_True by (split; [done | exact Est]). by apply enter_state.
Qed.

Lemma state_after_watchdog now s :
  s.(s_now_ms) <= now -> (safety_step GOV_EV_WATCHDOG now s).(s_state) = GOV_ST_INIT.
Proof. intros Hle. unfold safety_step. rewrite (proj2 (Z.ltb_ge _ _) Hle). by apply enter_state. Qed.


(** Every reachable state has a way back to RUN: some sequence of at most four calls, at the
    current time, re-enables actuation.  From FAULT_HALT it starts with the watchdog reset; from
    SAFE_STOP with the operator clear, which re-runs bring-up (INIT) and never goes to RUN
    directly. *)
Theorem no_deadlock s :
  sm_reachable s ->
  (exists evs, (length evs <= 4)%nat /\ Forall (fun p => p.2 = s.(s_now_ms)) evs /\
     (run_events s evs).(s_state) = GOV_ST_RUN) /\
  (s.(s_state) = GOV_ST_SAFE_STOP -> forall ev now, (safety_step ev now s).(s_state) <> GOV_ST_RUN).
Proof.
  intros [[] _]%reachable_inv. set (now := s_now_ms s). split.
  - exists (match s.(s_state) with
            | GOV_ST_INIT => [(GOV_EV_SELFTEST_OK, now)]
            | GOV_ST_RUN => []
            | GOV_ST_DEGRADED =>
                [(GOV_EV_OPERATOR_STOP, now); (GOV_EV_OPERATOR_CLEAR, now); (GOV_EV_SELFTEST_OK, now)]
            | GOV_ST_SAFE_STOP => [(GOV_EV_OPERATOR_CLEAR, now); (GOV_EV_SELFTEST_OK, now)]
            | _ => [(GOV_EV_WATCHDOG, now); (GOV_EV_SELFTEST_OK, now)]
            end).
    assert (Hn : forall ev t, s_now_ms t = now -> s_now_ms (safety_step ev now t) = now).
    { intros ev t Ht. apply safety_step_now. lia. }
    destruct (s_state s) eqn:Est; cbn; split_and!; try lia; try (repeat constructor; done); try done;
      repeat first [ apply state_after_selftest | apply state_after_clear | apply state_after_stop
                   | apply state_after_watchdog ]; rewrite ?Hn; auto; lia.
  - intros Est ev t. unfold safety_step, dispatch. cbn. rewrite Est.
    destruct (t <? s_now_ms s); [by unfold to_fault_halt; rewrite enter_state|].
    repeat case_decide; unfold to_fault_halt, to_safe_stop; rewrite ?enter_state; try done.
    unfold service_timers.
    destruct ev; cbn; rewrite ?Est, ?enter_state; cbn; rewrite ?Est; try done.
    rewrite enter_init_start; cbn [s_init_start_ms set_s_init_start_ms]. rewrite Z.sub_diag.
    change (GOV_INIT_TIMEOUT_MS <=? u32 0) with false. cbv iota. by rewrite enter_state.
Qed.

Lemma no_deadlock_witness :
  let s := safety_step GOV_EV_SELFTEST_FAIL 5 (safety_init_sticky 0) in
  sm_reachable s /\ s.(s_state) = GOV_ST_SAFE_STOP /\
  exists evs, (length evs <= 4)%nat /\ Forall (fun p => p.2 = 5) evs /\
     (run_events s evs).(s_state) = GOV_ST_RUN.
Proof.
  assert (Hr : sm_reachable (safety_step GOV_EV_SELFTEST_FAIL 5 (safety_init_sticky 0)))
    by (apply reachable_step; [apply reachable_boot | clia]).
  split; [exact Hr|]. split; [reflexivity|]. exact (proj1 (no_deadlock _ Hr)).
Defined.

(** ** Time *)

Lemma time_reversal_halts s ev now :
  now < s.(s_now_ms) ->
  let s' := safety_step ev now s in
  s'.(s_state) = GOV_ST_FAULT_HALT /\ has s'.(s_faults) GOV_FAULT_INTERNAL /\
  s'.(s_now_ms) = s.(s_now_ms).
Proof.
  intros Hlt. cbn zeta. unfold safety_step. rewrite (proj2 (Z.ltb_lt _ _) Hlt).
  unfold to_fault_halt. rewrite enter_state, enter_now. split_and!; try done. apply has_lor_r.
Qed.

(** The machine does not survive the wrap of the 32-bit millisecond uptime.  When [d] ms of
    real time carry the counter past 2^32, the next call, whatever its event (a tick, an operator
    stop or a watchdog reset), reads the wrapped time as time going backwards and latches
    FAULT_HALT with FAULT_INTERNAL raised, and it keeps doing so until a reset. *)
Theorem uptime_wrap_halts s ev d :
  sm_reachable s -> 0 < d < 2 ^ 32 -> 2 ^ 32 <= s.(s_now_ms) + d ->
  let s' := safety_step ev (u32 (s.(s_now_ms) + d)) s in
  s'.(s_state) = GOV_ST_FAULT_HALT /\ has s'.(s_faults) GOV_FAULT_INTERNAL /\
  gov_safety_actuation_allowed (Some s') = false /\ s'.(s_now_ms) = s.(s_now_ms).
Proof.
  intros Hr%reachable_inv Hd Hwrap. destruct (ok_now _ (proj1 Hr)) as [Hlo Hhi].
  destruct (time_reversal_halts s ev (u32 (s_now_ms s + d))) as (Hs & Hf & Hn).
  { unfold u32. replace (s_now_ms s + d) with ((s_now_ms s + d - 2 ^ 32) + 1 * 2 ^ 32) by lia.
    rewrite Z.mod_add, Z.mod_small by lia. lia. }
  split_and!; try done. unfold gov_safety_actuation_allowed. by rewrite Hs.
Qed.

Lemma uptime_wrap_halts_witness :
  let s := run_events (safety_init_sticky 0)
    [(GOV_EV_SELFTEST_OK, 10); (GOV_EV_TICK, 2 ^ 32 - 4)] in
  s.(s_state) = GOV_ST_RUN /\
  (safety_step GOV_EV_TICK (u32 (s.(s_now_ms) + 10)) s).(s_state) = GOV_ST_FAULT_HALT.
Proof.
  split; [reflexivity|].
  refine (proj1 (uptime_wrap_halts _ _ _ _ _ _)).
  - repeat (apply reachable_step; [|clia]). apply reachable_boot.
  - lia.
  - vm_compute. discriminate.
Defined.

(** A fault event with no row for the current state is counted and dropped: it raises no flag
    and is not escalated to an internal violation. *)
Lemma unmatched_fault_is_only_counted :
  let s := safety_step GOV_EV_SELFTEST_OK 10 (safety_init_sticky 0) in
  let s' := safety_step GOV_EV_SECOND_FAULT 20 s in
  s.(s_state) = GOV_ST_RUN /\ s'.(s_state) = GOV_ST_RUN /\ s'.(s_faults) = 0 /\
  s'.(s_rejected_events) = 1.
Proof. split_and!; reflexivity. Qed.

(** A self-test that succeeds after the INIT timeout still enables actuation: the event is served before the
    timeout. *)
Lemma late_selftest_enters_run :
  let s := safety_init_sticky 0 in
  let s' := safety_step GOV_EV_SELFTEST_OK 5000 s in
  s.(s_init_start_ms) + GOV_INIT_TIMEOUT_MS <= 5000 /\ s'.(s_state) = GOV_ST_RUN.
Proof. split; [done | reflexivity]. Qed.
