(* ===== verification/Crc16.v ===== *)
(** * Crc16: CRC-16/CCITT-FALSE (lib/proto/crc16.h, lib/proto/crc16.c)

    The bit-serial routine of the source, its bit-level reading, its algebra (linear over GF(2),
    injective in the register), the polynomial division it implements, and the classes of
    transmission errors it detects. *)
From Stdlib Require Import Btauto.
From S2P Require Import Prelude.

(** ** The routine *)

(** One iteration of the inner loop. *)
Definition crc_bit (crc : Z) : Z :=
  if crc .& 0x8000 =? 0 then u16 (crc .<< 1)
  else u16 (u16 (crc .<< 1) .^ 0x1021).

(** One iteration of the outer loop: fold the next byte in, then eight bit steps. *)
Definition crc_byte (crc byte : Z) : Z :=
  Nat.iter 8 crc_bit (u16 (crc .^ u16 (byte .<< 8))).

(** [data] is the [len] bytes the C pointer designates. *)
Definition gov_crc16_ccitt (seed : Z) (data : list Z) : Z := fold_left crc_byte data seed.

Example crc_check_value :
  gov_crc16_ccitt 0xFFFF [0x31; 0x32; 0x33; 0x34; 0x35; 0x36; 0x37; 0x38; 0x39] = 0x29B1.
Proof. reflexivity. Qed.

(** ** The bit-level reading *)

(** Bits of a byte, most significant first: the order they enter the register. *)
Definition byte_bits (b : Z) : list bool := (fun i => Z.testbit b i) <$> [7; 6; 5; 4; 3; 2; 1; 0].
Definition bytes_bits (bs : list Z) : list bool := bs ≫= byte_bits.

Definition bit (b : bool) : Z := if b then 1 else 0.

(** The number a bit string denotes, most significant bit first. *)
Fixpoint bval (bs : list bool) : Z :=
  match bs with
  | [] => 0
  | b :: bs => bit b .<< Z.of_nat (length bs) + bval bs
  end.

Definition crc_feed_bit (crc : Z) (b : bool) : Z := crc_bit (crc .^ (bit b .<< 15)).
Definition crc_bits (crc : Z) (bs : list bool) : Z := fold_left crc_feed_bit bs crc.

(** Big-endian number of a byte string. *)
Definition be_val (bs : list Z) : Z := fold_left (fun v b => v * 2 ^ 8 + b) bs 0.

(** Carry-less product: multiplication of polynomials over GF(2). *)
Fixpoint clmul_pos (p : positive) (q : Z) : Z :=
  match p with
  | xH => q
  | xO p => clmul_pos p q .<< 1
  | xI p => q .^ (clmul_pos p q .<< 1)
  end.
Definition clmul (a q : Z) : Z := match a with Zpos p => clmul_pos p q | _ => 0 end.

(** x^16 + x^12 + x^5 + 1 *)
Definition CRC_POLY : Z := 0x11021.

(** The two CRC bytes as they are sent: [(uint8_t)((crc >> 8) & 0xFF)], [(uint8_t)(crc & 0xFF)]. *)
Definition be16 (v : Z) : list Z := [u8 ((v .>> 8) .& 0xFF); u8 (v .& 0xFF)].

(** Error patterns (the xor of what was sent and what was received) the CRC must detect. *)
Definition zeros (n : nat) : list bool := replicate n false.
Definition ones (e : list bool) : nat := length (filter (fun b => b = true) e).

Inductive detectable : list bool -> Prop :=
  | err_burst i b j : (length b <= 16)%nat -> true ∈ b -> detectable (zeros i ++ b ++ zeros j)
  | err_odd e : Nat.odd (ones e) = true -> detectable e
  | err_double i k j : (k < 4096)%nat ->
      detectable (zeros i ++ [true] ++ zeros k ++ [true] ++ zeros j).

Definition is_bytes (bs : list Z) : Prop := Forall is_u8 bs.

(** ** Algebra of the register *)

(** [is_bytes] of concatenations and of list displays. *)
Ltac solve_bytes :=
  unfold is_bytes in *;
  repeat first
    [ assumption
    | apply Forall_nil_2
    | apply Forall_app_2
    | apply Forall_cons_2; [solve [assumption | apply u8_range | clia | split; vm_compute; congruence] |]
    | apply Forall_take | apply Forall_drop ].
Create Rewrite HintDb bits.
Lemma u16_ones z : u16 z = Z.land z (Z.ones 16).
Proof. unfold u16. by rewrite Z.land_ones by lia. Qed.

Lemma u16_testbit z i : 0 <= i -> Z.testbit (u16 z) i = Z.testbit z i && (i <? 16).
Proof.
  intros Hi. unfold u16. destruct (Z.ltb_spec i 16).
  - by rewrite Z.mod_pow2_bits_low, andb_true_r by lia.
  - by rewrite Z.mod_pow2_bits_high, andb_false_r by lia.
Qed.

#[export] Hint Rewrite Z.lxor_spec Z.lor_spec Z.land_spec Z.bits_0 : bits.
#[export] Hint Rewrite u16_testbit Z.shiftl_spec Z.shiftr_spec using lia : bits.

Lemma u16_lxor a b : u16 (a .^ b) = u16 a .^ u16 b.
Proof.
  apply Z.bits_inj'. intros i Hi. autorewrite with bits. btauto.
Qed.

Lemma is_u16_lxor a b : is_u16 a -> is_u16 b -> is_u16 (a .^ b).
Proof. intros. rewrite <-(u16_small a), <-(u16_small b), <-u16_lxor by done. apply u16_range. Qed.

Lemma shiftl_lxor a b n : (a .^ b) .<< n = (a .<< n) .^ (b .<< n).
Proof. apply Z.shiftl_lxor. Qed.

Lemma top_bit crc : (crc .& 0x8000 =? 0) = negb (Z.testbit crc 15).
Proof.
  change 0x8000 with (2 ^ 15). destruct (Z.testbit crc 15) eqn:E; cbn.
  - apply Z.eqb_neq. intros H. apply (f_equal (fun z => Z.testbit z 15)) in H.
    rewrite Z.land_spec, E, Z.pow2_bits_true, Z.bits_0 in H by lia. done.
  - apply Z.eqb_eq, Z.bits_inj'. intros i Hi. rewrite Z.land_spec, Z.bits_0, Z.pow2_bits_eqb by lia.
    destruct (Z.eqb_spec 15 i) as [<-|]; [by rewrite E | by rewrite andb_false_r].
Qed.

Lemma crc_bit_spec crc :
  crc_bit crc = u16 (crc .<< 1) .^ (if Z.testbit crc 15 then 0x1021 else 0).
Proof.
  unfold crc_bit. rewrite top_bit. destruct (Z.testbit crc 15); cbn [negb].
  - rewrite u16_small; [done|]. apply is_u16_lxor; [apply u16_range | clia].
  - by rewrite Z.lxor_0_r.
Qed.

Lemma crc_bit_range crc : is_u16 (crc_bit crc).
Proof.
  rewrite crc_bit_spec. apply is_u16_lxor; [apply u16_range | destruct (Z.testbit _ _); clia].
Qed.

(** The bit step is linear over GF(2). *)
Lemma crc_bit_lxor a b : crc_bit (a .^ b) = crc_bit a .^ crc_bit b.
Proof.
  rewrite !crc_bit_spec, shiftl_lxor, u16_lxor, Z.lxor_spec.
  apply Z.bits_inj'. intros i Hi.
  destruct (Z.testbit a 15), (Z.testbit b 15); cbn; autorewrite with bits; btauto.
Qed.

(** ... and injective on 16-bit registers, because the polynomial has a constant term. *)
Lemma crc_bit_zero a : is_u16 a -> crc_bit a = 0 -> a = 0.
Proof.
  intros Ha H. rewrite crc_bit_spec in H. destruct (Z.testbit a 15) eqn:E.
  - apply (f_equal (fun z => Z.testbit z 0)) in H.
    autorewrite with bits in H. rewrite Z.testbit_neg_r in H by lia. done.
  - rewrite Z.lxor_0_r in H. apply Z.bits_inj'. intros i Hi. rewrite Z.bits_0.
    destruct (Z.lt_ge_cases i 15) as [Hl|Hg].
    + apply (f_equal (fun z => Z.testbit z (i + 1))) in H.
      autorewrite with bits in H. replace (i + 1 - 1) with i in H by lia.
      by rewrite (proj2 (Z.ltb_lt _ _)), andb_true_r in H by lia.
    + destruct (decide (i = 15)) as [->|]; [done|].
      rewrite <-(u16_small a), u16_testbit by (done || lia).
      by rewrite (proj2 (Z.ltb_ge _ _)), andb_false_r by lia.
Qed.

Lemma lxor_eq_0 a b : a .^ b = 0 <-> a = b.
Proof. split; [apply Z.lxor_eq | intros ->; apply Z.lxor_nilpotent]. Qed.

Lemma crc_iter_range n a : is_u16 a -> is_u16 (Nat.iter n crc_bit a).
Proof. destruct n; [done | intros _; apply crc_bit_range]. Qed.

Lemma crc_iter_lxor n a b :
  Nat.iter n crc_bit (a .^ b) = Nat.iter n crc_bit a .^ Nat.iter n crc_bit b.
Proof. induction n as [|n IH]; simpl; [done|]. by rewrite IH, crc_bit_lxor. Qed.

Lemma crc_iter_zero n a : is_u16 a -> Nat.iter n crc_bit a = 0 -> a = 0.
Proof.
  induction n as [|n IH]; simpl; [done|]. intros Ha H.
  apply IH; [done|]. apply crc_bit_zero; [by apply crc_iter_range | done].
Qed.

Lemma crc_iter_0 n : Nat.iter n crc_bit 0 = 0.
Proof. induction n as [|n IH]; simpl; [done | by rewrite IH]. Qed.

Lemma crc_bits_app s b1 b2 : crc_bits s (b1 ++ b2) = crc_bits (crc_bits s b1) b2.
Proof. apply fold_left_app. Qed.

Lemma crc_bits_range s bs : is_u16 s -> is_u16 (crc_bits s bs).
Proof. revert s. induction bs as [|b bs IH]; intros s Hs; cbn; [done|]. apply IH, crc_bit_range. Qed.

Lemma crc_bits_cons s b bs : crc_bits s (b :: bs) = crc_bits (crc_feed_bit s b) bs.
Proof. done. Qed.

(** Superposition: two messages of the same length. *)
Lemma crc_bits_lxor s1 s2 b1 b2 :
  length b1 = length b2 ->
  crc_bits (s1 .^ s2) (zip_with xorb b1 b2) = crc_bits s1 b1 .^ crc_bits s2 b2.
Proof.
  revert s1 s2 b2. induction b1 as [|x b1 IH]; intros s1 s2 [|y b2] Hlen; try done.
  cbn [zip_with]. rewrite !crc_bits_cons. rewrite <-IH by (injection Hlen; done). f_equal. unfold crc_feed_bit.
  rewrite <-crc_bit_lxor. f_equal.
  apply Z.bits_inj'. intros i Hi. destruct x, y; cbn [xorb bit]; autorewrite with bits; btauto.
Qed.

Lemma crc_bits_zeros s n : crc_bits s (replicate n false) = Nat.iter n crc_bit s.
Proof.
  revert s. induction n as [|n IH]; intros s; [done|]. cbn [replicate]. rewrite crc_bits_cons, IH, Nat.iter_succ_r.
  unfold crc_feed_bit. cbn [bit]. by rewrite Z.shiftl_0_l, Z.lxor_0_r.
Qed.

Lemma crc_bits_split s bs : crc_bits s bs = Nat.iter (length bs) crc_bit s .^ crc_bits 0 bs.
Proof.
  rewrite <-crc_bits_zeros, <-crc_bits_lxor by apply length_replicate.
  rewrite Z.lxor_0_r. f_equal. symmetry. induction bs as [|b bs IH]; cbn; [done | by rewrite IH].
Qed.

(** Fewer than seventeen message bits enter an empty register as a shifted number. *)
Lemma bval_bound bs : 0 <= bval bs < 2 ^ Z.of_nat (length bs).
Proof.
  induction bs as [|b bs IH]; cbn [bval length]; [lia|].
  rewrite Nat2Z.inj_succ, Z.pow_succ_r, Z.shiftl_mul_pow2 by lia. destruct b; cbn; lia.
Qed.

Lemma bval_cons_lxor b bs : bval (b :: bs) = (bit b .<< Z.of_nat (length bs)) .^ bval bs.
Proof.
  cbn. apply Z.add_nocarry_lxor, Z.bits_inj'. intros i Hi. rewrite Z.land_spec, Z.bits_0.
  pose proof (bval_bound bs). destruct (Z.lt_ge_cases i (Z.of_nat (length bs))).
  - by rewrite Z.shiftl_spec_low by lia.
  - rewrite <-(Z.mod_small (bval bs) (2 ^ Z.of_nat (length bs))) by lia.
    by rewrite Z.mod_pow2_bits_high, andb_false_r by lia.
Qed.

Lemma crc_bit_small a : 0 <= a < 2 ^ 15 -> crc_bit a = a .<< 1.
Proof.
  intros Ha. rewrite crc_bit_spec. rewrite <-(Z.mod_small a (2 ^ 15)) at 2 by done.
  rewrite Z.mod_pow2_bits_high, Z.lxor_0_r by lia. apply u16_small.
  rewrite Z.shiftl_mul_pow2 by lia. clia.
Qed.

Lemma shiftl_bound v n k : 0 <= v < 2 ^ n -> 0 <= n -> 0 <= k -> 0 <= v .<< k < 2 ^ (n + k).
Proof. intros. rewrite Z.shiftl_mul_pow2, Z.pow_add_r by lia. nia. Qed.

Lemma crc_bits_short bs :
  (length bs <= 16)%nat ->
  crc_bits 0 bs = Nat.iter (length bs) crc_bit (bval bs .<< (16 - Z.of_nat (length bs))).
Proof.
  induction bs as [|b bs IH]; intros Hlen; [done|]. cbn [length] in *.
  rewrite crc_bits_cons, crc_bits_split, IH by lia.
  rewrite bval_cons_lxor, shiftl_lxor, crc_iter_lxor. f_equal.
  - rewrite Nat.iter_succ_r. f_equal. unfold crc_feed_bit. rewrite Z.lxor_0_l, Z.shiftl_shiftl by lia.
    f_equal. f_equal. lia.
  - rewrite Nat.iter_succ_r. f_equal. pose proof (bval_bound bs).
    rewrite crc_bit_small.
    + rewrite Z.shiftl_shiftl by lia. f_equal. lia.
    + replace 15 with (Z.of_nat (length bs) + (16 - Z.of_nat (S (length bs)))) by lia.
      apply shiftl_bound; lia.
Qed.

Lemma bval_snoc bs b : bval (bs ++ [b]) = (bval bs .<< 1) .^ bit b.
Proof.
  induction bs as [|x bs IH]; [by destruct b|]. change ((x :: bs) ++ [b]) with (x :: (bs ++ [b])).
  rewrite !bval_cons_lxor, IH, shiftl_lxor, Z.shiftl_shiftl, length_app, Z.lxor_assoc by lia.
  f_equal. f_equal. cbn [length]. lia.
Qed.

Lemma byte_bits_length b : length (byte_bits b) = 8%nat.
Proof. done. Qed.

Lemma byte_bits_val b : is_u8 b -> bval (byte_bits b) = b.
Proof.
  intros Hb. apply Z.eqb_eq. revert b Hb. apply byte_forall. vm_compute. reflexivity.
Qed.

(** The byte loop is the bit-serial register. *)
Lemma crc_byte_bits s b : is_u16 s -> is_u8 b -> crc_byte s b = crc_bits s (byte_bits b).
Proof.
  intros Hs Hb. unfold crc_byte.
  rewrite u16_lxor, (u16_small s), (u16_small (u16 _)) by (done || apply u16_range).
  rewrite crc_iter_lxor, crc_bits_split. f_equal.
  apply Z.eqb_eq. revert b Hb. apply byte_forall. vm_compute. reflexivity.
Qed.

Lemma crc16_bits s bs :
  is_u16 s -> is_bytes bs -> gov_crc16_ccitt s bs = crc_bits s (bytes_bits bs).
Proof.
  intros Hs Hbs. revert s Hs. induction Hbs as [|b bs Hb _ IH]; intros s Hs; [done|].
  cbn [gov_crc16_ccitt fold_left bytes_bits mbind list_bind].
  rewrite crc_bits_app, <-crc_byte_bits by done. apply IH.
  rewrite crc_byte_bits by done. by apply crc_bits_range.
Qed.

Lemma crc16_app s b1 b2 :
  gov_crc16_ccitt s (b1 ++ b2) = gov_crc16_ccitt (gov_crc16_ccitt s b1) b2.
Proof. apply fold_left_app. Qed.

Lemma crc16_range s bs : is_u16 s -> is_bytes bs -> is_u16 (gov_crc16_ccitt s bs).
Proof. intros. rewrite crc16_bits by done. by apply crc_bits_range. Qed.

(** ** Polynomial division *)
Lemma clmul_double q p : 0 <= q -> clmul (2 * q) p = clmul q p .<< 1.
Proof. destruct q; intros; [done | done | lia]. Qed.

Lemma clmul_double_1 q p : 0 <= q -> clmul (2 * q + 1) p = p .^ (clmul q p .<< 1).
Proof. destruct q; intros; [by cbn; rewrite Z.lxor_0_r | done | lia]. Qed.

(** The 17-bit view of one register step: shift, then subtract the polynomial. *)
Lemma crc_bit_poly a :
  is_u16 a -> crc_bit a = (a .<< 1) .^ (if Z.testbit a 15 then CRC_POLY else 0).
Proof.
  intros Ha. rewrite crc_bit_spec. apply Z.bits_inj'. intros i Hi.
  assert (Hhi : 16 <= i -> Z.testbit (a .<< 1) i = (i =? 16) && Z.testbit a 15).
  { intros Hi16. rewrite Z.shiftl_spec by lia. destruct (Z.eqb_spec i 16) as [->|]; [done|].
    rewrite <-(u16_small a), u16_testbit by (done || lia).
    rewrite (proj2 (Z.ltb_ge (i - 1) 16)) by lia. by rewrite andb_false_r. }
  rewrite !Z.lxor_spec, u16_testbit by lia.
  replace (Z.testbit (if Z.testbit a 15 then CRC_POLY else 0) i)
    with (Z.testbit (if Z.testbit a 15 then 0x1021 else 0) i || (i =? 16) && Z.testbit a 15).
  2: { change CRC_POLY with (0x1021 .| 2 ^ 16).
       destruct (Z.testbit a 15); rewrite ?Z.lor_spec, ?Z.pow2_bits_eqb, ?Z.bits_0 by lia;
         rewrite ?(Z.eqb_sym 16 i); btauto. }
  destruct (Z.ltb_spec i 16) as [Hlt|Hge].
  - rewrite (proj2 (Z.eqb_neq i 16)) by lia. btauto.
  - rewrite Hhi by done.
    assert (Z.testbit (if Z.testbit a 15 then 0x1021 else 0) i = false) as ->.
    { destruct (Z.testbit a 15); [|apply Z.bits_0].
      by rewrite <-(Z.mod_small 0x1021 (2 ^ 16)), Z.mod_pow2_bits_high by lia. }
    btauto.
Qed.

Lemma crc_bits_division s bs :
  is_u16 s ->
  exists q, 0 <= q /\
    (s .<< Z.of_nat (length bs)) .^ (bval bs .<< 16) = clmul q CRC_POLY .^ crc_bits s bs.
Proof.
  intros Hs. induction bs as [|b bs IH] using rev_ind.
  { exists 0. split; [done|]. cbn. by rewrite Z.shiftl_0_r, Z.lxor_0_r. }
  destruct IH as (q & Hq & IH). set (r := crc_bits s bs) in *.
  assert (Hr : is_u16 r) by by apply crc_bits_range.
  set (x := r .^ (bit b .<< 15)).
  assert (Hx : is_u16 x) by (apply is_u16_lxor; [done | by destruct b]).
  assert (Hstep : (s .<< Z.of_nat (length (bs ++ [b]))) .^ (bval (bs ++ [b]) .<< 16) =
                  (clmul q CRC_POLY .<< 1) .^ (x .<< 1)).
  { rewrite length_app, bval_snoc. cbn [length].
    replace (Z.of_nat (length bs + 1)) with (Z.of_nat (length bs) + 1) by lia.
    rewrite <-Z.shiftl_shiftl by lia. unfold x. rewrite !shiftl_lxor.
    assert (forall v, (v .<< 1) .<< 16 = (v .<< 16) .<< 1) as ->.
    { intros v. by rewrite !Z.shiftl_shiftl by lia. }
    rewrite (Z.shiftl_shiftl (bit b) 15 1) by lia.
    rewrite <-!Z.lxor_assoc. f_equal. rewrite <-!shiftl_lxor. by rewrite IH. }
  rewrite Hstep, crc_bits_app. cbn [crc_bits fold_left]. unfold crc_feed_bit. fold r x.
  rewrite crc_bit_poly by done. destruct (Z.testbit x 15).
  - exists (2 * q + 1). split; [lia|]. rewrite clmul_double_1 by done.
    apply Z.bits_inj'. intros i Hi. autorewrite with bits. btauto.
  - exists (2 * q). split; [lia|]. by rewrite clmul_double, Z.lxor_0_r by done.
Qed.

Lemma bval_app b1 b2 : bval (b1 ++ b2) = bval b1 * 2 ^ Z.of_nat (length b2) + bval b2.
Proof.
  induction b1 as [|b b1 IH]; [done|]. cbn. rewrite IH, length_app, Nat2Z.inj_add.
  rewrite !Z.shiftl_mul_pow2, Z.pow_add_r by lia. lia.
Qed.

Lemma bytes_bits_app b1 b2 : bytes_bits (b1 ++ b2) = bytes_bits b1 ++ bytes_bits b2.
Proof. apply bind_app. Qed.

Lemma bytes_bits_length bs : length (bytes_bits bs) = (8 * length bs)%nat.
Proof.
  induction bs as [|b bs IH]; [done|].
  change (bytes_bits (b :: bs)) with (byte_bits b ++ bytes_bits bs).
  rewrite length_app, IH, byte_bits_length. cbn [length]. lia.
Qed.

Lemma be_val_bits bs : is_bytes bs -> be_val bs = bval (bytes_bits bs).
Proof.
  unfold is_bytes. induction bs as [|b bs IH] using rev_ind; [done|].
  rewrite Forall_app, Forall_singleton. intros [Hbs Hb].
  unfold be_val in *. rewrite fold_left_app. cbn [fold_left]. rewrite IH by done.
  rewrite bytes_bits_app, bval_app. cbn [bytes_bits mbind list_bind].
  by rewrite app_nil_r, byte_bits_val by done.
Qed.

(** C20: the table-free routine is polynomial division: the register it returns is the remainder
    (degree below 16) of the seed and the message, followed by sixteen zero bits, divided over
    GF(2) by x^16 + x^12 + x^5 + 1. *)
Theorem crc16_is_polynomial_remainder seed data :
  is_u16 seed -> is_bytes data ->
  let n := Z.of_nat (length data) in
  is_u16 (gov_crc16_ccitt seed data) /\
  exists q, 0 <= q /\
    (seed .<< (8 * n)) .^ (be_val data .<< 16) = clmul q CRC_POLY .^ gov_crc16_ccitt seed data.
Proof.
  intros Hs Hd n. split; [by apply crc16_range|].
  destruct (crc_bits_division seed (bytes_bits data)) as (q & Hq & H); [done|].
  exists q. split; [done|]. rewrite bytes_bits_length in H.
  rewrite be_val_bits, crc16_bits by done. rewrite <-H. unfold n. do 2 f_equal. lia.
Qed.

Lemma crc16_is_polynomial_remainder_witness :
  is_u16 0xFFFF /\ is_bytes [1; 255] /\
  exists q, 0 <= q /\
    (0xFFFF .<< 16) .^ (be_val [1; 255] .<< 16) = clmul q CRC_POLY .^ gov_crc16_ccitt 0xFFFF [1; 255].
Proof.
  split; [clia|]. assert (is_bytes [1; 255]) as Hb by (repeat constructor; clia).
  split; [exact Hb|].
  exact (proj2 (crc16_is_polynomial_remainder 0xFFFF [1; 255] ltac:(clia) Hb)).
Defined.

(** ** Error detection *)
Lemma be16_bytes v : is_bytes (be16 v).
Proof. repeat constructor; apply u8_range. Qed.

Lemma be16_val v : is_u16 v -> bval (bytes_bits (be16 v)) = v.
Proof.
  intros Hv. rewrite <-be_val_bits by apply be16_bytes. cbn.
  rewrite !(Z.land_ones _ 8) by lia. rewrite Z.shiftr_div_pow2 by lia.
  dlia.
Qed.

(** Feeding a register its own value clears it. *)
Lemma crc_self r : is_u16 r -> crc_bits r (bytes_bits (be16 r)) = 0.
Proof.
  intros Hr. rewrite crc_bits_split, crc_bits_short by (rewrite bytes_bits_length; cbn; lia).
    rewrite be16_val, bytes_bits_length by done. cbn [length be16 Nat.mul Nat.add].
  rewrite Z.shiftl_0_r. apply Z.lxor_nilpotent.
Qed.

Lemma crc16_residue s d c :
  is_u16 s -> is_bytes d -> is_u16 c ->
  gov_crc16_ccitt s (d ++ be16 c) = 0 <-> c = gov_crc16_ccitt s d.
Proof.
  intros Hs Hd Hc. rewrite crc16_app.
  pose proof (crc16_range s d Hs Hd) as Hr. set (r := gov_crc16_ccitt s d) in *.
  rewrite crc16_bits by (done || apply be16_bytes).
  split; [|intros ->; by apply crc_self].
  rewrite (crc_bits_split r (bytes_bits (be16 c))). intros H.
  pose proof (crc_self c Hc) as H'. rewrite (crc_bits_split c (bytes_bits (be16 c))) in H'.
  apply Z.lxor_eq in H, H'. rewrite <-H' in H. symmetry. apply lxor_eq_0.
  eapply crc_iter_zero; [by apply is_u16_lxor|].
  rewrite crc_iter_lxor. apply lxor_eq_0. exact H.
Qed.

(** Flipping the bits [e] of a message moves the register by the error alone. *)
Lemma crc_error s w w' :
  length w = length w' ->
  crc_bits s w' = crc_bits s w .^ crc_bits 0 (zip_with xorb w w').
Proof.
  intros Hl. replace 0 with (s .^ s) by apply Z.lxor_nilpotent. rewrite crc_bits_lxor by done.
  by rewrite <-Z.lxor_assoc, Z.lxor_nilpotent, Z.lxor_0_l.
Qed.

Lemma zeros_register i e : crc_bits 0 (zeros i ++ e) = crc_bits 0 e.
Proof. unfold zeros. by rewrite crc_bits_app, crc_bits_zeros, crc_iter_0. Qed.

Lemma zeros_after_nonzero a j : is_u16 a -> a <> 0 -> crc_bits a (zeros j) <> 0.
Proof. intros Ha Hne H. unfold zeros in H. rewrite crc_bits_zeros in H. by apply crc_iter_zero in H. Qed.

Lemma bval_zero b : bval b = 0 -> true ∉ b.
Proof.
  induction b as [|x b IH]; cbn; [intros _; apply not_elem_of_nil|].
  pose proof (bval_bound b). rewrite Z.shiftl_mul_pow2 by lia.
  destruct x; cbn; [lia|]. intros Hb. apply not_elem_of_cons. split; [done|]. apply IH. lia.
Qed.

Lemma burst_detected i b j :
  (length b <= 16)%nat -> true ∈ b -> crc_bits 0 (zeros i ++ b ++ zeros j) <> 0.
Proof.
  intros Hl Hb. rewrite zeros_register, crc_bits_app.
  pose proof (bval_bound b) as Hv.
  assert (Hu : is_u16 (bval b .<< (16 - Z.of_nat (length b)))).
  { unfold is_u16. replace 16 with (Z.of_nat (length b) + (16 - Z.of_nat (length b))) at 3 by lia.
    apply shiftl_bound; lia. }
  apply zeros_after_nonzero; [by apply crc_bits_range|].
  rewrite crc_bits_short by done. intros H. apply crc_iter_zero in H; [|done].
  rewrite Z.shiftl_mul_pow2 in H by lia. apply (bval_zero b); [|done].
  assert (0 < 2 ^ (16 - Z.of_nat (length b))) by (apply Z.pow_pos_nonneg; lia). nia.
Qed.

(** The parity of a register: the polynomial has an even number of terms, so a step keeps it. *)
Definition parity (a : Z) : bool :=
  foldr xorb false (Z.testbit a <$> [0; 1; 2; 3; 4; 5; 6; 7; 8; 9; 10; 11; 12; 13; 14; 15]).

Lemma parity_lxor a b : parity (a .^ b) = xorb (parity a) (parity b).
Proof. 
  unfold parity. generalize [0; 1; 2; 3; 4; 5; 6; 7; 8; 9; 10; 11; 12; 13; 14; 15]. intros l.
  induction l as [|i l IH]; [done|]. rewrite !fmap_cons. cbn [foldr]. rewrite IH, Z.lxor_spec. btauto. Qed.

Lemma parity_shift a : is_u16 a -> parity (u16 (a .<< 1)) = xorb (parity a) (Z.testbit a 15).
Proof.
  intros Ha. unfold parity. cbn [fmap list_fmap foldr].
  rewrite !u16_testbit, !Z.shiftl_spec, (Z.testbit_neg_r a (0 - 1)) by lia.
  generalize (Z.testbit a). intros t. cbn. rewrite !andb_true_r, !xorb_false_r, !xorb_assoc_reverse.
  by rewrite xorb_nilpotent, xorb_false_r.
Qed.

Lemma parity_crc_bit a : is_u16 a -> parity (crc_bit a) = parity a.
Proof.
  intros Ha. rewrite crc_bit_spec, parity_lxor, parity_shift by done.
  destruct (Z.testbit a 15); cbn; btauto.
Qed.

Lemma ones_cons b e : ones (b :: e) = (Nat.b2n b + ones e)%nat.
Proof. unfold ones. rewrite filter_cons. by destruct b; [rewrite decide_True | rewrite decide_False]. Qed.

Lemma parity_crc_bits s e :
  is_u16 s -> parity (crc_bits s e) = xorb (parity s) (Nat.odd (ones e)).
Proof.
  revert s. induction e as [|b e IH]; intros s Hs.
  { change (crc_bits s []) with s. change (Nat.odd (ones [])) with false. by rewrite xorb_false_r. }
  assert (Hb : is_u16 (bit b .<< 15)) by by destruct b.
  rewrite crc_bits_cons, IH by apply crc_bit_range.
  unfold crc_feed_bit. rewrite parity_crc_bit, parity_lxor by by apply is_u16_lxor.
  rewrite ones_cons, Nat.odd_add, xorb_assoc_reverse. f_equal. f_equal. by destruct b.
Qed.

(** The order of x modulo the polynomial exceeds 4096: a register holding the polynomial does not
    come back to x^15 within 4096 steps. *)
Fixpoint orbit_avoids (n : nat) (a target : Z) : bool :=
  match n with
  | O => true
  | S n => negb (a =? target) && orbit_avoids n (crc_bit a) target
  end.

Lemma orbit_avoids_sound n a t k :
  orbit_avoids n a t = true -> (k < n)%nat -> Nat.iter k crc_bit a <> t.
Proof.
  revert a k. induction n as [|n IH]; intros a k; cbn; [lia|].
  rewrite andb_true_iff, negb_true_iff, Z.eqb_neq. intros [Hne H] Hk.
  destruct k as [|k]; [done|]. change (crc_bit (Nat.iter k crc_bit a)) with (Nat.iter (S k) crc_bit a). rewrite Nat.iter_succ_r. apply IH; [done|lia].
Qed.

Lemma double_detected i k j :
  (k < 4096)%nat -> crc_bits 0 (zeros i ++ [true] ++ zeros k ++ [true] ++ zeros j) <> 0.
Proof.
  intros Hk. rewrite zeros_register, !crc_bits_app.
  assert (Hu : is_u16 (crc_bits 0 [true])) by by apply crc_bits_range.
  apply zeros_after_nonzero; [by do 2 apply crc_bits_range|].
  unfold zeros. rewrite crc_bits_zeros. cbn [crc_bits fold_left]. unfold crc_feed_bit.
  intros H. apply crc_bit_zero in H.
  2: { apply is_u16_lxor; [by apply crc_iter_range | done]. }
  apply Z.lxor_eq in H. revert H. apply (orbit_avoids_sound 4096); [|done].
  vm_compute. reflexivity.
Qed.

Lemma detectable_nonzero e : detectable e -> crc_bits 0 e <> 0.
Proof.
  intros [i b j Hl Hb | e' Ho | i k j Hk];
    [by apply burst_detected | | by apply double_detected].
  intros H. pose proof (parity_crc_bits 0 e' ltac:(clia)) as Hp.
  rewrite H, Ho in Hp. done.
Qed.

(** In terms of the residue of the received codeword. *)
Lemma crc16_error_residue seed msg rmsg rcrc :
  is_u16 seed -> is_bytes msg -> is_bytes rmsg -> is_u16 rcrc -> length rmsg = length msg ->
  detectable (zip_with xorb (bytes_bits (msg ++ be16 (gov_crc16_ccitt seed msg)))
                            (bytes_bits (rmsg ++ be16 rcrc))) ->
  gov_crc16_ccitt seed (rmsg ++ be16 rcrc) <> 0.
Proof.
  intros Hs Hm Hr Hc Hl Hd Hz'. apply detectable_nonzero in Hd. apply Hd.
  set (w := msg ++ _) in *. set (w' := rmsg ++ _) in *.
  assert (is_bytes w) by by apply Forall_app; split; [|apply be16_bytes].
  assert (is_bytes w') by by apply Forall_app; split; [|apply be16_bytes].
  assert (Hz : crc_bits seed (bytes_bits w) = 0).
  { rewrite <-crc16_bits by done. apply crc16_residue; [done..| |done]. by apply crc16_range. }
  rewrite crc16_bits in Hz' by done.
  rewrite (crc_error seed (bytes_bits w) (bytes_bits w')), Hz, Z.lxor_0_l in Hz'; [done|].
  rewrite !bytes_bits_length. unfold w, w'. rewrite !length_app, Hl. done.
Qed.

(** C21: a codeword (a message followed by its CRC, high byte first) received with a burst of up
    to 16 bits, any odd number of flipped bits, or two flipped bits less than 4097 bit positions
    apart does not have the CRC of its received message. *)
Theorem crc16_detects seed msg rmsg rcrc :
  is_u16 seed -> is_bytes msg -> is_bytes rmsg -> is_u16 rcrc -> length rmsg = length msg ->
  detectable (zip_with xorb (bytes_bits (msg ++ be16 (gov_crc16_ccitt seed msg)))
                            (bytes_bits (rmsg ++ be16 rcrc))) ->
  rcrc <> gov_crc16_ccitt seed rmsg.
Proof.
  intros Hs Hm Hr Hc Hl Hd Heq%crc16_residue; [|done..]. by apply (crc16_error_residue seed msg rmsg rcrc).
Qed.

(** One flipped bit in the first byte of a two-byte message. *)
Lemma crc16_detects_witness :
  is_bytes [0x12; 0x34] /\ 0x0EC9 <> gov_crc16_ccitt 0xFFFF [0x13; 0x34].
Proof.
  assert (Hm : is_bytes [0x12; 0x34]) by (repeat constructor; clia).
  assert (Hr : is_bytes [0x13; 0x34]) by (repeat constructor; clia).
  split; [exact Hm|].
  apply (crc16_detects 0xFFFF [0x12; 0x34] [0x13; 0x34] 0x0EC9); try done.
  apply err_odd. vm_compute. reflexivity.
Defined.

Lemma be16_length v : length (be16 v) = 2%nat.
Proof. done. Qed.

#[global] Arguments gov_crc16_ccitt : simpl never.
#[global] Arguments be16 : simpl never.
