(* ===== verification/Frame.v ===== *)
(** * Frame: link framing (lib/proto/proto.h, lib/proto/frame.c)

    [gov_frame_encode] on explicit buffers, the byte-at-a-time decoder as a step function on its
    record, and the abstract decoder it refines: one that only keeps the bytes of the frame it is
    in.  On the abstract side: the round trip, soundness (every delivery is a frame that was on the
    wire), resynchronisation and corruption. *)
From S2P Require Import Prelude Crc16.

(** ** Data *)
Definition GOV_SOF : Z := 0x7E.
Definition GOV_VER : Z := 0x01.
Definition GOV_CRC_INIT : Z := 0xFFFF.
Definition GOV_MAX_PAYLOAD : Z := 64.
Definition GOV_FRAME_HDR : Z := 6.
Definition GOV_FRAME_CRC : Z := 2.
Definition GOV_FRAME_MAX : Z := GOV_FRAME_HDR + GOV_MAX_PAYLOAD + GOV_FRAME_CRC.

Definition GOV_TYPE_DATA : Z := 0x01.
Definition GOV_TYPE_ACK : Z := 0x02.
Definition GOV_TYPE_NAK : Z := 0x03.
Definition GOV_TYPE_CMD : Z := 0x04.
Definition GOV_TYPE_HEARTBEAT : Z := 0x05.
Definition GOV_TYPE_CFG_WRITE : Z := 0x06.

Inductive gov_decoder_state :=
  | GOV_DEC_HUNT_SOF
  | GOV_DEC_VER
  | GOV_DEC_HDR
  | GOV_DEC_PAYLOAD
  | GOV_DEC_CRC.

#[export] Instance gov_decoder_state_eq_dec : EqDecision gov_decoder_state.
Proof. solve_decision. Defined.

(** What the delivery callback receives: TYPE, SEQ and the [len] payload bytes. *)
Record frame := mkFrame { f_type : Z; f_seq : Z; f_payload : list Z }.

#[export] Instance frame_eq_dec : EqDecision frame.
Proof. solve_decision. Defined.

(** [gov_decoder_t], the three counters of [gov_decoder_stats] inlined; [d_cb] says whether a
    callback is registered, and a call of it is an output of the step. *)
Record gov_decoder := mkDecoder {
  d_cb : bool;
  d_state : gov_decoder_state;
  d_type : Z;
  d_seq : Z;
  d_len : Z;
  d_payload_idx : Z;
  d_hdr_idx : Z;
  d_crc_idx : Z;
  d_crc_calc : Z;
  d_crc_rx : Z;
  d_payload : list Z;
  d_crc_err : Z;
  d_len_err : Z;
  d_unknown_type : Z
}.

Definition set_d_cb (v : bool) (r : gov_decoder) : gov_decoder :=
  {| d_cb := v; d_state := r.(d_state); d_type := r.(d_type); d_seq := r.(d_seq);
     d_len := r.(d_len); d_payload_idx := r.(d_payload_idx); d_hdr_idx := r.(d_hdr_idx);
     d_crc_idx := r.(d_crc_idx); d_crc_calc := r.(d_crc_calc); d_crc_rx := r.(d_crc_rx);
     d_payload := r.(d_payload); d_crc_err := r.(d_crc_err); d_len_err := r.(d_len_err);
     d_unknown_type := r.(d_unknown_type) |}.
Definition set_d_state (v : gov_decoder_state) (r : gov_decoder) : gov_decoder :=
  {| d_cb := r.(d_cb); d_state := v; d_type := r.(d_type); d_seq := r.(d_seq);
     d_len := r.(d_len); d_payload_idx := r.(d_payload_idx); d_hdr_idx := r.(d_hdr_idx);
     d_crc_idx := r.(d_crc_idx); d_crc_calc := r.(d_crc_calc); d_crc_rx := r.(d_crc_rx);
     d_payload := r.(d_payload); d_crc_err := r.(d_crc_err); d_len_err := r.(d_len_err);
     d_unknown_type := r.(d_unknown_type) |}.
Definition set_d_type (v : Z) (r : gov_decoder) : gov_decoder :=
  {| d_cb := r.(d_cb); d_state := r.(d_state); d_type := v; d_seq := r.(d_seq);
     d_len := r.(d_len); d_payload_idx := r.(d_payload_idx); d_hdr_idx := r.(d_hdr_idx);
     d_crc_idx := r.(d_crc_idx); d_crc_calc := r.(d_crc_calc); d_crc_rx := r.(d_crc_rx);
     d_payload := r.(d_payload); d_crc_err := r.(d_crc_err); d_len_err := r.(d_len_err);
     d_unknown_type := r.(d_unknown_type) |}.
Definition set_d_seq (v : Z) (r : gov_decoder) : gov_decoder :=
  {| d_cb := r.(d_cb); d_state := r.(d_state); d_type := r.(d_type); d_seq := v;
     d_len := r.(d_len); d_payload_idx := r.(d_payload_idx); d_hdr_idx := r.(d_hdr_idx);
     d_crc_idx := r.(d_crc_idx); d_crc_calc := r.(d_crc_calc); d_crc_rx := r.(d_crc_rx);
     d_payload := r.(d_payload); d_crc_err := r.(d_crc_err); d_len_err := r.(d_len_err);
     d_unknown_type := r.(d_unknown_type) |}.
Definition set_d_len (v : Z) (r : gov_decoder) : gov_decoder :=
  {| d_cb := r.(d_cb); d_state := r.(d_state); d_type := r.(d_type); d_seq := r.(d_seq);
     d_len := v; d_payload_idx := r.(d_payload_idx); d_hdr_idx := r.(d_hdr_idx);
     d_crc_idx := r.(d_crc_idx); d_crc_calc := r.(d_crc_calc); d_crc_rx := r.(d_crc_rx);
     d_payload := r.(d_payload); d_crc_err := r.(d_crc_err); d_len_err := r.(d_len_err);
     d_unknown_type := r.(d_unknown_type) |}.
Definition set_d_payload_idx (v : Z) (r : gov_decoder) : gov_decoder :=
  {| d_cb := r.(d_cb); d_state := r.(d_state); d_type := r.(d_type); d_seq := r.(d_seq);
     d_len := r.(d_len); d_payload_idx := v; d_hdr_idx := r.(d_hdr_idx);
     d_crc_idx := r.(d_crc_idx); d_crc_calc := r.(d_crc_calc); d_crc_rx := r.(d_crc_rx);
     d_payload := r.(d_payload); d_crc_err := r.(d_crc_err); d_len_err := r.(d_len_err);
     d_unknown_type := r.(d_unknown_type) |}.
Definition set_d_hdr_idx (v : Z) (r : gov_decoder) : gov_decoder :=
  {| d_cb := r.(d_cb); d_state := r.(d_state); d_type := r.(d_type); d_seq := r.(d_seq);
     d_len := r.(d_len); d_payload_idx := r.(d_payload_idx); d_hdr_idx := v;
     d_crc_idx := r.(d_crc_idx); d_crc_calc := r.(d_crc_calc); d_crc_rx := r.(d_crc_rx);
     d_payload := r.(d_payload); d_crc_err := r.(d_crc_err); d_len_err := r.(d_len_err);
     d_unknown_type := r.(d_unknown_type) |}.
Definition set_d_crc_idx (v : Z) (r : gov_decoder) : gov_decoder :=
  {| d_cb := r.(d_cb); d_state := r.(d_state); d_type := r.(d_type); d_seq := r.(d_seq);
     d_len := r.(d_len); d_payload_idx := r.(d_payload_idx); d_hdr_idx := r.(d_hdr_idx);
     d_crc_idx := v; d_crc_calc := r.(d_crc_calc); d_crc_rx := r.(d_crc_rx);
     d_payload := r.(d_payload); d_crc_err := r.(d_crc_err); d_len_err := r.(d_len_err);
     d_unknown_type := r.(d_unknown_type) |}.
Definition set_d_crc_calc (v : Z) (r : gov_decoder) : gov_decoder :=
  {| d_cb := r.(d_cb); d_state := r.(d_state); d_type := r.(d_type); d_seq := r.(d_seq);
     d_len := r.(d_len); d_payload_idx := r.(d_payload_idx); d_hdr_idx := r.(d_hdr_idx);
     d_crc_idx := r.(d_crc_idx); d_crc_calc := v; d_crc_rx := r.(d_crc_rx);
     d_payload := r.(d_payload); d_crc_err := r.(d_crc_err); d_len_err := r.(d_len_err);
     d_unknown_type := r.(d_unknown_type) |}.
Definition set_d_crc_rx (v : Z) (r : gov_decoder) : gov_decoder :=
  {| d_cb := r.(d_cb); d_state := r.(d_state); d_type := r.(d_type); d_seq := r.(d_seq);
     d_len := r.(d_len); d_payload_idx := r.(d_payload_idx); d_hdr_idx := r.(d_hdr_idx);
     d_crc_idx := r.(d_crc_idx); d_crc_calc := r.(d_crc_calc); d_crc_rx := v;
     d_payload := r.(d_payload); d_crc_err := r.(d_crc_err); d_len_err := r.(d_len_err);
     d_unknown_type := r.(d_unknown_type) |}.
Definition set_d_payload (v : list Z) (r : gov_decoder) : gov_decoder :=
  {| d_cb := r.(d_cb); d_state := r.(d_state); d_type := r.(d_type); d_seq := r.(d_seq);
     d_len := r.(d_len); d_payload_idx := r.(d_payload_idx); d_hdr_idx := r.(d_hdr_idx);
     d_crc_idx := r.(d_crc_idx); d_crc_calc := r.(d_crc_calc); d_crc_rx := r.(d_crc_rx);
     d_payload := v; d_crc_err := r.(d_crc_err); d_len_err := r.(d_len_err);
     d_unknown_type := r.(d_unknown_type) |}.
Definition set_d_crc_err (v : Z) (r : gov_decoder) : gov_decoder :=
  {| d_cb := r.(d_cb); d_state := r.(d_state); d_type := r.(d_type); d_seq := r.(d_seq);
     d_len := r.(d_len); d_payload_idx := r.(d_payload_idx); d_hdr_idx := r.(d_hdr_idx);
     d_crc_idx := r.(d_crc_idx); d_crc_calc := r.(d_crc_calc); d_crc_rx := r.(d_crc_rx);
     d_payload := r.(d_payload); d_crc_err := v; d_len_err := r.(d_len_err);
     d_unknown_type := r.(d_unknown_type) |}.
Definition set_d_len_err (v : Z) (r : gov_decoder) : gov_decoder :=
  {| d_cb := r.(d_cb); d_state := r.(d_state); d_type := r.(d_type); d_seq := r.(d_seq);
     d_len := r.(d_len); d_payload_idx := r.(d_payload_idx); d_hdr_idx := r.(d_hdr_idx);
     d_crc_idx := r.(d_crc_idx); d_crc_calc := r.(d_crc_calc); d_crc_rx := r.(d_crc_rx);
     d_payload := r.(d_payload); d_crc_err := r.(d_crc_err); d_len_err := v;
     d_unknown_type := r.(d_unknown_type) |}.
Definition set_d_unknown_type (v : Z) (r : gov_decoder) : gov_decoder :=
  {| d_cb := r.(d_cb); d_state := r.(d_state); d_type := r.(d_type); d_seq := r.(d_seq);
     d_len := r.(d_len); d_payload_idx := r.(d_payload_idx); d_hdr_idx := r.(d_hdr_idx);
     d_crc_idx := r.(d_crc_idx); d_crc_calc := r.(d_crc_calc); d_crc_rx := r.(d_crc_rx);
     d_payload := r.(d_payload); d_crc_err := r.(d_crc_err); d_len_err := r.(d_len_err);
     d_unknown_type := v |}.

(** ** Operations *)
Definition is_known_type (type : Z) : bool :=
  (type =? GOV_TYPE_DATA) || (type =? GOV_TYPE_ACK) || (type =? GOV_TYPE_NAK) ||
  (type =? GOV_TYPE_CMD) || (type =? GOV_TYPE_HEARTBEAT) || (type =? GOV_TYPE_CFG_WRITE).

(** The writes of a call whose guards passed: header, payload, CRC. *)
Definition encode_write (type seq : Z) (payload : option (list Z)) (len : Z) (out : list Z) :
    option (list Z) :=
  out ← store out 0 GOV_SOF;
  out ← store out 1 GOV_VER;
  out ← store out 2 type;
  out ← store out 3 seq;
  out ← store out 4 (u8 ((len .>> 8) .& 0xFF));
  out ← store out 5 (u8 (len .& 0xFF));
  out ← (if 0 <? len then
           p ← payload; bytes ← load_bytes p 0 len; store_bytes out GOV_FRAME_HDR bytes
         else Some out);
  covered ← load_bytes out 1 (5 + len);
  let crc := gov_crc16_ccitt GOV_CRC_INIT covered in
  out ← store out (GOV_FRAME_HDR + len) (u8 ((crc .>> 8) .& 0xFF));
  store out (GOV_FRAME_HDR + len + 1) (u8 (crc .& 0xFF)).

(** Returned size and the buffer behind [out] afterwards. *)
Definition gov_frame_encode (type seq : Z) (payload : option (list Z)) (len : Z)
    (out : option (list Z)) (out_cap : Z) : option (Z * option (list Z)) :=
  match out with
  | None => Some (0, None)
  | Some buf =>
      if GOV_MAX_PAYLOAD <? len then Some (0, Some buf)
      else if bool_decide (payload = None) && (0 <? len) then Some (0, Some buf)
      else
        let total := GOV_FRAME_HDR + len + GOV_FRAME_CRC in
        if out_cap <? total then Some (0, Some buf)
        else buf ← encode_write type seq payload len buf; Some (total, Some buf)
  end.

(** [gov_decoder_init] on a non-NULL object: everything else is zeroed by [memset]. *)
Definition gov_decoder_init (cb : bool) : gov_decoder :=
  {| d_cb := cb; d_state := GOV_DEC_HUNT_SOF; d_type := 0; d_seq := 0; d_len := 0;
     d_payload_idx := 0; d_hdr_idx := 0; d_crc_idx := 0; d_crc_calc := 0; d_crc_rx := 0;
     d_payload := replicate 64 0; d_crc_err := 0; d_len_err := 0; d_unknown_type := 0 |}.

Definition start_frame (d : gov_decoder) : gov_decoder :=
  let d := set_d_crc_calc GOV_CRC_INIT d in
  let d := set_d_hdr_idx 0 d in
  let d := set_d_payload_idx 0 d in
  let d := set_d_crc_idx 0 d in
  let d := set_d_crc_rx 0 d in
  let d := set_d_len 0 d in
  set_d_state GOV_DEC_VER d.

Definition crc_feed (byte : Z) (d : gov_decoder) : gov_decoder :=
  set_d_crc_calc (gov_crc16_ccitt d.(d_crc_calc) [byte]) d.

Definition finish_frame (d : gov_decoder) : option (gov_decoder * list frame) :=
  '(d, out) ←
    (if negb (d.(d_crc_rx) =? d.(d_crc_calc)) then
       Some (set_d_crc_err (u32 (d.(d_crc_err) + 1)) d, [])
     else if negb (is_known_type d.(d_type)) then
       Some (set_d_unknown_type (u32 (d.(d_unknown_type) + 1)) d, [])
     else if d.(d_cb) then
       payload ← load_bytes d.(d_payload) 0 d.(d_len);
       Some (d, [mkFrame d.(d_type) d.(d_seq) payload])
     else Some (d, []));
  Some (set_d_state GOV_DEC_HUNT_SOF d, out).

Definition push_ver (byte : Z) (d : gov_decoder) : gov_decoder :=
  if byte =? GOV_VER then set_d_state GOV_DEC_HDR (crc_feed byte d)
  else if byte =? GOV_SOF then start_frame d
  else set_d_state GOV_DEC_HUNT_SOF d.

Definition push_hdr (byte : Z) (d : gov_decoder) : gov_decoder :=
  let d := crc_feed byte d in
  let d :=
    if d.(d_hdr_idx) =? 0 then set_d_type byte d
    else if d.(d_hdr_idx) =? 1 then set_d_seq byte d
    else if d.(d_hdr_idx) =? 2 then set_d_len (u16 (byte .<< 8)) d
    else set_d_len (u16 (d.(d_len) .| byte)) d in
  let d := set_d_hdr_idx (u8 (d.(d_hdr_idx) + 1)) d in
  if 4 <=? d.(d_hdr_idx) then
    if GOV_MAX_PAYLOAD <? d.(d_len) then
      set_d_state GOV_DEC_HUNT_SOF (set_d_len_err (u32 (d.(d_len_err) + 1)) d)
    else if d.(d_len) =? 0 then set_d_state GOV_DEC_CRC d
    else set_d_state GOV_DEC_PAYLOAD (set_d_payload_idx 0 d)
  else d.

Definition push_payload (byte : Z) (d : gov_decoder) : option gov_decoder :=
  let d := crc_feed byte d in
  payload ← store d.(d_payload) d.(d_payload_idx) byte;
  let d := set_d_payload payload d in
  let d := set_d_payload_idx (u16 (d.(d_payload_idx) + 1)) d in
  Some (if d.(d_len) <=? d.(d_payload_idx) then set_d_state GOV_DEC_CRC d else d).

Definition push_crc (byte : Z) (d : gov_decoder) : option (gov_decoder * list frame) :=
  let d := set_d_crc_rx (u16 (u16 (d.(d_crc_rx) .<< 8) .| byte)) d in
  let d := set_d_crc_idx (u8 (d.(d_crc_idx) + 1)) d in
  if 2 <=? d.(d_crc_idx) then finish_frame d else Some (d, []).

(** One byte, on a non-NULL decoder: the next state and the callback invocations. *)
Definition gov_decoder_push (d : gov_decoder) (byte : Z) : option (gov_decoder * list frame) :=
  match d.(d_state) with
  | GOV_DEC_HUNT_SOF => Some (if byte =? GOV_SOF then start_frame d else d, [])
  | GOV_DEC_VER => Some (push_ver byte d, [])
  | GOV_DEC_HDR => Some (push_hdr byte d, [])
  | GOV_DEC_PAYLOAD => d ← push_payload byte d; Some (d, [])
  | GOV_DEC_CRC => push_crc byte d
  end.

Definition decode (d : gov_decoder) (bytes : list Z) : option (gov_decoder * list frame) :=
  feed gov_decoder_push d bytes.

(** ** The wire format *)

(** VER .. PAYLOAD, the bytes the CRC covers. *)
Definition frame_body (f : frame) : list Z :=
  [GOV_VER; f.(f_type); f.(f_seq)] ++ be16 (Z.of_nat (length f.(f_payload))) ++ f.(f_payload).

Definition frame_crc (f : frame) : Z := gov_crc16_ccitt GOV_CRC_INIT (frame_body f).

Definition frame_bytes (f : frame) : list Z := [GOV_SOF] ++ frame_body f ++ be16 (frame_crc f).

Definition frame_wf (f : frame) : Prop :=
  is_u8 f.(f_type) /\ is_u8 f.(f_seq) /\ is_bytes f.(f_payload) /\
  (length f.(f_payload) <= 64)%nat.

Definition no_sof (bs : list Z) : Prop := Forall (fun b => b <> GOV_SOF) bs.

(** ** The abstract decoder: the bytes since the anchoring SOF, [[]] when hunting *)
Inductive event :=
  | ev_frame (f : frame)
  | ev_crc_err
  | ev_len_err
  | ev_unknown_type.

#[export] Instance event_eq_dec : EqDecision event.
Proof. solve_decision. Defined.

Definition byte_at (buf : list Z) (i : nat) : Z := default 0 (buf !! i).

(** The LEN field of a header. *)
Definition declared_len (buf : list Z) : Z := byte_at buf 4 * 2 ^ 8 + byte_at buf 5.

(** The frame a complete buffer claims to be, and the CRC it carries. *)
Definition buf_frame (buf : list Z) : frame :=
  mkFrame (byte_at buf 2) (byte_at buf 3)
    (take (Z.to_nat (declared_len buf)) (drop 6 buf)).

Definition buf_crc_ok (buf : list Z) : bool :=
  be_val (drop (length buf - 2) buf) =? gov_crc16_ccitt GOV_CRC_INIT (take (length buf - 3) (drop 1 buf)).

Definition judge (buf : list Z) : event :=
  if negb (buf_crc_ok buf) then ev_crc_err
  else if negb (is_known_type (byte_at buf 2)) then ev_unknown_type
  else ev_frame (buf_frame buf).

Definition abs_push (buf : list Z) (byte : Z) : list Z * list event :=
  match buf with
  | [] => (if byte =? GOV_SOF then [GOV_SOF] else [], [])
  | [_] =>
      (if byte =? GOV_VER then [GOV_SOF; GOV_VER]
       else if byte =? GOV_SOF then [GOV_SOF] else [], [])
  | _ =>
      let buf := buf ++ [byte] in
      if (length buf <? 6)%nat then (buf, [])
      else if (length buf =? 6)%nat && (GOV_MAX_PAYLOAD <? declared_len buf) then ([], [ev_len_err])
      else if (length buf =? Z.to_nat (declared_len buf) + 8)%nat then ([], [judge buf])
      else (buf, [])
  end.

(** *** The abstraction of a concrete decoder *)
Definition header (d : gov_decoder) : list Z :=
  [GOV_SOF; GOV_VER; d.(d_type); d.(d_seq)] ++ be16 d.(d_len).

Definition abs_of (d : gov_decoder) : list Z :=
  match d.(d_state) with
  | GOV_DEC_HUNT_SOF => []
  | GOV_DEC_VER => [GOV_SOF]
  | GOV_DEC_HDR => take (2 + Z.to_nat d.(d_hdr_idx)) (header d)
  | GOV_DEC_PAYLOAD => header d ++ take (Z.to_nat d.(d_payload_idx)) d.(d_payload)
  | GOV_DEC_CRC =>
      header d ++ take (Z.to_nat d.(d_len)) d.(d_payload)
        ++ take (Z.to_nat d.(d_crc_idx)) [d.(d_crc_rx)]
  end.

Definition state_ok (d : gov_decoder) : Prop :=
  match d.(d_state) with
  | GOV_DEC_HUNT_SOF => True
  | GOV_DEC_VER => d.(d_hdr_idx) = 0 /\ d.(d_crc_idx) = 0 /\ d.(d_crc_rx) = 0 /\
      d.(d_crc_calc) = GOV_CRC_INIT
  | GOV_DEC_HDR => 0 <= d.(d_hdr_idx) <= 3 /\ d.(d_crc_idx) = 0 /\ d.(d_crc_rx) = 0 /\
      (d.(d_hdr_idx) = 3 -> d.(d_len) mod 2 ^ 8 = 0) /\
      d.(d_crc_calc) = gov_crc16_ccitt GOV_CRC_INIT (drop 1 (abs_of d))
  | GOV_DEC_PAYLOAD => 0 <= d.(d_payload_idx) < d.(d_len) /\ d.(d_len) <= 64 /\
      d.(d_crc_idx) = 0 /\ d.(d_crc_rx) = 0 /\
      d.(d_crc_calc) = gov_crc16_ccitt GOV_CRC_INIT (drop 1 (abs_of d))
  | GOV_DEC_CRC => d.(d_len) <= 64 /\ (d.(d_crc_idx) = 0 /\ d.(d_crc_rx) = 0 \/ d.(d_crc_idx) = 1) /\
      is_u8 d.(d_crc_rx) /\
      d.(d_crc_calc) = gov_crc16_ccitt GOV_CRC_INIT
        (drop 1 (header d ++ take (Z.to_nat d.(d_len)) d.(d_payload)))
  end.

(** The decoder's invariant. *)
Definition dec_ok (d : gov_decoder) : Prop :=
  is_u8 d.(d_type) /\ is_u8 d.(d_seq) /\ is_u16 d.(d_len) /\
  length d.(d_payload) = 64%nat /\ is_bytes d.(d_payload) /\ state_ok d.

Definition delivered (e : event) : option frame := match e with ev_frame f => Some f | _ => None end.

(** The three statistics counters, and what an event does to them. *)
Definition stats (d : gov_decoder) : Z * Z * Z := (d.(d_crc_err), d.(d_len_err), d.(d_unknown_type)).

Definition bump (st : Z * Z * Z) (e : event) : Z * Z * Z :=
  let '(c, l, u) := st in
  match e with
  | ev_frame _ => (c, l, u)
  | ev_crc_err => (u32 (c + 1), l, u)
  | ev_len_err => (c, u32 (l + 1), u)
  | ev_unknown_type => (c, l, u32 (u + 1))
  end.

(** What the concrete decoder makes of the abstract one's events: callback invocations when a
    callback is registered, statistics otherwise. *)
Definition shows (d d' : gov_decoder) (evs : list event) (out : list frame) : Prop :=
  d'.(d_cb) = d.(d_cb) /\ out = (if d.(d_cb) then omap delivered evs else []) /\
  stats d' = fold_left bump evs (stats d).

Fixpoint abs_decode (buf bytes : list Z) : list Z * list event :=
  match bytes with
  | [] => (buf, [])
  | b :: bytes =>
      let '(buf1, e1) := abs_push buf b in
      let '(buf2, e2) := abs_decode buf1 bytes in (buf2, e1 ++ e2)
  end.

(** The deliveries [fs] are frames of the wire bytes, disjoint and in order, garbage between. *)
Inductive factors : list Z -> list frame -> Prop :=
  | factors_garbage g : factors g []
  | factors_frame g f rest fs :
      frame_wf f -> is_known_type f.(f_type) = true -> factors rest fs ->
      factors (g ++ frame_bytes f ++ rest) (f :: fs).

(** Frames on the wire, each after some line noise. *)
Definition wire (stream : list (list Z * frame)) : list Z :=
  stream ≫= fun '(noise, f) => noise ++ frame_bytes f.

(** The invariant of the abstract buffer. *)
Definition abs_ok (buf : list Z) : Prop :=
  is_bytes buf /\ take 2 buf = take (length buf) [GOV_SOF; GOV_VER] /\
  ((6 <= length buf)%nat ->
     declared_len buf <= 64 /\ Z.of_nat (length buf) < declared_len buf + 8).

(** Well-formedness of a literal frame. *)
Ltac frame_lit :=
  unfold frame_wf; cbn [f_type f_seq f_payload length]; split_and!;
  [first [clia | by split]|first [clia | by split]|solve_bytes|lia].

(** ** The encoder *)
Lemma be_val_be16 v : is_u16 v -> be_val (be16 v) = v.
Proof. intros. by rewrite be_val_bits, be16_val by (done || apply be16_bytes). Qed.

Lemma frame_body_bytes f : frame_wf f -> is_bytes (frame_body f).
Proof.
  intros (Ht & Hs & Hp & _). pose proof (be16_bytes (Z.of_nat (length (f_payload f)))).
  unfold frame_body. solve_bytes.
Qed.

Lemma frame_crc_range f : frame_wf f -> is_u16 (frame_crc f).
Proof. intros. apply crc16_range; [by split | by apply frame_body_bytes]. Qed.

Lemma frame_bytes_length f : length (frame_bytes f) = (length f.(f_payload) + 8)%nat.
Proof. unfold frame_bytes, frame_body. rewrite !length_app, !be16_length. cbn. lia. Qed.

(** The [memcpy] of the payload, skipped for an empty one. *)
Lemma encode_copy n (payload : option (list Z)) (pre rest : list Z) :
  Z.of_nat (length pre) = GOV_FRAME_HDR ->
  (n <= length rest)%nat -> (forall p, payload = Some p -> (n <= length p)%nat) ->
  (payload = None -> n = 0%nat) ->
  (if 0 <? Z.of_nat n then
     p ← payload; bytes ← load_bytes p 0 (Z.of_nat n); store_bytes (pre ++ rest) GOV_FRAME_HDR bytes
   else Some (pre ++ rest)) = Some (pre ++ take n (default [] payload) ++ drop n rest).
Proof.
  intros Hpre Hrest Hp Hnone. destruct (Z.ltb_spec 0 (Z.of_nat n)) as [Hn|Hn].
  - destruct payload as [p|]; [|specialize (Hnone eq_refl); lia]. specialize (Hp p eq_refl). cbn [mbind option_bind default].
    rewrite load_bytes_Some by lia. cbn [mbind option_bind]. rewrite drop_0, Nat2Z.id.
    rewrite <-Hpre, store_bytes_Some by (rewrite ?length_app, ?length_take; lia).
    rewrite Nat2Z.id, take_app_length, length_take_le by lia. by rewrite drop_app_add.
  - assert (n = 0%nat) as -> by lia. by rewrite take_0, drop_0.
Qed.

Lemma encode_write_spec type seq payload n buf :
  (n + 8 <= length buf)%nat -> (forall p, payload = Some p -> (n <= length p)%nat) ->
  (payload = None -> n = 0%nat) ->
  let f := mkFrame type seq (take n (default [] payload)) in
  encode_write type seq payload (Z.of_nat n) buf = Some (frame_bytes f ++ drop (n + 8) buf).
Proof.
  intros Hbuf Hp Hnone f.
  assert (Hlen : length (f_payload f) = n).
  { cbn. rewrite length_take. destruct payload as [p|]; cbn; [specialize (Hp p eq_refl)|specialize (Hnone eq_refl)]; lia. }
  destruct buf as [|b0 [|b1 [|b2 [|b3 [|b4 [|b5 rest]]]]]]; cbn [length] in Hbuf; try lia.
  unfold encode_write. store_literal.
  set (pre := [GOV_SOF; GOV_VER; type; seq; u8 (Z.of_nat n .>> 8 .& 255); u8 (Z.of_nat n .& 255)]).
  change (GOV_SOF :: GOV_VER :: type :: seq :: ?a :: ?b :: rest) with (pre ++ rest).
  rewrite encode_copy by (done || lia). cbn [mbind option_bind].
  assert (Hpre : pre ++ take n (default [] payload) = [GOV_SOF] ++ frame_body f).
  { unfold frame_body. by rewrite Hlen. }
  assert (Hbody : length (frame_body f) = (5 + n)%nat).
  { unfold frame_body. by rewrite !length_app, be16_length, Hlen. }
  destruct (drop n rest) as [|x [|y r2]] eqn:Hr;
    [apply (f_equal length) in Hr; rewrite length_drop in Hr; cbn in Hr; lia.. |].
  rewrite app_assoc, Hpre, <-app_assoc.
  rewrite load_bytes_Some by (rewrite ?length_app, ?Hbody; cbn; lia). cbn [mbind option_bind].
  rewrite (drop_app_length' [GOV_SOF]), take_app_length' by (rewrite ?Hbody; cbn; lia).
  fold (frame_crc f). rewrite (app_assoc [GOV_SOF]).
  unfold GOV_FRAME_HDR. assert (Hl : Z.of_nat (length ([GOV_SOF] ++ frame_body f)) = 6 + Z.of_nat n).
  { rewrite length_app, Hbody. cbn. lia. }
  rewrite store_past by lia. rewrite Hl, Z.sub_diag. store_literal.
  rewrite store_past by lia. rewrite Hl.
  replace (6 + Z.of_nat n + 1 - (6 + Z.of_nat n)) with 1 by lia. store_literal.
  f_equal. unfold frame_bytes. rewrite <-!app_assoc. do 2 f_equal.
  change (drop (n + 8) (b0 :: b1 :: b2 :: b3 :: b4 :: b5 :: rest)) with (drop (n + 8) ([b0; b1; b2; b3; b4; b5] ++ rest)).
  replace (n + 8)%nat with (length [b0; b1; b2; b3; b4; b5] + (n + 2))%nat by (cbn; lia).
  rewrite drop_app_add, <-drop_drop, Hr. done.
Qed.

(** A call whose guards pass. *)
Lemma frame_encode_success type seq payload len buf cap :
  0 <= len <= 64 -> (payload = None -> len = 0) -> len + 8 <= cap -> cap <= Z.of_nat (length buf) ->
  (forall p, payload = Some p -> len <= Z.of_nat (length p)) ->
  gov_frame_encode type seq payload len (Some buf) cap =
    Some (len + 8, Some (frame_bytes (mkFrame type seq (take (Z.to_nat len) (default [] payload)))
                         ++ drop (Z.to_nat len + 8) buf)).
Proof.
  intros Hlen Hnone Hcap Hbuf Hp. unfold gov_frame_encode, GOV_MAX_PAYLOAD, GOV_FRAME_HDR, GOV_FRAME_CRC.
  rewrite (proj2 (Z.ltb_ge 64 len)) by lia.
  assert (bool_decide (payload = None) && (0 <? len) = false) as ->.
  { destruct payload; [done|]. rewrite Hnone by done. done. }
  rewrite (proj2 (Z.ltb_ge cap _)) by lia. replace (6 + len + 2) with (len + 8) by lia.
  assert (Hn : Z.of_nat (Z.to_nat len) = len) by lia. rewrite <-Hn at 1.
  rewrite encode_write_spec; [done|lia| |].
  - intros p Hpp. specialize (Hp p Hpp). lia.
  - intros Hz. by rewrite Hnone.
Qed.

(** A call that a guard stops. *)
Lemma frame_encode_failure type seq payload len buf cap :
  0 <= len -> 64 < len \/ payload = None /\ len <> 0 \/ cap < len + 8 ->
  gov_frame_encode type seq payload len (Some buf) cap = Some (0, Some buf).
Proof.
  intros H0 H. unfold gov_frame_encode, GOV_MAX_PAYLOAD, GOV_FRAME_HDR, GOV_FRAME_CRC.
  destruct (Z.ltb_spec 64 len); [done|]. destruct (bool_decide (payload = None) && (0 <? len)) eqn:E; [done|].
  destruct (Z.ltb_spec cap (6 + len + 2)); [done|]. exfalso.
  destruct H as [|[[-> Hne]|]]; [lia| |lia]. rewrite bool_decide_true in E by done.
  apply Z.ltb_ge in E. lia.
Qed.

(** C19: [gov_frame_encode], for buffers that are as large as the caller says: it never steps
    outside them; it writes the frame and returns its length exactly when [out] is given, the
    length is at most 64, the payload is given (or empty) and the capacity suffices; in every other
    case it returns 0 and leaves the buffer alone. *)
Theorem gov_frame_encode_spec type seq payload len out cap :
  is_u16 len ->
  (forall buf, out = Some buf -> cap <= Z.of_nat (length buf)) ->
  (forall p, payload = Some p -> len <= Z.of_nat (length p)) ->
  gov_frame_encode type seq payload len out cap = Some
    match out with
    | None => (0, None)
    | Some buf =>
        if bool_decide (len <= 64 /\ (payload = None -> len = 0) /\ len + 8 <= cap)
        then (len + 8, Some (frame_bytes (mkFrame type seq (take (Z.to_nat len) (default [] payload)))
                             ++ drop (Z.to_nat len + 8) buf))
        else (0, Some buf)
    end.
Proof.
  intros Hlen Hcap Hp. destruct out as [buf|]; [|done]. specialize (Hcap buf eq_refl).
  case_bool_decide as H.
  - destruct H as (? & ? & ?). apply frame_encode_success; [clia|done..].
  - apply frame_encode_failure; [clia|]. destruct (Z.le_gt_cases len 64); [right|left; lia].
    destruct (Z.le_gt_cases (len + 8) cap); [left|right; lia].
    destruct payload; [exfalso; apply H; done|]. split; [done|]. intros ->. by apply H.
Qed.

(** A three-byte command into a buffer of 72 bytes. *)
Lemma gov_frame_encode_spec_witness :
  gov_frame_encode 4 9 (Some [1; 2; 3]) 3 (Some (replicate 72 0xAA)) 72 =
    Some (11, Some (frame_bytes (mkFrame 4 9 [1; 2; 3]) ++ replicate 61 0xAA)).
Proof.
  assert (Hlen : is_u16 3) by (split; [lia | reflexivity]).
  rewrite (gov_frame_encode_spec 4 9 (Some [1; 2; 3]) 3 (Some (replicate 72 0xAA)) 72 Hlen).
  - reflexivity.
  - intros buf [= <-]. vm_compute. congruence.
  - intros p [= <-]. vm_compute. congruence.
Defined.
(** ** The decoder refines the abstract decoder *)
Definition simulates (d : gov_decoder) (byte : Z) (r : option (gov_decoder * list frame)) : Prop :=
  exists d' out evs, r = Some (d', out) /\ dec_ok d' /\
    abs_push (abs_of d) byte = (abs_of d', evs) /\ shows d d' evs out.

Lemma shows_nil d d' : d'.(d_cb) = d.(d_cb) -> stats d' = stats d -> shows d d' [] [].
Proof. intros Hc Hs. split; [done|]. split; [by destruct (d_cb d) | done]. Qed.

(** A step without events. *)
Lemma sim_quiet d b d' :
  dec_ok d' -> abs_push (abs_of d) b = (abs_of d', []) ->
  d'.(d_cb) = d.(d_cb) -> stats d' = stats d -> simulates d b (Some (d', [])).
Proof. intros. exists d', [], []. split_and!; [done..|]. by apply shows_nil. Qed.

Lemma be16_combine v :
  is_u16 v -> exists hi lo, be16 v = [hi; lo] /\ is_u8 hi /\ is_u8 lo /\ hi * 2 ^ 8 + lo = v.
Proof.
  intros Hv. exists (u8 ((v .>> 8) .& 0xFF)), (u8 (v .& 0xFF)).
  split_and!; [done|apply u8_range|apply u8_range|]. by apply be_val_be16.
Qed.

Lemma be16_bytes_of hi lo : is_u8 hi -> is_u8 lo -> be16 (hi * 2 ^ 8 + lo) = [hi; lo].
Proof.
  intros Hh Hl. unfold be16. change 0xFF with (Z.ones 8).
  rewrite !Z.land_ones, Z.shiftr_div_pow2 by lia. do 2 f_equal; [dlia|]. f_equal. dlia.
Qed.

Lemma len_hi b : is_u8 b -> u16 (b .<< 8) = b * 2 ^ 8 + 0.
Proof. intros. rewrite Z.shiftl_mul_pow2 by lia. rewrite Z.add_0_r. apply u16_small. clia. Qed.

Lemma len_lo l b : is_u16 l -> l mod 2 ^ 8 = 0 -> is_u8 b -> u16 (l .| b) = l + b.
Proof.
  intros Hl Hm Hb. assert (Hand : l .& b = 0).
  { apply Z.bits_inj'. intros i Hi. rewrite Z.land_spec, Z.bits_0.
    destruct (Z.lt_ge_cases i 8) as [Hlt|Hge].
    - by rewrite <-(Z.mod_pow2_bits_low l 8), Hm, Z.bits_0 by lia.
    - rewrite <-(u8_small b Hb). unfold u8. by rewrite Z.mod_pow2_bits_high, andb_false_r by lia. }
  rewrite <-Z.lxor_lor, <-Z.add_nocarry_lxor by done. apply u16_small. revert Hl Hm Hb. dlia.
Qed.

Lemma crc_snoc c bs b : gov_crc16_ccitt c (bs ++ [b]) = gov_crc16_ccitt (gov_crc16_ccitt c bs) [b].
Proof. apply crc16_app. Qed.

Ltac split_dec Hd :=
  match type of Hd with
  | dec_ok ?d => destruct Hd as (Ht & Hs & Hl & Hlen & Hpl & Hst);
      destruct d as [cb st ty sq ln pi hi ci cc cr pl e1 e2 e3];
      cbn [d_cb d_state d_type d_seq d_len d_payload_idx d_hdr_idx d_crc_idx d_crc_calc d_crc_rx
           d_payload d_crc_err d_len_err d_unknown_type] in *; subst st; unfold state_ok in Hst; cbn in Hst
  end.

Ltac dec_solve :=
  unfold dec_ok, state_ok; cbn -[is_u8 is_u16 Z.modulo u16];
  split_and!; try done; try lia; try apply u16_range; rewrite <-?crc16_app; try done.

Lemma start_frame_ok d : dec_ok d -> dec_ok (start_frame d) /\ abs_of (start_frame d) = [GOV_SOF].
Proof. intros (? & ? & ? & ? & ? & ?). split; [|done]. dec_solve. Qed.

Lemma sim_hunt d b :
  dec_ok d -> d_state d = GOV_DEC_HUNT_SOF ->
  simulates d b (Some (if b =? GOV_SOF then start_frame d else d, [])).
Proof.
  intros Hd E. destruct (start_frame_ok d Hd) as [Hok Habs].
  apply sim_quiet; destruct (b =? GOV_SOF) eqn:Eb; try done;
    rewrite ?Habs; unfold abs_of; rewrite E; cbn [abs_push]; by rewrite Eb.
Qed.

Lemma sim_ver d b :
  is_u8 b -> dec_ok d -> d_state d = GOV_DEC_VER -> simulates d b (Some (push_ver b d, [])).
Proof.
  intros Hb Hd E. destruct (start_frame_ok d Hd) as [Hok Habs]. unfold push_ver.
  assert (Ha : abs_of d = [GOV_SOF]) by (unfold abs_of; by rewrite E).
  destruct (Z.eqb_spec b GOV_VER) as [->|Hv]; [|destruct (Z.eqb_spec b GOV_SOF) as [->|Hsof]].
  - clear Hok Habs Ha. split_dec Hd. destruct Hst as (-> & -> & -> & ->).
    apply sim_quiet; [dec_solve|done..].
  - by apply sim_quiet; [|rewrite Habs, Ha|..].
  - apply sim_quiet; [destruct Hd as (? & ? & ? & ? & ? & ?); dec_solve| |done..].
    rewrite Ha. cbn. by rewrite (proj2 (Z.eqb_neq _ _) Hv), (proj2 (Z.eqb_neq _ _) Hsof).
Qed.

#[local] Opaque gov_crc16_ccitt be16.

Lemma sim_hdr_early d b :
  is_u8 b -> dec_ok d -> d_state d = GOV_DEC_HDR -> d_hdr_idx d <= 2 ->
  simulates d b (Some (push_hdr b d, [])).
Proof.
  intros Hb Hd E Hi. split_dec Hd. destruct Hst as (Hhi & -> & -> & _ & ->).
  pose proof (be16_bytes_of b 0 Hb ltac:(clia)) as Hbe.
  assert (hi = 0 \/ hi = 1 \/ hi = 2) as [-> | [-> | ->]] by lia;
    unfold push_hdr; cbn [d_hdr_idx crc_feed set_d_crc_calc Z.eqb Pos.eqb];
    rewrite ?len_hi by done;
    cbn [d_hdr_idx set_d_type set_d_seq set_d_len];
    repeat match goal with |- context [u8 (?x + 1)] =>
      let v := eval vm_compute in (u8 (x + 1)) in change (u8 (x + 1)) with v end;
    cbn [d_hdr_idx set_d_hdr_idx Z.leb Z.compare Pos.compare Pos.compare_cont];
    apply sim_quiet; unfold dec_ok, state_ok, abs_of, header;
    cbn -[is_u8 is_u16 Z.modulo Z.mul Z.add]; rewrite <-?crc16_app;
    change (Z.to_nat 0) with 0%nat; change (Z.to_nat 1) with 1%nat; change (Z.to_nat 2) with 2%nat;
    change (Z.to_nat 3) with 3%nat; rewrite ?Hbe; cbn -[is_u8 is_u16 Z.modulo Z.mul Z.add];
    rewrite ?take_0; cbn -[is_u8 is_u16 Z.modulo Z.mul Z.add];
    split_and?; try reflexivity; try assumption; try lia.
  - clia.
  - intros _. rewrite Z.add_0_r. by apply Z.mod_mul.
Qed.

Lemma declared_len_header ty sq n rest :
  is_u16 n -> declared_len ([GOV_SOF; GOV_VER; ty; sq] ++ be16 n ++ rest) = n.
Proof.
  intros Hn. destruct (be16_combine n Hn) as (hi & lo & -> & _ & _ & Hv).
  unfold declared_len, byte_at. cbn -[Z.mul]. exact Hv.
Qed.

Lemma abs_push_len ty sq h b :
  is_u8 h -> is_u8 b ->
  abs_push [GOV_SOF; GOV_VER; ty; sq; h] b =
    (if GOV_MAX_PAYLOAD <? h * 2 ^ 8 + b then ([], [ev_len_err])
     else ([GOV_SOF; GOV_VER; ty; sq; h; b], [])).
Proof.
  intros Hh Hb. unfold abs_push. cbn [app length].
  change (declared_len _) with (h * 2 ^ 8 + b). change (6 <? 6)%nat with false.
  change (6 =? 6)%nat with true. cbn [andb]. destruct (_ <? _); [done|].
  by rewrite (proj2 (Nat.eqb_neq 6 _)) by lia.
Qed.

Lemma sim_hdr_last d b :
  is_u8 b -> dec_ok d -> d_state d = GOV_DEC_HDR -> d_hdr_idx d = 3 ->
  simulates d b (Some (push_hdr b d, [])).
Proof.
  intros Hb Hd E Hi. split_dec Hd. subst hi. destruct Hst as (Hhi & -> & -> & Hm & ->).
  specialize (Hm eq_refl).
  destruct (be16_combine ln Hl) as (h & l & Hbe & Hh & Hlo & Hv).
  assert (l = 0) as ->. { revert Hv Hm Hh Hlo. clear. dlia. }
  assert (Hln : u16 (ln .| b) = h * 2 ^ 8 + b). { rewrite len_lo by done. lia. }
  pose proof (be16_bytes_of h b Hh Hb) as Hbe'.
  unfold push_hdr, crc_feed. cbn -[u8 u16 u32 Z.add Z.lor]. rewrite Hln. change (u8 (3 + 1)) with 4.
  change (Z.to_nat 3) with 3%nat. cbn -[u32 Z.add Z.mul]. rewrite Hbe, <-crc16_app. cbn -[u32 Z.add Z.mul].
  match goal with |- simulates ?d _ _ => set (d0 := d) end.
  assert (Ha : abs_of d0 = [GOV_SOF; GOV_VER; ty; sq; h]).
  { unfold abs_of, header. cbn -[Z.to_nat]. change (Z.to_nat 3) with 3%nat. cbn. by rewrite Hbe. }
  pose proof (abs_push_len ty sq h b Hh Hb) as Hpush. rewrite <-Ha in Hpush.
  destruct (Z.ltb_spec GOV_MAX_PAYLOAD (h * 2 ^ 8 + b)) as [Hbig|Hsmall].
  - eexists _, _, [ev_len_err]. split; [reflexivity|]. split_and!.
    + dec_solve. clia.
    + exact Hpush.
    + unfold shows. split_and!; [done | by destruct cb | done].
  - assert (is_u16 (h * 2 ^ 8 + b)) by clia. unfold GOV_MAX_PAYLOAD in Hsmall.
    destruct (Z.eqb_spec (h * 2 ^ 8 + b) 0) as [Hz|Hnz]; apply sim_quiet; try reflexivity.
    + unfold dec_ok, state_ok, header. cbn -[is_u8 is_u16 Z.modulo Z.mul Z.add]. 
      rewrite Hbe', Hz. cbn. split_and!; (reflexivity || assumption || lia || clia || tauto).
    + rewrite Hpush. unfold abs_of, header. cbn -[Z.mul Z.add]. by rewrite Hbe', Hz.
    + unfold dec_ok, state_ok, abs_of, header. cbn -[is_u8 is_u16 Z.modulo Z.mul Z.add]. 
      rewrite Hbe'. cbn -[Z.mul Z.add]. split_and!; (reflexivity || assumption || lia || clia || tauto).
    + rewrite Hpush. unfold abs_of, header. cbn -[Z.mul Z.add]. by rewrite Hbe'.
Qed.

Lemma abs_push_body ty sq n rest b :
  is_u16 n ->
  abs_push ([GOV_SOF; GOV_VER; ty; sq] ++ be16 n ++ rest) b =
    (let buf := [GOV_SOF; GOV_VER; ty; sq] ++ be16 n ++ rest ++ [b] in
     if (length rest =? Z.to_nat n + 1)%nat then ([], [judge buf]) else (buf, [])).
Proof.
  intros Hn. unfold abs_push. cbn [app].
  rewrite (app_assoc (be16 n)), !app_comm_cons.
  pose proof (declared_len_header ty sq n (rest ++ [b]) Hn) as Hd. cbn [app] in Hd.
  rewrite <-!app_comm_cons, <-app_assoc, Hd.
  assert (Hl : length (GOV_SOF :: GOV_VER :: ty :: sq :: be16 n ++ rest ++ [b]) = (length rest + 7)%nat).
  { cbn [length]. rewrite !length_app, be16_length. cbn [length]. lia. }
  rewrite Hl. rewrite (proj2 (Nat.ltb_ge _ _)), (proj2 (Nat.eqb_neq (length rest + 7) 6)) by lia. cbn [andb].
  replace (length rest + 7 =? Z.to_nat n + 8)%nat with (length rest =? Z.to_nat n + 1)%nat; [done|].
  destruct (Nat.eqb_spec (length rest) (Z.to_nat n + 1)); symmetry;
    [apply Nat.eqb_eq | apply Nat.eqb_neq]; lia.
Qed.

Lemma take_S_insert {A} (l : list A) n x :
  (n < length l)%nat -> take (S n) (<[n := x]> l) = take n l ++ [x].
Proof.
  intros Hn. rewrite (take_S_r _ n x) by by apply list_lookup_insert_eq. by rewrite take_insert_ge by lia.
Qed.

Lemma sim_payload d b :
  is_u8 b -> dec_ok d -> d_state d = GOV_DEC_PAYLOAD ->
  simulates d b (d ← push_payload b d; Some (d, [])).
Proof.
  intros Hb Hd E. split_dec Hd. destruct Hst as (Hpi & Hln & -> & -> & ->).
  unfold push_payload, crc_feed. cbn -[u16 Z.add Z.leb]. rewrite <-crc16_app.
  rewrite store_Some by lia. cbn -[u16 Z.add Z.leb].
  rewrite (u16_small (pi + 1)) by clia.
  set (pl' := <[Z.to_nat pi := b]> pl).
  assert (Htake : take (Z.to_nat (pi + 1)) pl' = take (Z.to_nat pi) pl ++ [b]).
  { replace (Z.to_nat (pi + 1)) with (S (Z.to_nat pi)) by lia. apply take_S_insert. lia. }
  assert (Hok : length pl' = 64%nat /\ is_bytes pl').
  { split; [by unfold pl'; rewrite length_insert|]. by apply Forall_insert. }
  destruct Hok as [Hlen' Hpl'].
  match goal with |- simulates ?d _ _ => set (d0 := d) end.
  assert (Ha : abs_push (abs_of d0) b =
    ([GOV_SOF; GOV_VER; ty; sq] ++ be16 ln ++ take (Z.to_nat pi) pl ++ [b], [])).
  { change (abs_of d0) with ([GOV_SOF; GOV_VER; ty; sq] ++ be16 ln ++ take (Z.to_nat pi) pl).
    rewrite abs_push_body by done. rewrite length_take.
    by rewrite (proj2 (Nat.eqb_neq _ _)) by lia. }
  assert (Hcrc : gov_crc16_ccitt GOV_CRC_INIT (GOV_VER :: ty :: sq :: (be16 ln ++ take (Z.to_nat pi) pl) ++ [b]) =
                 gov_crc16_ccitt GOV_CRC_INIT (GOV_VER :: ty :: sq :: be16 ln ++ take (Z.to_nat (pi + 1)) pl')).
  { by rewrite Htake, <-app_assoc. }
  destruct (Z.leb_spec ln (pi + 1)) as [Hend|Hmore]; apply sim_quiet; try reflexivity.
  - assert (pi + 1 = ln) as Hlast by lia. rewrite Hlast in Hcrc, Htake |- *.
    unfold dec_ok, state_ok, header. cbn. split_and!; (exact Hcrc || assumption || lia || clia || tauto).
  - rewrite Ha. unfold abs_of, header. cbn. replace (pi + 1) with ln in Htake by lia.
    by rewrite Htake, app_nil_r.
  - unfold dec_ok, state_ok, header, abs_of. cbn -[Z.add]. split_and!; (exact Hcrc || assumption || lia || clia || tauto).
  - rewrite Ha. unfold abs_of, header. cbn -[Z.add]. by rewrite Htake.
Qed.

Lemma judge_complete ty sq n pl c1 c2 :
  is_u16 n -> length pl = Z.to_nat n ->
  judge ([GOV_SOF; GOV_VER; ty; sq] ++ be16 n ++ pl ++ [c1; c2]) =
    (if negb (c1 * 2 ^ 8 + c2 =? gov_crc16_ccitt GOV_CRC_INIT ([GOV_VER; ty; sq] ++ be16 n ++ pl))
     then ev_crc_err
     else if negb (is_known_type ty) then ev_unknown_type
     else ev_frame (mkFrame ty sq pl)).
Proof.
  intros Hn Hpl. set (buf := [GOV_SOF; GOV_VER; ty; sq] ++ be16 n ++ pl ++ [c1; c2]).
  assert (Hl : length buf = (Z.to_nat n + 8)%nat).
  { unfold buf. rewrite !length_app, be16_length, Hpl. cbn. lia. }
  assert (Hd : declared_len buf = n) by by apply declared_len_header.
  unfold judge, buf_crc_ok, buf_frame. rewrite Hl, Hd.
  replace (Z.to_nat n + 8 - 3)%nat with (length ([GOV_VER; ty; sq] ++ be16 n ++ pl))
    by (rewrite !length_app, be16_length, Hpl; cbn; lia).
  replace (Z.to_nat n + 8 - 2)%nat with (length ([GOV_SOF; GOV_VER; ty; sq] ++ be16 n ++ pl))
    by (rewrite !length_app, be16_length, Hpl; cbn; lia).
  assert (Hb1 : buf = ([GOV_SOF; GOV_VER; ty; sq] ++ be16 n ++ pl) ++ [c1; c2]).
  { unfold buf. by rewrite <-!app_assoc. }
  rewrite Hb1 at 1. rewrite drop_app_length.
  assert (Hb2 : drop 1 buf = ([GOV_VER; ty; sq] ++ be16 n ++ pl) ++ [c1; c2]).
  { unfold buf. cbn. by rewrite <-!app_assoc. }
  rewrite Hb2, take_app_length.
  assert (Hb3 : drop 6 buf = pl ++ [c1; c2]).
  { unfold buf. cbn. destruct (be16_combine n Hn) as (h & l & -> & _). done. }
  rewrite Hb3, <-Hpl, take_app_length. done.
Qed.

Lemma sim_crc d b :
  is_u8 b -> dec_ok d -> d_state d = GOV_DEC_CRC -> simulates d b (push_crc b d).
Proof.
  intros Hb Hd E. split_dec Hd. destruct Hst as (Hln & Hidx & Hcr & ->).
  set (body := take (Z.to_nat ln) pl). assert (Hbody : length body = Z.to_nat ln).
  { unfold body. rewrite length_take. clia. }
  unfold push_crc. cbn -[u16 u8 Z.lor Z.shiftl].
  destruct Hidx as [[-> ->]| ->].
  - change (u8 (0 + 1)) with 1. change (u16 (0 .<< 8)) with 0. rewrite Z.lor_0_l, u16_small by clia.
    cbn. apply sim_quiet; [|unfold abs_of|reflexivity..].
    + unfold dec_ok, state_ok. cbn. split_and!; (assumption || reflexivity || tauto).
    + cbn -[abs_push]. fold body. change (take (Z.to_nat 0) [0]) with (@nil Z).
      pose proof (abs_push_body ty sq ln body b Hl) as Hp. cbn [app] in Hp.
      rewrite app_nil_r, Hp, Hbody. by rewrite (proj2 (Nat.eqb_neq _ _)) by lia.
  - change (u8 (1 + 1)) with 2. rewrite len_hi, len_lo; [|clia| |done..].
    2: { rewrite Z.add_0_r. by apply Z.mod_mul. }
    match goal with |- simulates ?d _ _ => set (d0 := d) end.
    assert (Ha : abs_push (abs_of d0) b = ([], [judge ([GOV_SOF; GOV_VER; ty; sq] ++ be16 ln ++ body ++ [cr; b])])).
    { change (abs_of d0) with ([GOV_SOF; GOV_VER; ty; sq] ++ be16 ln ++ body ++ [cr]).
      rewrite abs_push_body, length_app, Hbody by done. cbn [length]. rewrite Nat.eqb_refl. cbn zeta.
      by rewrite <-(app_assoc body). }
    rewrite judge_complete in Ha by done.
    change (GOV_VER :: ty :: sq :: be16 ln ++ body) with ([GOV_VER; ty; sq] ++ be16 ln ++ body) in *.
    cbn -[Z.add Z.mul d0]. rewrite Z.add_0_r. unfold finish_frame. cbn -[Z.add Z.mul d0 u32].
    cbn [app] in Ha. change (d_crc_calc d0) with (gov_crc16_ccitt GOV_CRC_INIT (GOV_VER :: ty :: sq :: be16 ln ++ body)).
    rewrite load_bytes_Some by (cbn; clia). rewrite drop_0.
    set (ok := cr * 2 ^ 8 + b =? _) in *. change (is_known_type (d_type d0)) with (is_known_type ty).
    change (d_cb d0) with cb.
    destruct ok; [destruct (is_known_type ty); [destruct cb eqn:Ecb|]|]; cbn [negb] in *;
      eexists _, _, _; (split; [reflexivity|]); split_and!; try exact Ha;
      try (unfold dec_ok, state_ok; cbn -[is_u8 is_u16]; tauto);
      unfold shows; split_and!; try reflexivity; cbn; by destruct cb.
Qed.

Lemma push_refines d b : is_u8 b -> dec_ok d -> simulates d b (gov_decoder_push d b).
Proof.
  intros Hb Hd. unfold gov_decoder_push. destruct (d_state d) eqn:E.
  - by apply sim_hunt.
  - by apply sim_ver.
  - pose proof Hd as (_ & _ & _ & _ & _ & Hst). unfold state_ok in Hst. rewrite E in Hst.
    destruct (Z.le_gt_cases (d_hdr_idx d) 2); [by apply sim_hdr_early|].
    apply sim_hdr_last; [done..|]. lia.
  - by apply sim_payload.
  - by apply sim_crc.
Qed.

Lemma shows_trans d1 d2 d3 ev1 ev2 o1 o2 :
  shows d1 d2 ev1 o1 -> shows d2 d3 ev2 o2 -> shows d1 d3 (ev1 ++ ev2) (o1 ++ o2).
Proof.
  intros (C1 & O1 & S1) (C2 & O2 & S2). unfold shows. rewrite C2, C1, S2, S1, fold_left_app. split_and!; [done| |done].
  rewrite O1, O2, C1. destruct (d_cb d1); [|done]. by rewrite omap_app.
Qed.

(** ... and over a whole run. *)
Lemma decode_simulates d bytes :
  dec_ok d -> is_bytes bytes ->
  exists d' out evs,
    decode d bytes = Some (d', out) /\ dec_ok d' /\
    abs_decode (abs_of d) bytes = (abs_of d', evs) /\ shows d d' evs out.
Proof.
  intros Hd Hb. revert d Hd. induction Hb as [|b bytes Hb _ IH]; intros d Hd.
  { exists d, [], []. split_and!; [done..|]. by apply shows_nil. }
  destruct (push_refines d b Hb Hd) as (d1 & o1 & ev1 & E1 & Hd1 & A1 & S1).
  destruct (IH d1 Hd1) as (d2 & o2 & ev2 & E2 & Hd2 & A2 & S2).
  exists d2, (o1 ++ o2), (ev1 ++ ev2).
  unfold decode in *. cbn [feed abs_decode]. rewrite E1, A1. cbn [mbind option_bind]. rewrite E2, A2.
  split_and!; [done..|]. by eapply shows_trans.
Qed.

Lemma init_ok cb : dec_ok (gov_decoder_init cb).
Proof. repeat split; try done. by apply Forall_replicate. Qed.

(** C14: the decoder refines the abstract one: whatever bytes a fresh decoder is fed, it decodes them
    without a step outside its buffer and keeps its invariant, its final state abstracts to the
    abstract decoder's, the callback is invoked for exactly the abstract deliveries, in order (when
    one is registered), and the counters count the abstract errors. *)
Theorem decode_refines cb bytes :
  is_bytes bytes ->
  exists d' out evs,
    decode (gov_decoder_init cb) bytes = Some (d', out) /\ dec_ok d' /\
    abs_decode [] bytes = (abs_of d', evs) /\
    out = (if cb then omap delivered evs else []) /\ stats d' = fold_left bump evs (0, 0, 0).
Proof.
  intros Hb. destruct (decode_simulates _ bytes (init_ok cb) Hb) as (d' & out & evs & H & Hd & A & _ & Ho & Hs).
  by exists d', out, evs.
Qed.

Lemma decode_refines_witness :
  exists d' out evs,
    decode (gov_decoder_init true) [0x7E; 0x01; 0x7E; 0x41] = Some (d', out) /\ dec_ok d' /\
    abs_decode [] [0x7E; 0x01; 0x7E; 0x41] = (abs_of d', evs) /\
    out = omap delivered evs /\ stats d' = fold_left bump evs (0, 0, 0).
Proof. apply (decode_refines true [0x7E; 0x01; 0x7E; 0x41]). solve_bytes. Defined.

(** ** Properties of the abstract decoder *)
Lemma abs_decode_app buf b1 b2 :
  abs_decode buf (b1 ++ b2) =
    (let '(buf1, e1) := abs_decode buf b1 in
     let '(buf2, e2) := abs_decode buf1 b2 in (buf2, e1 ++ e2)).
Proof.
  revert buf. induction b1 as [|b b1 IH]; intros buf; cbn [app abs_decode].
  { by destruct (abs_decode buf b2). }
  destruct (abs_push buf b) as [buf1 e1]. rewrite IH.
  destruct (abs_decode buf1 b1) as [buf2 e2], (abs_decode buf2 b2) as [buf3 e3].
  by rewrite app_assoc.
Qed.

Lemma abs_noise g : no_sof g -> abs_decode [] g = ([], []).
Proof.
  induction 1 as [|b g Hb _ IH]; [done|]. cbn [abs_decode abs_push].
  by rewrite (proj2 (Z.eqb_neq _ _) Hb), IH.
Qed.

Lemma abs_header ty sq n :
  is_u16 n -> n <= 64 ->
  abs_decode [] ([GOV_SOF; GOV_VER; ty; sq] ++ be16 n) = ([GOV_SOF; GOV_VER; ty; sq] ++ be16 n, []).
Proof.
  intros Hn Hle. destruct (be16_combine n Hn) as (h & l & -> & Hh & Hl & Hv).
  change ([GOV_SOF; GOV_VER; ty; sq] ++ [h; l]) with ([GOV_SOF; GOV_VER; ty; sq; h] ++ [l]).
  rewrite abs_decode_app. change (abs_decode [] _) with ([GOV_SOF; GOV_VER; ty; sq; h], @nil event).
  cbn [abs_decode]. rewrite abs_push_len by done.
  by rewrite (proj2 (Z.ltb_ge _ _)) by (unfold GOV_MAX_PAYLOAD; lia).
Qed.

Lemma abs_rest ty sq n pre rest :
  is_u16 n -> (length pre + length rest <= Z.to_nat n + 1)%nat ->
  abs_decode ([GOV_SOF; GOV_VER; ty; sq] ++ be16 n ++ pre) rest =
    ([GOV_SOF; GOV_VER; ty; sq] ++ be16 n ++ pre ++ rest, []).
Proof.
  intros Hn. revert pre. induction rest as [|b rest IH]; intros pre Hlen.
  { cbn. by rewrite app_nil_r. }
  cbn [length] in Hlen. cbn [abs_decode]. rewrite abs_push_body by done.
  rewrite (proj2 (Nat.eqb_neq _ _)) by lia. cbv zeta iota.
  rewrite (IH (pre ++ [b])) by (rewrite length_app; cbn; lia). by rewrite <-(app_assoc pre).
Qed.

(** A header announcing the payload that follows, and any two CRC bytes. *)
Lemma abs_frame ty sq pl c1 c2 :
  (length pl <= 64)%nat ->
  let buf := [GOV_SOF; GOV_VER; ty; sq] ++ be16 (Z.of_nat (length pl)) ++ pl ++ [c1; c2] in
  abs_decode [] buf = ([], [judge buf]).
Proof.
  intros Hlen buf. assert (Hn : is_u16 (Z.of_nat (length pl))) by clia.
  unfold buf. rewrite app_assoc, abs_decode_app, abs_header by (done || lia).
  change [c1; c2] with ([c1] ++ [c2]). rewrite (app_assoc pl), abs_decode_app.
  pose proof (abs_rest ty sq _ [] (pl ++ [c1]) Hn) as Hr. rewrite app_nil_r in Hr. cbn [app] in Hr.
  cbn [app]. rewrite Hr by (rewrite length_app; cbn; lia). cbn [abs_decode].
  pose proof (abs_push_body ty sq _ (pl ++ [c1]) c2 Hn) as Hp. cbn [app] in Hp. rewrite Hp.
  rewrite length_app. cbn [length]. by rewrite Nat2Z.id, Nat.eqb_refl.
Qed.

Lemma abs_frame_bytes f :
  frame_wf f -> is_known_type f.(f_type) = true -> abs_decode [] (frame_bytes f) = ([], [ev_frame f]).
Proof.
  intros Hf Hk. pose proof Hf as (Ht & Hs & Hp & Hl). pose proof (frame_crc_range f Hf) as Hc.
  destruct (be16_combine _ Hc) as (c1 & c2 & Hbe & _ & _ & Hv).
  unfold frame_bytes, frame_body. rewrite Hbe, <-!app_assoc.
  pose proof (abs_frame (f_type f) (f_seq f) (f_payload f) c1 c2 Hl) as Ha.
  cbn zeta in Ha. rewrite judge_complete in Ha by (clia || lia).
  cbn [app] in Ha |- *. rewrite Ha, Hv, Hk. unfold frame_crc, frame_body. cbn [app].
  rewrite Z.eqb_refl. by destruct f.
Qed.

Lemma abs_wire stream :
  Forall (fun '(g, f) => no_sof g /\ frame_wf f /\ is_known_type f.(f_type) = true) stream ->
  abs_decode [] (wire stream) = ([], ev_frame ∘ snd <$> stream).
Proof.
  induction 1 as [|[g f] stream (Hg & Hf & Hk) _ IH]; [done|].
  change (wire ((g, f) :: stream)) with ((g ++ frame_bytes f) ++ wire stream).
  by rewrite !abs_decode_app, abs_noise, abs_frame_bytes, IH.
Qed.

(** From a hunting decoder, in terms of the concrete one. *)
Lemma decode_hunting d bytes evs :
  dec_ok d -> d_state d = GOV_DEC_HUNT_SOF -> is_bytes bytes ->
  abs_decode [] bytes = ([], evs) ->
  exists d' out, decode d bytes = Some (d', out) /\ dec_ok d' /\ abs_of d' = [] /\ shows d d' evs out.
Proof.
  intros Hd E Hb Ha. destruct (decode_simulates d bytes Hd Hb) as (d' & out & evs' & H & Hd' & A & S).
  assert (abs_of d = []) as Hz by (unfold abs_of; by rewrite E).
  rewrite Hz, Ha in A. injection A as A1 A2. subst. eauto 10.
Qed.

Lemma abs_of_nil d : abs_of d = [] -> d_state d = GOV_DEC_HUNT_SOF.
Proof. unfold abs_of, header. by destruct (d_state d). Qed.

Lemma frame_bytes_bytes f : frame_wf f -> is_bytes (frame_bytes f).
Proof.
  intros Hf. pose proof (frame_body_bytes f Hf). pose proof (be16_bytes (frame_crc f)).
  unfold frame_bytes. solve_bytes.
Qed.

Lemma decode_one_frame d f :
  dec_ok d -> d_state d = GOV_DEC_HUNT_SOF -> d_cb d = true -> frame_wf f ->
  is_known_type f.(f_type) = true ->
  exists d', decode d (frame_bytes f) = Some (d', [f]) /\ dec_ok d' /\
    d_state d' = GOV_DEC_HUNT_SOF /\ d_cb d' = true.
Proof.
  intros Hd E Hcb Hf Hk.
  destruct (decode_hunting d _ _ Hd E (frame_bytes_bytes f Hf) (abs_frame_bytes f Hf Hk))
    as (d' & out & H & Hd' & Hz & Hcb' & Ho & _).
  exists d'. rewrite Hcb in Ho. cbn in Ho. subst out. rewrite Hcb'.
  split_and!; [done..|by apply abs_of_nil|done].
Qed.

Lemma wire_bytes stream :
  Forall (fun '(g, f) => is_bytes g /\ frame_wf f) stream -> is_bytes (wire stream).
Proof.
  induction 1 as [|[g f] stream (Hg & Hf) _ IH]; [constructor|].
  change (wire ((g, f) :: stream)) with ((g ++ frame_bytes f) ++ wire stream).
  pose proof (frame_bytes_bytes f Hf). solve_bytes.
Qed.

Lemma omap_frames (fs : list frame) : omap delivered (ev_frame <$> fs) = fs.
Proof. induction fs as [|f fs IH]; [done|]. cbn. by rewrite IH. Qed.

Lemma bump_frames st (fs : list frame) : fold_left bump (ev_frame <$> fs) st = st.
Proof. induction fs as [|f fs IH]; [done|]. cbn. by destruct st as [[??]?]. Qed.

(** C15: round trip: any sequence of frames of known type, encoded back to back or separated by
    noise that contains no start-of-frame byte, is delivered by a hunting decoder exactly, in
    order, with no error counted. *)
Theorem decode_encode d stream :
  dec_ok d -> d_state d = GOV_DEC_HUNT_SOF -> d_cb d = true ->
  Forall (fun '(g, f) => is_bytes g /\ no_sof g /\ frame_wf f /\ is_known_type f.(f_type) = true) stream ->
  exists d', decode d (wire stream) = Some (d', stream.*2) /\
    d_state d' = GOV_DEC_HUNT_SOF /\ stats d' = stats d.
Proof.
  intros Hd E Hcb Hst.
  assert (Ha : abs_decode [] (wire stream) = ([], ev_frame ∘ snd <$> stream)).
  { apply abs_wire. eapply Forall_impl; [exact Hst|]. intros [g f]. tauto. }
  assert (Hb : is_bytes (wire stream)).
  { apply wire_bytes. eapply Forall_impl; [exact Hst|]. intros [g f]. tauto. }
  destruct (decode_hunting d _ _ Hd E Hb Ha) as (d' & out & H & _ & Hz & _ & Ho & Hs).
  rewrite Hcb, list_fmap_compose, omap_frames in Ho. rewrite list_fmap_compose, bump_frames in Hs. subst out.
  exists d'. split_and!; [done|by apply abs_of_nil|done].
Qed.

(** Two frames after noise. *)
Lemma decode_encode_witness :
  exists d', decode (gov_decoder_init true)
      (wire [([0x55; 0xAA], mkFrame 4 1 [0x7E; 0x01]); ([], mkFrame 2 0 [1])]) =
    Some (d', [mkFrame 4 1 [0x7E; 0x01]; mkFrame 2 0 [1]]) /\
    d_state d' = GOV_DEC_HUNT_SOF /\ stats d' = (0, 0, 0).
Proof.
  apply (decode_encode (gov_decoder_init true)
    [([0x55; 0xAA], mkFrame 4 1 [0x7E; 0x01]); ([], mkFrame 2 0 [1])]);
    [apply init_ok | reflexivity | reflexivity |].
  repeat apply Forall_cons_2; [| |apply Forall_nil_2].
  - split_and!; [solve_bytes | repeat constructor; discriminate | | reflexivity].
    frame_lit.
  - split_and!; [solve_bytes | constructor | | reflexivity].
    frame_lit.
Defined.

(** *** Soundness *)
Lemma factors_prefix pre rest fs : factors rest fs -> factors (pre ++ rest) fs.
Proof.
  intros [g | g f rest' fs' Hf Hk Hr]; [constructor|].
  rewrite app_assoc. by constructor.
Qed.

Lemma abs_ok_header buf :
  abs_ok buf -> (6 <= length buf)%nat ->
  exists ty sq n rest, buf = [GOV_SOF; GOV_VER; ty; sq] ++ be16 n ++ rest /\
    is_u8 ty /\ is_u8 sq /\ is_u16 n /\ declared_len buf = n /\ is_bytes rest.
Proof.
  intros (Hb & Hp & _) Hl. destruct buf as [|x0 [|x1 [|ty [|sq [|h [|l rest]]]]]]; cbn in Hl; try lia.
  cbn in Hp. injection Hp as -> ->. unfold is_bytes in Hb.
  rewrite !Forall_cons in Hb. destruct Hb as (_ & _ & Ht & Hs & Hh & Hlo & Hr).
  exists ty, sq, (h * 2 ^ 8 + l), rest. rewrite be16_bytes_of by done.
  split_and!; [done..|clia|done|done].
Qed.

Lemma abs_ok_nil : abs_ok [].
Proof. split_and!; [constructor | done | cbn; lia]. Qed.

Lemma abs_ok_grow buf b :
  is_u8 b -> abs_ok buf -> (2 <= length buf)%nat ->
  ((5 <= length buf)%nat -> declared_len (buf ++ [b]) <= 64 /\
     Z.of_nat (length buf) + 1 < declared_len (buf ++ [b]) + 8) ->
  abs_ok (buf ++ [b]).
Proof.
  intros Hb (Hby & Hp & _) Hl Hlen. split_and!.
  - unfold is_bytes in *. apply Forall_app_2; [done|]. by apply Forall_singleton.
  - do 2 (destruct buf as [|? buf]; [cbn in Hl; lia|]). cbn in Hp |- *. injection Hp as -> -> _.
    by rewrite take_nil.
  - rewrite length_app. cbn. intros. destruct Hlen; [lia|]. split; [done|]. lia.
Qed.

Lemma abs_push_deliver ty sq n rest b f :
  is_u8 ty -> is_u8 sq -> is_u16 n -> n <= 64 -> is_bytes rest -> is_u8 b -> length rest = (Z.to_nat n + 1)%nat ->
  judge ([GOV_SOF; GOV_VER; ty; sq] ++ be16 n ++ rest ++ [b]) = ev_frame f ->
  [GOV_SOF; GOV_VER; ty; sq] ++ be16 n ++ rest ++ [b] = frame_bytes f /\ frame_wf f /\
    is_known_type (f_type f) = true.
Proof.
  intros Ht Hs Hn Hle Hr Hb Hlen Hj. destruct rest as [|c pl _] using rev_ind; [cbn in Hlen; lia|].
  unfold is_bytes in Hr. rewrite Forall_app, Forall_singleton in Hr. destruct Hr as [Hpl Hc].
  rewrite length_app in Hlen. cbn in Hlen.
  rewrite <-(app_assoc pl) in *. change ([c] ++ [b]) with [c; b] in *.
  assert (Hlp : length pl = Z.to_nat n) by lia.
  rewrite judge_complete in Hj by done.
  destruct (Z.eqb_spec (c * 2 ^ 8 + b) (gov_crc16_ccitt GOV_CRC_INIT ([GOV_VER; ty; sq] ++ be16 n ++ pl))) as [Hcrc|];
    [|done]. cbn [negb] in Hj. destruct (is_known_type ty) eqn:Hk; [|done]. injection Hj as <-.
  split_and!; [|unfold frame_wf; cbn; split_and!; [done..|clia]|done].
  unfold frame_bytes, frame_crc, frame_body. cbn [f_type f_seq f_payload].
  rewrite Hlp, Z2Nat.id by clia. rewrite <-Hcrc, be16_bytes_of by done. cbn [app]. by rewrite <-app_assoc.
Qed.

Lemma abs_push_long ty sq n rest b :
  is_u8 ty -> is_u8 sq -> is_u16 n -> n <= 64 -> is_bytes rest -> is_u8 b -> (length rest <= Z.to_nat n + 1)%nat ->
  let buf := [GOV_SOF; GOV_VER; ty; sq] ++ be16 n ++ rest in
  abs_push buf b = (buf ++ [b], []) /\ (length rest < Z.to_nat n + 1)%nat \/
  (exists e, abs_push buf b = ([], [e]) /\
     (omap delivered [e] = [] \/ exists f, [e] = [ev_frame f] /\ buf ++ [b] = frame_bytes f /\
        frame_wf f /\ is_known_type (f_type f) = true)).
Proof.
  intros Ht Hs Hn Hle Hr Hb Hlen buf. unfold buf at 1 3. rewrite abs_push_body by done. cbv zeta.
  assert (Hbuf : buf ++ [b] = [GOV_SOF; GOV_VER; ty; sq] ++ be16 n ++ rest ++ [b]).
  { unfold buf. by rewrite <-!app_assoc. }
  rewrite Hbuf. destruct (Nat.eqb_spec (length rest) (Z.to_nat n + 1)) as [Heq|Hne].
  - right. eexists. split; [reflexivity|]. destruct (judge _) as [f| | |] eqn:Hj; [right|by left..].
    exists f. split; [done|]. by eapply abs_push_deliver.
  - left. split; [done|lia].
Qed.

(** What [abs_push] can do to a buffer. *)
Lemma abs_push_cases buf b :
  is_u8 b -> abs_ok buf ->
  let '(buf', evs) := abs_push buf b in
  (buf' = buf ++ [b] /\ abs_ok buf' /\ evs = [] /\ (buf = [] -> b = GOV_SOF)) \/
  (buf = [GOV_SOF] /\ b = GOV_SOF /\ buf' = [GOV_SOF] /\ evs = []) \/
  (buf' = [] /\ omap delivered evs = []) \/
  (buf' = [] /\ exists f, evs = [ev_frame f] /\ buf ++ [b] = frame_bytes f /\
     frame_wf f /\ is_known_type (f_type f) = true).
Proof.
  intros Hb Hok. pose proof Hok as (Hby & Hp & Hlen).
  destruct (decide (6 <= length buf)%nat) as [Hl|Hl].
  { destruct (abs_ok_header buf Hok Hl) as (ty & sq & n & rest & Hbuf & Ht & Hs & Hn & Hd & Hr).
    destruct (Hlen Hl) as [H64 Hlt]. rewrite Hd in *.
    assert (Hlr : length buf = (length rest + 6)%nat).
    { rewrite Hbuf, !length_app, be16_length. cbn. lia. }
    destruct (abs_push_long ty sq n rest b) as [[Hpush Hlt'] | (e & Hpush & He)]; [done..|lia| |].
    - rewrite <-Hbuf in Hpush. rewrite Hpush. left. split_and!; [done| |done|].
      + apply abs_ok_grow; [done..|lia|]. intros _.
        assert (declared_len (buf ++ [b]) = n) as ->.
        { rewrite Hbuf, <-!app_assoc. by apply declared_len_header. }
        clear Hp Hlen. clia.
      + intros ->. cbn in Hl. lia.
    - rewrite <-Hbuf in *. rewrite Hpush. right. right. destruct He as [He|He]; [by left|by right]. }
  destruct buf as [|x0 [|x1 buf]].
  - cbn. destruct (Z.eqb_spec b GOV_SOF) as [->|]; [left|right; right; left; done].
    split_and!; [done| |done|done]. split_and!; [solve_bytes|done|cbn; lia].
  - cbn in Hp. injection Hp as ->. cbn. destruct (Z.eqb_spec b GOV_VER) as [->|].
    + left. split_and!; [done| |done|done]. split_and!; [solve_bytes|done|cbn; lia].
    + destruct (Z.eqb_spec b GOV_SOF) as [->|]; [by right; left|by right; right; left].
  - cbn in Hp. rewrite take_0 in Hp. injection Hp as -> ->. cbn in Hl.
    destruct (decide (length buf = 3%nat)) as [H3|H3].
    + destruct buf as [|ty [|sq [|h [|]]]]; try done.
      unfold is_bytes in Hby. rewrite !Forall_cons in Hby. destruct Hby as (_ & _ & Ht & Hs & Hh & _).
      rewrite abs_push_len by done. destruct (Z.ltb_spec GOV_MAX_PAYLOAD (h * 2 ^ 8 + b)) as [|Hle];
        [by right; right; left|]. left. split_and!; [done| |done|done].
      apply (abs_ok_grow [GOV_SOF; GOV_VER; ty; sq; h]); [done..|cbn; lia|]. intros _.
      unfold GOV_MAX_PAYLOAD in Hle. change (declared_len _) with (h * 2 ^ 8 + b). cbn. clia.
    + unfold abs_push. rewrite (proj2 (Nat.ltb_lt _ _)) by (cbn; rewrite length_app; cbn; lia).
      left. split_and!; [done| |done|done]. apply (abs_ok_grow (GOV_SOF :: GOV_VER :: buf)); [done..|cbn; lia|].
      cbn. lia.
Qed.

Lemma abs_sound buf bytes :
  abs_ok buf -> is_bytes bytes ->
  let '(buf', evs) := abs_decode buf bytes in
  abs_ok buf' /\ factors (buf ++ bytes) (omap delivered evs).
Proof.
  intros Hok Hb. revert buf Hok. induction Hb as [|b bytes Hb _ IH]; intros buf Hok.
  { split; [done|]. constructor. }
  cbn [abs_decode]. pose proof (abs_push_cases buf b Hb Hok) as Hc.
  destruct (abs_push buf b) as [buf1 e1].
  assert (abs_ok [GOV_SOF]) by (split_and!; [solve_bytes|done|cbn; lia]).
  assert (Hok1 : abs_ok buf1) by (destruct Hc as [(_ & ? & _) | [(_ & _ & -> & _) | [(-> & _) | (-> & _)]]];
    done || apply abs_ok_nil).
  specialize (IH buf1 Hok1). destruct (abs_decode buf1 bytes) as [buf2 e2].
  destruct IH as [Hok2 Hf]. split; [done|]. rewrite omap_app.
  replace (buf ++ b :: bytes) with ((buf ++ [b]) ++ bytes) by by rewrite <-app_assoc.
  destruct Hc as [(-> & _ & -> & _) | [(-> & -> & -> & ->) | [(-> & ->) | (-> & f & -> & -> & Hwf & Hk)]]].
  - done.
  - apply (factors_prefix [GOV_SOF]) in Hf. exact Hf.
  - by apply factors_prefix.
  - by apply (factors_frame []).
Qed.

(** C16: soundness: whatever bytes arrive on a fresh decoder, the frames delivered are, in order,
    disjoint complete frames of those bytes: well formed, of a known type, with their own CRC.
    Nothing is delivered that was not on the wire, and no wire byte is delivered twice. *)
Theorem decode_sound cb bytes d' out :
  is_bytes bytes -> decode (gov_decoder_init cb) bytes = Some (d', out) -> factors bytes out.
Proof.
  intros Hb H. destruct (decode_simulates _ bytes (init_ok cb) Hb) as (d'' & out' & evs & H' & _ & A & _ & Ho & _).
  rewrite H in H'. injection H' as <- <-.
  pose proof (abs_sound [] bytes abs_ok_nil Hb) as Hs. change (abs_of (gov_decoder_init cb)) with (@nil Z) in A.
  rewrite A in Hs. destruct Hs as [_ Hf]. cbn in Ho. rewrite Ho. destruct cb; [exact Hf|constructor].
Qed.

(** An acknowledgement between two stray bytes. *)
Lemma decode_sound_witness :
  exists d', decode (gov_decoder_init true) ([0x00] ++ frame_bytes (mkFrame 2 0 [7]) ++ [0x7E]) =
    Some (d', [mkFrame 2 0 [7]]) /\
  factors ([0x00] ++ frame_bytes (mkFrame 2 0 [7]) ++ [0x7E]) [mkFrame 2 0 [7]].
Proof.
  eexists. split; [vm_compute; reflexivity|].
  eapply (decode_sound true); [|vm_compute; reflexivity].
  apply Forall_app_2; [solve_bytes|]. apply Forall_app_2; [|solve_bytes].
  apply frame_bytes_bytes. frame_lit.
Defined.

(** *** Resynchronisation *)
Lemma abs_of_ok d : dec_ok d -> abs_ok (abs_of d).
Proof.
  intros Hd. pose proof Hd as (Ht & Hs & Hl & Hlen & Hpl & Hst). unfold state_ok in Hst.
  pose proof (be16_bytes (d_len d)) as Hbe.
  assert (Hh : is_bytes (header d)) by (unfold header; solve_bytes).
  assert (Hlh : length (header d) = 6%nat) by (unfold header; by rewrite length_app, be16_length).
  assert (Hlong : forall rest, is_bytes rest -> d_len d <= 64 -> (length rest <= Z.to_nat (d_len d) + 1)%nat ->
            abs_ok (header d ++ rest)).
  { intros rest Hr Hle Hlr. split_and!.
    - by apply Forall_app_2.
    - cbn. by rewrite ?take_nil, ?take_0.
    - intros _. unfold header. rewrite <-app_assoc, declared_len_header by done.
      rewrite !length_app, be16_length. cbn. clia. }
  unfold abs_of. destruct (d_state d).
  - apply abs_ok_nil.
  - split_and!; [solve_bytes|done|cbn; lia].
  - destruct Hst as (Hi & _). split_and!.
    + by apply Forall_take.
    + cbn. by rewrite ?take_nil, ?take_0.
    + rewrite length_take, Hlh. lia.
  - destruct Hst as (Hi & Hle & _). apply Hlong; [by apply Forall_take|done|].
    rewrite length_take. lia.
  - destruct Hst as (Hle & Hi & Hr & _). apply Hlong; [|done|].
    + apply Forall_app_2; [by apply Forall_take|]. apply Forall_take. solve_bytes.
    + rewrite length_app, !length_take. cbn [length]. clia.
Qed.

Lemma abs_ok_length buf : abs_ok buf -> (length buf <= 71)%nat.
Proof. intros (_ & _ & H). destruct (decide (6 <= length buf)%nat) as [Hl|]; [|lia]. specialize (H Hl). lia. Qed.

(** Away from start-of-frame bytes a buffer grows until it empties. *)
Lemma abs_quiet buf g :
  abs_ok buf -> is_bytes g -> no_sof g ->
  let '(buf', _) := abs_decode buf g in
  abs_ok buf' /\ (buf' = [] \/ buf <> [] /\ length buf' = (length buf + length g)%nat).
Proof.
  intros Hok Hb. revert buf Hok. induction Hb as [|b g Hb _ IH]; intros buf Hok Hg.
  { cbn. split; [done|]. destruct buf; [by left|right]. split; [done|]. cbn. lia. }
  inversion_clear Hg as [|? ? Hne Hg']. cbn [abs_decode].
  pose proof (abs_push_cases buf b Hb Hok) as Hc. destruct (abs_push buf b) as [buf1 e1].
  assert (Hok1 : abs_ok buf1 /\ (buf1 = [] \/ buf <> [] /\ length buf1 = S (length buf))).
  { destruct Hc as [(-> & ? & _ & Hsof) | [(_ & -> & _) | [(-> & _) | (-> & _)]]]; try done.
    - split; [done|]. right. split; [by intros ->; apply Hne, Hsof|]. rewrite length_app. cbn. lia.
    - split; [apply abs_ok_nil|by left].
    - split; [apply abs_ok_nil|by left]. }
  destruct Hok1 as [Hok1 Hlen1]. specialize (IH buf1 Hok1 Hg').
  destruct (abs_decode buf1 g) as [buf2 e2]. destruct IH as [Hok2 Hlen2]. split; [done|].
  destruct Hlen2 as [|[Hne1 Hlen2]]; [by left|]. destruct Hlen1 as [|[Hne0 Hlen1]]; [done|].
  right. split; [done|]. cbn [length]. lia.
Qed.

(** C17: bounded resynchronisation: whatever the decoder is in the middle of, 71 bytes of a quiet
    line (bytes that are not a start of frame) bring it back to hunting, and the frame that follows
    is delivered. *)
Theorem decode_resync d quiet f :
  dec_ok d -> d_cb d = true -> is_bytes quiet -> no_sof quiet -> (71 <= length quiet)%nat ->
  frame_wf f -> is_known_type f.(f_type) = true ->
  exists d' out, decode d (quiet ++ frame_bytes f) = Some (d', out ++ [f]) /\
    d_state d' = GOV_DEC_HUNT_SOF.
Proof.
  intros Hd Hcb Hb Hq Hl Hf Hk.
  destruct (decode_simulates d quiet Hd Hb) as (d1 & o1 & ev1 & E1 & Hd1 & A1 & C1 & _).
  pose proof (abs_quiet (abs_of d) quiet (abs_of_ok d Hd) Hb Hq) as Hquiet. rewrite A1 in Hquiet.
  destruct Hquiet as [Hok Hor].
  assert (Hhunt : abs_of d1 = []).
  { destruct Hor as [|[Hne Hlen]]; [done|]. pose proof (abs_ok_length _ Hok).
    destruct (abs_of d); [done|]. cbn in Hlen. lia. }
  destruct (decode_hunting d1 (frame_bytes f) [ev_frame f] Hd1 (abs_of_nil _ Hhunt)
              (frame_bytes_bytes f Hf) (abs_frame_bytes f Hf Hk)) as (d2 & o2 & E2 & _ & Hz & _ & Ho & _).
  exists d2, o1. split; [|by apply abs_of_nil].
  unfold decode in *. rewrite feed_app, E1. cbn [mbind option_bind]. rewrite E2. cbn.
  rewrite C1, Hcb in Ho. cbn in Ho. by rewrite Ho.
Qed.

(** A decoder stopped inside a header that announced 64 payload bytes. *)
Lemma decode_resync_witness :
  exists d d' out,
    decode (gov_decoder_init true) [0x7E; 0x01; 0x01; 0x00; 0x00; 0x40] = Some (d, []) /\
    decode d (replicate 71 0 ++ frame_bytes (mkFrame 4 1 [9])) = Some (d', out ++ [mkFrame 4 1 [9]]) /\
    d_state d' = GOV_DEC_HUNT_SOF.
Proof.
  destruct (decode_simulates (gov_decoder_init true) [0x7E; 0x01; 0x01; 0x00; 0x00; 0x40] (init_ok true)
              ltac:(solve_bytes)) as (d & out0 & evs & E & Hd & _ & C & _).
  exists d.
  destruct (decode_resync d (replicate 71 0) (mkFrame 4 1 [9]) Hd C) as (d' & out & H1 & H2);
    [apply Forall_replicate; clia | apply Forall_replicate; discriminate | rewrite length_replicate; lia
    | frame_lit | reflexivity |].
  exists d', out. split; [|by split]. rewrite E. f_equal. f_equal.
  vm_compute in E. injection E as _ <-. reflexivity.
Defined.

(** Without the quiet line the guarantee fails: six bytes of garbage that read as a header
    announcing 64 payload bytes swallow the valid frame that follows; nothing is delivered and the
    decoder waits for more bytes. *)
Theorem garbage_swallows_frame :
  frame_wf (mkFrame GOV_TYPE_CMD 1 [1]) /\ is_known_type GOV_TYPE_CMD = true /\
  exists d', decode (gov_decoder_init true)
      ([0x7E; 0x01; 0x01; 0x00; 0x00; 0x40] ++ frame_bytes (mkFrame GOV_TYPE_CMD 1 [1])) =
    Some (d', []) /\ d_state d' = GOV_DEC_PAYLOAD /\ stats d' = (0, 0, 0).
Proof.
  split; [frame_lit|]. split; [done|].
  eexists. split_and!; [vm_compute; reflexivity|reflexivity|reflexivity].
Qed.

(** C18: corruption: a frame received with its start, version and length bytes intact and an error
    the CRC detects anywhere in type, sequence number, payload and CRC (a burst of at most 16 bits,
    an odd number of bits, two bits) is not delivered: it is counted as a CRC error and the decoder
    hunts again. *)
Theorem corrupted_frame_rejected d f ty sq pl c1 c2 :
  dec_ok d -> d_state d = GOV_DEC_HUNT_SOF -> frame_wf f ->
  is_u8 ty -> is_u8 sq -> is_bytes pl -> is_u8 c1 -> is_u8 c2 -> length pl = length f.(f_payload) ->
  let received := [GOV_VER; ty; sq] ++ be16 (Z.of_nat (length pl)) ++ pl ++ [c1; c2] in
  detectable (zip_with xorb (bytes_bits (frame_body f ++ be16 (frame_crc f))) (bytes_bits received)) ->
  exists d', decode d ([GOV_SOF] ++ received) = Some (d', []) /\ d_state d' = GOV_DEC_HUNT_SOF /\
    d_crc_err d' = u32 (d_crc_err d + 1).
Proof.
  intros Hd E Hf Ht Hs Hp H1 H2 Hlp received Hdet. pose proof Hf as (_ & _ & _ & Hl).
  set (body := [GOV_VER; ty; sq] ++ be16 (Z.of_nat (length pl)) ++ pl).
  pose proof (be16_bytes (Z.of_nat (length pl))) as Hbe.
  assert (Hbody : is_bytes body) by (unfold body; solve_bytes).
  assert (Hrec : received = body ++ be16 (c1 * 2 ^ 8 + c2)).
  { unfold received, body. by rewrite be16_bytes_of, <-!app_assoc. }
  assert (Hcrc : c1 * 2 ^ 8 + c2 <> gov_crc16_ccitt GOV_CRC_INIT body).
  { intros Heq%crc16_residue; [|by split|done|clia].
    apply (crc16_error_residue GOV_CRC_INIT (frame_body f) body (c1 * 2 ^ 8 + c2)); [by split| |done|clia| |..|done].
    - by apply frame_body_bytes.
    - unfold body, frame_body. by rewrite !length_app, !be16_length, Hlp.
    - rewrite <-Hrec. exact Hdet. }
  pose proof (abs_frame ty sq pl c1 c2 ltac:(lia)) as Ha. cbn zeta in Ha.
  rewrite judge_complete in Ha by (clia || lia). fold body in Ha.
  rewrite (proj2 (Z.eqb_neq _ _) Hcrc) in Ha. cbn [negb] in Ha.
  destruct (decode_hunting d ([GOV_SOF] ++ received) [ev_crc_err] Hd E) as (d' & out & H & _ & Hz & _ & Ho & Hst).
  { rewrite Hrec. pose proof (be16_bytes (c1 * 2 ^ 8 + c2)). solve_bytes. }
  { exact Ha. }
  exists d'. split_and!; [|by apply abs_of_nil|].
  - rewrite H. f_equal. f_equal. rewrite Ho. by destruct (d_cb d).
  - unfold stats in Hst. cbn in Hst. by injection Hst.
Qed.

(** A command whose payload byte 9 arrives as 8. *)
Lemma corrupted_frame_rejected_witness :
  exists d', decode (gov_decoder_init true) [0x7E; 0x01; 4; 1; 0; 1; 8; 0x16; 0x1A] = Some (d', []) /\
    d_state d' = GOV_DEC_HUNT_SOF /\ d_crc_err d' = u32 (0 + 1).
Proof.
  apply (corrupted_frame_rejected (gov_decoder_init true) (mkFrame 4 1 [9]) 4 1 [8] 0x16 0x1A);
    [apply init_ok | reflexivity | | clia | clia | solve_bytes | clia | clia | reflexivity |].
  - frame_lit.
  - apply err_odd. vm_compute. reflexivity.
Defined.

#[global] Arguments frame_bytes : simpl never.
#[global] Arguments frame_body : simpl never.
