(* ===== verification/Fuzz.v ===== *)
(** * Fuzz: the fuzz target of the frame decoder (fuzz/fuzz_frame.c)

    The harness feeds any bytes to a fresh decoder and reads every delivered payload to its reported
    length.  It is defined and returns 0 on every input: what the fuzzer looks for does not exist. *)
From S2P Require Import Prelude Crc16 Frame.

(** [sink ^= payload[i]] for [i < len], with the 16-bit index of the code; no fuel left is a hang. *)
Fixpoint touch (fuel : nat) (payload : list Z) (len i sink : Z) : option Z :=
  match fuel with
  | O => None
  | S fuel =>
      if i <? len then b ← load payload i; touch fuel payload len (u16 (i + 1)) (u8 (sink .^ b))
      else Some sink
  end.

(** The callback; [ctx] is the counter, or NULL. *)
Definition on_frame (f : frame) (ctx : option Z) : option (option Z) :=
  let len := Z.of_nat (length f.(f_payload)) in
  _ ← touch (S (Z.to_nat len)) f.(f_payload) len 0 0;
  Some ((fun n => u32 (n + 1)) <$> ctx).

Fixpoint call_all (fs : list frame) (ctx : option Z) : option (option Z) :=
  match fs with [] => Some ctx | f :: fs => ctx ← on_frame f ctx; call_all fs ctx end.

(** The loop over the input. *)
Fixpoint push_all (dec : gov_decoder) (ctx : option Z) (data : list Z) : option (gov_decoder * option Z) :=
  match data with
  | [] => Some (dec, ctx)
  | byte :: data => '(dec, fs) ← gov_decoder_push dec byte; ctx ← call_all fs ctx; push_all dec ctx data
  end.

(** The returned value, and the deliveries counted. *)
Definition LLVMFuzzerTestOneInput (data : list Z) : option (Z * option Z) :=
  '(_, deliveries) ← push_all (gov_decoder_init true) (Some 0) data;
  Some (0, deliveries).

Lemma touch_defined payload len i sink : forall fuel,
  0 <= i -> len <= Z.of_nat (length payload) -> len < 2 ^ 16 -> (Z.to_nat (len - i) < fuel)%nat ->
  exists sink', touch fuel payload len i sink = Some sink'.
Proof.
  intros fuel. revert i sink. induction fuel as [|fuel IH]; intros i sink Hi Hl Hw Hf; [lia|]. cbn [touch].
  destruct (Z.ltb_spec i len) as [Hlt|]; [|by eexists].
  destruct (lookup_lt_is_Some_2 payload (Z.to_nat i)) as [b Hb]; [lia|]. rewrite (load_Some _ _ b Hi Hb). cbn [mbind option_bind].
  rewrite u16_small by clia. apply IH; lia.
Qed.

Lemma on_frame_counts f ctx : (length f.(f_payload) <= 64)%nat -> on_frame f ctx = Some ((fun n => u32 (n + 1)) <$> ctx).
Proof.
  intros Hl. unfold on_frame. destruct (touch_defined (f_payload f) (Z.of_nat (length (f_payload f))) 0 0 (S (Z.to_nat (Z.of_nat (length (f_payload f))))))
    as [sink ->]; [lia..|done].
Qed.

Definition small (f : frame) : Prop := (length f.(f_payload) <= 64)%nat.

Lemma call_all_counts fs n : Forall small fs -> call_all fs (Some n) = Some (Some (fold_left (fun n _ => u32 (n + 1)) fs n)).
Proof. intros Hf. revert n. induction Hf as [|f fs Hf _ IH]; intros n; [done|]. cbn [call_all]. rewrite on_frame_counts by done. apply IH. Qed.

(** The loop decodes, and counts what it decodes. *)
Lemma push_all_decode data : forall dec n dec' fs,
  decode dec data = Some (dec', fs) -> Forall small fs ->
  push_all dec (Some n) data = Some (dec', Some (fold_left (fun n _ => u32 (n + 1)) fs n)).
Proof.
  induction data as [|b data IH]; intros dec n dec' fs; [by intros [= <- <-]|]. unfold decode in *. cbn [feed push_all].
  destruct (gov_decoder_push dec b) as [[d1 f1]|]; [|done]. cbn [mbind option_bind].
  destruct (feed gov_decoder_push d1 data) as [[d2 f2]|] eqn:E; [|done]. cbn. intros [= <- <-] [Hf1 Hf2]%Forall_app.
  rewrite call_all_counts by done. cbn. rewrite (IH d1 _ d2 f2 E Hf2). by rewrite fold_left_app.
Qed.

Lemma factors_small bytes fs : factors bytes fs -> Forall small fs.
Proof. induction 1 as [|pre f rest fs Hf _ _ IH]; [constructor|constructor; [apply Hf|done]]. Qed.

Lemma count_from fs n : is_u32 n -> fold_left (fun n _ => u32 (n + 1)) fs n = u32 (n + Z.of_nat (@length frame fs)).
Proof.
  revert n. induction fs as [|f fs IH]; intros n Hn; cbn [fold_left length]; [by rewrite Z.add_0_r, u32_small|].
  rewrite IH by apply u32_range. unfold u32. rewrite Zplus_mod_idemp_l. f_equal. lia.
Qed.

(** The fuzz target finds nothing. On every input it reads no byte outside the decoder's buffers, terminates
    and returns 0, and its counter is the number of frames in the input that the abstract decoder accepts. *)
Theorem fuzz_target_never_fails data :
  is_bytes data ->
  LLVMFuzzerTestOneInput data = Some (0, Some (u32 (Z.of_nat (length (omap delivered (abs_decode [] data).2))))).
Proof.
  intros Hb. destruct (decode_simulates _ data (init_ok true) Hb) as (d' & out & evs & H & _ & A & _ & Ho & _).
  change (abs_of (gov_decoder_init true)) with (@nil Z) in A.
  pose proof (abs_sound [] data abs_ok_nil Hb) as Hs. rewrite A in Hs. destruct Hs as [_ Hf]. cbn in Ho. rewrite <-Ho in Hf.
  unfold LLVMFuzzerTestOneInput. rewrite (push_all_decode data _ 0 _ _ H (factors_small _ _ Hf)). cbn [mbind option_bind].
  rewrite A. cbn [snd]. rewrite <-Ho, count_from by clia. done.
Qed.

Lemma fuzz_target_never_fails_witness :
  LLVMFuzzerTestOneInput ([0x7E; 0x7E] ++ frame_bytes (mkFrame GOV_TYPE_ACK 0 [7]) ++ [0x7E; 0x01; 0x04]) = Some (0, Some 1).
Proof. rewrite fuzz_target_never_fails; [by vm_compute|]. repeat constructor; by vm_compute. Defined.
