(* ===== verification/Reliable.v ===== *)
(** * Reliable: stop-and-wait ARQ (lib/proto/reliable.h, lib/proto/reliable.c)

    The sender and the receiver as functions on their records; a call of the wire callback is an
    output.  The retransmission schedule, the branches of [gov_tx_send], and the receiver's
    deduplication.  The two ends are composed over lossy channels in [Arq]. *)
From S2P Require Import Prelude Crc16 Frame.

(** ** Data *)
Definition GOV_ACK_TIMEOUT_MS : Z := 100.
Definition GOV_MAX_RETRIES : Z := 3.

Inductive gov_tx_state :=
  | GOV_TX_IDLE
  | GOV_TX_WAIT_ACK
  | GOV_TX_LINK_FAULT.

Inductive gov_tx_status :=
  | GOV_TX_OK
  | GOV_TX_BUSY
  | GOV_TX_ENCODE_ERR.

#[export] Instance gov_tx_state_eq_dec : EqDecision gov_tx_state.
Proof. solve_decision. Defined.
#[export] Instance gov_tx_status_eq_dec : EqDecision gov_tx_status.
Proof. solve_decision. Defined.

(** [gov_tx_t]; [tx_wire] says whether the output callback is registered. *)
Record gov_tx := mkTx {
  tx_wire : bool;
  tx_state : gov_tx_state;
  tx_next_seq : Z;
  tx_cur_seq : Z;
  tx_retries : Z;
  tx_last_tx_ms : Z;
  tx_frame_len : Z;
  tx_frame : list Z
}.

Definition set_tx_wire (v : bool) (r : gov_tx) : gov_tx :=
  {| tx_wire := v; tx_state := r.(tx_state); tx_next_seq := r.(tx_next_seq);
     tx_cur_seq := r.(tx_cur_seq); tx_retries := r.(tx_retries);
     tx_last_tx_ms := r.(tx_last_tx_ms); tx_frame_len := r.(tx_frame_len);
     tx_frame := r.(tx_frame) |}.
Definition set_tx_state (v : gov_tx_state) (r : gov_tx) : gov_tx :=
  {| tx_wire := r.(tx_wire); tx_state := v; tx_next_seq := r.(tx_next_seq);
     tx_cur_seq := r.(tx_cur_seq); tx_retries := r.(tx_retries);
     tx_last_tx_ms := r.(tx_last_tx_ms); tx_frame_len := r.(tx_frame_len);
     tx_frame := r.(tx_frame) |}.
Definition set_tx_next_seq (v : Z) (r : gov_tx) : gov_tx :=
  {| tx_wire := r.(tx_wire); tx_state := r.(tx_state); tx_next_seq := v;
     tx_cur_seq := r.(tx_cur_seq); tx_retries := r.(tx_retries);
     tx_last_tx_ms := r.(tx_last_tx_ms); tx_frame_len := r.(tx_frame_len);
     tx_frame := r.(tx_frame) |}.
Definition set_tx_cur_seq (v : Z) (r : gov_tx) : gov_tx :=
  {| tx_wire := r.(tx_wire); tx_state := r.(tx_state); tx_next_seq := r.(tx_next_seq);
     tx_cur_seq := v; tx_retries := r.(tx_retries); tx_last_tx_ms := r.(tx_last_tx_ms);
     tx_frame_len := r.(tx_frame_len); tx_frame := r.(tx_frame) |}.
Definition set_tx_retries (v : Z) (r : gov_tx) : gov_tx :=
  {| tx_wire := r.(tx_wire); tx_state := r.(tx_state); tx_next_seq := r.(tx_next_seq);
     tx_cur_seq := r.(tx_cur_seq); tx_retries := v; tx_last_tx_ms := r.(tx_last_tx_ms);
     tx_frame_len := r.(tx_frame_len); tx_frame := r.(tx_frame) |}.
Definition set_tx_last_tx_ms (v : Z) (r : gov_tx) : gov_tx :=
  {| tx_wire := r.(tx_wire); tx_state := r.(tx_state); tx_next_seq := r.(tx_next_seq);
     tx_cur_seq := r.(tx_cur_seq); tx_retries := r.(tx_retries); tx_last_tx_ms := v;
     tx_frame_len := r.(tx_frame_len); tx_frame := r.(tx_frame) |}.
Definition set_tx_frame_len (v : Z) (r : gov_tx) : gov_tx :=
  {| tx_wire := r.(tx_wire); tx_state := r.(tx_state); tx_next_seq := r.(tx_next_seq);
     tx_cur_seq := r.(tx_cur_seq); tx_retries := r.(tx_retries);
     tx_last_tx_ms := r.(tx_last_tx_ms); tx_frame_len := v; tx_frame := r.(tx_frame) |}.
Definition set_tx_frame (v : list Z) (r : gov_tx) : gov_tx :=
  {| tx_wire := r.(tx_wire); tx_state := r.(tx_state); tx_next_seq := r.(tx_next_seq);
     tx_cur_seq := r.(tx_cur_seq); tx_retries := r.(tx_retries);
     tx_last_tx_ms := r.(tx_last_tx_ms); tx_frame_len := r.(tx_frame_len); tx_frame := v |}.

(** [gov_rx_t]; [rx_wire] and [rx_deliver] say which callbacks are registered. *)
Record gov_rx := mkRx {
  rx_wire : bool;
  rx_deliver : bool;
  rx_last_seq : Z;
  rx_have_last : bool;
  rx_dup : Z
}.

Definition set_rx_wire (v : bool) (r : gov_rx) : gov_rx :=
  {| rx_wire := v; rx_deliver := r.(rx_deliver); rx_last_seq := r.(rx_last_seq);
     rx_have_last := r.(rx_have_last); rx_dup := r.(rx_dup) |}.
Definition set_rx_deliver (v : bool) (r : gov_rx) : gov_rx :=
  {| rx_wire := r.(rx_wire); rx_deliver := v; rx_last_seq := r.(rx_last_seq);
     rx_have_last := r.(rx_have_last); rx_dup := r.(rx_dup) |}.
Definition set_rx_last_seq (v : Z) (r : gov_rx) : gov_rx :=
  {| rx_wire := r.(rx_wire); rx_deliver := r.(rx_deliver); rx_last_seq := v;
     rx_have_last := r.(rx_have_last); rx_dup := r.(rx_dup) |}.
Definition set_rx_have_last (v : bool) (r : gov_rx) : gov_rx :=
  {| rx_wire := r.(rx_wire); rx_deliver := r.(rx_deliver); rx_last_seq := r.(rx_last_seq);
     rx_have_last := v; rx_dup := r.(rx_dup) |}.
Definition set_rx_dup (v : Z) (r : gov_rx) : gov_rx :=
  {| rx_wire := r.(rx_wire); rx_deliver := r.(rx_deliver); rx_last_seq := r.(rx_last_seq);
     rx_have_last := r.(rx_have_last); rx_dup := v |}.

(** What a receiver does to its environment, in order. *)
Inductive rx_out :=
  | rx_delivers (f : frame)
  | rx_emits (bytes : list Z).

(** ** Sender *)
Definition gov_tx_init (wire : bool) : gov_tx :=
  {| tx_wire := wire; tx_state := GOV_TX_IDLE; tx_next_seq := 0; tx_cur_seq := 0; tx_retries := 0;
     tx_last_tx_ms := 0; tx_frame_len := 0; tx_frame := replicate 72 0 |}.

(** [tx->wire(tx->frame, tx->frame_len, tx->ctx)]; calling an absent callback is undefined. *)
Definition call_wire (tx : gov_tx) : option (list (list Z)) :=
  if tx.(tx_wire) then bytes ← load_bytes tx.(tx_frame) 0 tx.(tx_frame_len); Some [bytes] else None.

Definition gov_tx_send (tx : gov_tx) (type : Z) (payload : option (list Z)) (len now_ms : Z) :
    option (gov_tx * gov_tx_status * list (list Z)) :=
  if negb tx.(tx_wire) then Some (tx, GOV_TX_BUSY, [])
  else if negb (bool_decide (tx.(tx_state) = GOV_TX_IDLE)) then Some (tx, GOV_TX_BUSY, [])
  else
    '(n, buf) ← gov_frame_encode type tx.(tx_next_seq) payload len (Some tx.(tx_frame)) 72;
    let tx := set_tx_frame (default [] buf) tx in
    if n =? 0 then Some (tx, GOV_TX_ENCODE_ERR, [])
    else
      let tx := set_tx_frame_len n tx in
      let tx := set_tx_cur_seq tx.(tx_next_seq) tx in
      let tx := set_tx_next_seq (u8 (tx.(tx_next_seq) + 1)) tx in
      let tx := set_tx_retries 0 tx in
      let tx := set_tx_last_tx_ms now_ms tx in
      let tx := set_tx_state GOV_TX_WAIT_ACK tx in
      out ← call_wire tx;
      Some (tx, GOV_TX_OK, out).

Definition gov_tx_on_ack (tx : gov_tx) (acked_seq : Z) : gov_tx :=
  if bool_decide (tx.(tx_state) = GOV_TX_WAIT_ACK) && (acked_seq =? tx.(tx_cur_seq))
  then set_tx_state GOV_TX_IDLE tx else tx.

(** The returned state is the resulting [tx_state]. *)
Definition gov_tx_poll (tx : gov_tx) (now_ms : Z) : option (gov_tx * list (list Z)) :=
  if negb (bool_decide (tx.(tx_state) = GOV_TX_WAIT_ACK)) then Some (tx, [])
  else if u32 (now_ms - tx.(tx_last_tx_ms)) <? GOV_ACK_TIMEOUT_MS then Some (tx, [])
  else if GOV_MAX_RETRIES <=? tx.(tx_retries) then Some (set_tx_state GOV_TX_LINK_FAULT tx, [])
  else
    let tx := set_tx_retries (u8 (tx.(tx_retries) + 1)) tx in
    let tx := set_tx_last_tx_ms now_ms tx in
    out ← call_wire tx;
    Some (tx, out).

(** The same poll in two parts, for a client that can be preempted between the tests and the writes:
    what the tests decide, and what is then done. *)
Inductive poll_action := PollNone | PollFault | PollRetry.

Definition poll_decide (tx : gov_tx) (now_ms : Z) : poll_action :=
  if negb (bool_decide (tx.(tx_state) = GOV_TX_WAIT_ACK)) then PollNone
  else if u32 (now_ms - tx.(tx_last_tx_ms)) <? GOV_ACK_TIMEOUT_MS then PollNone
  else if GOV_MAX_RETRIES <=? tx.(tx_retries) then PollFault
  else PollRetry.

Definition poll_commit (tx : gov_tx) (now_ms : Z) (act : poll_action) : option (gov_tx * list (list Z)) :=
  match act with
  | PollNone => Some (tx, [])
  | PollFault => Some (set_tx_state GOV_TX_LINK_FAULT tx, [])
  | PollRetry =>
      let tx := set_tx_retries (u8 (tx.(tx_retries) + 1)) tx in
      let tx := set_tx_last_tx_ms now_ms tx in
      out ← call_wire tx;
      Some (tx, out)
  end.

Definition gov_tx_clear_fault (tx : gov_tx) : gov_tx :=
  if bool_decide (tx.(tx_state) = GOV_TX_LINK_FAULT) then set_tx_state GOV_TX_IDLE tx else tx.

(** ** Receiver *)
Definition gov_rx_init (wire deliver : bool) : gov_rx :=
  {| rx_wire := wire; rx_deliver := deliver; rx_last_seq := 0; rx_have_last := false; rx_dup := 0 |}.

(** [out] is a local array: its initial contents are not read. *)
Definition send_ack (seq : Z) : option (list rx_out) :=
  '(n, out) ← gov_frame_encode GOV_TYPE_ACK 0 (Some [seq]) 1 (Some (replicate 72 0)) 72;
  if n =? 0 then Some []
  else bytes ← load_bytes (default [] out) 0 n; Some [rx_emits bytes].

Definition gov_rx_on_frame (rx : gov_rx) (f : frame) : option (gov_rx * list rx_out) :=
  if negb rx.(rx_wire) then Some (rx, [])
  else if rx.(rx_have_last) && (f.(f_seq) =? rx.(rx_last_seq)) then
    let rx := set_rx_dup (u32 (rx.(rx_dup) + 1)) rx in
    out ← send_ack f.(f_seq);
    Some (rx, out)
  else
    let rx := set_rx_last_seq f.(f_seq) rx in
    let rx := set_rx_have_last true rx in
    let delivery := if rx.(rx_deliver) then [rx_delivers f] else [] in
    out ← send_ack f.(f_seq);
    Some (rx, delivery ++ out).

(** ** Specification vocabulary *)
Definition ack_frame (seq : Z) : frame := mkFrame GOV_TYPE_ACK 0 [seq].

(** The bytes in the sender's slot. *)
Definition slot (tx : gov_tx) : list Z := take (Z.to_nat tx.(tx_frame_len)) tx.(tx_frame).

Definition tx_ok (tx : gov_tx) : Prop :=
  tx.(tx_wire) = true /\ length tx.(tx_frame) = 72%nat /\ 0 <= tx.(tx_frame_len) <= 72 /\
  0 <= tx.(tx_retries) <= GOV_MAX_RETRIES /\ is_u8 tx.(tx_next_seq).

(** A sender that waits for the acknowledgement of [f]. *)
Definition waiting (tx : gov_tx) (f : frame) : Prop :=
  tx_ok tx /\ tx.(tx_state) = GOV_TX_WAIT_ACK /\ tx.(tx_cur_seq) = f.(f_seq) /\ slot tx = frame_bytes f.

(** The polls that find the acknowledgement timer expired, each restarting it. *)
Fixpoint expiries (last : Z) (polls : list Z) : list Z :=
  match polls with
  | [] => []
  | now :: polls =>
      if u32 (now - last) <? GOV_ACK_TIMEOUT_MS then expiries last polls else now :: expiries now polls
  end.

Definition tick (t0 : Z) (n : nat) : list Z := (fun k => u32 (t0 + Z.of_nat k)) <$> seq 1 n.

(** The sender right after it put [f] on the wire. *)
Definition sent (tx : gov_tx) (f : frame) (now : Z) : gov_tx :=
  {| tx_wire := true; tx_state := GOV_TX_WAIT_ACK; tx_next_seq := u8 (tx.(tx_next_seq) + 1);
     tx_cur_seq := tx.(tx_next_seq); tx_retries := 0; tx_last_tx_ms := now;
     tx_frame_len := Z.of_nat (length (frame_bytes f));
     tx_frame := frame_bytes f ++ drop (length (frame_bytes f)) tx.(tx_frame) |}.

(** ** Sender *)
Lemma send_ack_spec sq : send_ack sq = Some [rx_emits (frame_bytes (ack_frame sq))].
Proof.
  unfold send_ack. rewrite frame_encode_success; [|lia|done|lia|done|by intros ? [= <-]].
  cbn [mbind option_bind]. change (1 + 8) with 9. cbn [Z.eqb from_option id].
  change (take (Z.to_nat 1) [sq]) with [sq]. fold (ack_frame sq).
  assert (Hl : length (frame_bytes (ack_frame sq)) = 9%nat) by by rewrite frame_bytes_length.
  rewrite load_bytes_Some; [|lia|lia|].
  - cbn [mbind option_bind]. rewrite drop_0, take_app_length'; done.
  - rewrite length_app, Hl. lia.
Qed.

Lemma tx_send_ok tx type payload len now :
  tx.(tx_wire) = true -> tx.(tx_state) = GOV_TX_IDLE -> length tx.(tx_frame) = 72%nat ->
  0 <= len <= 64 -> (payload = None -> len = 0) ->
  (forall p, payload = Some p -> len <= Z.of_nat (length p)) ->
  let f := mkFrame type tx.(tx_next_seq) (take (Z.to_nat len) (default [] payload)) in
  gov_tx_send tx type payload len now = Some (sent tx f now, GOV_TX_OK, [frame_bytes f]).
Proof.
  intros Hw Hi Hbuf Hlen Hnone Hp f. unfold gov_tx_send. rewrite Hw, bool_decide_true by done. cbn [negb].
  rewrite frame_encode_success; [|done|done|lia|lia|done]. fold f.
  cbn [mbind option_bind from_option id]. rewrite (proj2 (Z.eqb_neq _ _)) by lia.
  assert (Hl : length (frame_bytes f) = (Z.to_nat len + 8)%nat).
  { rewrite frame_bytes_length. cbn. rewrite length_take. destruct payload as [p|]; cbn.
    - specialize (Hp p eq_refl). lia.
    - rewrite Hnone by done. done. }
  unfold call_wire. cbn -[load_bytes Z.add frame_bytes]. rewrite Hw.
  rewrite load_bytes_Some by (rewrite ?length_app; lia). cbn [mbind option_bind].
  rewrite drop_0, take_app_length' by lia. unfold sent. rewrite Hl.
  replace (Z.of_nat (Z.to_nat len + 8)) with (len + 8) by lia. cbn -[frame_bytes Z.add drop].
  unfold set_tx_state. cbn -[frame_bytes Z.add drop]. by rewrite Hw.
Qed.

Lemma tx_send_busy tx type payload len now :
  tx.(tx_state) <> GOV_TX_IDLE -> gov_tx_send tx type payload len now = Some (tx, GOV_TX_BUSY, []).
Proof.
  intros Hi. unfold gov_tx_send. destruct (tx_wire tx); [|done].
  by rewrite bool_decide_false by done.
Qed.

(** [gov_tx_send] on every branch: without a wire or outside IDLE it is BUSY and changes
    nothing; a payload that is too long or missing is an encoding error that changes nothing
    either (the sequence number is not consumed); otherwise the encoded frame goes out once, is kept
    for retransmission under the next sequence number, and the acknowledgement timer starts. *)
Theorem gov_tx_send_spec tx type payload len now :
  length tx.(tx_frame) = 72%nat -> is_u16 len ->
  (forall p, payload = Some p -> len <= Z.of_nat (length p)) ->
  gov_tx_send tx type payload len now = Some
    (if negb tx.(tx_wire) || negb (bool_decide (tx.(tx_state) = GOV_TX_IDLE)) then (tx, GOV_TX_BUSY, [])
     else if bool_decide (64 < len \/ payload = None /\ len <> 0) then (tx, GOV_TX_ENCODE_ERR, [])
     else
       let f := mkFrame type tx.(tx_next_seq) (take (Z.to_nat len) (default [] payload)) in
       (sent tx f now, GOV_TX_OK, [frame_bytes f])).
Proof.
  intros Hbuf Hlen Hp.
  destruct (tx_wire tx) eqn:Hw; [|unfold gov_tx_send; by rewrite Hw].
  destruct (bool_decide_reflect (tx_state tx = GOV_TX_IDLE)) as [Hi|Hi]; cbn [negb orb].
  2: { by apply tx_send_busy. }
  case_bool_decide as Herr.
  - unfold gov_tx_send. rewrite Hw, bool_decide_true by done. cbn [negb].
    rewrite frame_encode_failure by (clia || tauto). cbn. by destruct tx.
  - rewrite tx_send_ok; [done|done|done|done|clia| |done].
    intros ->. destruct (decide (len = 0)); [done|]. exfalso. apply Herr. by right.
Qed.

Lemma gov_tx_send_spec_witness :
  gov_tx_send (gov_tx_init true) GOV_TYPE_CMD (Some [1]) 1 4294967295 =
    Some (sent (gov_tx_init true) (mkFrame GOV_TYPE_CMD 0 [1]) 4294967295, GOV_TX_OK,
          [frame_bytes (mkFrame GOV_TYPE_CMD 0 [1])]).
Proof.
  rewrite (gov_tx_send_spec (gov_tx_init true) GOV_TYPE_CMD (Some [1]) 1 4294967295);
    [reflexivity|reflexivity|clia|]. intros p [= <-]. cbn. lia.
Defined.

(** *** The retransmission schedule *)
Lemma waiting_sent tx f now :
  tx.(tx_wire) = true -> is_u8 tx.(tx_next_seq) -> length tx.(tx_frame) = 72%nat ->
  f_seq f = tx.(tx_next_seq) -> (length (f_payload f) <= 64)%nat -> waiting (sent tx f now) f.
Proof.
  intros Hw Hn Hbuf Hs Hl. pose proof (frame_bytes_length f).
  unfold waiting, tx_ok, slot, sent, GOV_MAX_RETRIES. cbn -[frame_bytes]. split_and!; try done; try lia.
  - rewrite length_app, length_drop. lia.
  - apply u8_range.
  - by rewrite Nat2Z.id, take_app_length.
Qed.

(** Undisturbed, the two parts are the poll. *)
Lemma poll_commit_decide tx now : poll_commit tx now (poll_decide tx now) = gov_tx_poll tx now.
Proof. unfold gov_tx_poll, poll_decide. by repeat case_match. Qed.

Lemma poll_early tx f now :
  waiting tx f -> u32 (now - tx.(tx_last_tx_ms)) < GOV_ACK_TIMEOUT_MS -> gov_tx_poll tx now = Some (tx, []).
Proof.
  intros (_ & Hs & _) Ht. unfold gov_tx_poll. rewrite bool_decide_true by done. cbn [negb].
  by rewrite (proj2 (Z.ltb_lt _ _)).
Qed.

Lemma poll_retry tx f now :
  waiting tx f -> GOV_ACK_TIMEOUT_MS <= u32 (now - tx.(tx_last_tx_ms)) -> tx.(tx_retries) < GOV_MAX_RETRIES ->
  exists tx', gov_tx_poll tx now = Some (tx', [frame_bytes f]) /\ waiting tx' f /\
    tx'.(tx_retries) = tx.(tx_retries) + 1 /\ tx'.(tx_last_tx_ms) = now /\ tx'.(tx_next_seq) = tx.(tx_next_seq).
Proof.
  intros (Hok & Hs & Hc & Hsl) Ht Hr. pose proof Hok as (Hw & Hbuf & Hfl & Hret & Hn).
  unfold GOV_MAX_RETRIES in *. eexists. unfold gov_tx_poll.
  rewrite bool_decide_true by done. cbn [negb].
  rewrite (proj2 (Z.ltb_ge _ _)) by done. rewrite (proj2 (Z.leb_gt _ _)) by done.
  unfold call_wire. cbn -[load_bytes u8]. rewrite Hw, load_bytes_Some by lia. cbn [mbind option_bind].
  rewrite drop_0. fold (slot tx). rewrite Hsl. split; [reflexivity|].
  unfold waiting, tx_ok, GOV_MAX_RETRIES. cbn -[u8]. rewrite u8_small by clia.
  split_and!; try done; lia.
Qed.

Lemma poll_exhausted tx f now :
  waiting tx f -> GOV_ACK_TIMEOUT_MS <= u32 (now - tx.(tx_last_tx_ms)) -> tx.(tx_retries) = GOV_MAX_RETRIES ->
  gov_tx_poll tx now = Some (set_tx_state GOV_TX_LINK_FAULT tx, []).
Proof.
  intros (_ & Hs & _) Ht Hr. unfold gov_tx_poll. rewrite bool_decide_true by done. cbn [negb].
  rewrite (proj2 (Z.ltb_ge _ _)) by done. by rewrite Hr.
Qed.

Lemma poll_idle tx now : tx.(tx_state) <> GOV_TX_WAIT_ACK -> gov_tx_poll tx now = Some (tx, []).
Proof. intros Hs. unfold gov_tx_poll. by rewrite bool_decide_false. Qed.

(** One poll of a waiting sender: nothing, the same bytes again, or the latched fault. *)
Lemma poll_waiting tx f now :
  waiting tx f ->
  exists tx' out, gov_tx_poll tx now = Some (tx', out) /\ tx_ok tx' /\
    tx'.(tx_next_seq) = tx.(tx_next_seq) /\
    (waiting tx' f /\ (out = [] \/ out = [frame_bytes f]) \/
     tx'.(tx_state) = GOV_TX_LINK_FAULT /\ out = []).
Proof.
  intros Hw. pose proof Hw as (Hok & _). pose proof Hok as (_ & _ & _ & Hret & _).
  destruct (Z.lt_ge_cases (u32 (now - tx_last_tx_ms tx)) GOV_ACK_TIMEOUT_MS) as [He|Hl].
  { rewrite (poll_early tx f) by done. exists tx, []. tauto. }
  destruct (Z.eq_dec (tx_retries tx) GOV_MAX_RETRIES) as [Hmax|Hlt].
  - rewrite (poll_exhausted tx f) by done. eexists _, []. split; [reflexivity|].
    split_and!; [done|done|]. by right.
  - destruct (poll_retry tx f now) as (tx1 & -> & Hw1 & _ & _ & Hn); [done..|lia|].
    exists tx1, [frame_bytes f]. destruct Hw1 as [? ?]. split_and!; try done. left. split; [done|by right].
Qed.

Lemma poll_not_waiting tx polls :
  tx.(tx_state) <> GOV_TX_WAIT_ACK -> feed gov_tx_poll tx polls = Some (tx, []).
Proof.
  intros Hs. induction polls as [|now polls IH]; [done|].
  cbn [feed]. rewrite poll_idle by done. cbn [mbind option_bind]. by rewrite IH.
Qed.

Lemma polls_schedule tx f polls :
  waiting tx f ->
  let n := length (expiries tx.(tx_last_tx_ms) polls) in
  let left := Z.to_nat (GOV_MAX_RETRIES - tx.(tx_retries)) in
  exists tx', feed gov_tx_poll tx polls = Some (tx', replicate (min left n) (frame_bytes f)) /\
    tx'.(tx_state) = (if (n <=? left)%nat then GOV_TX_WAIT_ACK else GOV_TX_LINK_FAULT) /\
    slot tx' = frame_bytes f /\ tx'.(tx_cur_seq) = f.(f_seq).
Proof.
  revert tx. induction polls as [|now polls IH]; intros tx Hw.
  { exists tx. cbn. destruct Hw as (_ & ? & ? & ?). by rewrite Nat.min_0_r. }
  cbn [expiries feed]. destruct (Z.ltb_spec (u32 (now - tx_last_tx_ms tx)) GOV_ACK_TIMEOUT_MS) as [He|Hl].
  { rewrite (poll_early tx f) by done. cbn [mbind option_bind].
    destruct (IH tx Hw) as (tx' & -> & ?). by exists tx'. }
  pose proof Hw as ((_ & _ & _ & Hret & _) & _). cbn [length].
  destruct (Z.eq_dec (tx_retries tx) GOV_MAX_RETRIES) as [Hmax|Hlt].
  - rewrite (poll_exhausted tx f) by done. cbn [mbind option_bind].
    rewrite poll_not_waiting by done. rewrite Hmax, Z.sub_diag. cbn.
    eexists. split; [done|]. destruct Hw as (_ & _ & ? & ?). by split.
  - destruct (poll_retry tx f now) as (tx1 & -> & Hw1 & Hr1 & Ht1 & _); [done..|lia|].
    cbn [mbind option_bind]. destruct (IH tx1 Hw1) as (tx' & -> & Hst & Hrest).
    rewrite Ht1, Hr1 in *. exists tx'.
    replace (Z.to_nat (GOV_MAX_RETRIES - tx_retries tx)) with (S (Z.to_nat (GOV_MAX_RETRIES - (tx_retries tx + 1)))) by lia.
    split; [done|]. split; [|done]. exact Hst.
Qed.

(** C40: without an acknowledgement, whatever the times of the polls (a wrap of the 32-bit clock
    included), each poll that finds 100 ms elapsed since the last transmission sends the identical
    bytes again, three times at most; the fourth such poll, and no earlier one, latches LINK_FAULT.
    The frame is never dropped from the slot. *)
Theorem retransmission_schedule tx f now polls :
  tx.(tx_wire) = true -> tx.(tx_state) = GOV_TX_IDLE -> length tx.(tx_frame) = 72%nat ->
  is_u8 tx.(tx_next_seq) -> f.(f_seq) = tx.(tx_next_seq) -> (length f.(f_payload) <= 64)%nat ->
  let n := length (expiries now polls) in
  exists tx1 tx2,
    gov_tx_send tx f.(f_type) (Some f.(f_payload)) (Z.of_nat (length f.(f_payload))) now =
      Some (tx1, GOV_TX_OK, [frame_bytes f]) /\
    feed gov_tx_poll tx1 polls = Some (tx2, replicate (min 3 n) (frame_bytes f)) /\
    tx2.(tx_state) = (if (n <=? 3)%nat then GOV_TX_WAIT_ACK else GOV_TX_LINK_FAULT) /\
    slot tx2 = frame_bytes f.
Proof.
  intros Hw Hi Hbuf Hn Hs Hl n.
  assert (Hf : mkFrame (f_type f) (tx_next_seq tx) (take (Z.to_nat (Z.of_nat (length (f_payload f)))) (f_payload f)) = f).
  { rewrite Nat2Z.id, take_ge, <-Hs by done. by destruct f. }
  pose proof (tx_send_ok tx (f_type f) (Some (f_payload f)) (Z.of_nat (length (f_payload f))) now Hw Hi Hbuf) as Hsend.
  cbn [from_option id] in Hsend. rewrite Hf in Hsend.
  destruct (polls_schedule (sent tx f now) f polls) as (tx2 & Hp & Hst & Hsl & _); [by apply waiting_sent|].
  exists (sent tx f now), tx2. split_and!; [|exact Hp|exact Hst|done].
  apply Hsend; [lia|done|by intros ? [= <-]].
Qed.

(** Polled every millisecond across the wrap of the clock: 100, 200 and 300 ms later it is sent
    again, 400 ms later the fault is latched. *)
Lemma retransmission_schedule_witness :
  let t0 := 4294967200 in let f := mkFrame GOV_TYPE_CMD 0 [1] in
  expiries t0 (tick t0 450) = [u32 (t0 + 100); u32 (t0 + 200); u32 (t0 + 300); u32 (t0 + 400)] /\
  exists tx1 tx2,
    gov_tx_send (gov_tx_init true) GOV_TYPE_CMD (Some [1]) 1 t0 = Some (tx1, GOV_TX_OK, [frame_bytes f]) /\
    feed gov_tx_poll tx1 (tick t0 450) = Some (tx2, replicate 3 (frame_bytes f)) /\
    tx2.(tx_state) = GOV_TX_LINK_FAULT /\ slot tx2 = frame_bytes f.
Proof.
  split; [vm_compute; reflexivity|].
  apply (retransmission_schedule (gov_tx_init true) (mkFrame GOV_TYPE_CMD 0 [1]) 4294967200 (tick 4294967200 450));
    try reflexivity; [cbn; clia | cbn; lia].
Defined.

(** ** Receiver *)

(** The receiver acknowledges every frame it is given with the frame's sequence number and
    delivers it exactly when it does not repeat the last accepted number; a repeat is counted and
    leaves the rest of the state alone. *)
Lemma gov_rx_on_frame_spec rx f :
  gov_rx_on_frame rx f = Some
    (if negb rx.(rx_wire) then (rx, [])
     else if rx.(rx_have_last) && (f.(f_seq) =? rx.(rx_last_seq)) then
       (set_rx_dup (u32 (rx.(rx_dup) + 1)) rx, [rx_emits (frame_bytes (ack_frame f.(f_seq)))])
     else
       (set_rx_have_last true (set_rx_last_seq f.(f_seq) rx),
        (if rx.(rx_deliver) then [rx_delivers f] else []) ++
        [rx_emits (frame_bytes (ack_frame f.(f_seq)))])).
Proof.
  unfold gov_rx_on_frame. rewrite send_ack_spec. destruct (rx_wire rx); [|done]. cbn [negb].
  by destruct (rx_have_last rx && (f_seq f =? rx_last_seq rx)).
Qed.
