(* ===== verification/Arq.v ===== *)
(** * Arq: two ends of the link over lossy channels

    A link end is what main.c keeps per link: a decoder whose callback is [on_decoded_frame], a
    sender and a receiver.  Two ends are joined by two FIFO channels that can lose frames at any
    point; the actions of a run (send, poll, clear a latched fault, lose a frame in transit, receive)
    come in any order.  The theorems are end-to-end delivery. *)
From stdpp Require Import sorting.
From S2P Require Import Prelude Crc16 Frame Reliable.

(** ** A link end *)
Record link := mkLink {
  l_dec : gov_decoder;
  l_tx : gov_tx;
  l_rx : gov_rx
}.

Definition set_l_dec (v : gov_decoder) (r : link) : link :=
  {| l_dec := v; l_tx := r.(l_tx); l_rx := r.(l_rx) |}.
Definition set_l_tx (v : gov_tx) (r : link) : link :=
  {| l_dec := r.(l_dec); l_tx := v; l_rx := r.(l_rx) |}.
Definition set_l_rx (v : gov_rx) (r : link) : link :=
  {| l_dec := r.(l_dec); l_tx := r.(l_tx); l_rx := v |}.

Definition link_init : link := mkLink (gov_decoder_init true) (gov_tx_init true) (gov_rx_init true true).

(** The decoder's callback (src/main.c). *)
Definition on_decoded_frame (l : link) (f : frame) : option (link * list rx_out) :=
  if (f.(f_type) =? GOV_TYPE_ACK) && bool_decide (1 <= length f.(f_payload))%nat then
    acked ← load f.(f_payload) 0;
    Some (set_l_tx (gov_tx_on_ack l.(l_tx) acked) l, [])
  else
    '(rx, out) ← gov_rx_on_frame l.(l_rx) f;
    Some (set_l_rx rx l, out).

(** Bytes off the wire: decode them and run the callback on each frame. *)
Definition link_receive (l : link) (bytes : list Z) : option (link * list rx_out) :=
  '(d, fs) ← decode l.(l_dec) bytes;
  feed on_decoded_frame (set_l_dec d l) fs.

(** ** The system *)
Inductive action :=
  | a_send (type : Z) (payload : list Z) (now : Z)
  | a_poll (now : Z)
  | a_clear
  | a_lose_data (i : nat)
  | a_lose_ack (i : nat)
  | a_recv_data
  | a_recv_ack.

(** The two ends, the channels (a list of frames' bytes, oldest first), and a log: what was
    accepted from the sending application, delivered to the receiving one, acknowledged to the
    sender, and how often a latched LINK_FAULT was cleared. *)
Record arq := mkArq {
  a_snd : link;
  a_rcv : link;
  a_data : list (list Z);
  a_acks : list (list Z);
  a_sub : list frame;
  a_del : list frame;
  a_acked : list frame;
  a_clears : nat
}.

Definition set_a_snd (v : link) (r : arq) : arq :=
  {| a_snd := v; a_rcv := r.(a_rcv); a_data := r.(a_data); a_acks := r.(a_acks);
     a_sub := r.(a_sub); a_del := r.(a_del); a_acked := r.(a_acked); a_clears := r.(a_clears) |}.
Definition set_a_rcv (v : link) (r : arq) : arq :=
  {| a_snd := r.(a_snd); a_rcv := v; a_data := r.(a_data); a_acks := r.(a_acks);
     a_sub := r.(a_sub); a_del := r.(a_del); a_acked := r.(a_acked); a_clears := r.(a_clears) |}.
Definition set_a_data (v : list (list Z)) (r : arq) : arq :=
  {| a_snd := r.(a_snd); a_rcv := r.(a_rcv); a_data := v; a_acks := r.(a_acks);
     a_sub := r.(a_sub); a_del := r.(a_del); a_acked := r.(a_acked); a_clears := r.(a_clears) |}.
Definition set_a_acks (v : list (list Z)) (r : arq) : arq :=
  {| a_snd := r.(a_snd); a_rcv := r.(a_rcv); a_data := r.(a_data); a_acks := v;
     a_sub := r.(a_sub); a_del := r.(a_del); a_acked := r.(a_acked); a_clears := r.(a_clears) |}.
Definition set_a_sub (v : list frame) (r : arq) : arq :=
  {| a_snd := r.(a_snd); a_rcv := r.(a_rcv); a_data := r.(a_data); a_acks := r.(a_acks);
     a_sub := v; a_del := r.(a_del); a_acked := r.(a_acked); a_clears := r.(a_clears) |}.
Definition set_a_del (v : list frame) (r : arq) : arq :=
  {| a_snd := r.(a_snd); a_rcv := r.(a_rcv); a_data := r.(a_data); a_acks := r.(a_acks);
     a_sub := r.(a_sub); a_del := v; a_acked := r.(a_acked); a_clears := r.(a_clears) |}.
Definition set_a_acked (v : list frame) (r : arq) : arq :=
  {| a_snd := r.(a_snd); a_rcv := r.(a_rcv); a_data := r.(a_data); a_acks := r.(a_acks);
     a_sub := r.(a_sub); a_del := r.(a_del); a_acked := v; a_clears := r.(a_clears) |}.
Definition set_a_clears (v : nat) (r : arq) : arq :=
  {| a_snd := r.(a_snd); a_rcv := r.(a_rcv); a_data := r.(a_data); a_acks := r.(a_acks);
     a_sub := r.(a_sub); a_del := r.(a_del); a_acked := r.(a_acked); a_clears := v |}.

Definition arq_init : arq := mkArq link_init link_init [] [] [] [] [] 0.

Definition emitted (outs : list rx_out) : list (list Z) :=
  omap (fun o => match o with rx_emits bytes => Some bytes | _ => None end) outs.
Definition deliveries (outs : list rx_out) : list frame :=
  omap (fun o => match o with rx_delivers f => Some f | _ => None end) outs.

Definition arq_send (type : Z) (payload : list Z) (now : Z) (s : arq) : option arq :=
  let tx := s.(a_snd).(l_tx) in
  '(tx', st, out) ← gov_tx_send tx type (Some payload) (Z.of_nat (length payload)) now;
  let s := set_a_snd (set_l_tx tx' s.(a_snd)) s in
  let s := set_a_data (s.(a_data) ++ out) s in
  Some (match st with
        | GOV_TX_OK => set_a_sub (s.(a_sub) ++ [mkFrame type tx.(tx_next_seq) payload]) s
        | _ => s
        end).

Definition arq_poll (now : Z) (s : arq) : option arq :=
  '(tx', out) ← gov_tx_poll s.(a_snd).(l_tx) now;
  Some (set_a_data (s.(a_data) ++ out) (set_a_snd (set_l_tx tx' s.(a_snd)) s)).

Definition arq_clear (s : arq) : arq :=
  let tx := s.(a_snd).(l_tx) in
  let n := if bool_decide (tx.(tx_state) = GOV_TX_LINK_FAULT) then 1%nat else 0%nat in
  set_a_clears (s.(a_clears) + n)%nat (set_a_snd (set_l_tx (gov_tx_clear_fault tx) s.(a_snd)) s).

Definition arq_recv_data (s : arq) : option arq :=
  match s.(a_data) with
  | [] => Some s
  | bytes :: rest =>
      '(rcv, outs) ← link_receive s.(a_rcv) bytes;
      let s := set_a_data rest (set_a_rcv rcv s) in
      let s := set_a_acks (s.(a_acks) ++ emitted outs) s in
      Some (set_a_del (s.(a_del) ++ deliveries outs) s)
  end.

Definition arq_recv_ack (s : arq) : option arq :=
  match s.(a_acks) with
  | [] => Some s
  | bytes :: rest =>
      '(snd, outs) ← link_receive s.(a_snd) bytes;
      let completed := bool_decide (s.(a_snd).(l_tx).(tx_state) = GOV_TX_WAIT_ACK) &&
                       bool_decide (snd.(l_tx).(tx_state) = GOV_TX_IDLE) in
      let s := set_a_acks rest (set_a_snd snd s) in
      let s := set_a_data (s.(a_data) ++ emitted outs) s in
      Some (if completed then set_a_acked (s.(a_acked) ++ option_list (last s.(a_sub))) s else s)
  end.

Definition arq_step (s : arq) (a : action) : option arq :=
  match a with
  | a_send type payload now => arq_send type payload now s
  | a_poll now => arq_poll now s
  | a_clear => Some (arq_clear s)
  | a_lose_data i => Some (set_a_data (delete i s.(a_data)) s)
  | a_lose_ack i => Some (set_a_acks (delete i s.(a_acks)) s)
  | a_recv_data => arq_recv_data s
  | a_recv_ack => arq_recv_ack s
  end.

Definition arq_run (s : arq) (acts : list action) : option arq :=
  foldl (fun o a => s ← o; arq_step s a) (Some s) acts.

(** The application sends well-formed messages of a known type that is not an acknowledgement. *)
Definition sendable (type : Z) (payload : list Z) : Prop :=
  is_u8 type /\ is_known_type type = true /\ type <> GOV_TYPE_ACK /\ is_bytes payload /\
  (length payload <= 64)%nat.

Definition action_ok (a : action) : Prop :=
  match a with a_send type payload _ => sendable type payload | _ => True end.

Definition is_clear (a : action) : bool := match a with a_clear => true | _ => false end.
Definition clears_in (acts : list action) : nat := length (filter (fun a => is_clear a = true) acts).

(** The messages at the given positions. *)
Definition pick (msgs : list frame) (idx : list nat) : list frame := omap (fun i => msgs !! i) idx.

Definition sub_wf (sub : list frame) : Prop :=
  forall i f, sub !! i = Some f ->
    f.(f_seq) = Z.of_nat i mod 256 /\ frame_wf f /\ is_known_type f.(f_type) = true /\
    f.(f_type) <> GOV_TYPE_ACK.

Definition dec_idle (l : link) : Prop :=
  dec_ok l.(l_dec) /\ d_state l.(l_dec) = GOV_DEC_HUNT_SOF /\ d_cb l.(l_dec) = true.

(** [n] messages were accepted for sending; the acknowledged ones are among the first [ac]. *)
Definition snd_ok (l : link) (sub : list frame) (ac : nat) (clears : nat) : Prop :=
  let tx := l.(l_tx) in let n := length sub in
  dec_idle l /\ tx_ok tx /\ tx.(tx_next_seq) = Z.of_nat n mod 256 /\ (ac <= n)%nat /\
  match tx.(tx_state) with
  | GOV_TX_IDLE => (n <= ac + clears)%nat
  | GOV_TX_WAIT_ACK =>
      (ac < n <= ac + clears + 1)%nat /\ exists f, sub !! (n - 1)%nat = Some f /\ waiting tx f
  | GOV_TX_LINK_FAULT => (ac < n <= ac + clears + 1)%nat
  end.

(** The receiver's last accepted message is the one before position [rc]. *)
Definition rcv_ok (l : link) (rc : nat) : Prop :=
  let rx := l.(l_rx) in
  dec_idle l /\ rx.(rx_wire) = true /\ rx.(rx_deliver) = true /\
  rx.(rx_have_last) = bool_decide (0 < rc)%nat /\
  ((0 < rc)%nat -> rx.(rx_last_seq) = Z.of_nat (rc - 1) mod 256).

(** The data channel holds messages at non-decreasing positions from [rc - 1] on. *)
Definition data_ok (sub : list frame) (rc : nat) (data : list (list Z)) (D : list nat) : Prop :=
  Forall2 (fun w i => exists f, sub !! i = Some f /\ w = frame_bytes f) data D /\
  StronglySorted le D /\ Forall (fun i => rc <= i + 1)%nat D.

(** The acknowledgement channel: non-decreasing positions between [ac - 1] and [rc - 1]. *)
Definition acks_ok (ac rc : nat) (acks : list (list Z)) (A : list nat) : Prop :=
  Forall2 (fun w i => w = frame_bytes (ack_frame (Z.of_nat i mod 256))) acks A /\
  StronglySorted le A /\ Forall (fun i => ac <= i + 1 <= rc)%nat A.

(** Deliveries [L] and acknowledgements [K], as positions. *)
Definition log_ok (s : arq) (ac rc : nat) (L K : list nat) : Prop :=
  s.(a_del) = pick s.(a_sub) L /\ s.(a_acked) = pick s.(a_sub) K /\
  StronglySorted lt L /\ StronglySorted lt K /\ Forall (fun i => i < rc)%nat L /\
  Forall (fun i => i < ac)%nat K /\ ((0 < rc)%nat -> (rc - 1)%nat ∈ L) /\ K ⊆ L /\
  (s.(a_clears) = 0%nat -> L = seq 0 rc /\ K = seq 0 ac).

Definition arq_inv (s : arq) : Prop :=
  exists D A L K rc ac,
    sub_wf s.(a_sub) /\ snd_ok s.(a_snd) s.(a_sub) ac s.(a_clears) /\ rcv_ok s.(a_rcv) rc /\
    (ac <= rc <= length s.(a_sub))%nat /\
    data_ok s.(a_sub) rc s.(a_data) D /\ acks_ok ac rc s.(a_acks) A /\ log_ok s ac rc L K.

(** ** Lists of positions *)
Lemma sorted_snoc {A} (R : A -> A -> Prop) l x :
  StronglySorted R l -> Forall (fun y => R y x) l -> StronglySorted R (l ++ [x]).
Proof.
  induction 1 as [|y l Hs IH Hy]; intros Hx; [repeat constructor|].
  apply Forall_cons in Hx as [? ?]. constructor; [by apply IH|].
  apply Forall_app. split; [done|]. by apply Forall_singleton.
Qed.

Lemma sorted_tail {A} (R : A -> A -> Prop) x l :
  StronglySorted R (x :: l) -> StronglySorted R l /\ Forall (R x) l.
Proof. by inversion 1. Qed.

Lemma sorted_delete {A} (R : A -> A -> Prop) l i : StronglySorted R l -> StronglySorted R (delete i l).
Proof.
  intros H. revert i. induction H as [|x l Hl IH Hx]; intros [|i]; cbn; [constructor|constructor|done|].
  constructor; [apply IH|]. by apply Forall_delete.
Qed.

Lemma Forall2_delete_same {A B} (R : A -> B -> Prop) l k i :
  Forall2 R l k -> Forall2 R (delete i l) (delete i k).
Proof. intros H. revert i. induction H; intros [|i]; cbn; try constructor; eauto. Qed.

Lemma pick_grow sub f L : Forall (fun i => i < length sub)%nat L -> pick (sub ++ [f]) L = pick sub L.
Proof.
  induction 1 as [|i L Hi _ IH]; [done|]. unfold pick in *. cbn [omap list_omap].
  rewrite lookup_app_l by done. by rewrite IH.
Qed.

Lemma pick_snoc sub i f L : sub !! i = Some f -> pick sub (L ++ [i]) = pick sub L ++ [f].
Proof. intros Hf. unfold pick. rewrite omap_app. cbn. by rewrite Hf. Qed.

Lemma Forall_lt_le (L : list nat) a b : (a <= b)%nat -> Forall (fun i => i < a)%nat L -> Forall (fun i => i < b)%nat L.
Proof. intros ? H. eapply Forall_impl; [exact H|]. cbn. lia. Qed.

Lemma seq_snoc n : seq 0 n ++ [n] = seq 0 (S n).
Proof. by rewrite seq_S. Qed.

(** Two positions less than 256 apart have the same sequence number only if they are equal. *)
Lemma same_seq (i j : nat) :
  Z.of_nat i mod 256 = Z.of_nat j mod 256 -> (i <= j < i + 256)%nat -> i = j.
Proof. intros H Hr. revert H. dlia. Qed.

(** ** What a link end does with one frame *)
Lemma receive_one l f :
  dec_idle l -> frame_wf f -> is_known_type f.(f_type) = true ->
  exists d', dec_idle (set_l_dec d' l) /\
    link_receive l (frame_bytes f) = on_decoded_frame (set_l_dec d' l) f.
Proof.
  intros (Hd & E & Hcb) Hf Hk.
  destruct (decode_one_frame _ f Hd E Hcb Hf Hk) as (d' & H & ? & ? & ?).
  exists d'. split; [done|]. unfold link_receive. rewrite H. cbn [mbind option_bind feed].
  destruct (on_decoded_frame (set_l_dec d' l) f) as [[l' out]|]; [|done]. cbn. by rewrite app_nil_r.
Qed.

Lemma ack_frame_wf sq : is_u8 sq -> frame_wf (ack_frame sq) /\ is_known_type (f_type (ack_frame sq)) = true.
Proof. intros. split; [|done]. unfold ack_frame. frame_lit. Qed.

Lemma receive_ack l sq :
  dec_idle l -> is_u8 sq ->
  exists d', dec_idle (set_l_dec d' l) /\
    link_receive l (frame_bytes (ack_frame sq)) =
      Some (set_l_tx (gov_tx_on_ack l.(l_tx) sq) (set_l_dec d' l), []).
Proof.
  intros Hd Hs. destruct (ack_frame_wf sq Hs) as [Hwf Hk].
  destruct (receive_one l _ Hd Hwf Hk) as (d' & Hd' & ->). exists d'. by split.
Qed.

Lemma receive_data l f :
  dec_idle l -> frame_wf f -> is_known_type f.(f_type) = true -> f.(f_type) <> GOV_TYPE_ACK ->
  l.(l_rx).(rx_wire) = true -> l.(l_rx).(rx_deliver) = true ->
  let rx := l.(l_rx) in
  let dup := rx.(rx_have_last) && (f.(f_seq) =? rx.(rx_last_seq)) in
  exists d', dec_idle (set_l_dec d' l) /\
    link_receive l (frame_bytes f) = Some
      (set_l_rx (if dup then set_rx_dup (u32 (rx.(rx_dup) + 1)) rx
                 else set_rx_have_last true (set_rx_last_seq f.(f_seq) rx)) (set_l_dec d' l),
       (if dup then [] else [rx_delivers f]) ++ [rx_emits (frame_bytes (ack_frame f.(f_seq)))]).
Proof.
  intros Hd Hf Hk Ht Hw Hdel rx dup. destruct (receive_one l f Hd Hf Hk) as (d' & Hd' & ->).
  exists d'. split; [done|]. unfold on_decoded_frame.
  rewrite (proj2 (Z.eqb_neq _ _) Ht). cbn [andb l_rx set_l_dec]. rewrite gov_rx_on_frame_spec.
  fold rx in Hw, Hdel |- *. fold dup. rewrite Hw, Hdel. cbn [negb]. by destruct dup.
Qed.

(** ** The invariant is kept *)
Lemma inv_lose_data s i : arq_inv s -> arq_inv (set_a_data (delete i s.(a_data)) s).
Proof.
  intros (D & A & L & K & rc & ac & ? & ? & ? & ? & (H1 & H2 & H3) & ? & Hlog).
  exists (delete i D), A, L, K, rc, ac. do 4 (split; [done|]). split; [|by split].
  split_and!; [by apply Forall2_delete_same | by apply sorted_delete | by apply Forall_delete].
Qed.

Lemma inv_lose_ack s i : arq_inv s -> arq_inv (set_a_acks (delete i s.(a_acks)) s).
Proof.
  intros (D & A & L & K & rc & ac & ? & ? & ? & ? & ? & (H1 & H2 & H3) & Hlog).
  exists D, (delete i A), L, K, rc, ac. do 5 (split; [done|]). split; [|done].
  split_and!; [by apply Forall2_delete_same | by apply sorted_delete | by apply Forall_delete].
Qed.

Lemma inv_clear s : arq_inv s -> arq_inv (arq_clear s).
Proof.
  intros (D & A & L & K & rc & ac & Hsub & (Hd & Htx & Hn & Hac & Hst) & Hrcv & Hle & Hdata & Hacks & Hlog).
  unfold arq_clear, gov_tx_clear_fault. destruct (l_tx (a_snd s)) as [w st ns cs rt lt fl fr] eqn:Etx.
  rewrite ?Etx in Htx, Hn, Hst.
  destruct (bool_decide_reflect (tx_state (mkTx w st ns cs rt lt fl fr) = GOV_TX_LINK_FAULT)) as [E|E]; cbn in E.
  - subst st. exists D, A, L, K, rc, ac. split; [done|]. split; [|do 4 (split; [done|])].
    + cbn in *. split_and!; try done. cbn. lia.
    + destruct Hlog as (? & ? & ? & ? & ? & ? & ? & ? & Hz). split_and!; try done. cbn. lia.
  - exists D, A, L, K, rc, ac. cbn. rewrite Nat.add_0_r.
    split; [done|]. split; [|do 4 (split; [done|]); done]. cbn. split_and!; try done.
Qed.

Lemma data_ok_emit sub rc data D f :
  data_ok sub rc data D -> sub !! (length sub - 1)%nat = Some f -> (0 < length sub)%nat ->
  (rc <= length sub)%nat ->
  data_ok sub rc (data ++ [frame_bytes f]) (D ++ [(length sub - 1)%nat]).
Proof.
  intros (H1 & H2 & H3) Hf Hl Hrc. split_and!.
  - apply Forall2_app; [done|]. constructor; [|constructor]. by exists f.
  - apply sorted_snoc; [done|]. apply Forall_forall. intros i Hi.
    apply list_elem_of_lookup in Hi as [j Hj].
    destruct (Forall2_lookup_r _ _ _ _ _ H1 Hj) as (w & _ & g & Hg & _).
    apply lookup_lt_Some in Hg. lia.
  - apply Forall_app. split; [done|]. apply Forall_singleton. lia.
Qed.

Lemma data_ok_grow sub rc data D f :
  data_ok sub rc data D -> data_ok (sub ++ [f]) rc data D.
Proof.
  intros (H1 & H2 & H3). split_and!; [|done..]. eapply Forall2_impl; [exact H1|].
  intros w i (g & Hg & ->). exists g. split; [|done]. by apply lookup_app_l_Some.
Qed.

Lemma inv_send s type payload now :
  arq_inv s -> sendable type payload -> exists s', arq_send type payload now s = Some s' /\ arq_inv s'.
Proof.
  intros (D & A & L & K & rc & ac & Hsub & (Hd & Htx & Hn & Hac & Hst) & Hrcv & Hle & Hdata & Hacks & Hlog)
    (Ht & Hk & Hna & Hp & Hlen).
  unfold arq_send. set (tx := l_tx (a_snd s)) in *. pose proof Htx as (Hw & Hbuf & _ & _ & Hn8).
  destruct (decide (tx_state tx = GOV_TX_IDLE)) as [Hi|Hb].
  - rewrite tx_send_ok; [|done..|lia|done|by intros ? [= <-]].
    rewrite Nat2Z.id. cbn [from_option id]. rewrite take_ge by done. set (f := mkFrame type (tx_next_seq tx) payload).
    cbn [mbind option_bind]. eexists. split; [reflexivity|]. rewrite Hi in Hst.
    assert (Hf : (a_sub s ++ [f]) !! length (a_sub s) = Some f) by by apply list_lookup_middle.
    assert (Hwait : waiting (sent tx f now) f) by by apply waiting_sent.
    exists (D ++ [length (a_sub s)]), A, L, K, rc, ac. cbn.
    assert (Hlast : (length (a_sub s ++ [f]) - 1 = length (a_sub s))%nat) by (rewrite length_app; cbn; lia).
    split_and!.
    + intros i g Hg. apply lookup_app_Some in Hg as [Hg|[Hi' Hg]]; [by apply Hsub|].
      apply list_lookup_singleton_Some in Hg as [Hz <-]. assert (i = length (a_sub s)) as -> by lia.
      split_and!; try done.
    + split_and!; try done; cbn.
      * apply Hwait.
      * rewrite Hn, length_app. cbn. clear. dlia.
      * rewrite length_app. lia.
      * split; [rewrite length_app; cbn; lia|]. rewrite Hlast. by exists f.
    + done.
    + lia.
    + rewrite length_app. lia.
    + rewrite <-Hlast. apply data_ok_emit; [by apply data_ok_grow|by rewrite Hlast|rewrite length_app; cbn; lia..].
    + done.
    + destruct Hlog as (H1 & H2 & ? & ? & HL & HK & ? & ? & ?). split_and!; try done; cbn.
      * rewrite pick_grow; [done|]. eapply Forall_lt_le; [|exact HL]. lia.
      * rewrite pick_grow; [done|]. eapply Forall_lt_le; [|exact HK]. lia.
  - rewrite tx_send_busy by done. cbn [mbind option_bind]. eexists. split; [reflexivity|].
    exists D, A, L, K, rc, ac. cbn. rewrite app_nil_r. split_and!; try done; try lia.
Qed.

Lemma inv_poll s now : arq_inv s -> exists s', arq_poll now s = Some s' /\ arq_inv s'.
Proof.
  intros (D & A & L & K & rc & ac & Hsub & (Hd & Htx & Hn & Hac & Hst) & Hrcv & Hle & Hdata & Hacks & Hlog).
  unfold arq_poll. set (tx := l_tx (a_snd s)) in *.
  destruct (decide (tx_state tx = GOV_TX_WAIT_ACK)) as [Hwa|Hidle].
  - rewrite Hwa in Hst. destruct Hst as [Hst (f & Hf & Hw)].
    destruct (poll_waiting tx f now Hw) as (tx' & out & -> & Hok & Hn' & Hcase).
    cbn [mbind option_bind]. eexists. split; [reflexivity|].
    assert (Hsnd : snd_ok (set_l_tx tx' (a_snd s)) (a_sub s) ac (a_clears s)).
    { split_and!; cbn; try done; [by rewrite Hn'|].
      destruct Hcase as [[Hw' _]|[Hf' _]]; [|by rewrite Hf'].
      pose proof Hw' as (_ & -> & _). split; [done|]. by exists f. }
    assert (Hout : out = [] \/ out = [frame_bytes f]) by tauto. destruct Hout as [-> | ->].
    + exists D, A, L, K, rc, ac. cbn. rewrite app_nil_r. by do 6 (split; [done|]).
    + exists (D ++ [(length (a_sub s) - 1)%nat]), A, L, K, rc, ac.
      do 4 (split; [done|]). split; [|by split]. apply data_ok_emit; [done..|lia|lia].
  - rewrite poll_idle by done. cbn [mbind option_bind]. eexists. split; [reflexivity|].
    exists D, A, L, K, rc, ac. cbn. rewrite app_nil_r. by do 6 (split; [done|]).
Qed.

Lemma pick_lookup_grow sub i f L :
  sub !! i = Some f -> pick sub L ++ [f] = pick sub (L ++ [i]).
Proof. intros. by rewrite (pick_snoc _ _ f). Qed.

(** The receiver acknowledges the message at [j], and recognises it as a repeat if it is its last one. *)
Lemma acks_ok_emit ac rc acks A j f :
  acks_ok ac rc acks A -> (ac <= rc <= j + 1)%nat -> f.(f_seq) = Z.of_nat j mod 256 ->
  acks_ok ac (j + 1) (acks ++ [frame_bytes (ack_frame f.(f_seq))]) (A ++ [j]).
Proof.
  intros (A1 & A2 & A3) Hj Hseq. split_and!.
  - apply Forall2_app; [done|]. constructor; [|constructor]. by rewrite Hseq.
  - apply sorted_snoc; [done|]. eapply Forall_impl; [exact A3|]. cbn. lia.
  - apply Forall_app. split; [|apply Forall_singleton; lia]. eapply Forall_impl; [exact A3|]. cbn. lia.
Qed.

Lemma rcv_recognises l rc j f :
  rcv_ok l rc -> f.(f_seq) = Z.of_nat j mod 256 -> (rc <= j + 1)%nat -> (j < rc + 255)%nat ->
  l.(l_rx).(rx_have_last) && (f.(f_seq) =? l.(l_rx).(rx_last_seq)) = bool_decide (rc = j + 1)%nat.
Proof.
  intros (_ & _ & _ & Hhl & Hls) Hseq Hrj Hspan.
  rewrite Hhl. destruct (decide (0 < rc)%nat) as [H0|H0]; [|rewrite !bool_decide_false by lia; done].
  rewrite bool_decide_true, Hls, Hseq by done. cbn [andb].
  destruct (bool_decide_reflect (rc = j + 1)%nat) as [->|Hne].
  - apply Z.eqb_eq. do 2 f_equal. lia.
  - apply Z.eqb_neq. intros Heq. apply Hne. pose proof (same_seq (rc - 1) j (eq_sym Heq)). lia.
Qed.

Lemma inv_recv_data s :
  arq_inv s -> (a_clears s <= 254)%nat -> exists s', arq_recv_data s = Some s' /\ arq_inv s'.
Proof.
  intros (D & A & L & K & rc & ac & Hsub & Hsnd & Hrcv & Hle & (H1 & H2 & H3) & HA & Hlog) Hc.
  unfold arq_recv_data. destruct (a_data s) as [|w data] eqn:Ed.
  { eexists. split; [reflexivity|]. exists D, A, L, K, rc, ac. rewrite Ed. by repeat (split; [done|]). }
  inversion H1 as [|? j ? D' (f & Hf & ->) H1']; subst. destruct (sorted_tail _ _ _ H2) as [H2' HjD].
  apply Forall_cons in H3 as [Hrj H3].
  destruct (Hsub j f Hf) as (Hseq & Hwf & Hk & Hna). pose proof (lookup_lt_Some _ _ _ Hf) as Hj.
  assert (Hspan : (length (a_sub s) <= ac + a_clears s + 1)%nat).
  { destruct Hsnd as (_ & _ & _ & _ & Hst). destruct (tx_state _); lia. }
  pose proof (rcv_recognises (a_rcv s) rc j f Hrcv Hseq Hrj ltac:(lia)) as Hdup.
  destruct Hrcv as (Hidle & Hwire & Hdel & Hhl & Hls).
  destruct (receive_data (a_rcv s) f Hidle Hwf Hk Hna Hwire Hdel) as (d' & Hd' & Hrecv).
  rewrite Hrecv. cbn [mbind option_bind]. eexists. split; [reflexivity|].
  pose proof (acks_ok_emit ac rc (a_acks s) A j f HA ltac:(lia) Hseq) as HA'.
  rewrite Hdup. clear Hrecv. destruct (bool_decide_reflect (rc = j + 1)%nat) as [Hrc|Hne]; cbn.
  - exists D', (A ++ [j]), L, K, rc, ac. rewrite app_nil_r.
    split; [done|]. split; [done|]. split; [by split|]. split; [done|]. split; [by split|]. split; [by rewrite Hrc|done].
  - destruct Hlog as (L1 & L2 & L3 & L4 & L5 & L6 & L7 & L8 & L9).
    exists D', (A ++ [j]), (L ++ [j]), K, (j + 1)%nat, ac.
    split; [done|]. split; [done|]. split; [|split; [cbn; lia|split; [|split; [done|]]]].
    + split_and!; try done; cbn.
      * rewrite bool_decide_true by lia. done.
      * intros _. rewrite Hseq. do 2 f_equal. lia.
    + split_and!; [done..|]. eapply Forall_impl; [exact HjD|]. cbn. lia.
    + split_and!; cbn; try done.
      * rewrite L1. by apply pick_lookup_grow.
      * apply sorted_snoc; [done|]. eapply Forall_impl; [exact L5|]. cbn. lia.
      * apply Forall_app. split; [|apply Forall_singleton; lia]. eapply Forall_lt_le; [|exact L5]. lia.
      * intros _. apply elem_of_app. right. replace (j + 1 - 1)%nat with j by lia. by apply list_elem_of_singleton.
      * intros k Hk'. apply elem_of_app. left. by apply L8.
      * intros Hz. destruct (L9 Hz) as [-> ->]. split; [|done].
        assert (j = rc) as -> by lia. rewrite seq_snoc. f_equal. lia.
Qed.

Lemma tx_on_ack_other tx sq :
  ~ (tx.(tx_state) = GOV_TX_WAIT_ACK /\ sq = tx.(tx_cur_seq)) -> gov_tx_on_ack tx sq = tx.
Proof.
  intros H. unfold gov_tx_on_ack. destruct (bool_decide_reflect (tx_state tx = GOV_TX_WAIT_ACK)); [|done].
  destruct (Z.eqb_spec sq (tx_cur_seq tx)); [|done]. tauto.
Qed.

Lemma inv_recv_ack s :
  arq_inv s -> (a_clears s <= 254)%nat -> exists s', arq_recv_ack s = Some s' /\ arq_inv s'.
Proof.
  intros (D & A & L & K & rc & ac & Hsub & Hsnd & Hrcv & Hle & Hdata & (A1 & A2 & A3) & Hlog) Hc.
  unfold arq_recv_ack. destruct (a_acks s) as [|w acks] eqn:Ea.
  { eexists. split; [reflexivity|]. exists D, A, L, K, rc, ac. rewrite Ea. by repeat (split; [done|]). }
  inversion A1 as [|? k ? A' -> A1']; subst. destruct (sorted_tail _ _ _ A2) as [A2' HkA].
  apply Forall_cons in A3 as [Hk A3].
  destruct Hsnd as (Hd & Htx & Hn & Hac & Hst). set (tx := l_tx (a_snd s)) in *. set (n := length (a_sub s)) in *.
  destruct (receive_ack (a_snd s) (Z.of_nat k mod 256) Hd) as (d' & Hd' & Hrecv).
  { clear. dlia. }
  rewrite Hrecv. cbn [mbind option_bind]. clear Hrecv. eexists. split; [reflexivity|]. cbn. fold tx.
  destruct (decide (tx_state tx = GOV_TX_WAIT_ACK /\ Z.of_nat k mod 256 = tx_cur_seq tx)) as [[Hwa Hcs]|Hother].
  - rewrite Hwa in Hst. destruct Hst as [Hspan (f & Hf & Hw)].
    assert (k = n - 1)%nat as ->.
    { destruct Hw as (_ & _ & Hcur & _). destruct (Hsub _ f Hf) as (Hseq & _).
      apply same_seq; [congruence|]. lia. }
    unfold gov_tx_on_ack. rewrite (bool_decide_true _ Hwa), Hcs, Z.eqb_refl. cbn [andb].
    rewrite (bool_decide_true (tx_state (set_tx_state GOV_TX_IDLE tx) = GOV_TX_IDLE)) by done. cbn [andb].
    assert (rc = n) as -> by lia.
    destruct Hlog as (L1 & L2 & L3 & L4 & L5 & L6 & L7 & L8 & L9).
    assert (Hl : last (a_sub s) = Some f) by (rewrite last_lookup, <-Hf; f_equal; unfold n; lia).
    exists D, A', L, (K ++ [(n - 1)%nat]), n, n. cbn. rewrite app_nil_r.
    split; [done|]. split; [|split; [done|split; [done|split; [done|split]]]].
    + split_and!; try done. cbn. fold n. lia.
    + split_and!; [done..|]. apply Forall_forall. intros i Hi.
      rewrite Forall_forall in A3, HkA. specialize (A3 i Hi). specialize (HkA i Hi). lia.
    + split_and!; cbn; try done.
      * rewrite L2, Hl. by apply pick_lookup_grow.
      * apply sorted_snoc; [done|]. eapply Forall_impl; [exact L6|]. cbn. lia.
      * apply Forall_app. split; [|apply Forall_singleton; lia]. eapply Forall_lt_le; [|exact L6]. lia.
      * intros i [Hi|Hi%list_elem_of_singleton]%elem_of_app; [by apply L8|]. subst. apply L7. lia.
      * intros Hz. destruct (L9 Hz) as [-> ->]. split; [done|].
        assert (n - 1 = ac)%nat as -> by lia. rewrite seq_snoc. f_equal. lia.
  - rewrite tx_on_ack_other by done.
    assert (bool_decide (tx_state tx = GOV_TX_WAIT_ACK) && bool_decide (tx_state tx = GOV_TX_IDLE) = false) as ->.
    { by destruct (tx_state tx). }
    exists D, A', L, K, rc, ac. cbn. rewrite app_nil_r.
    split; [done|]. split; [by split_and!|]. do 3 (split; [done|]). split; [|done]. by split_and!.
Qed.

Lemma clears_mono s a s' : arq_step s a = Some s' -> (a_clears s <= a_clears s')%nat.
Proof.
  destruct a; cbn.
  - unfold arq_send. destruct (gov_tx_send _ _ _ _ _) as [[[tx' st] out]|]; [|done]. cbn. intros [= <-]. by destruct st.
  - unfold arq_poll. destruct (gov_tx_poll _ _) as [[tx' out]|]; [|done]. cbn. by intros [= <-].
  - intros [= <-]. cbn. lia.
  - by intros [= <-].
  - by intros [= <-].
  - unfold arq_recv_data. destruct (a_data s); [by intros [= <-]|].
    destruct (link_receive _ _) as [[l' out]|]; [|done]. cbn. by intros [= <-].
  - unfold arq_recv_ack. destruct (a_acks s); [by intros [= <-]|].
    destruct (link_receive _ _) as [[l' out]|]; [|done]. cbn. intros [= <-]. by destruct (_ && _).
Qed.

Lemma inv_step s a :
  arq_inv s -> (a_clears s <= 254)%nat -> action_ok a -> exists s', arq_step s a = Some s' /\ arq_inv s'.
Proof.
  intros Hi Hc Ha. destruct a; cbn in *.
  - by apply inv_send.
  - by apply inv_poll.
  - eexists. split; [done|]. by apply inv_clear.
  - eexists. split; [done|]. by apply inv_lose_data.
  - eexists. split; [done|]. by apply inv_lose_ack.
  - by apply inv_recv_data.
  - by apply inv_recv_ack.
Qed.

Lemma inv_init : arq_inv arq_init.
Proof.
  exists [], [], [], [], 0%nat, 0%nat.
  assert (Hd : dec_idle link_init) by (split; [apply init_ok|done]).
  split; [by intros i f|].
  split. { split_and!; [done| |done|done|cbn; lia]. by repeat split. }
  split. { split_and!; [done|done|done|done|lia]. }
  split; [done|]. split; [split_and!; constructor|]. split; [split_and!; constructor|].
  split_and!; try done; try constructor; try lia.
Qed.

Lemma clears_step s a s' :
  arq_step s a = Some s' -> (a_clears s' <= a_clears s + Nat.b2n (is_clear a))%nat.
Proof.
  destruct a; cbn.
  - unfold arq_send. destruct (gov_tx_send _ _ _ _ _) as [[[tx' st] out]|]; [|done]. cbn. intros [= <-]. destruct st; cbn; lia.
  - unfold arq_poll. destruct (gov_tx_poll _ _) as [[tx' out]|]; [|done]. cbn. intros [= <-]. cbn. lia.
  - intros [= <-]. cbn. destruct (bool_decide _); lia.
  - intros [= <-]. cbn. lia.
  - intros [= <-]. cbn. lia.
  - unfold arq_recv_data. destruct (a_data s); [intros [= <-]; lia|].
    destruct (link_receive _ _) as [[l' out]|]; [|done]. cbn. intros [= <-]. cbn. lia.
  - unfold arq_recv_ack. destruct (a_acks s); [intros [= <-]; lia|].
    destruct (link_receive _ _) as [[l' out]|]; [|done]. cbn. intros [= <-]. destruct (_ && _); cbn; lia.
Qed.

Lemma run_app s acts1 acts2 : arq_run s (acts1 ++ acts2) = (s1 ← arq_run s acts1; arq_run s1 acts2).
Proof.
  unfold arq_run. rewrite foldl_app. destruct (foldl _ (Some s) acts1) as [s1|]; [done|].
  induction acts2 as [|a acts2 IH]; [done|]. exact IH.
Qed.

Lemma inv_run acts :
  Forall action_ok acts -> (clears_in acts <= 254)%nat ->
  exists s, arq_run arq_init acts = Some s /\ arq_inv s /\ (a_clears s <= clears_in acts)%nat.
Proof.
  induction acts as [|a acts IH] using rev_ind; intros Hok Hc.
  { exists arq_init. split_and!; [done|apply inv_init|cbn; lia]. }
  apply Forall_app in Hok as [Hok Ha]. apply Forall_cons in Ha as [Ha _].
  assert (Hsum : clears_in (acts ++ [a]) = (clears_in acts + Nat.b2n (is_clear a))%nat).
  { unfold clears_in. rewrite filter_app, length_app. by destruct a. }
  rewrite Hsum in Hc. destruct IH as (s & Hs & Hi & Hcl); [done|lia|].
  destruct (inv_step s a Hi ltac:(lia) Ha) as (s' & Hs' & Hi').
  exists s'. rewrite run_app, Hs. cbn [mbind option_bind]. unfold arq_run. cbn [foldl mbind option_bind].
  split_and!; [done..|]. apply clears_step in Hs'. lia.
Qed.

Lemma pick_seq sub n : (n <= length sub)%nat -> pick sub (seq 0 n) = take n sub.
Proof.
  induction n as [|n IH]; intros Hn; [by rewrite take_0|].
  destruct (lookup_lt_is_Some_2 sub n) as [f Hf]; [lia|].
  rewrite <-seq_snoc, (pick_snoc _ _ f), IH by (done || lia). by rewrite (take_S_r _ _ f).
Qed.

(** C12: end-to-end delivery: for any interleaving of sends, polls, receptions and losses on both
    channels (and up to 254 operator clears of a latched fault), no step is undefined; messages are
    delivered in order and none twice; every message acknowledged to the sender was delivered; and
    as long as no latched fault was cleared, the deliveries are a prefix of what was sent with at
    most the last message outstanding. *)
Theorem arq_delivery acts :
  Forall action_ok acts -> (clears_in acts <= 254)%nat ->
  exists s L K, arq_run arq_init acts = Some s /\
    s.(a_del) = pick s.(a_sub) L /\ StronglySorted lt L /\
    s.(a_acked) = pick s.(a_sub) K /\ StronglySorted lt K /\ K ⊆ L /\
    (s.(a_clears) = 0%nat ->
       s.(a_del) `prefix_of` s.(a_sub) /\ s.(a_acked) `prefix_of` s.(a_del) /\
       (length s.(a_sub) <= length s.(a_acked) + 1)%nat).
Proof.
  intros Hok Hc. destruct (inv_run acts Hok Hc) as (s & Hs & Hi & _).
  destruct Hi as (D & A & L & K & rc & ac & _ & Hsnd & _ & Hle & _ & _ & Hlog).
  destruct Hlog as (L1 & L2 & L3 & L4 & _ & _ & _ & L8 & L9).
  exists s, L, K. split_and!; try done. intros Hz. destruct (L9 Hz) as [HL HK].
  rewrite L1, L2, HL, HK, !pick_seq by lia.
  assert (Hspan : (length (a_sub s) <= ac + a_clears s + 1)%nat).
  { destruct Hsnd as (_ & _ & _ & _ & Hst). destruct (tx_state _); lia. }
  split_and!.
  - apply prefix_take.
  - replace (take ac (a_sub s)) with (take ac (take rc (a_sub s))) by (rewrite take_take; f_equal; lia).
    apply prefix_take.
  - rewrite length_take. lia.
Qed.

Definition demo : list action :=
  [a_send GOV_TYPE_CMD [1] 0; a_lose_data 0; a_poll 100; a_recv_data; a_lose_ack 0; a_poll 200; a_recv_data;
   a_recv_ack; a_send GOV_TYPE_DATA [2; 3] 250; a_recv_data; a_recv_ack].

(** The first command is lost once, its acknowledgement once; both messages arrive once. *)
Lemma arq_delivery_witness :
  (exists s, arq_run arq_init demo = Some s /\
     s.(a_del) = [mkFrame GOV_TYPE_CMD 0 [1]; mkFrame GOV_TYPE_DATA 1 [2; 3]] /\ s.(a_acked) = s.(a_del)) /\
  exists s L K, arq_run arq_init demo = Some s /\
    s.(a_del) = pick s.(a_sub) L /\ StronglySorted lt L /\
    s.(a_acked) = pick s.(a_sub) K /\ StronglySorted lt K /\ K ⊆ L /\
    (s.(a_clears) = 0%nat ->
       s.(a_del) `prefix_of` s.(a_sub) /\ s.(a_acked) `prefix_of` s.(a_del) /\
       (length s.(a_sub) <= length s.(a_acked) + 1)%nat).
Proof.
  split; [eexists; split; [vm_compute; reflexivity|done]|].
  apply (arq_delivery demo); [|apply Nat.leb_le; reflexivity]. unfold demo.
  repeat apply Forall_cons_2; try exact I; try apply Forall_nil_2.
  - split_and!; [by split|reflexivity|discriminate|solve_bytes|cbn; lia].
  - split_and!; [by split|reflexivity|discriminate|solve_bytes|cbn; lia].
Defined.

(** C13: recovery from loss: whatever was lost so far, if the sender still waits with a retry left
    and both channels are empty, the next expired poll gets the message through and acknowledged,
    provided those three steps are not disturbed. *)
Theorem arq_recovers acts now :
  Forall action_ok acts -> (clears_in acts <= 254)%nat ->
  match arq_run arq_init acts with
  | None => False
  | Some s =>
      let tx := s.(a_snd).(l_tx) in
      tx.(tx_state) = GOV_TX_WAIT_ACK -> s.(a_data) = [] -> s.(a_acks) = [] ->
      tx.(tx_retries) < GOV_MAX_RETRIES -> GOV_ACK_TIMEOUT_MS <= u32 (now - tx.(tx_last_tx_ms)) ->
      exists s' f, arq_run s [a_poll now; a_recv_data; a_recv_ack] = Some s' /\
        last s.(a_sub) = Some f /\ s'.(a_acked) = s.(a_acked) ++ [f] /\
        s'.(a_snd).(l_tx).(tx_state) = GOV_TX_IDLE /\ s'.(a_data) = [] /\ s'.(a_acks) = []
  end.
Proof.
  intros Hok Hc. destruct (inv_run acts Hok Hc) as (s & -> & Hi & _). cbv zeta. intros Hwa Hd Ha Hr Ht.
  destruct Hi as (D & A & L & K & rc & ac & Hsub & (Hidle & _ & _ & _ & Hst) & (Hidr & Hwire & Hdel & _) & _).
  rewrite Hwa in Hst. destruct Hst as [Hspan (f & Hf & Hw)].
  destruct (Hsub _ f Hf) as (Hseq & Hwf & Hk & Hna).
  destruct (poll_retry _ f now Hw Ht Hr) as (tx1 & Hp & Hw1 & _).
  unfold arq_run. cbn [foldl mbind option_bind arq_step]. unfold arq_poll. rewrite Hp. cbn [mbind option_bind].
  unfold arq_recv_data. cbn. rewrite Hd. cbn.
  destruct (receive_data (a_rcv s) f Hidr Hwf Hk Hna Hwire Hdel) as (d' & _ & Hrecv). rewrite Hrecv. cbn.
  unfold arq_recv_ack. cbn. rewrite Ha.
  set (dup := rx_have_last _ && _) in *.
  assert (Hem : emitted ((if dup then [] else [rx_delivers f]) ++ [rx_emits (frame_bytes (ack_frame (f_seq f)))]) =
                [frame_bytes (ack_frame (f_seq f))]) by by destruct dup.
  rewrite Hem. cbn. destruct Hwf as (_ & Hs8 & _).
  destruct (receive_ack (set_l_tx tx1 (a_snd s)) (f_seq f) Hidle Hs8) as (d2 & _ & Hrecv2). rewrite Hrecv2. cbn.
  destruct Hw1 as (_ & Hst1 & Hcur & _). unfold gov_tx_on_ack. cbn.
  rewrite Hst1, (bool_decide_true (GOV_TX_WAIT_ACK = _)), Hcur, Z.eqb_refl by done. cbn.
  rewrite (bool_decide_true (GOV_TX_IDLE = _)) by done.
  eexists _, f. split; [reflexivity|]. cbn.
  assert (Hl : last (a_sub s) = Some f) by (by rewrite last_lookup, <-Hf; f_equal; lia).
  rewrite Hl. split_and!; done.
Qed.

(** The message is lost twice, then gets through. *)
Lemma arq_recovers_witness :
  exists s s', arq_run arq_init [a_send GOV_TYPE_CMD [1] 0; a_lose_data 0; a_poll 100; a_lose_data 0] = Some s /\
    arq_run s [a_poll 200; a_recv_data; a_recv_ack] = Some s' /\ s'.(a_snd).(l_tx).(tx_state) = GOV_TX_IDLE.
Proof.
  pose proof (arq_recovers [a_send GOV_TYPE_CMD [1] 0; a_lose_data 0; a_poll 100; a_lose_data 0] 200) as H.
  destruct (arq_run arq_init _) as [s|] eqn:E in H |- *; [|exfalso; apply H].
  - assert (Hs := E). vm_compute in Hs. injection Hs as Hs.
    destruct H as (s' & f & H1 & _ & _ & H4 & _); [| |by subst s..|exists s, s'; by split_and!].
    + repeat apply Forall_cons_2; try exact I; try apply Forall_nil_2.
      split_and!; [by split|reflexivity|discriminate|solve_bytes|cbn; lia].
    + apply Nat.leb_le; reflexivity.
  - repeat apply Forall_cons_2; try exact I; try apply Forall_nil_2.
    split_and!; [by split|reflexivity|discriminate|solve_bytes|cbn; lia].
  - apply Nat.leb_le; reflexivity.
Defined.
