(* ===== verification/Telem.v ===== *)
(** * Telem: telemetry payloads (lib/telem/telem.h, lib/telem/telem.c)

    The DATA and HEARTBEAT encoders and decoders with their cursors and buffers, the layout they
    agree on, and the round trips in both directions. *)
From S2P Require Import Prelude Crc16.

(** ** Data *)
Record gov_telem_record := mkTelem {
  tm_tick : Z;
  tm_setpoint : Z;
  tm_measurement : Z;
  tm_output : Z;
  tm_state : Z;
  tm_fault_flags : Z
}.

Record gov_heartbeat := mkHeartbeat {
  hb_state : Z;
  hb_fault_flags : Z;
  hb_uptime_count : Z
}.

Definition GOV_TELEM_DATA_LEN : Z := 21.
Definition GOV_TELEM_HEARTBEAT_LEN : Z := 9.

(** ** Operations: a put returns the buffer and the advanced cursor, a get the value and the cursor *)
Definition put_u32 (buf : list Z) (pos v : Z) : option (list Z * Z) :=
  buf ← store buf pos (u8 ((v .>> 24) .& 0xFF));
  buf ← store buf (pos + 1) (u8 ((v .>> 16) .& 0xFF));
  buf ← store buf (pos + 2) (u8 ((v .>> 8) .& 0xFF));
  buf ← store buf (pos + 3) (u8 (v .& 0xFF));
  Some (buf, pos + 4).

Definition put_u8 (buf : list Z) (pos v : Z) : option (list Z * Z) :=
  buf ← store buf pos v; Some (buf, pos + 1).

Definition get_u32 (buf : list Z) (pos : Z) : option (Z * Z) :=
  b0 ← load buf pos;
  b1 ← load buf (pos + 1);
  b2 ← load buf (pos + 2);
  b3 ← load buf (pos + 3);
  Some ((b0 .<< 24) .| (b1 .<< 16) .| (b2 .<< 8) .| b3, pos + 4).

Definition get_u8 (buf : list Z) (pos : Z) : option (Z * Z) := b ← load buf pos; Some (b, pos + 1).

Definition put_i32 (buf : list Z) (pos v : Z) : option (list Z * Z) := put_u32 buf pos (u32 v).
Definition get_i32 (buf : list Z) (pos : Z) : option (Z * Z) :=
  '(v, pos) ← get_u32 buf pos; Some (i32 v, pos).

Definition gov_telem_encode (rec : option gov_telem_record) (out : option (list Z)) (out_cap : Z) :
    option (Z * option (list Z)) :=
  match rec, out with
  | Some rec, Some buf =>
      if out_cap <? GOV_TELEM_DATA_LEN then Some (0, out)
      else
        '(buf, pos) ← put_u32 buf 0 rec.(tm_tick);
        '(buf, pos) ← put_i32 buf pos rec.(tm_setpoint);
        '(buf, pos) ← put_i32 buf pos rec.(tm_measurement);
        '(buf, pos) ← put_i32 buf pos rec.(tm_output);
        '(buf, pos) ← put_u8 buf pos rec.(tm_state);
        '(buf, pos) ← put_u32 buf pos rec.(tm_fault_flags);
        Some (pos, Some buf)
  | _, _ => Some (0, out)
  end.

(** The returned truth value with the record written on success. *)
Definition gov_telem_decode (inp : option (list Z)) (len : Z) : option (option gov_telem_record) :=
  match inp with
  | Some buf =>
      if len <? GOV_TELEM_DATA_LEN then Some None
      else
        '(tick, pos) ← get_u32 buf 0;
        '(setpoint, pos) ← get_i32 buf pos;
        '(measurement, pos) ← get_i32 buf pos;
        '(output, pos) ← get_i32 buf pos;
        '(state, pos) ← get_u8 buf pos;
        '(fault_flags, pos) ← get_u32 buf pos;
        Some (Some (mkTelem tick setpoint measurement output state fault_flags))
  | None => Some None
  end.

Definition gov_heartbeat_encode (hb : option gov_heartbeat) (out : option (list Z)) (out_cap : Z) :
    option (Z * option (list Z)) :=
  match hb, out with
  | Some hb, Some buf =>
      if out_cap <? GOV_TELEM_HEARTBEAT_LEN then Some (0, out)
      else
        '(buf, pos) ← put_u8 buf 0 hb.(hb_state);
        '(buf, pos) ← put_u32 buf pos hb.(hb_fault_flags);
        '(buf, pos) ← put_u32 buf pos hb.(hb_uptime_count);
        Some (pos, Some buf)
  | _, _ => Some (0, out)
  end.

Definition gov_heartbeat_decode (inp : option (list Z)) (len : Z) : option (option gov_heartbeat) :=
  match inp with
  | Some buf =>
      if len <? GOV_TELEM_HEARTBEAT_LEN then Some None
      else
        '(state, pos) ← get_u8 buf 0;
        '(fault_flags, pos) ← get_u32 buf pos;
        '(uptime_count, pos) ← get_u32 buf pos;
        Some (Some (mkHeartbeat state fault_flags uptime_count))
  | None => Some None
  end.

(** ** The layouts *)
Definition be32 (v : Z) : list Z :=
  [u8 ((v .>> 24) .& 0xFF); u8 ((v .>> 16) .& 0xFF); u8 ((v .>> 8) .& 0xFF); u8 (v .& 0xFF)].

Definition telem_bytes (r : gov_telem_record) : list Z :=
  be32 r.(tm_tick) ++ be32 (u32 r.(tm_setpoint)) ++ be32 (u32 r.(tm_measurement)) ++
  be32 (u32 r.(tm_output)) ++ [r.(tm_state)] ++ be32 r.(tm_fault_flags).

Definition heartbeat_bytes (h : gov_heartbeat) : list Z :=
  [h.(hb_state)] ++ be32 h.(hb_fault_flags) ++ be32 h.(hb_uptime_count).

Definition telem_wf (r : gov_telem_record) : Prop :=
  is_u32 r.(tm_tick) /\ is_i32 r.(tm_setpoint) /\ is_i32 r.(tm_measurement) /\
  is_i32 r.(tm_output) /\ is_u8 r.(tm_state) /\ is_u32 r.(tm_fault_flags).

Definition heartbeat_wf (h : gov_heartbeat) : Prop :=
  is_u8 h.(hb_state) /\ is_u32 h.(hb_fault_flags) /\ is_u32 h.(hb_uptime_count).

(** ** Scalars *)
Definition val32 (a b c d : Z) : Z := (a .<< 24) .| (b .<< 16) .| (c .<< 8) .| d.

Lemma val32_sum a b c d :
  is_u8 b -> is_u8 c -> is_u8 d -> val32 a b c d = a * 2 ^ 24 + (b * 2 ^ 16 + (c * 2 ^ 8 + d)).
Proof.
  intros Hb Hc Hd. unfold val32. rewrite <-!Z.lor_assoc.
  rewrite (lor_shiftl c d), (lor_shiftl b), (lor_shiftl a) by clia. done.
Qed.

Lemma be32_bytes v : is_bytes (be32 v).
Proof. unfold be32. solve_bytes. Qed.

Lemma be32_div v :
  be32 v = [v / 2 ^ 24 mod 2 ^ 8; v / 2 ^ 16 mod 2 ^ 8; v / 2 ^ 8 mod 2 ^ 8; v mod 2 ^ 8].
Proof.
  unfold be32, u8. change 0xFF with (Z.ones 8).
  rewrite !Z.land_ones, !Z.shiftr_div_pow2, !Z.mod_mod by lia. done.
Qed.

Lemma val32_be32 v : is_u32 v -> exists a b c d, be32 v = [a; b; c; d] /\ val32 a b c d = v.
Proof.
  intros Hv. rewrite be32_div. do 4 eexists. split; [reflexivity|].
  rewrite val32_sum by (apply Z.mod_pos_bound; lia). revert Hv.
  change (2 ^ 24) with 16777216. dlia.
Qed.

Lemma be32_val32 a b c d : is_u8 a -> is_u8 b -> is_u8 c -> is_u8 d -> be32 (val32 a b c d) = [a; b; c; d].
Proof.
  intros Ha Hb Hc Hd. rewrite val32_sum, be32_div by done.
  revert Ha Hb Hc Hd. change (2 ^ 24) with 16777216. intros.
  repeat (apply (f_equal2 cons); [dlia|]). done.
Qed.

Lemma val32_range a b c d : is_u8 a -> is_u8 b -> is_u8 c -> is_u8 d -> is_u32 (val32 a b c d).
Proof. intros. rewrite val32_sum by done. clia. Qed.

Lemma put_u32_at pre post v pos a b c d :
  pos = Z.of_nat (length pre) ->
  put_u32 (pre ++ [a; b; c; d] ++ post) pos v = Some ((pre ++ be32 v) ++ post, pos + 4).
Proof.
  intros ->. unfold put_u32. cbn [app].
  do 4 (rewrite store_past by lia; rewrite ?Z.sub_diag, ?Z.add_simpl_l; store_literal).
  by rewrite <-app_assoc.
Qed.

Lemma put_u8_at pre post v pos a :
  pos = Z.of_nat (length pre) -> put_u8 (pre ++ [a] ++ post) pos v = Some ((pre ++ [v]) ++ post, pos + 1).
Proof.
  intros ->. unfold put_u8. rewrite store_past, Z.sub_diag by lia. cbn [app]. store_literal.
  by rewrite <-app_assoc.
Qed.

Lemma get_u32_at pre post pos a b c d :
  pos = Z.of_nat (length pre) ->
  get_u32 (pre ++ [a; b; c; d] ++ post) pos = Some (val32 a b c d, pos + 4).
Proof.
  intros ->. unfold get_u32. rewrite !(load_past pre) by lia.
  rewrite Z.sub_diag, !Z.add_simpl_l. reflexivity.
Qed.

Lemma get_u8_at pre post pos a :
  pos = Z.of_nat (length pre) -> get_u8 (pre ++ [a] ++ post) pos = Some (a, pos + 1).
Proof. intros ->. unfold get_u8. rewrite (load_past pre), Z.sub_diag by lia. reflexivity. Qed.

Lemma put_u32_head post v a b c d : put_u32 ([a; b; c; d] ++ post) 0 v = Some (be32 v ++ post, 4).
Proof. by apply (put_u32_at []). Qed.
Lemma put_u8_head post v a : put_u8 ([a] ++ post) 0 v = Some ([v] ++ post, 1).
Proof. by apply (put_u8_at []). Qed.
Lemma get_u32_head post a b c d : get_u32 ([a; b; c; d] ++ post) 0 = Some (val32 a b c d, 4).
Proof. by apply (get_u32_at []). Qed.
Lemma get_u8_head post a : get_u8 ([a] ++ post) 0 = Some (a, 1).
Proof. by apply (get_u8_at []). Qed.

(** The first [n] bytes of a long enough list, as a list display. *)
Lemma split4 (l : list Z) n : (n + 4 <= length l)%nat -> exists a b c d rest, l = [a; b; c; d] ++ rest /\ (n <= length rest)%nat.
Proof.
  intros H. destruct l as [|a [|b [|c [|d rest]]]]; cbn in H; try lia. exists a, b, c, d, rest. split; [done|lia].
Qed.

(** The 21 bytes of a record, cut at the field boundaries. *)
Lemma cut_telem (l : list Z) :
  (21 <= length l)%nat ->
  exists a1 a2 a3 a4 b1 b2 b3 b4 c1 c2 c3 c4 d1 d2 d3 d4 st e1 e2 e3 e4 rest,
    l = [a1; a2; a3; a4] ++ [b1; b2; b3; b4] ++ [c1; c2; c3; c4] ++ [d1; d2; d3; d4] ++ [st] ++
        [e1; e2; e3; e4] ++ rest.
Proof.
  intros H.
  destruct (split4 l 17) as (? & ? & ? & ? & l1 & -> & H1); [lia|].
  destruct (split4 l1 13) as (? & ? & ? & ? & l2 & -> & H2); [lia|].
  destruct (split4 l2 9) as (? & ? & ? & ? & l3 & -> & H3); [lia|].
  destruct (split4 l3 5) as (? & ? & ? & ? & l4 & -> & H4); [lia|].
  destruct l4 as [|st l4]; [cbn in H4; lia|]. cbn in H4.
  destruct (split4 l4 0) as (? & ? & ? & ? & l5 & -> & _); [lia|].
  do 22 eexists. reflexivity.
Qed.

(** Run the puts (gets) of a call, field by field. *)
Ltac run_puts :=
  repeat (first [rewrite put_u32_head | rewrite put_u8_head
                | rewrite put_u32_at by (rewrite ?length_app; done)
                | rewrite put_u8_at by (rewrite ?length_app; done)]; cbn [mbind option_bind]).

Ltac run_gets :=
  repeat (first [rewrite get_u32_head | rewrite get_u8_head
                | rewrite get_u32_at by (rewrite ?length_app; done)
                | rewrite get_u8_at by (rewrite ?length_app; done)]; cbn [mbind option_bind];
          rewrite ?(app_assoc _ _ (_ ++ _)), ?(app_assoc _ _ [_; _; _; _])).

Lemma telem_encode_at r l cap :
  21 <= cap -> (21 <= length l)%nat ->
  gov_telem_encode (Some r) (Some l) cap = Some (21, Some (telem_bytes r ++ drop 21 l)).
Proof.
  intros Hcap Hl. unfold gov_telem_encode. rewrite (proj2 (Z.ltb_ge _ _)) by done.
  destruct (cut_telem l Hl) as (?&?&?&?&?&?&?&?&?&?&?&?&?&?&?&?&?&?&?&?&?&rest& ->).
  unfold put_i32. run_puts.
  unfold telem_bytes. cbn [drop app]. rewrite <-!app_assoc. reflexivity.
Qed.

Lemma telem_decode_at a1 a2 a3 a4 b1 b2 b3 b4 c1 c2 c3 c4 d1 d2 d3 d4 st e1 e2 e3 e4 rest len :
  21 <= len ->
  gov_telem_decode (Some ([a1; a2; a3; a4] ++ [b1; b2; b3; b4] ++ [c1; c2; c3; c4] ++ [d1; d2; d3; d4] ++ [st] ++
        [e1; e2; e3; e4] ++ rest)) len =
    Some (Some (mkTelem (val32 a1 a2 a3 a4) (i32 (val32 b1 b2 b3 b4)) (i32 (val32 c1 c2 c3 c4))
                  (i32 (val32 d1 d2 d3 d4)) st (val32 e1 e2 e3 e4))).
Proof.
  intros Hl. unfold gov_telem_decode. rewrite (proj2 (Z.ltb_ge _ _)) by done. reflexivity.
Qed.

Lemma telem_decode_bytes r rest len :
  telem_wf r -> 21 <= len -> gov_telem_decode (Some (telem_bytes r ++ rest)) len = Some (Some r).
Proof.
  intros (H1 & H2 & H3 & H4 & H5 & H6) Hl. destruct r as [t sp me ou st fl]. unfold telem_bytes.
  cbn [tm_tick tm_setpoint tm_measurement tm_output tm_state tm_fault_flags] in *.
  destruct (val32_be32 t H1) as (?&?&?&?& -> &E1).
  destruct (val32_be32 (u32 sp) (u32_range _)) as (?&?&?&?& -> &E2).
  destruct (val32_be32 (u32 me) (u32_range _)) as (?&?&?&?& -> &E3).
  destruct (val32_be32 (u32 ou) (u32_range _)) as (?&?&?&?& -> &E4).
  destruct (val32_be32 fl H6) as (?&?&?&?& -> &E5).
  rewrite <-!app_assoc, telem_decode_at, E1, E2, E3, E4, E5, !i32_u32 by done. done.
Qed.

(** C39: [gov_telem_encode] and [gov_telem_decode], for buffers as large as the caller says: encoding
    writes the 21-byte big-endian layout at the front of the buffer and nothing behind it, and returns 0 with
    nothing written when the buffer is too small, or the record or the buffer is missing; decoding what was
    encoded, with anything after it, gives the record back, negative values included; and fewer than 21 bytes, or
    none at all, are refused without being read. *)
Theorem telem_roundtrip r out cap rest len :
  telem_wf r -> cap <= Z.of_nat (length out) -> 21 <= len ->
  gov_telem_encode (Some r) (Some out) cap = Some
    (if 21 <=? cap then (21, Some (telem_bytes r ++ drop 21 out)) else (0, Some out)) /\
  length (telem_bytes r) = 21%nat /\ is_bytes (telem_bytes r) /\
  gov_telem_decode (Some (telem_bytes r ++ rest)) len = Some (Some r) /\
  (forall buf any, gov_telem_encode None buf any = Some (0, buf)) /\
  (forall any, gov_telem_encode (Some r) None any = Some (0, None)) /\
  (forall buf short, short < 21 -> gov_telem_decode (Some buf) short = Some None) /\
  (forall any, gov_telem_decode None any = Some None).
Proof.
  intros Hr Hcap Hlen. split; [|split; [reflexivity|split; [|split; [by apply telem_decode_bytes|split; [done|split; [done|split; [|done]]]]]]].
  3: { intros buf short Hs. unfold gov_telem_decode. change GOV_TELEM_DATA_LEN with 21. by rewrite (proj2 (Z.ltb_lt _ _) Hs). }
  - destruct (Z.leb_spec 21 cap) as [Hc|Hc].
    + apply telem_encode_at; lia.
    + unfold gov_telem_encode. by rewrite (proj2 (Z.ltb_lt _ _)).
  - destruct Hr as (_ & _ & _ & _ & Hst & _).
    pose proof (be32_bytes (tm_tick r)). pose proof (be32_bytes (u32 (tm_setpoint r))).
    pose proof (be32_bytes (u32 (tm_measurement r))). pose proof (be32_bytes (u32 (tm_output r))).
    pose proof (be32_bytes (tm_fault_flags r)). unfold telem_bytes. solve_bytes.
Qed.

(** A negative measurement in a buffer of 24 bytes. *)
Lemma telem_roundtrip_witness :
  let r := mkTelem 7 50 (-3) (-2147483648) 1 0x10002 in
  telem_wf r /\
  gov_telem_encode (Some r) (Some (replicate 24 0xEE)) 24 =
    Some (21, Some (telem_bytes r ++ [0xEE; 0xEE; 0xEE])) /\
  gov_telem_decode (Some (telem_bytes r ++ [0xEE])) 22 = Some (Some r).
Proof.
  intros r. assert (Hr : telem_wf r) by (unfold r, telem_wf; cbn; split_and!; clia).
  split; [exact Hr|].
  destruct (telem_roundtrip r (replicate 24 0xEE) 24 [0xEE] 22 Hr) as (H1 & _ & _ & H4 & _);
    [cbn; lia | lia |].
  split; [exact H1|exact H4].
Defined.

(** The telemetry payloads are canonical: any 21 bytes decode to a well-formed record that
    encodes to exactly those bytes, so no two payloads mean the same record and none is refused. *)
Theorem telem_decode_canonical bytes :
  is_bytes bytes -> length bytes = 21%nat ->
  exists r, gov_telem_decode (Some bytes) 21 = Some (Some r) /\ telem_wf r /\ telem_bytes r = bytes.
Proof.
  intros Hb Hl. destruct (cut_telem bytes) as
    (a1&a2&a3&a4&b1&b2&b3&b4&c1&c2&c3&c4&d1&d2&d3&d4&st&e1&e2&e3&e4&rest& ->); [lia|].
  rewrite telem_decode_at by done. eexists. split; [reflexivity|].
  unfold is_bytes in Hb. cbn [app] in *. rewrite !Forall_cons in Hb. destruct_and! Hb.
  assert (rest = []) as -> by (destruct rest; [done|cbn in Hl; lia]).
  unfold telem_wf, telem_bytes. cbn [tm_tick tm_setpoint tm_measurement tm_output tm_state tm_fault_flags].
  rewrite !u32_i32 by (apply val32_range; assumption). rewrite !be32_val32 by assumption.
  split; [|reflexivity].
  split_and!; [by apply val32_range | apply i32_range.. | assumption | by apply val32_range].
Qed.

Lemma telem_decode_canonical_witness :
  exists r, gov_telem_decode (Some (replicate 21 0xFF)) 21 = Some (Some r) /\ telem_wf r /\
    telem_bytes r = replicate 21 0xFF.
Proof. apply (telem_decode_canonical (replicate 21 0xFF)); [apply Forall_replicate; clia | reflexivity]. Defined.

(** ** Heartbeats *)
Lemma cut_heartbeat (l : list Z) :
  (9 <= length l)%nat ->
  exists st a1 a2 a3 a4 b1 b2 b3 b4 rest, l = [st] ++ [a1; a2; a3; a4] ++ [b1; b2; b3; b4] ++ rest.
Proof.
  intros H. destruct l as [|st l]; [cbn in H; lia|]. cbn in H.
  destruct (split4 l 4) as (? & ? & ? & ? & l1 & -> & H1); [lia|].
  destruct (split4 l1 0) as (? & ? & ? & ? & l2 & -> & H2); [lia|].
  do 10 eexists. reflexivity.
Qed.

(** The heartbeat payload likewise: nine bytes, the round trip, and canonical. *)
Theorem heartbeat_roundtrip h out cap rest len bytes :
  heartbeat_wf h -> cap <= Z.of_nat (length out) -> 9 <= len -> is_bytes bytes -> length bytes = 9%nat ->
  gov_heartbeat_encode (Some h) (Some out) cap = Some
    (if 9 <=? cap then (9, Some (heartbeat_bytes h ++ drop 9 out)) else (0, Some out)) /\
  gov_heartbeat_decode (Some (heartbeat_bytes h ++ rest)) len = Some (Some h) /\
  exists h', gov_heartbeat_decode (Some bytes) 9 = Some (Some h') /\ heartbeat_wf h' /\
    heartbeat_bytes h' = bytes.
Proof.
  intros (H1 & H2 & H3) Hcap Hlen Hb Hl. split_and!.
  - destruct (Z.leb_spec 9 cap) as [Hc|Hc].
    2: { unfold gov_heartbeat_encode. by rewrite (proj2 (Z.ltb_lt _ _)). }
    destruct (cut_heartbeat out) as (?&?&?&?&?&?&?&?&?&r& ->); [lia|].
    unfold gov_heartbeat_encode. rewrite (proj2 (Z.ltb_ge _ _)) by done. run_puts.
    unfold heartbeat_bytes. cbn [drop app]. rewrite <-!app_assoc. reflexivity.
  - destruct h as [st fl up]. unfold heartbeat_bytes. cbn [hb_state hb_fault_flags hb_uptime_count] in *.
    destruct (val32_be32 fl H2) as (?&?&?&?& -> &E1). destruct (val32_be32 up H3) as (?&?&?&?& -> &E2).
    unfold gov_heartbeat_decode. rewrite (proj2 (Z.ltb_ge _ _)) by done. rewrite <-E1, <-E2. reflexivity.
  - destruct (cut_heartbeat bytes) as (st&a1&a2&a3&a4&b1&b2&b3&b4&r& ->); [lia|].
    exists (mkHeartbeat st (val32 a1 a2 a3 a4) (val32 b1 b2 b3 b4)). split; [reflexivity|].
    unfold is_bytes in Hb. cbn [app] in *. rewrite !Forall_cons in Hb. destruct_and! Hb.
    assert (r = []) as -> by (destruct r; [done|cbn in Hl; lia]).
    unfold heartbeat_wf, heartbeat_bytes. cbn [hb_state hb_fault_flags hb_uptime_count].
    rewrite !be32_val32 by assumption. split; [|reflexivity].
    split_and!; [assumption | by apply val32_range | by apply val32_range].
Qed.

Lemma heartbeat_roundtrip_witness :
  let h := mkHeartbeat 3 0x80 12345 in
  gov_heartbeat_encode (Some h) (Some (replicate 9 0)) 9 = Some (9, Some (heartbeat_bytes h ++ [])) /\
  gov_heartbeat_decode (Some (heartbeat_bytes h ++ [])) 9 = Some (Some h).
Proof.
  intros h.
  destruct (heartbeat_roundtrip h (replicate 9 0) 9 [] 9 (replicate 9 0)) as (H1 & H2 & _);
    [unfold h, heartbeat_wf; cbn; split_and!; clia | cbn; lia | lia | apply Forall_replicate; clia | reflexivity |].
  split; [exact H1|exact H2].
Defined.
