(* ===== verification/Ring.v ===== *)
(** * Ring: the telemetry ring buffer (lib/telem/ring.h, lib/telem/ring.c)

    The ring's operations; the interface of a bounded FIFO queue that counts what it refuses, which
    the ring implements; and the lock-free use the header promises, one producer and one consumer
    interleaved between any two accesses to [head] and [tail] and between any two bytes of the records that
    are copied into and out of [buf]. Memory is sequentially consistent and each side's accesses are in program order. *)
From S2P Require Import Prelude Telem.

(** ** Data and operations *)
Definition GOV_TELEM_RING_DEPTH : Z := 8.
Definition GOV_TELEM_RING_SLOTS : Z := GOV_TELEM_RING_DEPTH + 1.

Record gov_telem_ring := mkRing {
  r_buf : list gov_telem_record;
  r_head : Z;
  r_tail : Z;
  r_drops : Z
}.

Definition set_r_buf (v : list gov_telem_record) (r : gov_telem_ring) : gov_telem_ring :=
  {| r_buf := v; r_head := r.(r_head); r_tail := r.(r_tail); r_drops := r.(r_drops) |}.
Definition set_r_head (v : Z) (r : gov_telem_ring) : gov_telem_ring :=
  {| r_buf := r.(r_buf); r_head := v; r_tail := r.(r_tail); r_drops := r.(r_drops) |}.
Definition set_r_tail (v : Z) (r : gov_telem_ring) : gov_telem_ring :=
  {| r_buf := r.(r_buf); r_head := r.(r_head); r_tail := v; r_drops := r.(r_drops) |}.
Definition set_r_drops (v : Z) (r : gov_telem_ring) : gov_telem_ring :=
  {| r_buf := r.(r_buf); r_head := r.(r_head); r_tail := r.(r_tail); r_drops := v |}.

Definition next (idx : Z) : Z :=
  let n := u32 (idx + 1) in if n =? GOV_TELEM_RING_SLOTS then 0 else n.

(** [buf] is left as it was. *)
Definition gov_telem_ring_init (r : gov_telem_ring) : gov_telem_ring :=
  set_r_drops 0 (set_r_tail 0 (set_r_head 0 r)).

Definition gov_telem_ring_push (r : gov_telem_ring) (rec : gov_telem_record) :
    option (gov_telem_ring * bool) :=
  let h := r.(r_head) in
  if next h =? r.(r_tail) then Some (set_r_drops (u32 (r.(r_drops) + 1)) r, false)
  else
    buf ← store r.(r_buf) h rec;
    Some (set_r_head (next h) (set_r_buf buf r), true).

(** The result carries the record written to [*out]. *)
Definition gov_telem_ring_pop (r : gov_telem_ring) :
    option (gov_telem_ring * option gov_telem_record) :=
  let t := r.(r_tail) in
  if t =? r.(r_head) then Some (r, None)
  else rec ← load r.(r_buf) t; Some (set_r_tail (next t) r, Some rec).

Definition gov_telem_ring_count (r : gov_telem_ring) : Z :=
  u32 (u32 (r.(r_head) - r.(r_tail)) + GOV_TELEM_RING_SLOTS) mod GOV_TELEM_RING_SLOTS.

Definition gov_telem_ring_empty (r : gov_telem_ring) : bool := r.(r_head) =? r.(r_tail).
Definition gov_telem_ring_full (r : gov_telem_ring) : bool := next r.(r_head) =? r.(r_tail).
Definition gov_telem_ring_drops (r : gov_telem_ring) : Z := r.(r_drops).

(** ** The interface: a bounded queue that counts what it refuses *)
Class BoundedQueue (Q A : Type) := {
  q_ok : Q -> Prop;
  q_items : Q -> list A;
  q_capacity : nat;
  q_refused : Q -> Z;
  q_push : Q -> A -> option (Q * bool);
  q_pop : Q -> option (Q * option A)
}.

(** What an implementation promises its clients. *)
Class BoundedQueueLaws (Q A : Type) `{BoundedQueue Q A} := {
  q_bounded q : q_ok q -> (length (q_items q) <= q_capacity)%nat;
  q_push_room q x :
    q_ok q -> (length (q_items q) < q_capacity)%nat ->
    exists q', q_push q x = Some (q', true) /\ q_ok q' /\ q_items q' = q_items q ++ [x] /\
      q_refused q' = q_refused q;
  q_push_full q x :
    q_ok q -> length (q_items q) = q_capacity ->
    exists q', q_push q x = Some (q', false) /\ q_ok q' /\ q_items q' = q_items q /\
      q_refused q' = u32 (q_refused q + 1);
  q_pop_spec q :
    q_ok q ->
    exists q', q_pop q = Some (q', head (q_items q)) /\ q_ok q' /\ q_items q' = tail (q_items q) /\
      q_refused q' = q_refused q
}.

(** A client's view: a sequence of pushes and pops; what was accepted and what came out. *)
Inductive queue_op (A : Type) := op_push (x : A) | op_pop.
Arguments op_push {A}.
Arguments op_pop {A}.

Section client.
Context {Q A : Type} `{BoundedQueue Q A}.

(** Runs a client; collects the accepted items and the popped ones. *)
Fixpoint queue_run (q : Q) (ops : list (queue_op A)) : option (Q * list A * list A) :=
  match ops with
  | [] => Some (q, @nil A, @nil A)
  | op_push x :: ops =>
      '(q1, ok) ← q_push q x;
      '(q2, ins, outs) ← queue_run q1 ops;
      Some (q2, (if (ok : bool) then [x] else []) ++ ins, outs)
  | op_pop :: ops =>
      '(q1, o) ← q_pop q;
      '(q2, ins, outs) ← queue_run q1 ops;
      Some (q2, ins, option_list o ++ outs)
  end.
End client.

Fixpoint pushes {A} (ops : list (queue_op A)) : Z :=
  match ops with [] => 0 | op_push _ :: ops => 1 + pushes ops | op_pop :: ops => pushes ops end.

(** ** The ring as a queue *)
Fixpoint walk (buf : list gov_telem_record) (i : Z) (n : nat) : list gov_telem_record :=
  match n with O => [] | S n => option_list (load buf i) ++ walk buf (next i) n end.

Definition ring_ok (r : gov_telem_ring) : Prop :=
  length r.(r_buf) = 9%nat /\ 0 <= r.(r_head) < 9 /\ 0 <= r.(r_tail) < 9.

Definition ring_items (r : gov_telem_ring) : list gov_telem_record :=
  walk r.(r_buf) r.(r_tail) (Z.to_nat ((r.(r_head) - r.(r_tail)) mod 9)).

#[export] Instance ring_queue : BoundedQueue gov_telem_ring gov_telem_record := {
  q_ok := ring_ok;
  q_items := ring_items;
  q_capacity := 8%nat;
  q_refused := gov_telem_ring_drops;
  q_push := gov_telem_ring_push;
  q_pop := gov_telem_ring_pop
}.

(** ** Single producer, single consumer *)

(** The bytes of a record in memory: four per field, the three after [state] being padding. *)
Inductive telem_field := TF_tick | TF_setpoint | TF_measurement | TF_output | TF_state | TF_fault_flags.
#[export] Instance telem_field_eq_dec : EqDecision telem_field.
Proof. solve_decision. Defined.

Definition tf_get (f : telem_field) (r : gov_telem_record) : Z :=
  match f with
  | TF_tick => r.(tm_tick) | TF_setpoint => r.(tm_setpoint) | TF_measurement => r.(tm_measurement)
  | TF_output => r.(tm_output) | TF_state => r.(tm_state) | TF_fault_flags => r.(tm_fault_flags)
  end.
Definition tf_put (f : telem_field) (v : Z) (r : gov_telem_record) : gov_telem_record :=
  let 'mkTelem a b c d e g := r in
  match f with
  | TF_tick => mkTelem v b c d e g | TF_setpoint => mkTelem a v c d e g | TF_measurement => mkTelem a b v d e g
  | TF_output => mkTelem a b c v e g | TF_state => mkTelem a b c d v g | TF_fault_flags => mkTelem a b c d e v
  end.

Definition rec_byte : Type := telem_field * nat.
Definition rec_bytes : list rec_byte :=
  f ← [TF_tick; TF_setpoint; TF_measurement; TF_output; TF_state; TF_fault_flags]; k ← [0; 1; 2; 3]%nat; [(f, k)].

(** The bits of byte [k] of a word; the top byte carries the sign. *)
Definition byte_mask (k : nat) : Z := if (k =? 3)%nat then Z.shiftl (-1) 24 else Z.shiftl 255 (8 * Z.of_nat k).

(** One byte of [src] copied over [dst]. *)
Definition copy_byte (b : rec_byte) (src dst : gov_telem_record) : gov_telem_record :=
  let m := byte_mask b.2 in
  tf_put b.1 (Z.lor (Z.land (tf_get b.1 src) m) (Z.ldiff (tf_get b.1 dst) m)) dst.

(** Where each side is inside [gov_telem_ring_push] or [gov_telem_ring_pop]; while it copies, the bytes left to
    copy, and the consumer's [*out]. *)
Inductive producer := P_idle | P_loaded (h : Z) (x : gov_telem_record)
  | P_copying (h : Z) (x : gov_telem_record) (todo : list rec_byte).
Inductive consumer := C_idle | C_loaded (t : Z)
  | C_copying (t : Z) (out : gov_telem_record) (todo : list rec_byte).

(** The shared ring, the two program counters, and a log of completed operations. *)
Record spsc := mkSpsc {
  z_ring : gov_telem_ring;
  z_prod : producer;
  z_cons : consumer;
  z_in : list gov_telem_record;
  z_out : list gov_telem_record
}.

Definition set_z_ring (v : gov_telem_ring) (r : spsc) : spsc :=
  {| z_ring := v; z_prod := r.(z_prod); z_cons := r.(z_cons); z_in := r.(z_in);
     z_out := r.(z_out) |}.
Definition set_z_prod (v : producer) (r : spsc) : spsc :=
  {| z_ring := r.(z_ring); z_prod := v; z_cons := r.(z_cons); z_in := r.(z_in);
     z_out := r.(z_out) |}.
Definition set_z_cons (v : consumer) (r : spsc) : spsc :=
  {| z_ring := r.(z_ring); z_prod := r.(z_prod); z_cons := v; z_in := r.(z_in);
     z_out := r.(z_out) |}.
Definition set_z_in (v : list gov_telem_record) (r : spsc) : spsc :=
  {| z_ring := r.(z_ring); z_prod := r.(z_prod); z_cons := r.(z_cons); z_in := v;
     z_out := r.(z_out) |}.
Definition set_z_out (v : list gov_telem_record) (r : spsc) : spsc :=
  {| z_ring := r.(z_ring); z_prod := r.(z_prod); z_cons := r.(z_cons); z_in := r.(z_in);
     z_out := v |}.

(** One access to shared memory by one side: to an index, or to one byte of a slot. A record is copied a byte at a
    time, in any order. *)
Inductive spsc_step : spsc -> spsc -> Prop :=
  | p_start s x : s.(z_prod) = P_idle ->
      spsc_step s (set_z_prod (P_loaded s.(z_ring).(r_head) x) s)
  | p_full s h x : s.(z_prod) = P_loaded h x -> next h = s.(z_ring).(r_tail) ->
      spsc_step s (set_z_prod P_idle
        (set_z_ring (set_r_drops (u32 (s.(z_ring).(r_drops) + 1)) s.(z_ring)) s))
  | p_room s h x : s.(z_prod) = P_loaded h x -> next h <> s.(z_ring).(r_tail) ->
      spsc_step s (set_z_prod (P_copying h x rec_bytes) s)
  | p_byte s h x before b after slot buf : s.(z_prod) = P_copying h x (before ++ b :: after) ->
      load s.(z_ring).(r_buf) h = Some slot -> store s.(z_ring).(r_buf) h (copy_byte b x slot) = Some buf ->
      spsc_step s (set_z_prod (P_copying h x (before ++ after)) (set_z_ring (set_r_buf buf s.(z_ring)) s))
  | p_publish s h x : s.(z_prod) = P_copying h x [] ->
      spsc_step s (set_z_in (s.(z_in) ++ [x])
        (set_z_prod P_idle (set_z_ring (set_r_head (next h) s.(z_ring)) s)))
  | c_start s : s.(z_cons) = C_idle ->
      spsc_step s (set_z_cons (C_loaded s.(z_ring).(r_tail)) s)
  | c_empty s t : s.(z_cons) = C_loaded t -> t = s.(z_ring).(r_head) ->
      spsc_step s (set_z_cons C_idle s)
  | c_some s t out : s.(z_cons) = C_loaded t -> t <> s.(z_ring).(r_head) ->
      spsc_step s (set_z_cons (C_copying t out rec_bytes) s)
  | c_byte s t out before b after slot : s.(z_cons) = C_copying t out (before ++ b :: after) ->
      load s.(z_ring).(r_buf) t = Some slot ->
      spsc_step s (set_z_cons (C_copying t (copy_byte b slot out) (before ++ after)) s)
  | c_release s t out : s.(z_cons) = C_copying t out [] ->
      spsc_step s (set_z_out (s.(z_out) ++ [out])
        (set_z_cons C_idle (set_z_ring (set_r_tail (next t) s.(z_ring)) s))).

Definition spsc_init (buf : list gov_telem_record) : spsc :=
  mkSpsc (mkRing buf 0 0 0) P_idle C_idle [] [].

(** Every byte either side is about to touch lies inside [buf]. *)
Definition accesses_defined (s : spsc) : Prop :=
  (forall h x todo, s.(z_prod) = P_copying h x todo ->
     is_Some (load s.(z_ring).(r_buf) h) /\ forall y, is_Some (store s.(z_ring).(r_buf) h y)) /\
  (forall t out todo, s.(z_cons) = C_copying t out todo -> is_Some (load s.(z_ring).(r_buf) t)).

(** Two records agree on a byte; [dst] holds [src] except for the bytes left. *)
Definition agree (b : rec_byte) (r r' : gov_telem_record) : Prop :=
  Z.land (tf_get b.1 r) (byte_mask b.2) = Z.land (tf_get b.1 r') (byte_mask b.2).
Definition copied (src dst : gov_telem_record) (todo : list rec_byte) : Prop :=
  (forall b, b ∈ todo -> b ∈ rec_bytes) /\ forall b, b ∈ rec_bytes -> b ∈ todo \/ agree b dst src.

Definition prod_ok (s : spsc) : Prop :=
  let r := s.(z_ring) in
  match s.(z_prod) with
  | P_idle => True
  | P_loaded h _ => h = r.(r_head)
  | P_copying h x todo => h = r.(r_head) /\ next h <> r.(r_tail) /\ exists y, load r.(r_buf) h = Some y /\ copied x y todo
  end.

Definition cons_ok (s : spsc) : Prop :=
  let r := s.(z_ring) in
  match s.(z_cons) with
  | C_idle => True
  | C_loaded t => t = r.(r_tail)
  | C_copying t out todo => t = r.(r_tail) /\ t <> r.(r_head) /\ exists y, load r.(r_buf) t = Some y /\ copied y out todo
  end.

Definition spsc_inv (s : spsc) : Prop :=
  ring_ok s.(z_ring) /\ prod_ok s /\ cons_ok s /\ s.(z_in) = s.(z_out) ++ ring_items s.(z_ring).

(** ** Index arithmetic *)
Lemma next_mod i : 0 <= i < 9 -> next i = (i + 1) mod 9.
Proof.
  intros Hi. unfold next. rewrite u32_small by clia. change GOV_TELEM_RING_SLOTS with 9.
  destruct (Z.eqb_spec (i + 1) 9) as [->|]; [done|]. rewrite Z.mod_small; lia.
Qed.

Lemma next_range i : 0 <= i < 9 -> 0 <= next i < 9.
Proof. intros Hi. rewrite next_mod by done. apply Z.mod_pos_bound. lia. Qed.

(** [n] slots after [i]. *)
Definition adv (i : Z) (n : nat) : Z := (i + Z.of_nat n) mod 9.

Lemma next_adv i n : 0 <= i < 9 -> next (adv i n) = adv i (S n).
Proof. intros Hi. unfold adv. rewrite next_mod by (apply Z.mod_pos_bound; lia). dlia. Qed.

Lemma adv_next i n : 0 <= i < 9 -> adv (next i) n = adv i (S n).
Proof. intros Hi. rewrite next_mod by done. unfold adv. dlia. Qed.

Lemma adv_0 i : 0 <= i < 9 -> adv i 0 = i.
Proof. intros Hi. unfold adv. dlia. Qed.

Lemma walk_snoc buf i n :
  0 <= i < 9 -> walk buf i (S n) = walk buf i n ++ option_list (load buf (adv i n)).
Proof.
  revert i. induction n as [|n IH]; intros i Hi.
  { cbn. by rewrite adv_0, app_nil_r by done. }
  change (walk buf i (S (S n))) with (option_list (load buf i) ++ walk buf (next i) (S n)).
  rewrite IH, adv_next, app_assoc by (done || by apply next_range). done.
Qed.

(** A write outside the walked slots is not seen. *)
Lemma walk_store buf h x buf' i n :
  store buf h x = Some buf' -> 0 <= i < 9 -> (forall k, (k < n)%nat -> adv i k <> h) ->
  walk buf' i n = walk buf i n.
Proof.
  intros Hs. unfold store in Hs. case_bool_decide as Hh; [|done]. injection Hs as <-.
  revert i. induction n as [|n IH]; intros i Hi Hk; [done|]. cbn [walk].
  rewrite IH; [|by apply next_range|].
  - f_equal. f_equal. unfold load. rewrite bool_decide_true by lia.
    rewrite list_lookup_insert_ne; [done|]. specialize (Hk 0%nat ltac:(lia)).
    rewrite adv_0 in Hk by done. lia.
  - intros k Hlt. rewrite adv_next by done. apply Hk. lia.
Qed.

Lemma load_in buf i : length buf = 9%nat -> 0 <= i < 9 -> is_Some (@load gov_telem_record buf i).
Proof.
  intros Hl Hi. unfold load. rewrite bool_decide_true by lia. apply lookup_lt_is_Some_2. lia.
Qed.

Lemma walk_length buf i n : length buf = 9%nat -> 0 <= i < 9 -> length (walk buf i n) = n.
Proof.
  intros Hl. revert i. induction n as [|n IH]; intros i Hi; [done|]. cbn [walk].
  destruct (load_in buf i Hl Hi) as [x ->]. cbn. by rewrite IH by by apply next_range.
Qed.

Lemma items_length r : ring_ok r -> Z.of_nat (length (ring_items r)) = (r_head r - r_tail r) mod 9.
Proof.
  intros (Hl & Hh & Ht). unfold ring_items. rewrite walk_length by done.
  pose proof (Z.mod_pos_bound (r_head r - r_tail r) 9). lia.
Qed.

(** *** Writing the slot at [head], then publishing it *)
Lemma items_write r x buf :
  ring_ok r -> store r.(r_buf) r.(r_head) x = Some buf -> ring_items (set_r_buf buf r) = ring_items r.
Proof.
  intros (Hl & Hh & Ht) Hs. unfold ring_items. cbn. eapply walk_store; [done..|].
  intros k Hk. unfold adv. dlia.
Qed.

Lemma items_publish r x :
  ring_ok r -> next r.(r_head) <> r.(r_tail) -> load r.(r_buf) r.(r_head) = Some x ->
  ring_items (set_r_head (next r.(r_head)) r) = ring_items r ++ [x].
Proof.
  intros (Hl & Hh & Ht) Hn Hx. unfold ring_items. cbn. rewrite next_mod in * by done.
  replace (Z.to_nat (((r_head r + 1) mod 9 - r_tail r) mod 9)) with (S (Z.to_nat ((r_head r - r_tail r) mod 9))) by dlia.
  rewrite walk_snoc by done. f_equal.
  replace (adv _ _) with (r_head r) by (unfold adv; dlia). by rewrite Hx.
Qed.

Lemma items_release r x :
  ring_ok r -> r.(r_tail) <> r.(r_head) -> load r.(r_buf) r.(r_tail) = Some x ->
  ring_items r = x :: ring_items (set_r_tail (next r.(r_tail)) r).
Proof.
  intros (Hl & Hh & Ht) Hn Hx. unfold ring_items. cbn. rewrite next_mod by done.
  replace (Z.to_nat ((r_head r - r_tail r) mod 9)) with (S (Z.to_nat ((r_head r - (r_tail r + 1) mod 9) mod 9))) by dlia.
  cbn [walk]. rewrite Hx, next_mod by done. done.
Qed.

Lemma store_in buf i x : length buf = 9%nat -> 0 <= i < 9 ->
  exists buf', store buf i x = Some buf' /\ length buf' = 9%nat /\ @load gov_telem_record buf' i = Some x.
Proof.
  intros Hl Hi. rewrite store_Some by lia. eexists. split_and!; [done|by rewrite length_insert|].
  unfold load. rewrite bool_decide_true by lia. apply list_lookup_insert_eq. lia.
Qed.

(** ** The ring implements the interface *)

#[export] Instance ring_is_bounded_queue_laws : BoundedQueueLaws gov_telem_ring gov_telem_record.
Proof.
  split; cbn.
  - intros r Hr. pose proof (items_length r Hr). pose proof (Z.mod_pos_bound (r_head r - r_tail r) 9). lia.
  - intros r x Hr Hroom. pose proof (items_length r Hr) as Hlen. pose proof Hr as (Hl & Hh & Ht).
    assert (Hn : next (r_head r) <> r_tail r) by (rewrite next_mod by done; revert Hroom Hlen; dlia).
    unfold gov_telem_ring_push. rewrite (proj2 (Z.eqb_neq _ _) Hn).
    destruct (store_in (r_buf r) (r_head r) x Hl Hh) as (buf & Hs & Hl' & Hx). rewrite Hs.
    eexists. split_and!; [reflexivity| |..|done].
    + exact (conj Hl' (conj (next_range _ Hh) Ht)).
    + rewrite <-(items_write r x buf Hr Hs). by apply (items_publish (set_r_buf buf r)).
  - intros r x Hr Hfull. pose proof (items_length r Hr) as Hlen. pose proof Hr as (Hl & Hh & Ht).
    assert (Hn : next (r_head r) = r_tail r) by (rewrite next_mod by done; revert Hfull Hlen; dlia).
    unfold gov_telem_ring_push. rewrite Hn, Z.eqb_refl. eexists. by split_and!.
  - intros r Hr. pose proof Hr as (Hl & Hh & Ht). unfold gov_telem_ring_pop.
    destruct (Z.eqb_spec (r_tail r) (r_head r)) as [Heq|Hne].
    + assert (ring_items r = []) as ->.
      { apply nil_length_inv. pose proof (items_length r Hr) as Hi. rewrite Heq, Z.sub_diag in Hi.
        change (0 mod 9) with 0 in Hi. lia. }
      eexists. split_and!; try done.
      apply nil_length_inv. pose proof (items_length r Hr) as Hi. rewrite Heq, Z.sub_diag in Hi.
      change (0 mod 9) with 0 in Hi. lia.
    + destruct (load_in (r_buf r) (r_tail r) Hl Ht) as [x Hx]. rewrite Hx.
      rewrite (items_release r x) by done. eexists. split_and!; [reflexivity| |done|done].
      exact (conj Hl (conj Hh (next_range _ Ht))).
Qed.

(** ** Clients of the interface *)
Section client_theorem.
Context {Q A : Type} `{BoundedQueueLaws Q A}.

Lemma queue_run_spec (q : Q) (ops : list (queue_op A)) :
  q_ok q ->
  exists q' ins outs, queue_run q ops = Some (q', ins, outs) /\ q_ok q' /\
    q_items q ++ ins = outs ++ q_items q' /\
    u32 (q_refused q') = u32 (q_refused q + pushes ops - Z.of_nat (length ins)).
Proof.
  revert q. induction ops as [|[x|] ops IH]; intros q Hq.
  { exists q, [], []. cbn. split_and!; [done..|by rewrite app_nil_r|f_equal; lia]. }
  - cbn [queue_run pushes]. destruct (decide (length (q_items q) = q_capacity)) as [Hf|Hf].
    + destruct (q_push_full q x Hq Hf) as (q1 & -> & Hq1 & Hi & Hr). cbn [mbind option_bind].
      destruct (IH q1 Hq1) as (q2 & ins & outs & -> & Hq2 & Hio & Hc). cbn.
      exists q2, ins, outs. split_and!; [done..|by rewrite <-Hio, Hi|].
      rewrite Hc, Hr. revert Hc. clear. dlia.
    + destruct (q_push_room q x Hq) as (q1 & -> & Hq1 & Hi & Hr).
      { pose proof (q_bounded q Hq). lia. }
      cbn [mbind option_bind]. destruct (IH q1 Hq1) as (q2 & ins & outs & -> & Hq2 & Hio & Hc). cbn.
      exists q2, (x :: ins), outs. split_and!; [done..| |].
      * rewrite <-Hio, Hi, <-app_assoc. done.
      * rewrite Hc, Hr. cbn [length]. f_equal. lia.
  - cbn [queue_run pushes]. destruct (q_pop_spec q Hq) as (q1 & -> & Hq1 & Hi & Hr). cbn [mbind option_bind].
    destruct (IH q1 Hq1) as (q2 & ins & outs & -> & Hq2 & Hio & Hc). cbn.
    exists q2, ins, (option_list (head (q_items q)) ++ outs). split_and!; [done..| |by rewrite Hc, Hr].
    rewrite <-app_assoc, <-Hio, Hi. by destruct (q_items q).
Qed.
End client_theorem.

(** C37: records through the ring, from [gov_telem_ring_init], for any sequence of pushes and pops:
    no undefined access; what comes out is exactly what was accepted, in order, none lost and none
    twice, minus at most the eight records still queued; and every refused push is counted
    (modulo the 32-bit counter). *)
Theorem ring_fifo r ops :
  length r.(r_buf) = 9%nat ->
  exists r' ins outs, queue_run (gov_telem_ring_init r) ops = Some (r', ins, outs) /\
    ins = outs ++ ring_items r' /\ (length ins <= length outs + 8)%nat /\
    u32 (gov_telem_ring_drops r') = u32 (pushes ops - Z.of_nat (length ins)).
Proof.
  intros Hl. assert (Hok : q_ok (gov_telem_ring_init r)) by (split_and!; cbn; [done|lia..]).
  destruct (queue_run_spec (gov_telem_ring_init r) ops Hok) as (r' & ins & outs & Hrun & Hok' & Hio & Hc).
  exists r', ins, outs. change (ins = outs ++ ring_items r') in Hio. split_and!; [done|exact Hio| |exact Hc].
  rewrite Hio, length_app. pose proof (q_bounded r' Hok') as Hb. cbn in Hb. lia.
Qed.

(** Nine pushes: the ninth is refused and counted. *)
Lemma ring_fifo_witness :
  let rec0 := mkTelem 0 0 0 0 0 0 in
  let ops := replicate 9 (op_push rec0) ++ [op_pop] in
  exists r' ins outs, queue_run (gov_telem_ring_init (mkRing (replicate 9 rec0) 5 2 77)) ops = Some (r', ins, outs) /\
    ins = outs ++ ring_items r' /\ (length ins <= length outs + 8)%nat /\
    u32 (gov_telem_ring_drops r') = u32 (9 - Z.of_nat (length ins)).
Proof.
  intros rec0 ops. apply (ring_fifo (mkRing (replicate 9 rec0) 5 2 77) ops). reflexivity.
Defined.

(** [gov_telem_ring_count], [_empty] and [_full] are the number of queued records and its
    comparison with 0 and 8, in every reachable state. *)
Theorem ring_queries r :
  ring_ok r ->
  gov_telem_ring_count r = Z.of_nat (length (ring_items r)) /\
  gov_telem_ring_empty r = bool_decide (ring_items r = []) /\
  gov_telem_ring_full r = bool_decide (length (ring_items r) = 8%nat).
Proof.
  intros Hr. pose proof (items_length r Hr) as Hlen. destruct Hr as (Hl & Hh & Ht).
  split_and!.
  - rewrite Hlen. unfold gov_telem_ring_count. change GOV_TELEM_RING_SLOTS with 9. dlia.
  - unfold gov_telem_ring_empty. destruct (Z.eqb_spec (r_head r) (r_tail r)) as [Heq|Hne]; symmetry.
    + apply bool_decide_eq_true, nil_length_inv. rewrite Heq, Z.sub_diag in Hlen. change (0 mod 9) with 0 in Hlen. lia.
    + apply bool_decide_eq_false. intros Hnil. rewrite Hnil in Hlen. cbn in Hlen. revert Hlen. dlia.
  - unfold gov_telem_ring_full. rewrite next_mod by done.
    destruct (Z.eqb_spec ((r_head r + 1) mod 9) (r_tail r)) as [Heq|Hne]; symmetry;
      [apply bool_decide_eq_true|apply bool_decide_eq_false]; revert Hlen; dlia.
Qed.

Lemma ring_queries_witness :
  let r := mkRing (replicate 9 (mkTelem 0 0 0 0 0 0)) 1 7 0 in
  ring_ok r /\ gov_telem_ring_count r = 3 /\ gov_telem_ring_full r = false.
Proof.
  intros r. assert (Hr : ring_ok r) by (split_and!; cbn; lia).
  split; [exact Hr|]. destruct (ring_queries r Hr) as (-> & _ & ->). split; reflexivity.
Defined.

(** ** Copying byte by byte *)
Lemma masks_apart j k : (j < 4)%nat -> (k < 4)%nat -> j <> k -> Z.land (byte_mask j) (byte_mask k) = 0.
Proof. intros Hj Hk Hne. do 4 (destruct j as [|j]; [do 4 (destruct k as [|k]; [done|]); lia|]). lia. Qed.

Lemma put_same v w m : Z.land (Z.lor (Z.land v m) (Z.ldiff w m)) m = Z.land v m.
Proof. apply Z.bits_inj. intros i. rewrite !Z.land_spec, Z.lor_spec, Z.land_spec, Z.ldiff_spec. by destruct (Z.testbit v i), (Z.testbit w i), (Z.testbit m i). Qed.

Lemma put_other v w m m' : Z.land m' m = 0 -> Z.land (Z.lor (Z.land v m) (Z.ldiff w m)) m' = Z.land w m'.
Proof.
  intros H. apply Z.bits_inj. intros i. pose proof (f_equal (fun z => Z.testbit z i) H) as Hi. cbv beta in Hi.
  rewrite Z.land_spec, Z.bits_0 in Hi. rewrite !Z.land_spec, Z.lor_spec, Z.land_spec, Z.ldiff_spec.
  by destruct (Z.testbit v i), (Z.testbit w i), (Z.testbit m i), (Z.testbit m' i).
Qed.

(** A word is its four bytes. *)
Lemma word_bytes_eq v w :
  (forall k, (k < 4)%nat -> Z.land v (byte_mask k) = Z.land w (byte_mask k)) -> v = w.
Proof.
  intros H. assert (Hall : forall z, z = Z.lor (Z.lor (Z.land z (byte_mask 0)) (Z.land z (byte_mask 1)))
                                            (Z.lor (Z.land z (byte_mask 2)) (Z.land z (byte_mask 3)))).
  { intros z. rewrite <-!Z.land_lor_distr_r. symmetry. apply Z.land_m1_r. }
  rewrite (Hall v), (Hall w), !H by lia. done.
Qed.

Lemma tf_get_put f f' v r : tf_get f (tf_put f' v r) = if decide (f = f') then v else tf_get f r.
Proof. by destruct r, f, f'. Qed.

Lemma rec_bytes_in f k : (k < 4)%nat -> (f, k) ∈ rec_bytes.
Proof. intros Hk. apply list_elem_of_In. do 4 (destruct k as [|k]; [destruct f; cbn; tauto|]). lia. Qed.

Lemma in_rec_bytes b : b ∈ rec_bytes -> (b.2 < 4)%nat.
Proof. intros Hb%list_elem_of_In. cbn in Hb. repeat (destruct Hb as [<- | Hb]; [cbn; lia|]). done. Qed.

Lemma copied_done src dst : copied src dst [] -> dst = src.
Proof.
  intros [_ H]. assert (Hf : forall f, tf_get f dst = tf_get f src).
  { intros f. apply word_bytes_eq. intros k Hk. destruct (H (f, k) (rec_bytes_in f k Hk)) as [Hin|Ha]; [by apply not_elem_of_nil in Hin|exact Ha]. }
  destruct dst, src. f_equal; [apply (Hf TF_tick)|apply (Hf TF_setpoint)|apply (Hf TF_measurement)|apply (Hf TF_output)|apply (Hf TF_state)|apply (Hf TF_fault_flags)].
Qed.

Lemma copied_start src dst : copied src dst rec_bytes.
Proof. split; [done|]. intros b Hb. by left. Qed.

Lemma in_left {A} (before after : list A) b c : c ∈ before ++ after -> c ∈ before ++ b :: after.
Proof. rewrite !elem_of_app, elem_of_cons. tauto. Qed.

Lemma in_split {A} (before after : list A) b c : c ∈ before ++ b :: after -> c = b \/ c ∈ before ++ after.
Proof. rewrite !elem_of_app, elem_of_cons. tauto. Qed.

Lemma copied_step src dst before b after :
  copied src dst (before ++ b :: after) -> copied src (copy_byte b src dst) (before ++ after).
Proof.
  intros [Hin H]. split; [intros c Hc; by apply Hin, in_left|].
  assert (Hb : b ∈ rec_bytes) by (apply Hin; rewrite elem_of_app, elem_of_cons; tauto).
  intros c Hc. unfold agree, copy_byte. rewrite tf_get_put. destruct (decide (c = b)) as [->|Hne].
  - right. rewrite decide_True by done. apply put_same.
  - destruct (H c Hc) as [[->|Hl]%in_split|Ha]; [done|by left|].
    right. case_decide as Hf; [|exact Ha]. rewrite <-Hf. rewrite put_other; [exact Ha|].
    apply masks_apart; [by apply in_rec_bytes..|]. intros Hk. apply Hne. destruct c, b. cbn in *. by subst.
Qed.

(** ** Lock-free use *)
Lemma spsc_inv_init buf : length buf = 9%nat -> spsc_inv (spsc_init buf).
Proof. intros Hl. split_and!; cbn; try done; lia. Qed.

(** The other side's slot is not the one being written. *)
Lemma load_store_apart (buf buf' : list gov_telem_record) h t x :
  store buf h x = Some buf' -> 0 <= h -> 0 <= t -> t <> h -> load buf' t = load buf t.
Proof.
  unfold store. case_bool_decide; [|done]. intros [= <-] Hh Ht Hne.
  unfold load. rewrite !bool_decide_true by lia. rewrite list_lookup_insert_ne; [done|]. lia.
Qed.

Lemma spsc_inv_byte s h x before b after slot buf :
  spsc_inv s -> s.(z_prod) = P_copying h x (before ++ b :: after) -> load s.(z_ring).(r_buf) h = Some slot ->
  store s.(z_ring).(r_buf) h (copy_byte b x slot) = Some buf ->
  spsc_inv (set_z_prod (P_copying h x (before ++ after)) (set_z_ring (set_r_buf buf s.(z_ring)) s)).
Proof.
  intros (Hr & Hp & Hc & Hq) Hs Hx Hw. pose proof Hr as (Hl & Hh & Ht). unfold prod_ok in Hp. rewrite Hs in Hp.
  destruct Hp as (-> & Hn & y & Hy & Hcp). rewrite Hx in Hy. injection Hy as ->.
  destruct (store_in (r_buf (z_ring s)) (r_head (z_ring s)) (copy_byte b x y) Hl Hh) as (buf' & Hw' & Hl' & Hx').
  rewrite Hw in Hw'. injection Hw' as <-. split; [exact (conj Hl' (conj Hh Ht))|]. split; [|split].
  - split; [done|]. split; [done|]. exists (copy_byte b x y). split; [exact Hx'|by apply copied_step].
  - unfold cons_ok in *. cbn. destruct (z_cons s) as [|t|t out todo]; try done. destruct Hc as (-> & Hne & z & Hz & Hcz).
    split; [done|]. split; [done|]. exists z. split; [|done]. rewrite (load_store_apart _ _ _ _ _ Hw) by (done || lia). done.
  - cbn. by rewrite (items_write _ (copy_byte b x y) buf Hr Hw).
Qed.

Lemma spsc_inv_step s s' : spsc_inv s -> spsc_step s s' -> spsc_inv s'.
Proof.
  intros Hinv Hstep. pose proof Hinv as (Hr & Hp & Hc & Hq). pose proof Hr as (Hl & Hh & Ht).
  inversion Hstep as [? x Hs | ? h x Hs Hn | ? h x Hs Hn | ? h x before b after slot buf Hs Hx Hw | ? h x Hs
                     | ? Hs | ? t Hs He | ? t out Hs He | ? t out before b after slot Hs Hx | ? t out Hs]; subst;
    [..|by eapply spsc_inv_byte| | | | | |];
    unfold prod_ok in Hp; unfold cons_ok in Hc; rewrite Hs in *; unfold spsc_inv.
  - by split_and!.
  - by split_and!.
  - split; [done|]. split; [|done]. destruct (load_in (r_buf (z_ring s)) (r_head (z_ring s)) Hl Hh) as [y Hy].
    unfold prod_ok. cbn. split; [done|]. subst h. split; [done|]. exists y. split; [done|apply copied_start].
  - destruct Hp as (-> & Hn & y & Hx & ->%copied_done). split; [exact (conj Hl (conj (next_range _ Hh) Ht))|]. split; [done|].
    split; [|cbn; rewrite (items_publish _ x) by done; by rewrite Hq, app_assoc].
    unfold cons_ok. cbn. destruct (z_cons s) as [|t|t out todo]; try done. destruct Hc as (-> & Hne & z & Hz & Hcz).
    by split_and!; [..|exists z].
  - by split_and!.
  - by split_and!.
  - split; [done|]. split; [done|]. split; [|done]. destruct (load_in (r_buf (z_ring s)) (r_tail (z_ring s)) Hl Ht) as [y Hy].
    unfold cons_ok. cbn. subst t. split; [done|]. split; [done|]. exists y. split; [done|apply copied_start].
  - destruct Hc as (-> & Hne & y & Hy & Hcp). rewrite Hx in Hy. injection Hy as ->. split; [done|]. split; [done|]. split; [|done].
    split; [done|]. split; [done|]. exists y. split; [done|by apply copied_step].
  - destruct Hc as (-> & Hne & y & Hy & ->%copied_done). split; [exact (conj Hl (conj Hh (next_range _ Ht)))|].
    split; [|split; [done|]].
    + unfold prod_ok. cbn. destruct (z_prod s) as [|h z|h z todo]; try done.
      destruct Hp as (-> & Hp & Hrest). split; [done|]. split; [|done]. rewrite !next_mod by done. dlia.
    + cbn. rewrite <-app_assoc, Hq, (items_release _ y) by done. done.
Qed.

(** C38: The ring needs no lock between one producer and one consumer. Let them run concurrently, interleaved between
    any two accesses to the shared indices and between any two bytes of the records copied, in whatever order the bytes
    are copied, and let [*out] hold anything before a pop. No access leaves the buffer, and the records popped
    so far are the first of the records pushed, whole and in order, with at most eight outstanding: none is torn, lost,
    repeated or overwritten. Assumed are sequentially consistent memory and that the compiler keeps the accesses of
    each side in program order, a slot's bytes before the index that hands it over: the C fields are plain, so on
    one core the language does not promise the latter and on several the hardware may not keep the former. *)
Theorem spsc_linearizable buf s :
  length buf = 9%nat -> rtc spsc_step (spsc_init buf) s ->
  accesses_defined s /\ s.(z_out) `prefix_of` s.(z_in) /\ (length s.(z_in) <= length s.(z_out) + 8)%nat.
Proof.
  intros Hl Hrun. assert (Hinv : spsc_inv s).
  { revert Hrun. apply (rtc_ind_r (fun s => spsc_inv s)); [by apply spsc_inv_init|].
    intros s1 s2 _ Hstep Hi. by eapply spsc_inv_step. }
  destruct Hinv as (Hr & Hp & Hc & Hq). pose proof Hr as (Hlb & Hh & Ht).
  unfold accesses_defined. split_and!.
  - intros h x todo Hs. unfold prod_ok in Hp. rewrite Hs in Hp. destruct Hp as [-> _]. split; [by apply load_in|].
    intros y. by destruct (store_in _ (r_head (z_ring s)) y Hlb Hh) as (b & -> & _).
  - intros t out todo Hs. unfold cons_ok in Hc. rewrite Hs in Hc. destruct Hc as [-> _]. by apply load_in.
  - rewrite Hq. by eexists.
  - rewrite Hq, length_app. pose proof (items_length _ Hr).
    pose proof (Z.mod_pos_bound (r_head (z_ring s) - r_tail (z_ring s)) 9). lia.
Qed.

(** Either side can finish its copy. *)
Lemma produce_all todo : forall s h x,
  s.(z_prod) = P_copying h x todo -> length s.(z_ring).(r_buf) = 9%nat -> 0 <= h < 9 ->
  exists buf, rtc spsc_step s (set_z_prod (P_copying h x []) (set_z_ring (set_r_buf buf s.(z_ring)) s)) /\ length buf = 9%nat.
Proof.
  induction todo as [|b todo IH]; intros s h x Hs Hl Hh.
  - exists s.(z_ring).(r_buf). split; [|done]. destruct s as [[] ? ? ? ?]. cbn in *. subst. apply rtc_refl.
  - destruct (load_in _ h Hl Hh) as [y Hy]. destruct (store_in _ h (copy_byte b x y) Hl Hh) as (buf & Hw & Hl' & _).
    destruct (IH (set_z_prod (P_copying h x todo) (set_z_ring (set_r_buf buf s.(z_ring)) s)) h x eq_refl Hl' Hh) as (buf' & Hr & Hl'').
    exists buf'. split; [|done]. eapply rtc_l; [by apply (p_byte s h x [] b todo y buf)|exact Hr].
Qed.

Lemma consume_all todo : forall s t out,
  s.(z_cons) = C_copying t out todo -> length s.(z_ring).(r_buf) = 9%nat -> 0 <= t < 9 ->
  exists out', rtc spsc_step s (set_z_cons (C_copying t out' []) s).
Proof.
  induction todo as [|b todo IH]; intros s t out Hs Hl Ht.
  - exists out. destruct s as [? ? ? ? ?]. cbn in *. subst. apply rtc_refl.
  - destruct (load_in _ t Hl Ht) as [y Hy].
    destruct (IH (set_z_cons (C_copying t (copy_byte b y out) todo) s) t (copy_byte b y out) eq_refl Hl Ht) as (out' & Hr).
    exists out'. eapply rtc_l; [by apply (c_byte s t out [] b todo y)|exact Hr].
Qed.

(** The consumer looks before the producer has copied the record, and takes it after it is published, over a record of
    nines. *)
Lemma spsc_linearizable_witness :
  let x := mkTelem 1 (-2) 3 4 5 6 in let buf := replicate 9 (mkTelem 0 0 0 0 0 0) in
  exists s, rtc spsc_step (spsc_init buf) s /\ s.(z_in) = [x] /\ s.(z_out) = [x].
Proof.
  intros x buf. set (s0 := spsc_init buf).
  set (s1 := set_z_cons C_idle (set_z_cons (C_loaded 0) (set_z_prod (P_copying 0 x rec_bytes) (set_z_prod (P_loaded 0 x) s0)))).
  assert (H1 : rtc spsc_step s0 s1).
  { eapply rtc_l; [by apply (p_start _ x)|]. eapply rtc_l; [by apply (p_room _ 0 x)|].
    eapply rtc_l; [by apply c_start|]. eapply rtc_l; [by apply (c_empty _ 0)|]. apply rtc_refl. }
  destruct (produce_all rec_bytes s1 0 x eq_refl eq_refl ltac:(lia)) as (buf' & H2 & Hl'). set (s2 := set_z_prod _ _) in H2.
  set (s3 := set_z_in [x] (set_z_prod P_idle (set_z_ring (set_r_head 1 (z_ring s2)) s2))).
  set (s4 := set_z_cons (C_copying 0 (mkTelem 9 9 9 9 9 9) rec_bytes) (set_z_cons (C_loaded 0) s3)).
  assert (H3 : rtc spsc_step s2 s4).
  { eapply rtc_l; [by apply (p_publish s2 0 x)|]. eapply rtc_l; [by apply c_start|].
    eapply rtc_l; [by apply (c_some _ 0 (mkTelem 9 9 9 9 9 9))|]. apply rtc_refl. }
  destruct (consume_all rec_bytes s4 0 (mkTelem 9 9 9 9 9 9) eq_refl Hl' ltac:(lia)) as (out & H4). set (s5 := set_z_cons _ _) in H4.
  set (s6 := set_z_out [out] (set_z_cons C_idle (set_z_ring (set_r_tail 1 (z_ring s5)) s5))).
  assert (H5 : rtc spsc_step s0 s6).
  { etransitivity; [exact H1|]. etransitivity; [exact H2|]. etransitivity; [exact H3|]. etransitivity; [exact H4|].
    apply rtc_once, (c_release s5 0 out eq_refl). }
  exists s6. split; [exact H5|]. split; [reflexivity|].
  destruct (proj1 (proj2 (spsc_linearizable buf s6 eq_refl H5))) as [rest Hp]. change ([x] = [out] ++ rest) in Hp.
  change ([out] = [x]). by injection Hp as <- _.
Defined.
