(* ===== verification/Health.v ===== *)
(** * Health: liveness aggregation and the watchdog decision (lib/telem/health.h, lib/telem/health.c)

    The aggregator's operations on its record; its meaning over the history of reports it was
    given: when the watchdog may be fed, and that a silent subsystem starves it. *)
From S2P Require Import Prelude.

(** ** Data and operations *)
Definition GOV_MISS_LIMIT : Z := 3.

Inductive gov_health_subsys :=
  | GOV_HS_CONTROL
  | GOV_HS_LINK
  | GOV_HS_SENSOR
  | GOV_HEALTH_SUBSYS_COUNT.

#[export] Instance gov_health_subsys_eq_dec : EqDecision gov_health_subsys.
Proof. solve_decision. Defined.

(** The enum's value, the index into the two arrays. *)
Definition subsys_index (sys : gov_health_subsys) : Z :=
  match sys with GOV_HS_CONTROL => 0 | GOV_HS_LINK => 1 | GOV_HS_SENSOR => 2 | GOV_HEALTH_SUBSYS_COUNT => 3 end.

(** [(enum gov_health_subsys)i] for the loop indices. *)
Definition all_subsys : list gov_health_subsys := [GOV_HS_CONTROL; GOV_HS_LINK; GOV_HS_SENSOR].

Record gov_health := mkHealth {
  h_last_seen : list Z;
  h_seen : list bool;
  h_consec_misses : Z
}.

Definition set_h_last_seen (v : list Z) (r : gov_health) : gov_health :=
  {| h_last_seen := v; h_seen := r.(h_seen); h_consec_misses := r.(h_consec_misses) |}.
Definition set_h_seen (v : list bool) (r : gov_health) : gov_health :=
  {| h_last_seen := r.(h_last_seen); h_seen := v; h_consec_misses := r.(h_consec_misses) |}.
Definition set_h_consec_misses (v : Z) (r : gov_health) : gov_health :=
  {| h_last_seen := r.(h_last_seen); h_seen := r.(h_seen); h_consec_misses := v |}.

Definition gov_health_init : gov_health := mkHealth [0; 0; 0] [false; false; false] 0.

Definition gov_health_note_alive (h : gov_health) (sys : gov_health_subsys) (tick : Z) : option gov_health :=
  if subsys_index GOV_HEALTH_SUBSYS_COUNT <=? subsys_index sys then Some h
  else
    last_seen ← store h.(h_last_seen) (subsys_index sys) tick;
    seen ← store h.(h_seen) (subsys_index sys) true;
    Some (set_h_seen seen (set_h_last_seen last_seen h)).

Definition gov_health_note_deadline (h : gov_health) (met : bool) : gov_health :=
  if met then set_h_consec_misses 0 h else set_h_consec_misses (u32 (h.(h_consec_misses) + 1)) h.

Definition gov_health_subsys_alive (h : gov_health) (sys : gov_health_subsys) (now threshold : Z) :
    option bool :=
  if subsys_index GOV_HEALTH_SUBSYS_COUNT <=? subsys_index sys then Some false
  else
    seen ← load h.(h_seen) (subsys_index sys);
    if negb seen then Some false
    else
      last ← load h.(h_last_seen) (subsys_index sys);
      Some (u32 (now - last) <=? threshold).

(** The loop over the subsystems, with its early return. *)
Fixpoint alive_from (h : gov_health) (subsys : list gov_health_subsys) (now threshold : Z) : option bool :=
  match subsys with
  | [] => Some true
  | sys :: subsys =>
      alive ← gov_health_subsys_alive h sys now threshold;
      if negb alive then Some false else alive_from h subsys now threshold
  end.

Definition gov_health_all_alive (h : gov_health) (now threshold : Z) : option bool :=
  alive_from h all_subsys now threshold.

Definition gov_health_timing_fault (h : gov_health) : bool := GOV_MISS_LIMIT <=? h.(h_consec_misses).
Definition gov_health_consec_misses (h : gov_health) : Z := h.(h_consec_misses).

(** [&&] evaluates its second operand only when the first holds. *)
Definition gov_health_feed_watchdog (h : gov_health) (now threshold : Z) : option bool :=
  alive ← gov_health_all_alive h now threshold;
  Some (if alive : bool then negb (gov_health_timing_fault h) else false).

(** ** Histories *)
Inductive report :=
  | rep_alive (sys : gov_health_subsys) (tick : Z)
  | rep_deadline (met : bool).

Definition health_step (h : gov_health) (r : report) : option gov_health :=
  match r with
  | rep_alive sys tick => gov_health_note_alive h sys tick
  | rep_deadline met => Some (gov_health_note_deadline h met)
  end.

(** The state after the reports, the oldest first. *)
Fixpoint health_run (h : gov_health) (reports : list report) : option gov_health :=
  match reports with
  | [] => Some h
  | r :: reports => h ← health_step h r; health_run h reports
  end.

(** The tick of a subsystem's last report. *)
Fixpoint last_report (sys : gov_health_subsys) (reports : list report) : option Z :=
  match reports with
  | [] => None
  | r :: reports =>
      match last_report sys reports, r with
      | Some t, _ => Some t
      | None, rep_alive sys' tick => if bool_decide (sys' = sys) then Some tick else None
      | None, rep_deadline _ => None
      end
  end.

(** How many control deadlines were missed in a row, up to now. *)
Definition missed_in_a_row (reports : list report) : Z :=
  fold_left (fun n r => match r with rep_deadline true => 0 | rep_deadline false => n + 1 | _ => n end) reports 0.

(** The subsystem reported no longer than [threshold] ticks ago. *)
Definition fresh (reports : list report) (now threshold : Z) (sys : gov_health_subsys) : Prop :=
  exists t, last_report sys reports = Some t /\ u32 (now - t) <= threshold.

(** What the record holds after a history. *)
Definition health_rep (h : gov_health) (reports : list report) : Prop :=
  length h.(h_last_seen) = 3%nat /\ length h.(h_seen) = 3%nat /\
  h.(h_consec_misses) = u32 (missed_in_a_row reports) /\
  forall sys, sys <> GOV_HEALTH_SUBSYS_COUNT ->
    match last_report sys reports with
    | None => load h.(h_seen) (subsys_index sys) = Some false
    | Some t => load h.(h_seen) (subsys_index sys) = Some true /\
                load h.(h_last_seen) (subsys_index sys) = Some t
    end.

(** ** The record represents the history *)
Lemma last_report_snoc sys reports r :
  last_report sys (reports ++ [r]) =
    match r with
    | rep_alive sys' tick => if bool_decide (sys' = sys) then Some tick else last_report sys reports
    | rep_deadline _ => last_report sys reports
    end.
Proof.
  induction reports as [|r0 reports IH]; cbn.
  { destruct r; [|done]. by destruct (bool_decide _). }
  rewrite IH. destruct r as [sys' tick|]; [|done]. by destruct (bool_decide _).
Qed.

Lemma missed_snoc reports r :
  missed_in_a_row (reports ++ [r]) =
    match r with rep_deadline true => 0 | rep_deadline false => missed_in_a_row reports + 1
    | _ => missed_in_a_row reports end.
Proof. unfold missed_in_a_row. by rewrite fold_left_app. Qed.

Lemma subsys_index_inj s1 s2 : subsys_index s1 = subsys_index s2 -> s1 = s2.
Proof. by destruct s1, s2. Qed.

Lemma health_step_rep h reports r :
  health_rep h reports -> exists h', health_step h r = Some h' /\ health_rep h' (reports ++ [r]).
Proof.
  intros (H1 & H2 & H3 & H4). destruct r as [sys tick|met]; cbn.
  - unfold gov_health_note_alive. destruct (decide (sys = GOV_HEALTH_SUBSYS_COUNT)) as [->|Hsys].
    { exists h. split; [done|]. split_and!; [done|done|by rewrite missed_snoc|].
      intros sys Hne. rewrite last_report_snoc, bool_decide_false by done. by apply H4. }
    assert (Hi : 0 <= subsys_index sys < 3) by (destruct sys; cbn; (lia || done)).
    rewrite (proj2 (Z.leb_gt _ _)) by (cbn; lia).
    destruct (store (h_last_seen h) (subsys_index sys) tick) as [ls|] eqn:El;
      [|unfold store in El; case_bool_decide; [done|lia]].
    destruct (store (h_seen h) (subsys_index sys) true) as [se|] eqn:Es;
      [|unfold store in Es; case_bool_decide; [done|lia]].
    cbn. eexists. split; [reflexivity|]. split_and!; cbn.
    + by rewrite (store_length _ _ _ _ El).
    + by rewrite (store_length _ _ _ _ Es).
    + by rewrite missed_snoc.
    + intros sys' Hne. rewrite last_report_snoc. destruct (bool_decide_reflect (sys = sys')) as [<-|Hd].
      * split; by eapply load_store_eq.
      * assert (subsys_index sys <> subsys_index sys') by by intros ?%subsys_index_inj.
        assert (0 <= subsys_index sys') by by destruct sys'.
        rewrite (load_store_ne _ _ _ _ _ El), (load_store_ne _ _ _ _ _ Es) by done. by apply H4.
  - eexists. split; [reflexivity|]. unfold gov_health_note_deadline. split_and!; try (destruct met; done).
    + rewrite missed_snoc. destruct met; cbn; [done|]. rewrite H3. clear. dlia.
    + intros sys Hne. rewrite last_report_snoc. specialize (H4 sys Hne). by destruct met.
Qed.

Lemma health_run_app h r1 r2 : health_run h (r1 ++ r2) = (h1 ← health_run h r1; health_run h1 r2).
Proof.
  revert h. induction r1 as [|r r1 IH]; intros h; [done|]. cbn.
  destruct (health_step h r) as [h1|]; cbn; [apply IH|done].
Qed.

Lemma health_run_rep reports : exists h, health_run gov_health_init reports = Some h /\ health_rep h reports.
Proof.
  induction reports as [|r reports IH] using rev_ind.
  { exists gov_health_init. split; [done|]. split_and!; try done. intros sys Hs. by destruct sys. }
  destruct IH as (h & Hh & Hr). destruct (health_step_rep h reports r Hr) as (h' & Hs & Hr').
  exists h'. rewrite health_run_app, Hh. cbn. by rewrite Hs.
Qed.

Lemma subsys_alive_spec h reports sys now threshold :
  health_rep h reports -> sys <> GOV_HEALTH_SUBSYS_COUNT ->
  exists b, gov_health_subsys_alive h sys now threshold = Some b /\ (b = true <-> fresh reports now threshold sys).
Proof.
  intros (_ & _ & _ & H) Hs. unfold gov_health_subsys_alive, fresh.
  rewrite (proj2 (Z.leb_gt _ _)) by (destruct sys; cbn; (lia || done)).
  specialize (H sys Hs). destruct (last_report sys reports) as [t|].
  - destruct H as [-> ->]. cbn. eexists. split; [reflexivity|]. rewrite Z.leb_le. split; [by exists t|].
    by intros (? & [= <-] & ?).
  - rewrite H. cbn. exists false. split; [done|]. split; [done|]. by intros (? & ? & _).
Qed.

Lemma all_alive_spec h reports now threshold :
  health_rep h reports ->
  exists b, gov_health_all_alive h now threshold = Some b /\
    (b = true <-> Forall (fresh reports now threshold) all_subsys).
Proof.
  intros Hr. unfold gov_health_all_alive.
  assert (Hall : Forall (fun sys => sys <> GOV_HEALTH_SUBSYS_COUNT) all_subsys) by by repeat constructor.
  induction Hall as [|sys l Hs _ IH]; cbn [alive_from]; [by exists true|].
  destruct (subsys_alive_spec h reports sys now threshold Hr Hs) as (b & -> & Hb). cbn.
  destruct b; cbn.
  - destruct IH as (b' & -> & Hb'). exists b'. split; [done|]. rewrite Forall_cons, Hb'. tauto.
  - exists false. split; [done|]. rewrite Forall_cons, <-Hb. split; [done|]. by intros [? _].
Qed.

(** After any history of reports, the watchdog may be fed exactly when all three subsystems
    have reported, none longer than the threshold ago on the wrapping 32-bit clock, and fewer than
    three control deadlines (modulo 2^32) were missed in a row; no array access is out of range,
    whatever subsystem value the reports carry. *)
Theorem feed_watchdog_spec reports now threshold :
  exists h b, health_run gov_health_init reports = Some h /\
    gov_health_feed_watchdog h now threshold = Some b /\
    (b = true <-> Forall (fresh reports now threshold) all_subsys /\ u32 (missed_in_a_row reports) < GOV_MISS_LIMIT).
Proof.
  destruct (health_run_rep reports) as (h & Hh & Hr).
  destruct (all_alive_spec h reports now threshold Hr) as (a & Ha & Hiff).
  exists h, (if a then negb (gov_health_timing_fault h) else false).
  split; [done|]. unfold gov_health_feed_watchdog. rewrite Ha. split; [done|].
  unfold gov_health_timing_fault. destruct Hr as (_ & _ & -> & _). rewrite <-Hiff.
  destruct a; [|split; [done|tauto]]. rewrite negb_true_iff, Z.leb_gt. tauto.
Qed.

(** A subsystem whose last report is [t] starves the watchdog at every tick from [t] + threshold
    + 1 until the clock has gone all the way round, whatever the other subsystems report. *)
Theorem silent_subsystem_starves_watchdog reports sys t age threshold :
  sys <> GOV_HEALTH_SUBSYS_COUNT -> last_report sys reports = Some t ->
  0 <= threshold < age -> age < 2 ^ 32 ->
  exists h, health_run gov_health_init reports = Some h /\
    gov_health_feed_watchdog h (u32 (t + age)) threshold = Some false.
Proof.
  intros Hs Hl Ha Hw. destruct (health_run_rep reports) as (h & Hh & Hr). exists h. split; [done|].
  destruct (all_alive_spec h reports (u32 (t + age)) threshold Hr) as (a & Hall & Hiff).
  unfold gov_health_feed_watchdog. rewrite Hall. destruct a; [|done]. exfalso.
  pose proof (proj1 Hiff eq_refl) as Hf. rewrite Forall_forall in Hf.
  destruct (Hf sys) as (t' & Ht' & Hage).
  { destruct sys; cbn; [by left|by right; left|by right; right; left|done]. }
  rewrite Hl in Ht'. injection Ht' as <-. revert Hage. clear -Ha Hw. dlia.
Qed.

(** The link went silent at tick 1000; the other two report at tick 1600. *)
Lemma silent_subsystem_starves_watchdog_witness :
  exists h, health_run gov_health_init
      [rep_alive GOV_HS_LINK 1000; rep_alive GOV_HS_CONTROL 1600; rep_alive GOV_HS_SENSOR 1600] = Some h /\
    gov_health_feed_watchdog h (u32 (1000 + 600)) 500 = Some false.
Proof.
  apply (silent_subsystem_starves_watchdog
    [rep_alive GOV_HS_LINK 1000; rep_alive GOV_HS_CONTROL 1600; rep_alive GOV_HS_SENSOR 1600] GOV_HS_LINK 1000 600 500);
    [discriminate | reflexivity | lia | lia].
Defined.
