(* ===== verification/Config.v ===== *)
(** * Config: the persistent configuration (lib/config/config.h, lib/config/config.c)

    The A/B slots as the bytes the CRC covers (in either byte order), loading and saving over an
    abstract medium, the laws of a medium, and crash consistency: what a reboot finds after any
    sequence of saves, refused or interrupted. *)
From S2P Require Import Prelude Crc16 Telem.

(** ** Data *)
Record gov_config := mkConfig {
  cf_setpoint : Z;
  cf_kp_milli : Z;
  cf_ki_milli : Z;
  cf_kd_milli : Z;
  cf_boot_count : Z
}.

#[export] Instance gov_config_eq_dec : EqDecision gov_config.
Proof. solve_decision. Defined.

Definition GOV_CONFIG_MAGIC : Z := 0x47434647.
Definition GOV_CONFIG_VERSION : Z := 1.

Record gov_config_slot := mkSlot {
  sl_magic : Z;
  sl_version : Z;
  sl_seq : Z;
  sl_payload : gov_config;
  sl_crc : Z;
  sl_pad : Z
}.

Definition set_sl_magic (v : Z) (r : gov_config_slot) : gov_config_slot :=
  {| sl_magic := v; sl_version := r.(sl_version); sl_seq := r.(sl_seq);
     sl_payload := r.(sl_payload); sl_crc := r.(sl_crc); sl_pad := r.(sl_pad) |}.
Definition set_sl_version (v : Z) (r : gov_config_slot) : gov_config_slot :=
  {| sl_magic := r.(sl_magic); sl_version := v; sl_seq := r.(sl_seq);
     sl_payload := r.(sl_payload); sl_crc := r.(sl_crc); sl_pad := r.(sl_pad) |}.
Definition set_sl_seq (v : Z) (r : gov_config_slot) : gov_config_slot :=
  {| sl_magic := r.(sl_magic); sl_version := r.(sl_version); sl_seq := v;
     sl_payload := r.(sl_payload); sl_crc := r.(sl_crc); sl_pad := r.(sl_pad) |}.
Definition set_sl_payload (v : gov_config) (r : gov_config_slot) : gov_config_slot :=
  {| sl_magic := r.(sl_magic); sl_version := r.(sl_version); sl_seq := r.(sl_seq);
     sl_payload := v; sl_crc := r.(sl_crc); sl_pad := r.(sl_pad) |}.
Definition set_sl_crc (v : Z) (r : gov_config_slot) : gov_config_slot :=
  {| sl_magic := r.(sl_magic); sl_version := r.(sl_version); sl_seq := r.(sl_seq);
     sl_payload := r.(sl_payload); sl_crc := v; sl_pad := r.(sl_pad) |}.
Definition set_sl_pad (v : Z) (r : gov_config_slot) : gov_config_slot :=
  {| sl_magic := r.(sl_magic); sl_version := r.(sl_version); sl_seq := r.(sl_seq);
     sl_payload := r.(sl_payload); sl_crc := r.(sl_crc); sl_pad := v |}.

Inductive gov_config_status_t := GOV_CONFIG_LOADED | GOV_CONFIG_DEFAULTED | GOV_CONFIG_RECOVERED.

Definition GOV_CONFIG_DEFAULTS : gov_config := mkConfig 50 3500 18000 60 0.

(** The medium behind [ctx]; the function pointers may be NULL. A read returns the slot when it
    completes; a write returns the medium it leaves and whether it fully landed. A call whose behaviour is
    undefined returns [None]. *)
Record gov_config_store (M : Type) := mkStore {
  st_read : option (M -> Z -> option (option gov_config_slot));
  st_write : option (M -> Z -> gov_config_slot -> option (M * bool))
}.
Arguments mkStore {M}.
Arguments st_read {M}.
Arguments st_write {M}.

(** [gov_config_ctx_t] without the store, which the operations take as an argument. *)
Record gov_config_ctx_t := mkCtx {
  c_cfg : gov_config;
  c_last_seq : Z;
  c_active_idx : Z;
  c_valid : bool
}.

Definition set_c_cfg (v : gov_config) (r : gov_config_ctx_t) : gov_config_ctx_t :=
  {| c_cfg := v; c_last_seq := r.(c_last_seq); c_active_idx := r.(c_active_idx);
     c_valid := r.(c_valid) |}.
Definition set_c_last_seq (v : Z) (r : gov_config_ctx_t) : gov_config_ctx_t :=
  {| c_cfg := r.(c_cfg); c_last_seq := v; c_active_idx := r.(c_active_idx);
     c_valid := r.(c_valid) |}.
Definition set_c_active_idx (v : Z) (r : gov_config_ctx_t) : gov_config_ctx_t :=
  {| c_cfg := r.(c_cfg); c_last_seq := r.(c_last_seq); c_active_idx := v;
     c_valid := r.(c_valid) |}.
Definition set_c_valid (v : bool) (r : gov_config_ctx_t) : gov_config_ctx_t :=
  {| c_cfg := r.(c_cfg); c_last_seq := r.(c_last_seq); c_active_idx := r.(c_active_idx);
     c_valid := v |}.

(** ** Slots as bytes *)

(** A 32-bit word in memory, on a big- or little-endian machine. *)
Definition word_bytes (big : bool) (v : Z) : list Z := if big then be32 v else rev (be32 v).

(** [magic] .. [payload], the 32 bytes before [crc]. *)
Definition slot_bytes (big : bool) (s : gov_config_slot) : list Z :=
  let p := s.(sl_payload) in
  [s.(sl_magic); s.(sl_version); s.(sl_seq); u32 p.(cf_setpoint); u32 p.(cf_kp_milli);
   u32 p.(cf_ki_milli); u32 p.(cf_kd_milli); p.(cf_boot_count)] ≫= word_bytes big.

Definition gov_config_slot_crc (big : bool) (s : gov_config_slot) : Z :=
  gov_crc16_ccitt 0xFFFF (slot_bytes big s).

Definition gov_config_slot_valid (big : bool) (s : gov_config_slot) : bool :=
  if negb (s.(sl_magic) =? GOV_CONFIG_MAGIC) || negb (s.(sl_version) =? GOV_CONFIG_VERSION) then false
  else s.(sl_crc) =? gov_config_slot_crc big s.

(** ** Operations *)
Definition gov_config_init : gov_config_ctx_t := mkCtx GOV_CONFIG_DEFAULTS 0 0 false.

Definition seq_newer (a b : Z) : bool := (u32 (a - b) <? 0x80000000) && negb (a =? b).

Definition adopt (s : gov_config_slot) (idx : Z) (c : gov_config_ctx_t) : gov_config_ctx_t :=
  set_c_active_idx idx (set_c_last_seq s.(sl_seq) (set_c_cfg s.(sl_payload) c)).

(** [c->store.read != NULL && c->store.read(...)]. *)
Definition read_slot {M} (st : gov_config_store M) (m : M) (idx : Z) : option (option gov_config_slot) :=
  match st.(st_read) with Some read => read m idx | None => Some None end.

(** The context afterwards and the status; [*out] is [c_cfg]. *)
Definition gov_config_load {M} (big : bool) (st : gov_config_store M) (m : M) (c : gov_config_ctx_t) :
    option (gov_config_ctx_t * gov_config_status_t) :=
  r0 ← read_slot st m 0;
  r1 ← read_slot st m 1;
  let valid r := match r with Some s => gov_config_slot_valid big s | None => false end in
  let '(c, status) :=
    match r0, r1, valid r0, valid r1 with
    | Some s0, Some s1, true, true =>
        (if seq_newer s1.(sl_seq) s0.(sl_seq) then adopt s1 1 c else adopt s0 0 c, GOV_CONFIG_LOADED)
    | Some s0, _, true, _ =>
        (adopt s0 0 c, if bool_decide (is_Some r1) then GOV_CONFIG_RECOVERED else GOV_CONFIG_LOADED)
    | _, Some s1, _, true =>
        (adopt s1 1 c, if bool_decide (is_Some r0) then GOV_CONFIG_RECOVERED else GOV_CONFIG_LOADED)
    | _, _, _, _ =>
        (set_c_active_idx 0 (set_c_last_seq 0 (set_c_cfg GOV_CONFIG_DEFAULTS c)), GOV_CONFIG_DEFAULTED)
    end in
  Some (set_c_valid true c, status).

(** The slot a save writes, and where. *)
Definition save_slot (big : bool) (c : gov_config_ctx_t) (cfg : gov_config) : gov_config_slot :=
  let s := mkSlot GOV_CONFIG_MAGIC GOV_CONFIG_VERSION (u32 (c.(c_last_seq) + 1)) cfg 0 0 in
  set_sl_crc (gov_config_slot_crc big s) s.

Definition save_target (c : gov_config_ctx_t) : Z :=
  if c.(c_valid) then u8 (c.(c_active_idx) .^ 1) else 1.

Definition gov_config_save {M} (big : bool) (st : gov_config_store M) (m : M) (c : gov_config_ctx_t)
    (cfg : gov_config) : option (M * gov_config_ctx_t * bool) :=
  match st.(st_write) with
  | None => Some (m, c, false)
  | Some write =>
      let target := save_target c in
      let slot := save_slot big c cfg in
      '(m, ok) ← write m target slot;
      if negb ok then Some (m, c, false)
      else
        let c := set_c_cfg cfg c in
        let c := set_c_last_seq slot.(sl_seq) c in
        let c := set_c_active_idx target c in
        Some (m, set_c_valid true c, true)
  end.

(** ** What a medium promises *)
Class StoreLaws {M} (st : gov_config_store M) (read : M -> Z -> option gov_config_slot)
    (write : M -> Z -> gov_config_slot -> M * bool) (ok : M -> Prop) := {
  (** on the two slots the calls are defined *)
  law_read m i : ok m -> (i = 0 \/ i = 1) -> read_slot st m i = Some (read m i);
  law_write m i s : ok m -> (i = 0 \/ i = 1) -> exists f, st.(st_write) = Some f /\ f m i s = Some (write m i s);
  (** the fields of a slot are 32-bit words *)
  law_word m i s : ok m -> read m i = Some s -> is_u32 s.(sl_seq);
  law_keep m i s m' landed : ok m -> is_u32 s.(sl_seq) -> write m i s = (m', landed) -> ok m';
  (** a write that landed is read back *)
  law_landed m i s m' : (i = 0 \/ i = 1) -> is_u32 s.(sl_seq) -> write m i s = (m', true) -> read m' i = Some s;
  (** a write, landed or not, leaves the other slot alone *)
  law_other m i s m' landed j :
    (i = 0 \/ i = 1) -> (j = 0 \/ j = 1) -> j <> i -> write m i s = (m', landed) -> read m' j = read m j
}.

(** A reboot: a fresh context loads. *)
Definition boot {M} (big : bool) (st : gov_config_store M) (m : M) : option gov_config :=
  '(c, _) ← gov_config_load big st m gov_config_init; Some c.(c_cfg).

(** ** Runs *)

(** A node's life with its medium: saves, power cuts during a save, and reboots, in any order.  After
    a power cut the medium is what the write left and the context is loaded afresh. *)
Inductive life_event := lf_save (cfg : gov_config) | lf_power_cut (cfg : gov_config) | lf_reboot.

Section life.
Context {M : Type} (big : bool) (st : gov_config_store M).

(** The medium, the context, and a log: the configurations whose save was reported as failed since
    the last commit or boot. *)
Definition life_step (s : M * gov_config_ctx_t * list gov_config) (e : life_event) :
    option (M * gov_config_ctx_t * list gov_config) :=
  let '(m, c, failed) := s in
  match e with
  | lf_save cfg =>
      '(m, c, ok) ← gov_config_save big st m c cfg;
      Some (m, c, if ok : bool then [] else cfg :: failed)
  | lf_power_cut cfg =>
      '(m, _, _) ← gov_config_save big st m c cfg;
      '(c, _) ← gov_config_load big st m gov_config_init;
      Some (m, c, [])
  | lf_reboot => '(c, _) ← gov_config_load big st m gov_config_init; Some (m, c, [])
  end.

Fixpoint life_from (s : M * gov_config_ctx_t * list gov_config) (events : list life_event) :
    option (M * gov_config_ctx_t * list gov_config) :=
  match events with [] => Some s | e :: events => s ← life_step s e; life_from s events end.

Definition life_run (m : M) (events : list life_event) : option (M * gov_config_ctx_t * list gov_config) :=
  '(c, _) ← gov_config_load big st m gov_config_init; life_from (m, c, []) events.
End life.

(** ** Proofs *)
Lemma seq_newer_next s : is_u32 s -> seq_newer (u32 (s + 1)) s = true /\ seq_newer s (u32 (s + 1)) = false.
Proof.
  intros Hs. unfold seq_newer. change 0x80000000 with 2147483648.
  assert (u32 (u32 (s + 1) - s) = 1) as -> by (revert Hs; dlia).
  assert (u32 (s - u32 (s + 1)) = 4294967295) as -> by (revert Hs; dlia).
  assert (u32 (s + 1) <> s) by (revert Hs; dlia).
  by rewrite (proj2 (Z.eqb_neq (u32 (s + 1)) s)).
Qed.

Lemma save_slot_valid big c cfg : gov_config_slot_valid big (save_slot big c cfg) = true.
Proof. unfold gov_config_slot_valid, save_slot. cbn -[gov_config_slot_crc]. apply Z.eqb_refl. Qed.

Lemma save_target_range c : (c.(c_active_idx) = 0 \/ c.(c_active_idx) = 1) -> c.(c_valid) = true ->
  save_target c = 1 - c.(c_active_idx).
Proof. intros [H|H] Hv; unfold save_target; by rewrite Hv, H. Qed.

Section consistency.
Context {M : Type} (big : bool) (st : gov_config_store M) (read : M -> Z -> option gov_config_slot)
  (write : M -> Z -> gov_config_slot -> M * bool) (m_ok : M -> Prop) `{!StoreLaws st read write m_ok}.

Definition good (m : M) (i : Z) (s : gov_config_slot) : Prop :=
  read m i = Some s /\ gov_config_slot_valid big s = true.
Definition bad (m : M) (i : Z) : Prop := forall s, read m i = Some s -> gov_config_slot_valid big s = false.

(** Loading prefers [s] in slot [i] over [o] in the other slot. *)
Definition preferred (i : Z) (s o : gov_config_slot) : Prop :=
  if i =? 0 then seq_newer o.(sl_seq) s.(sl_seq) = false else seq_newer s.(sl_seq) o.(sl_seq) = true.

(** The active slot holds the current configuration, or there is none and it is the default. *)
Definition active_ok (m : M) (c : gov_config_ctx_t) : Prop :=
  (exists s, good m c.(c_active_idx) s /\ s.(sl_seq) = c.(c_last_seq) /\ s.(sl_payload) = c.(c_cfg)) \/
  (bad m c.(c_active_idx) /\ c.(c_active_idx) = 0 /\ c.(c_cfg) = GOV_CONFIG_DEFAULTS).

(** The other slot is invalid, passed over by loading, or one step ahead: a write that landed although
    it was reported as failed. *)
Definition other_ok (m : M) (c : gov_config_ctx_t) (failed : list gov_config) : Prop :=
  let i := c.(c_active_idx) in
  bad m (1 - i) \/
  (exists s o, good m i s /\ good m (1 - i) o /\ preferred i s o) \/
  (exists o, good m (1 - i) o /\ o.(sl_seq) = u32 (c.(c_last_seq) + 1) /\ o.(sl_payload) ∈ failed).

Definition ctx_ok (m : M) (c : gov_config_ctx_t) (failed : list gov_config) : Prop :=
  c.(c_valid) = true /\ (c.(c_active_idx) = 0 \/ c.(c_active_idx) = 1) /\ is_u32 c.(c_last_seq) /\
  active_ok m c /\ other_ok m c failed.

(** An interrupted write leaves the new slot, the old one, or one that the check rejects. *)
Definition tears_detected : Prop :=
  forall m i s m', (i = 0 \/ i = 1) -> write m i s = (m', false) ->
    read m' i = Some s \/ read m' i = read m i \/ bad m' i.

Lemma read_dec m i : bad m i \/ exists s, good m i s.
Proof.
  unfold bad, good. destruct (read m i) as [s|]; [|by left].
  destruct (gov_config_slot_valid big s) eqn:E; [right; by exists s|left]. by intros ? [= <-].
Qed.

Lemma load_one m c i s :
  m_ok m -> (i = 0 \/ i = 1) -> good m i s -> bad m (1 - i) ->
  gov_config_load big st m c = Some (set_c_valid true (adopt s i c),
    match read m (1 - i) with Some _ => GOV_CONFIG_RECOVERED | None => GOV_CONFIG_LOADED end).
Proof.
  intros Hok Hi [Hr Hv] Hb. unfold gov_config_load. rewrite !law_read by tauto. cbn [mbind option_bind]. unfold bad in Hb.
  destruct Hi as [-> | ->]; [change (1 - 0) with 1 in *|change (1 - 1) with 0 in *]; rewrite Hr, Hv.
  - destruct (read m 1) as [o|]; [by rewrite (Hb o eq_refl)|done].
  - destruct (read m 0) as [o|]; [by rewrite (Hb o eq_refl)|done].
Qed.

Lemma load_two m c s0 s1 :
  m_ok m -> good m 0 s0 -> good m 1 s1 ->
  gov_config_load big st m c =
    Some (set_c_valid true (if seq_newer s1.(sl_seq) s0.(sl_seq) then adopt s1 1 c else adopt s0 0 c), GOV_CONFIG_LOADED).
Proof.
  intros Hok [H0 V0] [H1 V1]. unfold gov_config_load. rewrite !law_read by tauto. cbn [mbind option_bind]. by rewrite H0, H1, V0, V1.
Qed.

Lemma load_none m c :
  m_ok m -> bad m 0 -> bad m 1 ->
  gov_config_load big st m c =
    Some (set_c_valid true (set_c_active_idx 0 (set_c_last_seq 0 (set_c_cfg GOV_CONFIG_DEFAULTS c))), GOV_CONFIG_DEFAULTED).
Proof.
  intros Hok H0 H1. unfold gov_config_load. rewrite !law_read by tauto. cbn [mbind option_bind]. unfold bad in *.
  destruct (read m 0) as [s0|]; [rewrite (H0 s0 eq_refl)|];
    (destruct (read m 1) as [s1|]; [rewrite (H1 s1 eq_refl)|]); done.
Qed.

Lemma bad_good m i s : bad m i -> good m i s -> False.
Proof. intros Hb [Hr Hv]. specialize (Hb s Hr). congruence. Qed.

Lemma good_unique m i s s' : good m i s -> good m i s' -> s = s'.
Proof. intros [H1 _] [H2 _]. congruence. Qed.

Lemma good_word m i s : m_ok m -> good m i s -> is_u32 s.(sl_seq).
Proof. intros Hok [H _]. by eapply law_word. Qed.

(** A load is defined, and what it adopts satisfies the invariant. *)
Lemma load_ok m : m_ok m -> exists c status, gov_config_load big st m gov_config_init = Some (c, status) /\ ctx_ok m c [].
Proof.
  intros Hok. destruct (read_dec m 0) as [B0|[s0 G0]], (read_dec m 1) as [B1|[s1 G1]].
  - rewrite load_none by done. do 2 eexists. split; [done|]. split_and!; [done|by left|by split|right|left]; by split_and?.
  - rewrite (load_one m gov_config_init 1 s1) by (done || tauto). do 2 eexists. split; [done|].
    split_and!; [done|by right|by eapply good_word|left; by exists s1|by left].
  - rewrite (load_one m gov_config_init 0 s0) by (done || tauto). do 2 eexists. split; [done|].
    split_and!; [done|by left|by eapply good_word|left; by exists s0|by left].
  - rewrite (load_two m _ s0 s1) by done. do 2 eexists. split; [done|]. destruct (seq_newer (sl_seq s1) (sl_seq s0)) eqn:E.
    + split_and!; [done|by right|by eapply good_word|left; by exists s1|right; left; by exists s1, s0].
    + split_and!; [done|by left|by eapply good_word|left; by exists s0|right; left; by exists s0, s1].
Qed.

Lemma boot_prefers m i s o :
  m_ok m -> (i = 0 \/ i = 1) -> good m i s -> good m (1 - i) o -> preferred i s o -> boot big st m = Some s.(sl_payload).
Proof.
  intros Hok [-> | ->] Hs Ho Hp; unfold preferred in Hp; cbn in Hp; unfold boot.
  - by rewrite (load_two m _ s o), Hp.
  - by rewrite (load_two m _ o s), Hp.
Qed.

Lemma boot_only m i s : m_ok m -> (i = 0 \/ i = 1) -> good m i s -> bad m (1 - i) -> boot big st m = Some s.(sl_payload).
Proof. intros Hok Hi Hs Hb. unfold boot. by rewrite (load_one m gov_config_init i s Hok Hi Hs Hb). Qed.

Lemma flip i : (i = 0 \/ i = 1) -> (1 - i = 0 \/ 1 - i = 1) /\ 1 - (1 - i) = i /\ 1 - i <> i.
Proof. lia. Qed.

(** A slot one step ahead of the active one wins. *)
Lemma boot_ahead m i o last :
  m_ok m -> (i = 0 \/ i = 1) -> is_u32 last -> good m (1 - i) o -> o.(sl_seq) = u32 (last + 1) ->
  (bad m i \/ exists s, good m i s /\ s.(sl_seq) = last) -> boot big st m = Some o.(sl_payload).
Proof.
  intros Hok Hi Hl Ho Hseq Hact. destruct (flip i Hi) as (Hi' & Hii & _). destruct (seq_newer_next last Hl) as [N1 N2].
  destruct Hact as [Hb|(s & Hs & Hsl)].
  - apply (boot_only m (1 - i)); [done..|by rewrite Hii].
  - apply (boot_prefers m (1 - i) o s); [done..|by rewrite Hii|].
    unfold preferred. rewrite Hseq, Hsl. by destruct (1 - i =? 0).
Qed.

Lemma active_cases m c : active_ok m c ->
  bad m c.(c_active_idx) \/ exists s, good m c.(c_active_idx) s /\ s.(sl_seq) = c.(c_last_seq).
Proof. intros [(s & ? & ? & _)|[? _]]; [right; by exists s|by left]. Qed.

Lemma boot_allowed m c failed : m_ok m -> ctx_ok m c failed -> exists b, boot big st m = Some b /\ b ∈ c.(c_cfg) :: failed.
Proof.
  intros Hok (_ & Hi & Hl & Hact & Hoth).
  destruct Hoth as [Hb|[(s & o & Hs & Ho & Hp)|(o & Ho & Hseq & Hin)]].
  - exists c.(c_cfg). split; [|by left]. destruct Hact as [(s & Hs & _ & <-)|(Hb0 & Hz & ->)]; [by apply (boot_only m (c_active_idx c) s)|].
    unfold boot. rewrite Hz in *. by rewrite load_none.
  - exists c.(c_cfg). split; [|by left]. destruct Hact as [(s' & Hs' & _ & <-)|[Hb0 _]]; [|by destruct (bad_good _ _ _ Hb0 Hs)].
    rewrite (good_unique _ _ _ _ Hs' Hs). by apply (boot_prefers m (c_active_idx c) s o).
  - exists o.(sl_payload). split; [|by right]. apply (boot_ahead m (c_active_idx c) o (c_last_seq c)); [done..|by apply active_cases].
Qed.

(** The active slot survives a write to the other one. *)
Lemma active_kept m m' c cfg ok :
  ctx_ok m c [] \/ (exists failed, ctx_ok m c failed) ->
  write m (save_target c) (save_slot big c cfg) = (m', ok) -> active_ok m' c.
Proof.
  intros Hok Hw. assert (exists failed, ctx_ok m c failed) as (failed & Hv & Hi & _ & Hact & _) by (destruct Hok; eauto).
  rewrite save_target_range in Hw by done. destruct (flip _ Hi) as (Hi' & Hii & Hne).
  assert (Hr : read m' (c_active_idx c) = read m (c_active_idx c)) by by eapply law_other.
  unfold active_ok, good, bad in *. by rewrite Hr.
Qed.

Lemma save_good m i c cfg : read m i = Some (save_slot big c cfg) -> good m i (save_slot big c cfg).
Proof. intros H. split; [done|apply save_slot_valid]. Qed.

(** A save in terms of the write: it is defined. *)
Lemma save_spec m c cfg :
  m_ok m -> (c.(c_active_idx) = 0 \/ c.(c_active_idx) = 1) -> c.(c_valid) = true ->
  let slot := save_slot big c cfg in
  gov_config_save big st m c cfg = Some
    (let '(m', ok) := write m (save_target c) slot in
     (m', if ok then set_c_valid true (set_c_active_idx (save_target c) (set_c_last_seq slot.(sl_seq) (set_c_cfg cfg c))) else c, ok)).
Proof.
  intros Hok Hi Hv. cbv zeta. unfold gov_config_save.
  assert (Ht : save_target c = 0 \/ save_target c = 1) by (rewrite save_target_range by done; lia).
  destruct (law_write m (save_target c) (save_slot big c cfg) Hok Ht) as (f & -> & ->). cbn [mbind option_bind].
  by destruct (write m (save_target c) (save_slot big c cfg)) as [m' []].
Qed.

Lemma save_keeps m c failed cfg m' c' ok :
  m_ok m -> ctx_ok m c failed -> gov_config_save big st m c cfg = Some (m', c', ok) -> m_ok m'.
Proof.
  intros Hok (Hv & Hi & _). rewrite save_spec by done.
  destruct (write m (save_target c) (save_slot big c cfg)) as [m1 landed] eqn:Hw.
  intros [= <- _ _]. eapply (law_keep m _ (save_slot big c cfg)); [done|apply u32_range|done].
Qed.

(** A save reported as successful is what a reboot finds. *)
Lemma save_landed m c failed cfg m' c' :
  m_ok m -> ctx_ok m c failed -> gov_config_save big st m c cfg = Some (m', c', true) ->
  ctx_ok m' c' [] /\ c'.(c_cfg) = cfg /\ boot big st m' = Some cfg.
Proof.
  intros Hm Hok Hsave. pose proof (save_keeps m c failed cfg m' c' true Hm Hok Hsave) as Hm'.
  pose proof Hok as (Hv & Hi & Hl & Hact & _). rewrite save_spec in Hsave by done. cbv zeta in Hsave.
  destruct (write m (save_target c) (save_slot big c cfg)) as [m1 ok] eqn:Hw.
  injection Hsave as <- <- ->.
  pose proof (active_kept m m1 c cfg true (or_intror (ex_intro _ failed Hok)) Hw) as Hact'.
  rewrite save_target_range in * by done. destruct (flip _ Hi) as (Hi' & Hii & Hne).
  pose proof (save_good m1 _ c cfg (law_landed _ _ (save_slot big c cfg) _ Hi' (u32_range _) Hw)) as Hg.
  unfold ctx_ok. split_and!; try done; cbn -[save_slot]. 
  - apply u32_range.
  - left. by exists (save_slot big c cfg).
  - destruct (active_cases _ _ Hact') as [Hb|(s & Hs & Hsl)]; [left; cbn; by rewrite Hii|].
    right. left. exists (save_slot big c cfg), s. cbn -[save_slot]. rewrite Hii. split_and!; [done..|].
    unfold preferred. destruct (seq_newer_next _ Hl). cbn -[Z.sub]. rewrite Hsl. by destruct (1 - c_active_idx c =? 0).
  - rewrite (boot_ahead m1 (c_active_idx c) (save_slot big c cfg) (c_last_seq c)); try done. by apply active_cases.
Qed.

(** A save reported as failed keeps the context and leaves the old or the new configuration. *)
Lemma save_failed m c failed cfg m' c' :
  tears_detected -> m_ok m -> ctx_ok m c failed -> gov_config_save big st m c cfg = Some (m', c', false) ->
  c' = c /\ ctx_ok m' c (cfg :: failed).
Proof.
  intros Htear Hm Hok Hsave. pose proof Hok as (Hv & Hi & Hl & Hact & Hoth). rewrite save_spec in Hsave by done. cbv zeta in Hsave.
  destruct (write m (save_target c) (save_slot big c cfg)) as [m1 ok] eqn:Hw.
  injection Hsave as <- <- ->. split; [done|].
  pose proof (active_kept m m1 c cfg false (or_intror (ex_intro _ failed Hok)) Hw) as Hact'.
  rewrite save_target_range in * by done. destruct (flip _ Hi) as (Hi' & Hii & Hne).
  assert (Hr : read m1 (c_active_idx c) = read m (c_active_idx c)) by by eapply law_other.
  split_and!; try done. destruct (Htear _ _ _ _ Hi' Hw) as [Hnew|[Hold|Hbad]].
  - right. right. exists (save_slot big c cfg). split_and!; [by apply save_good|done|]. by left.
  - unfold other_ok, good, bad in *. rewrite Hr, Hold.
    destruct Hoth as [?|[?|(o & [? ?] & ? & ?)]]; [by left|by right; left|]. right. right. exists o.
    split_and!; [done..|]. by right.
  - by left.
Qed.

(** One event of a life is defined and keeps the invariant. *)
Lemma life_step_ok m c failed e :
  tears_detected -> m_ok m -> ctx_ok m c failed ->
  exists m' c' failed', life_step big st (m, c, failed) e = Some (m', c', failed') /\ m_ok m' /\ ctx_ok m' c' failed'.
Proof.
  intros Htear Hm Hc.
  assert (Hsave : forall cfg, exists m' c' ok, gov_config_save big st m c cfg = Some (m', c', ok)).
  { intros cfg. destruct Hc as (Hv & Hi & _). rewrite save_spec by done. destruct (write _ _ _) as [m' ok]. by do 3 eexists. }
  destruct e as [cfg|cfg|]; cbn [life_step]; [..|destruct (load_ok m Hm) as (c' & status & -> & Hc'); by exists m, c', []].
  - destruct (Hsave cfg) as (m' & c' & ok & E). rewrite E. cbn. do 3 eexists. split; [reflexivity|].
    split; [by eapply save_keeps|]. destruct ok; [by eapply save_landed|].
    by destruct (save_failed m c failed cfg m' c' Htear Hm Hc E) as [-> ?].
  - destruct (Hsave cfg) as (m' & c' & ok & E). rewrite E. cbn. assert (Hm' : m_ok m') by (by eapply save_keeps).
    destruct (load_ok m' Hm') as (c1 & status & -> & Hc1). by exists m', c1, [].
Qed.

Lemma life_from_ok events : forall m c failed,
  tears_detected -> m_ok m -> ctx_ok m c failed ->
  exists m' c' failed', life_from big st (m, c, failed) events = Some (m', c', failed') /\ m_ok m' /\ ctx_ok m' c' failed'.
Proof.
  induction events as [|e events IH]; intros m c failed Htear Hm Hc; [by exists m, c, failed|].
  cbn [life_from]. destruct (life_step_ok m c failed e Htear Hm Hc) as (m1 & c1 & f1 & -> & Hm1 & Hc1). by apply IH.
Qed.

(** C22: crash consistency: start from any medium, boot, and go through any sequence of saves, saves
    cut by a power loss, and reboots. Provided an interrupted write is detected (it leaves the new
    slot, the old one, or one the check rejects), nothing on the way is undefined; a reboot always finds the
    configuration the node last loaded or committed, or one whose save was attempted since; and a save that
    returned true is what the reboot finds. *)
Theorem crash_consistency m0 events cfg :
  m_ok m0 -> tears_detected ->
  exists m c failed, life_run big st m0 events = Some (m, c, failed) /\
  (exists b, boot big st m = Some b /\ b ∈ c.(c_cfg) :: failed) /\
  exists m' c' ok b, gov_config_save big st m c cfg = Some (m', c', ok) /\ boot big st m' = Some b /\
  if ok then b = cfg /\ c'.(c_cfg) = cfg
  else b ∈ c.(c_cfg) :: cfg :: failed /\ c' = c.
Proof.
  intros Hok0 Htear. unfold life_run. destruct (load_ok m0 Hok0) as (c0 & status & -> & Hc0). cbn [mbind option_bind].
  destruct (life_from_ok events m0 c0 [] Htear Hok0 Hc0) as (m & c & failed & -> & Hm & Hc).
  exists m, c, failed. split; [done|]. split; [by apply boot_allowed|].
  pose proof Hc as (Hv & Hi & _). pose proof (save_spec m c cfg Hm Hi Hv) as E. cbv zeta in E.
  destruct (write _ _ _) as [m' ok]. set (c' := if ok then _ else _) in E. clearbody c'.
  assert (Hm' : m_ok m') by (by eapply save_keeps). destruct ok.
  - destruct (save_landed m c failed cfg m' c' Hm Hc E) as (_ & ? & ?). by exists m', c', true, cfg.
  - destruct (save_failed m c failed cfg m' c' Htear Hm Hc E) as [-> Hc'].
    destruct (boot_allowed m' c _ Hm' Hc') as (b & Hb & Hin). exists m', c, false, b. split_and!; try done.
Qed.
End consistency.

(** ** Slots in memory *)
(** A 16-bit word in memory. *)
Definition half_bytes (big : bool) (v : Z) : list Z := if big then be16 v else rev (be16 v).

(** The 36 bytes of a slot in memory, and the slot some bytes are. *)
Definition slot_image (big : bool) (s : gov_config_slot) : list Z :=
  slot_bytes big s ++ half_bytes big s.(sl_crc) ++ half_bytes big s.(sl_pad).

Definition number (big : bool) (bs : list Z) : Z := be_val (if big then bs else rev bs).

Definition slot_at (big : bool) (bytes : list Z) : gov_config_slot :=
  let word k := number big (take 4 (drop (4 * k) bytes)) in
  mkSlot (word 0%nat) (word 1%nat) (word 2%nat)
    (mkConfig (i32 (word 3%nat)) (i32 (word 4%nat)) (i32 (word 5%nat)) (i32 (word 6%nat)) (word 7%nat))
    (number big (take 2 (drop 32 bytes))) (number big (take 2 (drop 34 bytes))).

(** The covered bytes and the check that an image holds, high byte first. *)
Definition codeword (big : bool) (bytes : list Z) : list Z := take 32 bytes ++ be16 (number big (take 2 (drop 32 bytes))).

(** The image suffered an error that the check is made for: a burst of up to 16 bits, an odd number of bits, or two
    bits of the code word. *)
Definition damaged (big : bool) (bytes bytes' : list Z) : Prop :=
  is_bytes bytes' /\ length bytes' = 36%nat /\
  detectable (zip_with xorb (bytes_bits (codeword big bytes)) (bytes_bits (codeword big bytes'))).

(** The slot the save number [n] writes, counting without end: its context last saved number [n - 1]. *)
Definition written (big : bool) (n : Z) (cfg : gov_config) : gov_config_slot :=
  save_slot big (set_c_last_seq (u32 (n - 1)) gov_config_init) cfg.

Record config_wf (cfg : gov_config) : Prop := {
  cw_setpoint : is_i32 cfg.(cf_setpoint); cw_kp : is_i32 cfg.(cf_kp_milli); cw_ki : is_i32 cfg.(cf_ki_milli);
  cw_kd : is_i32 cfg.(cf_kd_milli); cw_boot : is_u32 cfg.(cf_boot_count)
}.

(** What has become of a stored slot. *)
Inductive fate := intact | hurt | absent.

Definition reads_as {M} (big : bool) (st : gov_config_store M) (m : M) (i : Z) (h : fate) (s : gov_config_slot) : Prop :=
  match h with
  | intact => read_slot st m i = Some (Some (slot_at big (slot_image big s)))
  | hurt => exists bytes, damaged big (slot_image big s) bytes /\ read_slot st m i = Some (Some (slot_at big bytes))
  | absent => read_slot st m i = Some None
  end.

Lemma be_val4 a b c d : is_u8 b -> is_u8 c -> is_u8 d -> be_val [a; b; c; d] = val32 a b c d.
Proof. intros. rewrite val32_sum by done. unfold be_val. cbn [fold_left]. lia. Qed.

(** Four bytes and the word they are. *)
Lemma quad_number big a b c d :
  is_u8 a -> is_u8 b -> is_u8 c -> is_u8 d ->
  is_u32 (number big [a; b; c; d]) /\ word_bytes big (number big [a; b; c; d]) = [a; b; c; d].
Proof.
  intros Ha Hb Hc Hd. destruct big; unfold number, word_bytes; cbn [rev app]; rewrite be_val4, be32_val32 by done;
    (split; [by apply val32_range|done]).
Qed.

Lemma word_quad big v : is_u32 v -> exists a b c d, word_bytes big v = [a; b; c; d] /\ number big [a; b; c; d] = v.
Proof.
  intros Hv. destruct (val32_be32 v Hv) as (a & b & c & d & E & Hval). pose proof (be32_bytes v) as Hb. rewrite E in Hb.
  unfold is_bytes in Hb. rewrite !Forall_cons in Hb. destruct Hb as (Ha & Hb & Hc & Hd & _).
  destruct big; unfold word_bytes, number; rewrite E.
  - exists a, b, c, d. split; [done|]. by rewrite be_val4.
  - exists d, c, b, a. split; [done|]. cbn [rev app]. by rewrite be_val4.
Qed.

Lemma half_pair big v : is_u16 v -> exists a b, half_bytes big v = [a; b] /\ number big [a; b] = v.
Proof.
  intros Hv. assert (E : be_val (be16 v) = v) by (by rewrite be_val_bits, be16_val by (done || apply be16_bytes)).
  unfold be16 in E. destruct big; unfold half_bytes, number, be16; cbn [rev app]; by do 2 eexists.
Qed.

Lemma number2_u16 big a b : is_u8 a -> is_u8 b -> is_u16 (number big [a; b]).
Proof. intros Ha Hb. destruct big; unfold number, be_val; cbn [rev app fold_left]; clia. Qed.

(** An image is read back. *)
Lemma slot_at_image big s :
  is_u32 s.(sl_magic) -> is_u32 s.(sl_version) -> is_u32 s.(sl_seq) -> config_wf s.(sl_payload) -> is_u16 s.(sl_crc) ->
  is_u16 s.(sl_pad) -> slot_at big (slot_image big s) = s.
Proof.
  intros Hm Hv Hs [H1 H2 H3 H4 H5] Hc Hp. destruct s as [magic version seq [sp kp ki kd bc] crc pad]. cbn in *.
  unfold slot_image, slot_bytes. cbn [sl_magic sl_version sl_seq sl_payload cf_setpoint cf_kp_milli cf_ki_milli cf_kd_milli cf_boot_count sl_crc sl_pad].
  cbn [mbind list_bind].
  destruct (word_quad big magic Hm) as (? & ? & ? & ? & -> & Em), (word_quad big version Hv) as (? & ? & ? & ? & -> & Ev),
    (word_quad big seq Hs) as (? & ? & ? & ? & -> & Es), (word_quad big _ (u32_range sp)) as (? & ? & ? & ? & -> & E1),
    (word_quad big _ (u32_range kp)) as (? & ? & ? & ? & -> & E2), (word_quad big _ (u32_range ki)) as (? & ? & ? & ? & -> & E3),
    (word_quad big _ (u32_range kd)) as (? & ? & ? & ? & -> & E4), (word_quad big bc H5) as (? & ? & ? & ? & -> & E5),
    (half_pair big crc Hc) as (? & ? & -> & Ec), (half_pair big pad Hp) as (? & ? & -> & Ep).
  unfold slot_at. cbn [Nat.mul Nat.add app take drop firstn skipn]. rewrite Em, Ev, Es, E1, E2, E3, E4, E5, Ec, Ep, !i32_u32 by done. done.
Qed.

(** The covered bytes of the slot that an image is. *)
Lemma slot_bytes_at big bytes :
  is_bytes bytes -> length bytes = 36%nat ->
  slot_bytes big (slot_at big bytes) = take 32 bytes /\ is_u16 (sl_crc (slot_at big bytes)).
Proof.
  intros Hb Hl. do 36 (destruct bytes as [|? bytes]; [done|]). destruct bytes; [clear Hl|done].
  unfold is_bytes in Hb. rewrite !Forall_cons in Hb. decompose [and] Hb. clear Hb.
  unfold slot_at, slot_bytes. cbn [sl_magic sl_version sl_seq sl_payload cf_setpoint cf_kp_milli cf_ki_milli cf_kd_milli cf_boot_count sl_crc].
  cbn [Nat.mul Nat.add take drop firstn skipn mbind list_bind]. split; [|by apply number2_u16].
  rewrite !u32_i32 by (by apply quad_number). rewrite !(fun a b c d H1 H2 H3 H4 => proj2 (quad_number big a b c d H1 H2 H3 H4)) by done. done.
Qed.

Lemma slot_image_length big s : length (slot_image big s) = 36%nat.
Proof. by destruct big. Qed.

Lemma slot_image_take big s : take 32 (slot_image big s) = slot_bytes big s.
Proof. by destruct big. Qed.

Lemma slot_bytes_bytes big s : is_bytes (slot_bytes big s).
Proof.
  unfold slot_bytes. set (l := [_; _; _; _; _; _; _; _]). clearbody l. induction l as [|v l IH]; [by apply Forall_nil_2|].
  rewrite bind_cons. apply Forall_app. split; [|done]. unfold word_bytes. destruct big; [|apply Forall_rev]; apply be32_bytes.
Qed.

Lemma slot_crc_u16 big s : is_u16 (gov_config_slot_crc big s).
Proof. by apply crc16_range; [|apply slot_bytes_bytes]. Qed.

Lemma image_codeword big s : is_u16 s.(sl_crc) -> codeword big (slot_image big s) = slot_bytes big s ++ be16 s.(sl_crc).
Proof.
  intros Hc. unfold codeword. rewrite slot_image_take. f_equal. f_equal. destruct (half_pair big _ Hc) as (a & b & E & Hn).
  unfold slot_image. rewrite E. rewrite drop_app_length' by (by destruct big). exact Hn.
Qed.

(** A damaged image is rejected. *)
Lemma damaged_invalid big s bytes :
  s.(sl_crc) = gov_config_slot_crc big s -> damaged big (slot_image big s) bytes ->
  gov_config_slot_valid big (slot_at big bytes) = false.
Proof.
  intros Hcrc (Hb & Hl & Hd). unfold gov_config_slot_valid. destruct (negb _ || negb _); [done|].
  destruct (slot_bytes_at big bytes Hb Hl) as [Ebytes Hu]. unfold gov_config_slot_crc at 1. rewrite Ebytes. apply Z.eqb_neq. intros E.
  apply (crc16_error_residue 0xFFFF (slot_bytes big s) (take 32 bytes) (sl_crc (slot_at big bytes))).
  - done.
  - apply slot_bytes_bytes.
  - by apply Forall_take.
  - done.
  - rewrite length_take, Hl, <-slot_image_take, length_take, slot_image_length. done.
  - rewrite image_codeword, Hcrc in Hd by (rewrite Hcrc; apply slot_crc_u16). exact Hd.
  - apply crc16_residue; [done|by apply Forall_take|done|exact E].
Qed.

(** The n-th save's slot: valid, numbered modulo 2^32. *)
Lemma written_facts big n cfg :
  config_wf cfg ->
  gov_config_slot_valid big (written big n cfg) = true /\ sl_seq (written big n cfg) = u32 n /\
  sl_payload (written big n cfg) = cfg /\ sl_crc (written big n cfg) = gov_config_slot_crc big (written big n cfg) /\
  slot_at big (slot_image big (written big n cfg)) = written big n cfg.
Proof.
  intros Hcfg. assert (Hseq : sl_seq (written big n cfg) = u32 n) by (cbn; dlia).
  assert (Hcrc : sl_crc (written big n cfg) = gov_config_slot_crc big (written big n cfg)) by done.
  split_and!; [apply save_slot_valid|done..|].
  apply slot_at_image; [done|done|rewrite Hseq; apply u32_range|done|rewrite Hcrc; apply slot_crc_u16|done].
Qed.

Lemma seq_newer_count a b : b < a < b + 2 ^ 31 -> seq_newer (u32 a) (u32 b) = true /\ seq_newer (u32 b) (u32 a) = false.
Proof.
  intros Hab. unfold seq_newer. change 0x80000000 with 2147483648.
  assert (E1 : u32 (u32 a - u32 b) = a - b) by dlia. assert (E2 : u32 (u32 b - u32 a) = 2 ^ 32 - (a - b)) by dlia.
  rewrite E1, E2. assert (Hne : u32 a <> u32 b) by dlia. rewrite (proj2 (Z.eqb_neq _ _) Hne).
  rewrite (proj2 (Z.ltb_lt _ _)), (proj2 (Z.ltb_ge (2 ^ 32 - (a - b)) _)) by lia. done.
Qed.

(** What a load sees of a slot. *)
Lemma reads_as_spec {M} big (st : gov_config_store M) m i h n cfg :
  config_wf cfg -> reads_as big st m i h (written big n cfg) ->
  exists r, read_slot st m i = Some r /\
    match h with
    | intact => r = Some (written big n cfg)
    | hurt => exists s, r = Some s /\ gov_config_slot_valid big s = false
    | absent => r = None
    end.
Proof.
  intros Hcfg H. destruct (written_facts big n cfg Hcfg) as (_ & _ & _ & Hcrc & Himg).
  destruct h; cbv beta iota delta [reads_as] in H.
  - rewrite Himg in H. by eexists.
  - destruct H as (bytes & Hd & ->). eexists. split; [done|]. eexists. split; [done|]. by eapply damaged_invalid.
  - by eexists.
Qed.

(** C23: A load finds the newest save that survived. Let one slot hold the bytes that save number [a] wrote and the
    other those of save number [b], up to 2^31 - 1 saves before, counting saves without end (the slots carry the numbers
    modulo 2^32); each slot may be intact, hurt by an error of the kind the CRC is made for (a burst of up to 16
    bits, an odd number of bits, or two bits in the covered bytes and the CRC), or absent. The load adopts the configuration
    of save [a] if its slot is intact, else that of save [b] if that one is, else the defaults; it remembers slot and
    number of what it adopted, and reports RECOVERED if the other slot is hurt, LOADED if not, and DEFAULTED when
    nothing is left. *)
Theorem newest_surviving_save {M} big (st : gov_config_store M) m c i a b ha hb p q :
  (i = 0 \/ i = 1) -> b < a < b + 2 ^ 31 -> config_wf p -> config_wf q ->
  reads_as big st m i ha (written big a p) -> reads_as big st m (1 - i) hb (written big b q) ->
  gov_config_load big st m c = Some
    match ha, hb with
    | intact, hurt => (mkCtx p (u32 a) i true, GOV_CONFIG_RECOVERED)
    | intact, _ => (mkCtx p (u32 a) i true, GOV_CONFIG_LOADED)
    | hurt, intact => (mkCtx q (u32 b) (1 - i) true, GOV_CONFIG_RECOVERED)
    | absent, intact => (mkCtx q (u32 b) (1 - i) true, GOV_CONFIG_LOADED)
    | _, _ => (mkCtx GOV_CONFIG_DEFAULTS 0 0 true, GOV_CONFIG_DEFAULTED)
    end.
Proof.
  intros Hi Hab Hp Hq Ha Hb. destruct (seq_newer_count a b Hab) as [N1 N2].
  destruct (reads_as_spec big st m i ha a p Hp Ha) as (ra & Ra & Ca), (reads_as_spec big st m (1 - i) hb b q Hq Hb) as (rb & Rb & Cb).
  destruct (written_facts big a p Hp) as (Va & Sa & Pa & _), (written_facts big b q Hq) as (Vb & Sb & Pb & _).
  unfold gov_config_load, adopt. destruct Hi as [-> | ->]; [change (1 - 0) with 1 in *|change (1 - 1) with 0 in *]; rewrite Ra, Rb;
    cbn [mbind option_bind]; destruct ha, hb; repeat match goal with H : exists _, _ |- _ => destruct H as (? & ? & ?) end; subst;
    repeat match goal with H : gov_config_slot_valid _ _ = _ |- _ => rewrite H end; rewrite ?Sa, ?Sb, ?N1, ?N2, ?Sa, ?Sb, ?Pa, ?Pb.
  all: done.
Qed.

(** A medium of two 36-byte slots; it cannot be written. *)
Definition rom (big : bool) : gov_config_store (list Z * list Z) :=
  mkStore (Some (fun m i => Some (Some (slot_at big (if i =? 0 then m.1 else m.2))))) None.

(** Save 2^32, whose number wraps to 0, next to save 2^32 - 1: as written, and with one bit of its boot count
    flipped. *)
Lemma newest_surviving_save_witness :
  let p := mkConfig 60 8 7 6 5 in let q := mkConfig 40 8 7 6 4 in
  let older := slot_image false (written false (2 ^ 32 - 1) q) in
  let newer := slot_image false (written false (2 ^ 32) p) in
  gov_config_load false (rom false) (newer, older) gov_config_init = Some (mkCtx p 0 0 true, GOV_CONFIG_LOADED) /\
  gov_config_load false (rom false) (<[28%nat := 4]> newer, older) gov_config_init =
    Some (mkCtx q (2 ^ 32 - 1) 1 true, GOV_CONFIG_RECOVERED).
Proof.
  intros p q older newer. assert (Hp : config_wf p) by (unfold p; split; cbn; clia). assert (Hq : config_wf q) by (unfold q; split; cbn; clia).
  split.
  - apply (newest_surviving_save false (rom false) (newer, older) gov_config_init 0 (2 ^ 32) (2 ^ 32 - 1) intact intact p q
      (or_introl eq_refl) ltac:(lia) Hp Hq eq_refl eq_refl).
  - assert (Hd : damaged false (slot_image false (written false (2 ^ 32) p)) (<[28%nat := 4]> newer)).
    { split; [by vm_compute; repeat (constructor; [done|])|]. split; [by vm_compute|]. apply err_odd. by vm_compute. }
    apply (newest_surviving_save false (rom false) (<[28%nat := 4]> newer, older) gov_config_init 0 (2 ^ 32) (2 ^ 32 - 1) hurt intact p q
      (or_introl eq_refl) ltac:(lia) Hp Hq (ex_intro _ _ (conj Hd eq_refl)) eq_refl).
Defined.
(** ** A concrete medium: two slots and a script of which writes land *)
Definition script_medium : Type := (Z -> option gov_config_slot) * list bool.

Definition script_read (m : script_medium) (i : Z) : option gov_config_slot := m.1 i.

Definition script_ok (m : script_medium) : Prop := forall i s, m.1 i = Some s -> is_u32 s.(sl_seq).

(** A write that does not land leaves a slot whose magic was erased. *)
Definition script_write (m : script_medium) (i : Z) (s : gov_config_slot) : script_medium * bool :=
  let put x := fun j => if j =? i then x else m.1 j in
  match m.2 with
  | false :: rest => ((put (Some (set_sl_magic 0xFFFFFFFF s)), rest), false)
  | true :: rest => ((put (Some s), rest), true)
  | [] => ((put (Some s), []), true)
  end.

Definition script_store : gov_config_store script_medium := mkStore (Some (fun m i => Some (script_read m i))) (Some (fun m i s => Some (script_write m i s))).

#[export] Instance script_laws : StoreLaws script_store script_read script_write script_ok.
Proof.
  split; [done|by intros; eexists| | | |].
  - intros m i s Hok. apply Hok.
  - intros [f sc] i s m' landed Hok Hs Hw j s' H.
    assert (Hm : m'.1 j = Some s \/ m'.1 j = Some (set_sl_magic 0xFFFFFFFF s) \/ m'.1 j = f j).
    { unfold script_write in Hw. cbn in Hw. destruct sc as [|[] sc]; injection Hw as <- _; cbn; destruct (j =? i); tauto. }
    destruct Hm as [Hm|[Hm|Hm]]; rewrite Hm in H; [injection H as <-|injection H as <-|]; [done|done|].
    by apply (Hok j s').
  - intros [f sc] i s m' Hi Hs. unfold script_write, script_read. cbn. intros Hw.
    destruct sc as [|[] sc]; cbn in Hw; try done; injection Hw as <-; cbn; by rewrite Z.eqb_refl.
  - intros [f sc] i s m' landed j Hi Hj Hne. unfold script_write, script_read. cbn. intros Hw.
    destruct sc as [|[] sc]; cbn in Hw; injection Hw as <- _; cbn; by rewrite (proj2 (Z.eqb_neq _ _) Hne).
Qed.

Lemma script_tears big : tears_detected big script_read script_write.
Proof.
  intros [f sc] i s m' Hi. unfold script_write. cbn. destruct sc as [|[] sc]; [done|done|].
  intros [= <-]. right. right. intros s'. unfold script_read. cbn. rewrite Z.eqb_refl. by intros [= <-].
Qed.

(** First boot, a save, a torn save, a power cut, another save. *)
Lemma crash_consistency_witness :
  let m0 : script_medium := (fun _ => None, [true; false; false; true]) in
  let c1 := mkConfig 60 1 2 3 4 in let c2 := mkConfig 70 1 2 3 4 in
  (life_run false script_store m0 [lf_save c1; lf_save c2; lf_power_cut c2] ≫= (fun s => boot false script_store s.1.1)) = Some c1 /\
  exists m c failed, life_run false script_store m0 [lf_save c1; lf_save c2; lf_power_cut c2] = Some (m, c, failed) /\
  exists m' c' ok b, gov_config_save false script_store m c c2 = Some (m', c', ok) /\ boot false script_store m' = Some b /\
  if ok then b = c2 /\ c'.(c_cfg) = c2 else b ∈ c.(c_cfg) :: c2 :: failed /\ c' = c.
Proof.
  intros m0 c1 c2. split; [vm_compute; reflexivity|]. assert (script_blank : script_ok m0) by by intros i s.
  destruct (crash_consistency false script_store script_read script_write script_ok m0
              [lf_save c1; lf_save c2; lf_power_cut c2] c2 script_blank (script_tears false)) as (m & c & failed & Hrun & _ & Hsave).
  exists m, c, failed. exact (conj Hrun Hsave).
Defined.

(** ** What the 16-bit check does not catch *)

(** A write that was cut after [k] bytes, over what was there before. *)
Definition torn (k : nat) (new old : list Z) : list Z := take k new ++ drop k old.

(** The check does not exclude every mixture: three saves with ordinary values on a
    little-endian node, the third cut after 20 bytes over the oldest slot, leave a slot that passes
    the CRC and is the newest: the reboot adopts a configuration with the new set point and
    proportional gain but the old integral gain, which was never saved. *)
Theorem torn_write_can_mix :
  let p1 := mkConfig 50 3500 18000 60 0 in
  let p2 := mkConfig 50 3500 18000 60 1 in
  let p3 := mkConfig 51 8021 9000 60 0 in
  let slot last cfg := slot_image false (save_slot false (mkCtx GOV_CONFIG_DEFAULTS last 0 true) cfg) in
  slot_at false (slot 0 p1) = save_slot false (mkCtx GOV_CONFIG_DEFAULTS 0 0 true) p1 /\
  boot false (rom false) (slot 1 p2, slot 0 p1) = Some p2 /\
  boot false (rom false) (slot 1 p2, torn 20 (slot 2 p3) (slot 0 p1)) = Some (mkConfig 51 8021 18000 60 0).
Proof. vm_compute. split_and!; reflexivity. Qed.
