(* ===== verification/Persist.v ===== *)
(** * Persist: the settings adapter and the boot sequence (app/persist.c, src/main.c)

    The adapter's staging buffers, the load callback and the store functions over the settings
    service, which is a parameter with its documented behaviour as laws; the adapter is an instance
    of the medium of [Config], and the boot sequence of main.c counts boots. *)
From stdpp Require Import strings.
From S2P Require Import Prelude Crc16 Telem Config.

(** ** The settings service (Zephyr), a parameter *)

(** One stored entry, as [settings_load] presents it to the handler: its name below "gov", its
    length, and what reading it gives ([None] when the read callback returns an error). *)
Record entry := mkEntry { e_name : string; e_len : Z; e_data : option gov_config_slot }.

Record settings_api (nvs : Type) := mkSettings {
  settings_subsys_init : nvs -> nvs * Z;
  settings_load : nvs -> list entry * Z;
  settings_save_one : nvs -> string -> gov_config_slot -> nvs * Z;
  (** [settings_name_steq(name, key, &next) && !next] *)
  name_steq : string -> string -> bool
}.
Arguments settings_subsys_init {nvs}.
Arguments settings_load {nvs}.
Arguments settings_save_one {nvs}.
Arguments name_steq {nvs}.
Arguments mkSettings {nvs}.

Definition SLOT_SIZE : Z := 36.
Definition ENOENT : Z := 2.
Definition EINVAL : Z := 22.
Definition EIO : Z := 5.

(** [g_slot] and [g_slot_present]. *)
Record staging := mkStaging {
  g_slot : list gov_config_slot;
  g_slot_present : list bool
}.

Definition set_g_slot (v : list gov_config_slot) (r : staging) : staging :=
  {| g_slot := v; g_slot_present := r.(g_slot_present) |}.
Definition set_g_slot_present (v : list bool) (r : staging) : staging :=
  {| g_slot := r.(g_slot); g_slot_present := v |}.

Definition blank_slot : gov_config_slot := mkSlot 0 0 0 (mkConfig 0 0 0 0 0) 0 0.
Definition staging_init : staging := mkStaging [blank_slot; blank_slot] [false; false].

Definition stage_at (g : staging) (idx : Z) (s : gov_config_slot) : option staging :=
  slots ← store g.(g_slot) idx s;
  present ← store g.(g_slot_present) idx true;
  Some (set_g_slot_present present (set_g_slot slots g)).

(** The handler of [settings_load]: the staging buffers and the returned code. *)
Definition gov_set_cb {nvs} (api : settings_api nvs) (g : staging) (e : entry) : option (staging * Z) :=
  let idx :=
    if api.(name_steq) e.(e_name) "slot0" then Some 0
    else if api.(name_steq) e.(e_name) "slot1" then Some 1 else None in
  match idx with
  | None => Some (g, - ENOENT)
  | Some idx =>
      if negb (e.(e_len) =? SLOT_SIZE) then Some (g, - EINVAL)
      else
        match e.(e_data) with
        | None => Some (g, - EIO)
        | Some s => g ← stage_at g idx s; Some (g, 0)
        end
  end.

(** [settings_load] runs the handler over the stored entries. *)
Fixpoint stage_all {nvs} (api : settings_api nvs) (g : staging) (es : list entry) : option staging :=
  match es with [] => Some g | e :: es => '(g, _) ← gov_set_cb api g e; stage_all api g es end.

Definition store_read (g : staging) (idx : Z) : option (option gov_config_slot) :=
  if 1 <? idx then Some None
  else
    present ← load g.(g_slot_present) idx;
    if negb present then Some None
    else s ← load g.(g_slot) idx; Some (Some s).

Definition slot_key (idx : Z) : string := if idx =? 0 then "gov/slot0" else "gov/slot1".

Definition store_write {nvs} (api : settings_api nvs) (m : staging * nvs) (idx : Z) (s : gov_config_slot) :
    option (staging * nvs * bool) :=
  let '(g, n) := m in
  if 1 <? idx then Some (g, n, false)
  else
    let '(n, rc) := api.(settings_save_one) n (slot_key idx) s in
    if negb (rc =? 0) then Some (g, n, false)
    else g ← stage_at g idx s; Some (g, n, true).

(** The adapter as a medium of [Config]: an access outside the staging buffers is undefined. *)
Definition adapter {nvs} (api : settings_api nvs) : gov_config_store (staging * nvs) :=
  mkStore (Some (fun m idx => store_read m.1 idx)) (Some (store_write api)).

(** The medium, the context and the returned value ([*out] is [c_cfg]). *)
Definition gov_persist_init {nvs} (big : bool) (api : settings_api nvs) (n : nvs) (c : gov_config_ctx_t) :
    option (staging * nvs * gov_config_ctx_t * bool) :=
  let g := staging_init in
  let '(n, rc) := api.(settings_subsys_init) n in
  if negb (rc =? 0) then Some (g, n, c, false)
  else
    let '(es, rc) := api.(settings_load) n in
    g ← stage_all api g es;
    if negb (rc =? 0) then Some (g, n, c, false)
    else
      '(c, _) ← gov_config_load big (adapter api) (g, n) gov_config_init;
      Some (g, n, c, true).

Definition gov_persist_save {nvs} (big : bool) (api : settings_api nvs) (m : staging * nvs) (c : gov_config_ctx_t)
    (cfg : gov_config) : option (staging * nvs * gov_config_ctx_t * bool) :=
  gov_config_save big (adapter api) m c cfg.

(** The persistence part of [main]: load, count the boot, save; the set point to use, the medium
    and whether the count was saved. *)
Definition boot_sequence {nvs} (big : bool) (api : settings_api nvs) (n : nvs) (c : gov_config_ctx_t) :
    option (Z * nvs * bool) :=
  '(g, n, c, ok) ← gov_persist_init big api n c;
  if ok : bool then
    let cfg := c.(c_cfg) in
    let bumped := mkConfig cfg.(cf_setpoint) cfg.(cf_kp_milli) cfg.(cf_ki_milli) cfg.(cf_kd_milli)
                    (u32 (cfg.(cf_boot_count) + 1)) in
    '(_, n, _, saved) ← gov_persist_save big api (g, n) c bumped;
    Some (cfg.(cf_setpoint), n, saved)
  else Some (50, n, false).

(** ** What the service promises *)

(** A slot found under a name: the stored entry when it has the right length and can be read. *)
Definition found (es : list entry) (name : string) : option gov_config_slot :=
  match List.find (fun e => String.eqb e.(e_name) name) es with
  | Some e => if e.(e_len) =? SLOT_SIZE then e.(e_data) else None
  | None => None
  end.

Definition handler_name (idx : Z) : string := if idx =? 0 then "slot0" else "slot1".

Class SettingsLaws {nvs} (api : settings_api nvs) := {
  (** a name matches exactly itself *)
  law_steq name key : api.(name_steq) name key = String.eqb name key;
  (** a key is stored once, and what is stored are words *)
  law_once n : NoDup (e_name <$> (api.(settings_load) n).1);
  law_words n name s : found (api.(settings_load) n).1 name = Some s -> is_u32 s.(sl_seq);
  (** initialising the service does not change what is stored *)
  law_init n n' rc : api.(settings_subsys_init) n = (n', rc) -> (api.(settings_load) n').1 = (api.(settings_load) n).1;
  (** a save that returns 0 is loaded back, and no save touches the other key *)
  law_saved n i s n' :
    (i = 0 \/ i = 1) -> api.(settings_save_one) n (slot_key i) s = (n', 0) ->
    found (api.(settings_load) n').1 (handler_name i) = Some s;
  law_apart n i j s n' rc :
    (i = 0 \/ i = 1) -> (j = 0 \/ j = 1) -> i <> j -> api.(settings_save_one) n (slot_key i) s = (n', rc) ->
    found (api.(settings_load) n').1 (handler_name j) = found (api.(settings_load) n).1 (handler_name j)
}.

(** ** Staging *)
Definition staging_wf (g : staging) : Prop :=
  length g.(g_slot) = 2%nat /\ length g.(g_slot_present) = 2%nat.

Lemma staging_cases g : staging_wf g ->
  exists a b p q, g = mkStaging [a; b] [p; q].
Proof.
  intros [H1 H2]. destruct g as [[|a [|b [|]]] [|p [|q [|]]]]; try done. by exists a, b, p, q.
Qed.

Lemma stage_at_spec g idx s :
  staging_wf g -> (idx = 0 \/ idx = 1) ->
  exists g', stage_at g idx s = Some g' /\ staging_wf g' /\ store_read g' idx = Some (Some s) /\
    store_read g' (1 - idx) = store_read g (1 - idx).
Proof.
  intros Hg Hi. destruct (staging_cases g Hg) as (a & b & p & q & ->).
  destruct Hi as [-> | ->]; eexists; (split; [reflexivity|split; [by split|by split]]).
Qed.

Lemma store_read_Some g idx : staging_wf g -> (idx = 0 \/ idx = 1) -> exists o, store_read g idx = Some o.
Proof.
  intros Hg Hi. destruct (staging_cases g Hg) as (a & b & p & q & ->).
  destruct Hi as [-> | ->]; [destruct p|destruct q]; eexists; reflexivity.
Qed.

Lemma found_in es name s : found es name = Some s -> exists e, e ∈ es /\ e.(e_data) = Some s.
Proof.
  unfold found. destruct (List.find _ es) as [e|] eqn:E; [|done]. destruct (e_len e =? SLOT_SIZE); [|done].
  intros H. exists e. split; [|done]. apply find_some in E as [E _]. by apply list_elem_of_In.
Qed.

Section adapter.
Context {nvs : Type} (api : settings_api nvs) `{!SettingsLaws api}.

Lemma set_cb_spec g e :
  staging_wf g ->
  exists g' rc, gov_set_cb api g e = Some (g', rc) /\ staging_wf g' /\
    forall i, (i = 0 \/ i = 1) ->
      store_read g' i = (if String.eqb e.(e_name) (handler_name i)
                         then match found [e] (handler_name i) with Some s => Some (Some s) | None => store_read g i end
                         else store_read g i).
Proof.
  intros Hg. unfold gov_set_cb. rewrite !law_steq. unfold found. cbn [List.find].
  destruct (String.eqb_spec (e_name e) "slot0") as [E0|E0]; [|destruct (String.eqb_spec (e_name e) "slot1") as [E1|E1]].
  - destruct (Z.eqb_spec (e_len e) SLOT_SIZE) as [El|El]; cbn [negb].
    + destruct (e_data e) as [s|] eqn:Ed.
      * destruct (stage_at_spec g 0 s Hg ltac:(by left)) as (g' & -> & Hg' & H0 & H1). cbn.
        exists g', 0. split_and!; [done..|]. intros i [-> | ->]; rewrite E0; cbn; [|done].
        by rewrite El, Ed.
      * exists g, (- EIO). split_and!; [done..|]. intros i [-> | ->]; rewrite E0; cbn; [|done]. by rewrite El, Ed.
    + exists g, (- EINVAL). split_and!; [done..|]. intros i [-> | ->]; rewrite E0; cbn; [|done].
      by rewrite (proj2 (Z.eqb_neq _ _) El).
  - destruct (Z.eqb_spec (e_len e) SLOT_SIZE) as [El|El]; cbn [negb].
    + destruct (e_data e) as [s|] eqn:Ed.
      * destruct (stage_at_spec g 1 s Hg ltac:(by right)) as (g' & -> & Hg' & H0 & H1). cbn.
        exists g', 0. split_and!; [done..|]. intros i [-> | ->]; rewrite E1; cbn; [done|].
        by rewrite El, Ed.
      * exists g, (- EIO). split_and!; [done..|]. intros i [-> | ->]; rewrite E1; cbn; [done|]. by rewrite El, Ed.
    + exists g, (- EINVAL). split_and!; [done..|]. intros i [-> | ->]; rewrite E1; cbn; [done|].
      by rewrite (proj2 (Z.eqb_neq _ _) El).
  - exists g, (- ENOENT). split_and!; [done..|]. intros i [-> | ->]; cbn.
    + by destruct (String.eqb_spec (e_name e) "slot0").
    + by destruct (String.eqb_spec (e_name e) "slot1").
Qed.

Lemma found_absent es name : name ∉ (e_name <$> es) -> found es name = None.
Proof.
  unfold found. induction es as [|e es IH]; [done|]. rewrite fmap_cons, not_elem_of_cons. intros [Hne Hin].
  cbn. destruct (String.eqb_spec (e_name e) name) as [Heq|_]; [by destruct Hne|]. by apply IH.
Qed.

Lemma stage_all_spec es g :
  staging_wf g -> NoDup (e_name <$> es) ->
  exists g', stage_all api g es = Some g' /\ staging_wf g' /\
    forall i, (i = 0 \/ i = 1) ->
      store_read g' i = match found es (handler_name i) with Some s => Some (Some s) | None => store_read g i end.
Proof.
  revert g. induction es as [|e es IH]; intros g Hg Hnd; [by exists g|].
  rewrite fmap_cons, NoDup_cons in Hnd. destruct Hnd as [Hnin Hnd].
  destruct (set_cb_spec g e Hg) as (g1 & rc & Hcb & Hg1 & Hr1). cbn [stage_all]. rewrite Hcb. cbn [mbind option_bind].
  destruct (IH g1 Hg1 Hnd) as (g2 & -> & Hg2 & Hr2). exists g2. split_and!; [done..|].
  intros i Hi. rewrite (Hr2 i Hi), (Hr1 i Hi). unfold found at 3. cbn [List.find].
  unfold found at 2. cbn [List.find].
  destruct (String.eqb_spec (e_name e) (handler_name i)) as [Heq|Hne]; [|done].
  rewrite Heq in Hnin. rewrite (found_absent es) by done. done.
Qed.

(** ** The adapter is a medium *)
Definition adapter_ok (m : staging * nvs) : Prop :=
  staging_wf m.1 /\ forall i s, store_read m.1 i = Some (Some s) -> is_u32 s.(sl_seq).

(** What the calls return where they are defined. *)
Definition staged_slot (m : staging * nvs) (idx : Z) : option gov_config_slot := default None (store_read m.1 idx).
Definition staged_write (m : staging * nvs) (idx : Z) (s : gov_config_slot) : staging * nvs * bool :=
  default (m, false) (store_write api m idx s).

Lemma staged_defined (m : staging * nvs) i : staging_wf m.1 -> (i = 0 \/ i = 1) -> store_read m.1 i = Some (staged_slot m i).
Proof. intros Hg Hi. unfold staged_slot. by destruct (store_read_Some m.1 i Hg Hi) as [o ->]. Qed.

Lemma staged_write_defined (m : staging * nvs) i s :
  staging_wf m.1 -> (i = 0 \/ i = 1) -> store_write api m i s = Some (staged_write m i s).
Proof.
  destruct m as [g n]. intros Hg Hi. unfold staged_write, store_write. destruct (1 <? i); [done|].
  destruct (settings_save_one api n (slot_key i) s) as [n1 rc]. destruct (negb (rc =? 0)); [done|].
  by destruct (stage_at_spec g i s Hg Hi) as (g' & -> & _).
Qed.

Lemma staged_slot_spec (m : staging * nvs) i s : staged_slot m i = Some s <-> store_read m.1 i = Some (Some s).
Proof. unfold staged_slot. destruct (store_read m.1 i) as [[?|]|]; cbn; split; congruence. Qed.

Lemma stage_at_same g i s g' : stage_at g i s = Some g' -> i <= 1 -> store_read g' i = Some (Some s).
Proof.
  unfold stage_at. destruct (store (g_slot g) i s) as [sl|] eqn:E1; [|done]. cbn.
  destruct (store (g_slot_present g) i true) as [pr|] eqn:E2; [|done]. cbn. intros [= <-] Hi.
  unfold store_read. cbn. rewrite (proj2 (Z.ltb_ge _ _)) by done.
  by rewrite (load_store_eq _ _ _ _ E2), (load_store_eq _ _ _ _ E1).
Qed.

Lemma stage_at_other g i j s g' : stage_at g i s = Some g' -> 0 <= j -> i <> j -> store_read g' j = store_read g j.
Proof.
  unfold stage_at. destruct (store (g_slot g) i s) as [sl|] eqn:E1; [|done]. cbn.
  destruct (store (g_slot_present g) i true) as [pr|] eqn:E2; [|done]. cbn. intros [= <-] Hj Hne.
  unfold store_read. cbn. by rewrite (load_store_ne _ _ _ _ _ E2), (load_store_ne _ _ _ _ _ E1).
Qed.

Lemma stage_at_wf g i s g' : stage_at g i s = Some g' -> staging_wf g -> staging_wf g'.
Proof.
  unfold stage_at. destruct (store (g_slot g) i s) as [sl|] eqn:E1; [|done]. cbn.
  destruct (store (g_slot_present g) i true) as [pr|] eqn:E2; [|done]. cbn. intros [= <-] [H1 H2].
  split; cbn; [by rewrite (store_length _ _ _ _ E1) | by rewrite (store_length _ _ _ _ E2)].
Qed.

(** What a write does, in terms of the staging buffers. *)
Lemma staged_write_cases m i s m' landed :
  staged_write m i s = (m', landed) ->
  (landed = false /\ m'.1 = m.1) \/
  (landed = true /\ stage_at m.1 i s = Some m'.1 /\ settings_save_one api m.2 (slot_key i) s = (m'.2, 0)).
Proof.
  destruct m as [g n]. unfold staged_write, store_write. destruct (1 <? i); [intros [= <- <-]; by left|].
  destruct (settings_save_one api n (slot_key i) s) as [n1 rc] eqn:Es.
  destruct (Z.eqb_spec rc 0) as [->|]; cbn [negb]; [|intros [= <- <-]; by left].
  destruct (stage_at g i s) as [g1|] eqn:Eg; cbn; intros [= <- <-]; [right; by split_and!|by left].
Qed.

#[export] Instance adapter_laws : StoreLaws (adapter api) staged_slot (staged_write) adapter_ok.
Proof.
  split; [intros m i [Hg _]; by apply staged_defined|intros m i s [Hg _] Hi; eexists; split; [done|by apply staged_write_defined]| | | |].
  - intros m i s [_ Hok]. rewrite staged_slot_spec. apply Hok.
  - intros m i s m' landed [Hwf Hok] Hs Hw. destruct (staged_write_cases _ _ _ _ _ Hw) as [[_ Heq]|(_ & Hst & _)];
      [unfold adapter_ok; by rewrite Heq|].
    split; [by eapply stage_at_wf|]. intros j s' Hj.
    destruct (decide (j <= 1)) as [Hj1|Hj1]; [|unfold store_read in Hj; by rewrite (proj2 (Z.ltb_lt _ _)) in Hj by lia].
    destruct (decide (i = j)) as [<-|Hne].
    + rewrite (stage_at_same _ _ _ _ Hst Hj1) in Hj. by injection Hj as <-.
    + destruct (decide (0 <= j)); [|unfold store_read, load in Hj; by rewrite (proj2 (Z.ltb_ge _ _)), bool_decide_false in Hj by lia].
      rewrite (stage_at_other _ _ _ _ _ Hst) in Hj by done. by eapply Hok.
  - intros m i s m' Hi _ Hw. destruct (staged_write_cases _ _ _ _ _ Hw) as [[? _]|(_ & Hst & _)]; [done|].
    apply staged_slot_spec. eapply stage_at_same; [done|]. lia.
  - intros m i s m' landed j Hi Hj Hne Hw. unfold staged_slot.
    destruct (staged_write_cases _ _ _ _ _ Hw) as [[_ Heq]|(_ & Hst & _)]; [by rewrite Heq|].
    rewrite (stage_at_other _ _ _ _ _ Hst); [done|lia|done].
Qed.

(** What [settings_load] leaves in the staging buffers. *)
Lemma staged n :
  exists g, stage_all api staging_init (settings_load api n).1 = Some g /\ staging_wf g /\
    forall i, (i = 0 \/ i = 1) -> staged_slot (g, n) i = found (settings_load api n).1 (handler_name i).
Proof.
  assert (Hwf : staging_wf staging_init) by by split.
  destruct (stage_all_spec (settings_load api n).1 staging_init Hwf (law_once n)) as (g & Hg & Hwf' & Hr).
  exists g. split_and!; [done|done|]. intros i Hi. unfold staged_slot. cbn. rewrite (Hr i Hi).
  destruct (found _ _); [done|]. by destruct Hi as [-> | ->].
Qed.

Lemma staged_ok n g :
  staging_wf g -> (forall i, (i = 0 \/ i = 1) -> staged_slot (g, n) i = found (settings_load api n).1 (handler_name i)) ->
  adapter_ok (g, n).
Proof.
  intros Hwf Hr. split; [done|]. intros i s Hs.
  destruct (decide (i <= 1)) as [H1|H1]; [|unfold store_read in Hs; by rewrite (proj2 (Z.ltb_lt _ _)) in Hs by lia].
  destruct (decide (0 <= i)); [|unfold store_read, load in Hs; by rewrite (proj2 (Z.ltb_ge _ _)), bool_decide_false in Hs by lia].
  eapply (law_words n). rewrite <-(Hr i) by lia. by apply staged_slot_spec.
Qed.

(** Loading depends on the two slots only. *)
Lemma load_ext big (m m' : staging * nvs) c :
  staging_wf m.1 -> staging_wf m'.1 -> (forall i, (i = 0 \/ i = 1) -> staged_slot m i = staged_slot m' i) ->
  gov_config_load big (adapter api) m c = gov_config_load big (adapter api) m' c.
Proof.
  intros Hm Hm' H. unfold gov_config_load, read_slot. cbn [adapter st_read]. rewrite !staged_defined by (done || tauto).
  rewrite (H 0), (H 1) by tauto. done.
Qed.

Lemma persist_init_spec big n c :
  exists g, staging_wf g /\
    (forall i, (i = 0 \/ i = 1) -> staged_slot (g, n) i = found (settings_load api n).1 (handler_name i)) /\
    gov_persist_init big api n c =
      (let '(n', rc) := settings_subsys_init api n in
       if negb (rc =? 0) then Some (staging_init, n', c, false)
       else if negb ((settings_load api n').2 =? 0) then Some (g, n', c, false)
       else
         match gov_config_load big (adapter api) (g, n') gov_config_init with
         | Some (c', _) => Some (g, n', c', true)
         | None => None
         end).
Proof.
  destruct (settings_subsys_init api n) as [n' rc] eqn:Ei. pose proof (law_init _ _ _ Ei) as Hsame.
  destruct (staged n') as (g & Hg & Hwf & Hr). exists g. split; [done|]. split.
  { intros i Hi. rewrite <-Hsame, <-(Hr i Hi). done. }
  unfold gov_persist_init. rewrite Ei. destruct (rc =? 0); cbn [negb]; [|done].
  destruct (settings_load api n') as [es rc'] eqn:El. cbn [fst] in Hg. rewrite Hg. cbn.
  destruct (rc' =? 0); cbn [negb]; [|done]. by destruct (gov_config_load big (adapter api) (g, n') gov_config_init) as [[]|].
Qed.

(** The load over the adapter is defined and meets the invariant of [Config]. *)
Lemma load_defined big g n :
  adapter_ok (g, n) -> exists c status, gov_config_load big (adapter api) (g, n) gov_config_init = Some (c, status) /\
    ctx_ok big staged_slot (g, n) c [].
Proof. apply (load_ok big (adapter api) staged_slot staged_write adapter_ok (g, n)). Qed.

(** A save that landed leaves what a later boot stages. *)
Lemma saved_entries big (g : staging) n c cfg g' n' c' :
  staging_wf g -> (forall i, (i = 0 \/ i = 1) -> staged_slot (g, n) i = found (settings_load api n).1 (handler_name i)) ->
  (save_target c = 0 \/ save_target c = 1) -> gov_persist_save big api (g, n) c cfg = Some (g', n', c', true) ->
  staging_wf g' /\ forall i, (i = 0 \/ i = 1) -> found (settings_load api n').1 (handler_name i) = staged_slot (g', n') i.
Proof.
  intros Hwf Hr Htgt. unfold gov_persist_save, gov_config_save. cbn [adapter st_write].
  rewrite staged_write_defined by done. cbn [mbind option_bind].
  destruct (staged_write (g, n) (save_target c) (save_slot big c cfg)) as [m' landed] eqn:Ew.
  destruct landed; cbn [negb]; [|done]. intros [= -> _].
  destruct (staged_write_cases _ _ _ _ _ Ew) as [[? _]|(_ & Hst & Hsv)]; [done|]. cbn [fst snd] in Hst, Hsv.
  split; [by eapply stage_at_wf|]. intros i Hi. destruct (decide (save_target c = i)) as [<-|Hne].
  - rewrite (law_saved _ _ _ _ Htgt Hsv). symmetry. apply staged_slot_spec. cbn. eapply stage_at_same; [done|]. lia.
  - rewrite (law_apart _ _ i _ _ _ Htgt Hi Hne Hsv), <-(Hr i Hi).
    unfold staged_slot. cbn. rewrite (stage_at_other _ _ _ _ _ Hst); [done|lia|done].
Qed.

(** C24: the boot sequence, from the settings service to the set point. It never reads or writes outside the two
    staging buffers, whatever entries are stored and whatever the service returns; and when it reports that the boot
    count was saved, the next boot whose load succeeds finds the same configuration with the boot count one
    higher (modulo 2^32). *)
Theorem boot_counted big n c c0 :
  is_Some (boot_sequence big api n c) /\
  forall sp n', boot_sequence big api n c = Some (sp, n', true) ->
    exists g1 n1 c1, gov_persist_init big api n c = Some (g1, n1, c1, true) /\ sp = c1.(c_cfg).(cf_setpoint) /\
    forall g2 n2 c2, gov_persist_init big api n' c0 = Some (g2, n2, c2, true) ->
      let cfg := c1.(c_cfg) in
      c2.(c_cfg) = mkConfig cfg.(cf_setpoint) cfg.(cf_kp_milli) cfg.(cf_ki_milli) cfg.(cf_kd_milli)
                     (u32 (cfg.(cf_boot_count) + 1)).
Proof.
  unfold boot_sequence. destruct (persist_init_spec big n c) as (g & Hwf & Hr & Hinit). rewrite Hinit.
  destruct (settings_subsys_init api n) as [n1 rc] eqn:Ei. pose proof (law_init _ _ _ Ei) as Hsame.
  destruct (negb (rc =? 0)); [split; [by eexists|by intros]|].
  destruct (negb ((settings_load api n1).2 =? 0)); [split; [by eexists|by intros]|].
  assert (Hr1 : forall i, (i = 0 \/ i = 1) -> staged_slot (g, n1) i = found (settings_load api n1).1 (handler_name i))
    by (intros i Hi; rewrite Hsame; exact (Hr i Hi)).
  assert (Hok : adapter_ok (g, n1)) by by apply staged_ok.
  destruct (load_defined big g n1 Hok) as (c1 & status & -> & Hc1). cbn [mbind option_bind].
  pose proof Hc1 as (Hv & Hidx & _). set (cfg := c_cfg c1). set (bumped := mkConfig _ _ _ _ _).
  pose proof (save_spec big (adapter api) staged_slot staged_write adapter_ok (g, n1) c1 bumped Hok Hidx Hv) as Hspec.
  cbv zeta in Hspec. unfold gov_persist_save in *. rewrite Hspec.
  destruct (staged_write (g, n1) (save_target c1) (save_slot big c1 bumped)) as [[g' n'] saved].
  split; [by eexists|]. cbn [mbind option_bind]. intros sp n'' [= <- <- ->]. exists g, n1, c1. split_and!; [done..|].
  intros g2 n2 c2 Hboot. fold cfg. set (c' := set_c_valid _ _) in Hspec. clearbody c'.
  destruct (save_landed big (adapter api) staged_slot staged_write adapter_ok (g, n1) c1 [] bumped (g', n') c' Hok Hc1 Hspec)
    as (_ & _ & Hbt).
  assert (Htgt : save_target c1 = 0 \/ save_target c1 = 1) by (rewrite save_target_range by done; lia).
  destruct (saved_entries big g n1 c1 bumped g' n' c' Hwf Hr1 Htgt Hspec) as [Hwf' Hents].
  destruct (persist_init_spec big n' c0) as (g3 & Hwf3 & Hr3 & Hinit3). rewrite Hinit3 in Hboot.
  destruct (settings_subsys_init api n') as [n3 rc3] eqn:Ei3.
  destruct (negb (rc3 =? 0)); [congruence|]. destruct (negb ((settings_load api n3).2 =? 0)); [congruence|].
  rewrite (load_ext big (g3, n3) (g', n')) in Hboot; [|done..|intros i Hi; rewrite <-(Hents i Hi); exact (Hr3 i Hi)].
  unfold Config.boot in Hbt. destruct (gov_config_load big (adapter api) (g', n') gov_config_init) as [[c3 status3]|]; [|done].
  injection Hboot as <- <- <-. cbn in Hbt. by injection Hbt as ->.
Qed.
End adapter.

(** ** A settings service in memory *)
Definition mem : Type := option gov_config_slot * option gov_config_slot.

Definition mem_entries (n : mem) : list entry :=
  match n.1 with Some s => [mkEntry "slot0" 36 (Some s)] | None => [] end ++
  match n.2 with Some s => [mkEntry "slot1" 36 (Some s)] | None => [] end.

(** Slots are words. *)
Definition mem_word (o : option gov_config_slot) : option gov_config_slot :=
  match o with Some s => if bool_decide (0 <= s.(sl_seq) < 2 ^ 32) then Some s else None | None => None end.

Definition mem_save (n : mem) (key : string) (s : gov_config_slot) : mem * Z :=
  if bool_decide (0 <= s.(sl_seq) < 2 ^ 32) then
    if String.eqb key "gov/slot0" then ((Some s, n.2), 0)
    else if String.eqb key "gov/slot1" then ((n.1, Some s), 0) else (n, 22)
  else (n, 22).

Definition mem_api : settings_api mem :=
  mkSettings (fun n => (n, 0)) (fun n => (mem_entries (mem_word n.1, mem_word n.2), 0)) mem_save String.eqb.

#[export] Instance mem_laws : SettingsLaws mem_api.
Proof.
  assert (Hfound : forall a b i, (i = 0 \/ i = 1) ->
            found (mem_entries (a, b)) (handler_name i) = if i =? 0 then a else b).
  { intros a b i [-> | ->]; by destruct a, b. }
  split; cbn -[found mem_entries handler_name].
  - done.
  - intros [a b]. cbn -[mem_word]. destruct (mem_word a), (mem_word b); cbn;
      [apply NoDup_cons; split; [rewrite list_elem_of_singleton; discriminate|]; apply NoDup_singleton
      |apply NoDup_singleton|apply NoDup_singleton|apply NoDup_nil_2].
  - intros [a b] name s. cbn -[found mem_entries]. intros H.
    assert (Hin : exists o, mem_word o = Some s).
    { destruct (found_in _ _ _ H) as (e & He & Hd). unfold mem_entries in He. cbn [fst snd] in He.
      apply elem_of_app in He as [He|He];
        [destruct (mem_word a) as [x|] eqn:Ew|destruct (mem_word b) as [x|] eqn:Ew];
        try by apply not_elem_of_nil in He.
      - apply list_elem_of_singleton in He as ->. injection Hd as <-. by exists a.
      - apply list_elem_of_singleton in He as ->. injection Hd as <-. by exists b. }
    destruct Hin as [o Ho]. unfold mem_word in Ho. destruct o as [x|]; [|done]. case_bool_decide; [|done].
    by injection Ho as <-.
  - by intros n n' rc [= <- _].
  - intros [a b] i s n' Hi Hs. rewrite Hfound by done. unfold mem_save in Hs. cbn in Hs.
    case_bool_decide as Hw; [|done]. destruct Hi as [-> | ->]; cbn in Hs; injection Hs as <-; cbn;
      by rewrite bool_decide_true.
  - intros [a b] i j s n' rc Hi Hj Hne Hs. rewrite !Hfound by done. unfold mem_save in Hs.
    case_bool_decide; [|by injection Hs as <- _].
    destruct Hi as [-> | ->], Hj as [-> | ->]; try done; cbn in Hs; injection Hs as <- _; done.
Qed.

(** A first boot and the next one. *)
Lemma boot_counted_witness :
  exists n', boot_sequence false mem_api (None, None) gov_config_init = Some (50, n', true) /\
    is_Some (boot_sequence false mem_api n' gov_config_init) /\
    forall g2 n2 c2, gov_persist_init false mem_api n' gov_config_init = Some (g2, n2, c2, true) ->
      c2.(c_cfg) = mkConfig 50 3500 18000 60 1.
Proof.
  assert (H1 : exists n', boot_sequence false mem_api (None, None) gov_config_init = Some (50, n', true))
    by (eexists; vm_compute; reflexivity).
  destruct H1 as [n' H1]. exists n'. split; [exact H1|].
  split; [exact (proj1 (boot_counted mem_api false n' gov_config_init gov_config_init))|].
  destruct (proj2 (boot_counted mem_api false (None, None) gov_config_init gov_config_init) 50 n' H1)
    as (g1 & n1 & c1 & Hi & _ & Hn).
  assert (Hc : c_cfg c1 = mkConfig 50 3500 18000 60 0).
  { vm_compute in Hi. injection Hi as _ _ <-. reflexivity. }
  rewrite Hc in Hn. exact Hn.
Defined.
