(* ===== verification/Sensor.v ===== *)
(** * Sensor: the sensor driver (drivers/hal.h, drivers/hal_zephyr.c, drivers/sensor.h, drivers/sensor.c)

    The abstract bus as a parameter with its documented behaviour, the Zephyr binding, the read
    with retries, the validation of samples, and the hand-off slot; termination of the retry loop,
    and the health flags as functions of the history of transfers. *)
From S2P Require Import Prelude Crc16.

(** ** The bus *)

(** [GOV_BUS_OTHER] is a value outside the enum, which the code handles by its [default]. *)
Inductive gov_bus_status_t :=
  | GOV_BUS_OK
  | GOV_BUS_NAK
  | GOV_BUS_ERR
  | GOV_BUS_NODATA
  | GOV_BUS_OTHER (v : Z).

#[export] Instance gov_bus_status_eq_dec : EqDecision gov_bus_status_t.
Proof. solve_decision. Defined.

(** The read operation of [struct gov_bus] on the state of a bus: the bus afterwards, the status,
    and the first [len] bytes of the buffer. *)
Definition bus_read (B : Type) : Type := B -> Z -> Z -> Z -> B * gov_bus_status_t * list Z.

(** "Read [len] bytes from [reg] of device [addr] into [buf]." *)
Class BusLaws {B} (read : bus_read B) := {
  law_reads b addr reg len b' data :
    0 <= len -> read b addr reg len = (b', GOV_BUS_OK, data) -> Z.of_nat (length data) = len /\ is_bytes data
}.

(** ** The Zephyr binding *)
Section zephyr.
(** The errno values, the device and the I2C driver are Zephyr's. *)
Context (EIO ETIMEDOUT EBUSY : Z) {D : Type} (device_is_ready : D -> bool)
  (i2c_burst_read : D -> Z -> Z -> Z -> D * Z * list Z)
  (i2c_burst_write : D -> Z -> Z -> list Z -> D * Z) (i2c_write : D -> list Z -> Z -> D * Z).

Definition map_status (rc : Z) : gov_bus_status_t :=
  if rc =? 0 then GOV_BUS_OK
  else if rc =? - EIO then GOV_BUS_NAK
  else if rc =? 0 then GOV_BUS_OK else GOV_BUS_ERR.

Definition zbus_read (dev : option D) (addr reg len : Z) : option D * gov_bus_status_t * list Z :=
  match dev with
  | Some d =>
      if negb (device_is_ready d) then (dev, GOV_BUS_ERR, [])
      else let '(d, rc, data) := i2c_burst_read d addr reg len in (Some d, map_status rc, data)
  | None => (dev, GOV_BUS_ERR, [])
  end.

Definition zbus_write (dev : option D) (addr reg : Z) (buf : list Z) : option D * gov_bus_status_t :=
  match dev with
  | Some d =>
      if negb (device_is_ready d) then (dev, GOV_BUS_ERR)
      else let '(d, rc) := i2c_burst_write d addr reg buf in (Some d, map_status rc)
  | None => (dev, GOV_BUS_ERR)
  end.

Definition zbus_probe (dev : option D) (addr : Z) : option D * gov_bus_status_t :=
  match dev with
  | Some d =>
      if negb (device_is_ready d) then (dev, GOV_BUS_ERR)
      else let '(d, rc) := i2c_write d [] addr in (Some d, map_status rc)
  | None => (dev, GOV_BUS_ERR)
  end.

(** The bus to fill in is its context pointer; the operations are the ones above. *)
Definition gov_hal_zephyr_init (dev : D) (bus : option (option D)) : option (option D) * bool :=
  match bus with
  | Some _ => if negb (device_is_ready dev) then (bus, false) else (Some (Some dev), true)
  | None => (bus, false)
  end.
End zephyr.

(** ** The driver's data *)
Definition GOV_SENSOR_MAX_READ : Z := 4.

Definition GOV_SFLAG_NONE : Z := 0.
Definition GOV_SFLAG_DROPOUT : Z := 1 .<< 0.
Definition GOV_SFLAG_STUCK : Z := 1 .<< 1.
Definition GOV_SFLAG_RANGE : Z := 1 .<< 2.
Definition GOV_SFLAG_BUS_NAK : Z := 1 .<< 3.
Definition GOV_SFLAG_BUS_ERR : Z := 1 .<< 4.

Inductive gov_sensor_health_t := GOV_SENSOR_HEALTHY | GOV_SENSOR_FAULTED.

#[export] Instance gov_sensor_health_eq_dec : EqDecision gov_sensor_health_t.
Proof. solve_decision. Defined.

(** [struct gov_sensor_cfg] without the bus, which the operations take as an argument. *)
Record gov_sensor_cfg := mkSensorCfg {
  cs_addr : Z;
  cs_reg : Z;
  cs_read_len : Z;
  cs_range_min : Z;
  cs_range_max : Z;
  cs_dropout_limit : Z;
  cs_stuck_limit : Z;
  cs_nak_retries : Z
}.

Definition set_cs_addr (v : Z) (r : gov_sensor_cfg) : gov_sensor_cfg :=
  {| cs_addr := v; cs_reg := r.(cs_reg); cs_read_len := r.(cs_read_len);
     cs_range_min := r.(cs_range_min); cs_range_max := r.(cs_range_max);
     cs_dropout_limit := r.(cs_dropout_limit); cs_stuck_limit := r.(cs_stuck_limit);
     cs_nak_retries := r.(cs_nak_retries) |}.
Definition set_cs_reg (v : Z) (r : gov_sensor_cfg) : gov_sensor_cfg :=
  {| cs_addr := r.(cs_addr); cs_reg := v; cs_read_len := r.(cs_read_len);
     cs_range_min := r.(cs_range_min); cs_range_max := r.(cs_range_max);
     cs_dropout_limit := r.(cs_dropout_limit); cs_stuck_limit := r.(cs_stuck_limit);
     cs_nak_retries := r.(cs_nak_retries) |}.
Definition set_cs_read_len (v : Z) (r : gov_sensor_cfg) : gov_sensor_cfg :=
  {| cs_addr := r.(cs_addr); cs_reg := r.(cs_reg); cs_read_len := v;
     cs_range_min := r.(cs_range_min); cs_range_max := r.(cs_range_max);
     cs_dropout_limit := r.(cs_dropout_limit); cs_stuck_limit := r.(cs_stuck_limit);
     cs_nak_retries := r.(cs_nak_retries) |}.
Definition set_cs_range_min (v : Z) (r : gov_sensor_cfg) : gov_sensor_cfg :=
  {| cs_addr := r.(cs_addr); cs_reg := r.(cs_reg); cs_read_len := r.(cs_read_len);
     cs_range_min := v; cs_range_max := r.(cs_range_max);
     cs_dropout_limit := r.(cs_dropout_limit); cs_stuck_limit := r.(cs_stuck_limit);
     cs_nak_retries := r.(cs_nak_retries) |}.
Definition set_cs_range_max (v : Z) (r : gov_sensor_cfg) : gov_sensor_cfg :=
  {| cs_addr := r.(cs_addr); cs_reg := r.(cs_reg); cs_read_len := r.(cs_read_len);
     cs_range_min := r.(cs_range_min); cs_range_max := v;
     cs_dropout_limit := r.(cs_dropout_limit); cs_stuck_limit := r.(cs_stuck_limit);
     cs_nak_retries := r.(cs_nak_retries) |}.
Definition set_cs_dropout_limit (v : Z) (r : gov_sensor_cfg) : gov_sensor_cfg :=
  {| cs_addr := r.(cs_addr); cs_reg := r.(cs_reg); cs_read_len := r.(cs_read_len);
     cs_range_min := r.(cs_range_min); cs_range_max := r.(cs_range_max); cs_dropout_limit := v;
     cs_stuck_limit := r.(cs_stuck_limit); cs_nak_retries := r.(cs_nak_retries) |}.
Definition set_cs_stuck_limit (v : Z) (r : gov_sensor_cfg) : gov_sensor_cfg :=
  {| cs_addr := r.(cs_addr); cs_reg := r.(cs_reg); cs_read_len := r.(cs_read_len);
     cs_range_min := r.(cs_range_min); cs_range_max := r.(cs_range_max);
     cs_dropout_limit := r.(cs_dropout_limit); cs_stuck_limit := v;
     cs_nak_retries := r.(cs_nak_retries) |}.
Definition set_cs_nak_retries (v : Z) (r : gov_sensor_cfg) : gov_sensor_cfg :=
  {| cs_addr := r.(cs_addr); cs_reg := r.(cs_reg); cs_read_len := r.(cs_read_len);
     cs_range_min := r.(cs_range_min); cs_range_max := r.(cs_range_max);
     cs_dropout_limit := r.(cs_dropout_limit); cs_stuck_limit := r.(cs_stuck_limit);
     cs_nak_retries := v |}.

Record gov_sensor := mkSensor {
  sen_cfg : gov_sensor_cfg;
  sen_flags : Z;
  sen_last_good : Z;
  sen_has_last_good : bool;
  sen_nodata_cnt : Z;
  sen_stuck_cnt : Z
}.

Definition set_sen_cfg (v : gov_sensor_cfg) (r : gov_sensor) : gov_sensor :=
  {| sen_cfg := v; sen_flags := r.(sen_flags); sen_last_good := r.(sen_last_good);
     sen_has_last_good := r.(sen_has_last_good); sen_nodata_cnt := r.(sen_nodata_cnt);
     sen_stuck_cnt := r.(sen_stuck_cnt) |}.
Definition set_sen_flags (v : Z) (r : gov_sensor) : gov_sensor :=
  {| sen_cfg := r.(sen_cfg); sen_flags := v; sen_last_good := r.(sen_last_good);
     sen_has_last_good := r.(sen_has_last_good); sen_nodata_cnt := r.(sen_nodata_cnt);
     sen_stuck_cnt := r.(sen_stuck_cnt) |}.
Definition set_sen_last_good (v : Z) (r : gov_sensor) : gov_sensor :=
  {| sen_cfg := r.(sen_cfg); sen_flags := r.(sen_flags); sen_last_good := v;
     sen_has_last_good := r.(sen_has_last_good); sen_nodata_cnt := r.(sen_nodata_cnt);
     sen_stuck_cnt := r.(sen_stuck_cnt) |}.
Definition set_sen_has_last_good (v : bool) (r : gov_sensor) : gov_sensor :=
  {| sen_cfg := r.(sen_cfg); sen_flags := r.(sen_flags); sen_last_good := r.(sen_last_good);
     sen_has_last_good := v; sen_nodata_cnt := r.(sen_nodata_cnt);
     sen_stuck_cnt := r.(sen_stuck_cnt) |}.
Definition set_sen_nodata_cnt (v : Z) (r : gov_sensor) : gov_sensor :=
  {| sen_cfg := r.(sen_cfg); sen_flags := r.(sen_flags); sen_last_good := r.(sen_last_good);
     sen_has_last_good := r.(sen_has_last_good); sen_nodata_cnt := v;
     sen_stuck_cnt := r.(sen_stuck_cnt) |}.
Definition set_sen_stuck_cnt (v : Z) (r : gov_sensor) : gov_sensor :=
  {| sen_cfg := r.(sen_cfg); sen_flags := r.(sen_flags); sen_last_good := r.(sen_last_good);
     sen_has_last_good := r.(sen_has_last_good); sen_nodata_cnt := r.(sen_nodata_cnt);
     sen_stuck_cnt := v |}.

Record gov_sample_slot := mkSampleSlot { ss_value : Z; ss_fresh : bool }.

(** ** Operations *)
Definition gov_slot_init : gov_sample_slot := mkSampleSlot 0 false.
Definition gov_slot_push (slot : gov_sample_slot) (value : Z) : gov_sample_slot := mkSampleSlot value true.

(** The slot afterwards and [*out], when it is written. *)
Definition gov_slot_get (slot : gov_sample_slot) : gov_sample_slot * option Z :=
  if negb slot.(ss_fresh) then (slot, None) else (mkSampleSlot slot.(ss_value) false, Some slot.(ss_value)).

Definition decode_sample (buf : list Z) (len : Z) : option Z :=
  bytes ← load_bytes buf 0 len;
  Some (i32 (fold_left (fun raw b => u32 (raw .<< 8) .| b) bytes 0)).

(** The do-while loop; [None] when [fuel] attempts were not enough. *)
Fixpoint retry_loop {B} (read : bus_read B) (cfg : gov_sensor_cfg) (fuel : nat) (b : B) (tries : Z) :
    option (B * gov_bus_status_t * list Z) :=
  match fuel with
  | O => None
  | S fuel =>
      let '(b, st, buf) := read b cfg.(cs_addr) cfg.(cs_reg) cfg.(cs_read_len) in
      if negb (bool_decide (st = GOV_BUS_NAK)) then Some (b, st, buf)
      else
        let tries := u8 (tries + 1) in
        if tries <=? cfg.(cs_nak_retries) then retry_loop read cfg fuel b tries else Some (b, st, buf)
  end.

Definition read_with_retry {B} (read : bus_read B) (s : gov_sensor) (fuel : nat) (b : B) :
    option (B * gov_bus_status_t * list Z) :=
  retry_loop read s.(sen_cfg) fuel b 0.

Definition gov_sensor_on_sample (s : gov_sensor) (buf : list Z) (slot : option gov_sample_slot) :
    option (gov_sensor * option gov_sample_slot) :=
  sample ← decode_sample buf s.(sen_cfg).(cs_read_len);
  let cfg := s.(sen_cfg) in
  let s := set_sen_flags (s.(sen_flags) .& not32 (GOV_SFLAG_BUS_ERR .| GOV_SFLAG_BUS_NAK .| GOV_SFLAG_DROPOUT)) s in
  let s := set_sen_nodata_cnt 0 s in
  if (sample <? cfg.(cs_range_min)) || (cfg.(cs_range_max) <? sample) then
    Some (set_sen_flags (s.(sen_flags) .| GOV_SFLAG_RANGE) s, slot)
  else
    let s := set_sen_flags (s.(sen_flags) .& not32 GOV_SFLAG_RANGE) s in
    let s :=
      if s.(sen_has_last_good) && (sample =? s.(sen_last_good)) then
        if s.(sen_stuck_cnt) <? cfg.(cs_stuck_limit) then set_sen_stuck_cnt (u16 (s.(sen_stuck_cnt) + 1)) s else s
      else set_sen_stuck_cnt 0 s in
    let s :=
      if cfg.(cs_stuck_limit) <=? s.(sen_stuck_cnt) then set_sen_flags (s.(sen_flags) .| GOV_SFLAG_STUCK) s
      else set_sen_flags (s.(sen_flags) .& not32 GOV_SFLAG_STUCK) s in
    let s := set_sen_last_good sample s in
    let s := set_sen_has_last_good true s in
    Some (s, match slot with Some slot => Some (gov_slot_push slot sample) | None => None end).

Definition gov_sensor_init (cfg : gov_sensor_cfg) : gov_sensor :=
  let cfg := if cfg.(cs_read_len) =? 0 then set_cs_read_len 1 cfg else cfg in
  let cfg := if GOV_SENSOR_MAX_READ <? cfg.(cs_read_len) then set_cs_read_len GOV_SENSOR_MAX_READ cfg else cfg in
  mkSensor cfg GOV_SFLAG_NONE 0 false 0 0.

Definition gov_sensor_health (s : gov_sensor) : gov_sensor_health_t :=
  if s.(sen_flags) =? GOV_SFLAG_NONE then GOV_SENSOR_HEALTHY else GOV_SENSOR_FAULTED.
Definition gov_sensor_faults (s : gov_sensor) : Z := s.(sen_flags).
Definition gov_sensor_value (s : gov_sensor) : Z := s.(sen_last_good).
Definition gov_sensor_has_value (s : gov_sensor) : bool := s.(sen_has_last_good).

(** The switch on the transport status. *)
Definition sensor_dispatch (s : gov_sensor) (slot : option gov_sample_slot) (st : gov_bus_status_t) (buf : list Z) :
    option (gov_sensor * option gov_sample_slot) :=
  match st with
  | GOV_BUS_OK => gov_sensor_on_sample s buf slot
  | GOV_BUS_NAK => Some (set_sen_flags (s.(sen_flags) .| GOV_SFLAG_BUS_NAK) s, slot)
  | GOV_BUS_ERR => Some (set_sen_flags (s.(sen_flags) .| GOV_SFLAG_BUS_ERR) s, slot)
  | GOV_BUS_NODATA =>
      let s := if s.(sen_nodata_cnt) <? s.(sen_cfg).(cs_dropout_limit)
               then set_sen_nodata_cnt (u16 (s.(sen_nodata_cnt) + 1)) s else s in
      Some (if s.(sen_cfg).(cs_dropout_limit) <=? s.(sen_nodata_cnt)
            then set_sen_flags (s.(sen_flags) .| GOV_SFLAG_DROPOUT) s else s, slot)
  | GOV_BUS_OTHER _ => Some (set_sen_flags (s.(sen_flags) .| GOV_SFLAG_BUS_ERR) s, slot)
  end.

Definition gov_sensor_poll {B} (read : bus_read B) (fuel : nat) (b : B) (s : gov_sensor)
    (slot : option gov_sample_slot) :
    option (B * gov_sensor * option gov_sample_slot * gov_sensor_health_t) :=
  '(b, st, buf) ← read_with_retry read s fuel b;
  '(s, slot) ← sensor_dispatch s slot st buf;
  Some (b, s, slot, gov_sensor_health s).

(** ** Histories of transfers, the newest first *)
Definition transfer : Type := gov_bus_status_t * list Z.

Definition transfer_ok (cfg : gov_sensor_cfg) (t : transfer) : Prop :=
  t.1 = GOV_BUS_OK -> Z.of_nat (length t.2) = cfg.(cs_read_len) /\ is_bytes t.2.

(** Big-endian two's complement for a full word, unsigned below. *)
Definition sample_of (t : transfer) : Z := i32 (be_val t.2).

Definition in_range (cfg : gov_sensor_cfg) (v : Z) : bool := (cfg.(cs_range_min) <=? v) && (v <=? cfg.(cs_range_max)).

Definition is_ok (t : transfer) : bool := bool_decide (t.1 = GOV_BUS_OK).

(** The transfers since the last successful one. *)
Fixpoint since_ok (h : list transfer) : list transfer :=
  match h with [] => [] | t :: h => if is_ok t then [] else t :: since_ok h end.

(** The samples of the successful transfers, and those of them in range. *)
Definition samples (h : list transfer) : list Z :=
  omap (fun t => if is_ok t then Some (sample_of t) else None) h.
Definition accepted (cfg : gov_sensor_cfg) (h : list transfer) : list Z :=
  omap (fun v => if in_range cfg v then Some v else None) (samples h).

(** How often the newest element is repeated right behind it. *)
Fixpoint repeats_of (v : Z) (l : list Z) : Z :=
  match l with [] => 0 | x :: l => if v =? x then 1 + repeats_of v l else 0 end.
Definition repeats (l : list Z) : Z := match l with [] => 0 | v :: l => repeats_of v l end.

Definition count (st : gov_bus_status_t) (h : list transfer) : Z :=
  Z.of_nat (length (filter (fun t : transfer => t.1 = st) h)).

Definition saw_err (h : list transfer) : bool :=
  existsb (fun t : transfer => match t.1 with GOV_BUS_ERR | GOV_BUS_OTHER _ => true | _ => false end) (since_ok h).
Definition saw_nak (h : list transfer) : bool := existsb (fun t : transfer => bool_decide (t.1 = GOV_BUS_NAK)) (since_ok h).
Definition saw_dropout (cfg : gov_sensor_cfg) (h : list transfer) : bool :=
  let n := count GOV_BUS_NODATA (since_ok h) in (1 <=? n) && (cfg.(cs_dropout_limit) <=? n).
Definition out_of_range (cfg : gov_sensor_cfg) (h : list transfer) : bool :=
  match samples h with [] => false | v :: _ => negb (in_range cfg v) end.
Definition stuck (cfg : gov_sensor_cfg) (h : list transfer) : bool :=
  match accepted cfg h with [] => false | l => cfg.(cs_stuck_limit) <=? repeats l end.

(** The flag word of five truth values. *)
Definition flag_word (dropout stuck range nak err : bool) : Z :=
  (if dropout then GOV_SFLAG_DROPOUT else 0) .| (if stuck then GOV_SFLAG_STUCK else 0) .|
  (if range then GOV_SFLAG_RANGE else 0) .| (if nak then GOV_SFLAG_BUS_NAK else 0) .|
  (if err then GOV_SFLAG_BUS_ERR else 0).

Definition cfg_wf (cfg : gov_sensor_cfg) : Prop :=
  1 <= cfg.(cs_read_len) <= 4 /\ is_u16 cfg.(cs_dropout_limit) /\ is_u16 cfg.(cs_stuck_limit) /\
  is_u8 cfg.(cs_nak_retries).

(** What the driver's state says about the history. *)
Definition sensor_rep (s : gov_sensor) (slot : option gov_sample_slot) (h : list transfer) : Prop :=
  let cfg := s.(sen_cfg) in
  cfg_wf cfg /\
  s.(sen_flags) = flag_word (saw_dropout cfg h) (stuck cfg h) (out_of_range cfg h) (saw_nak h) (saw_err h) /\
  s.(sen_nodata_cnt) = Z.min (count GOV_BUS_NODATA (since_ok h)) cfg.(cs_dropout_limit) /\
  s.(sen_stuck_cnt) = Z.min (repeats (accepted cfg h)) cfg.(cs_stuck_limit) /\
  s.(sen_has_last_good) = bool_decide (accepted cfg h <> []) /\
  s.(sen_last_good) = default 0 (head (accepted cfg h)) /\
  (forall sl, slot = Some sl -> sl.(ss_fresh) = true -> head (accepted cfg h) = Some sl.(ss_value)).

(** The driver fed with transfers, the oldest first. *)
Fixpoint sensor_run (s : gov_sensor) (slot : option gov_sample_slot) (ts : list transfer) :
    option (gov_sensor * option gov_sample_slot) :=
  match ts with
  | [] => Some (s, slot)
  | t :: ts => '(s, slot) ← sensor_dispatch s slot t.1 t.2; sensor_run s slot ts
  end.

(** ** The attempts of a read *)
Section attempts.
Context {B} (read : bus_read B) (cfg : gov_sensor_cfg).

(** The bus before attempt [k], and the result of the attempt. *)
Definition attempt_at (b : B) : B * gov_bus_status_t * list Z := read b cfg.(cs_addr) cfg.(cs_reg) cfg.(cs_read_len).
Definition bus_at (k : nat) (b : B) : B := Nat.iter k (fun b => (attempt_at b).1.1) b.
Definition naks_at (b : B) (k : nat) : Prop := (attempt_at (bus_at k b)).1.2 = GOV_BUS_NAK.

(** The policy: the first answer that is not NAK, or the NAK of the last of [r + 1] attempts. *)
Fixpoint first_answer (r : nat) (b : B) : B * gov_bus_status_t * list Z :=
  match r with
  | O => attempt_at b
  | S r => if bool_decide ((attempt_at b).1.2 = GOV_BUS_NAK) then first_answer r (attempt_at b).1.1 else attempt_at b
  end.

(** The transfers of [n] polls, the newest first. *)
Fixpoint history (n : nat) (b : B) : B * list transfer :=
  match n with
  | O => (b, [])
  | S n =>
      let '(b, h) := history n b in
      let '(b, st, buf) := first_answer (Z.to_nat cfg.(cs_nak_retries)) b in (b, (st, buf) :: h)
  end.
End attempts.

(** [n] polls, one after the other. *)
Fixpoint sensor_polls {B} (read : bus_read B) (fuel n : nat) (b : B) (s : gov_sensor) (slot : option gov_sample_slot) :
    option (B * gov_sensor * option gov_sample_slot) :=
  match n with
  | O => Some (b, s, slot)
  | S n =>
      '(b, s, slot) ← sensor_polls read fuel n b s slot;
      '(b, s, slot, _) ← gov_sensor_poll read fuel b s slot;
      Some (b, s, slot)
  end.

(** Bounds of a configuration's integer fields. *)
Definition cfg_ints (cfg : gov_sensor_cfg) : Prop :=
  0 <= cfg.(cs_read_len) /\ is_u16 cfg.(cs_dropout_limit) /\ is_u16 cfg.(cs_stuck_limit) /\ is_u8 cfg.(cs_nak_retries).

(** ** Samples *)
Lemma be_val_snoc l b : be_val (l ++ [b]) = be_val l * 2 ^ 8 + b.
Proof. unfold be_val. by rewrite fold_left_app. Qed.

Lemma be_val_bound l : is_bytes l -> 0 <= be_val l < 2 ^ (8 * Z.of_nat (length l)).
Proof.
  intros Hl. rewrite be_val_bits by done. pose proof (bval_bound (bytes_bits l)) as H.
  rewrite bytes_bits_length in H. by replace (Z.of_nat (8 * length l)) with (8 * Z.of_nat (length l)) in H by lia.
Qed.

Lemma decode_fold l :
  is_bytes l -> (length l <= 4)%nat -> fold_left (fun raw b => u32 (raw .<< 8) .| b) l 0 = be_val l.
Proof.
  induction l as [|b l IH] using rev_ind; intros Hb Hl; [done|].
  unfold is_bytes in Hb. apply Forall_app in Hb as [Hbl Hb]. apply Forall_cons in Hb as [Hb _].
  rewrite length_app in Hl. cbn in Hl. rewrite fold_left_app, be_val_snoc. cbn [fold_left].
  rewrite IH by (done || lia). pose proof (be_val_bound l Hbl) as Hv.
  assert (2 ^ (8 * Z.of_nat (length l)) <= 2 ^ 24) by (apply Z.pow_le_mono_r; lia).
  rewrite u32_small; [by apply lor_shiftl|]. rewrite Z.shiftl_mul_pow2 by lia. clia.
Qed.

Lemma decode_sample_spec cfg t :
  cfg_wf cfg -> transfer_ok cfg t -> t.1 = GOV_BUS_OK ->
  decode_sample t.2 cfg.(cs_read_len) = Some (sample_of t).
Proof.
  intros (Hlen & _) Hok Hst. destruct (Hok Hst) as [Hl Hb]. unfold decode_sample.
  rewrite load_bytes_Some by lia. cbn. rewrite drop_0, take_ge by lia.
  by rewrite decode_fold by (done || lia).
Qed.

(** ** Flag words *)
Lemma flags_alive d s r n e :
  flag_word d s r n e .& not32 (GOV_SFLAG_BUS_ERR .| GOV_SFLAG_BUS_NAK .| GOV_SFLAG_DROPOUT) =
    flag_word false s r false false.
Proof. by destruct d, s, r, n, e. Qed.
Lemma flags_range d s r n e : flag_word d s r n e .| GOV_SFLAG_RANGE = flag_word d s true n e.
Proof. by destruct d, s, r, n, e. Qed.
Lemma flags_no_range d s r n e : flag_word d s r n e .& not32 GOV_SFLAG_RANGE = flag_word d s false n e.
Proof. by destruct d, s, r, n, e. Qed.
Lemma flags_stuck d s r n e : flag_word d s r n e .| GOV_SFLAG_STUCK = flag_word d true r n e.
Proof. by destruct d, s, r, n, e. Qed.
Lemma flags_no_stuck d s r n e : flag_word d s r n e .& not32 GOV_SFLAG_STUCK = flag_word d false r n e.
Proof. by destruct d, s, r, n, e. Qed.
Lemma flags_nak d s r n e : flag_word d s r n e .| GOV_SFLAG_BUS_NAK = flag_word d s r true e.
Proof. by destruct d, s, r, n, e. Qed.
Lemma flags_err d s r n e : flag_word d s r n e .| GOV_SFLAG_BUS_ERR = flag_word d s r n true.
Proof. by destruct d, s, r, n, e. Qed.
Lemma flags_dropout d s r n e : flag_word d s r n e .| GOV_SFLAG_DROPOUT = flag_word true s r n e.
Proof. by destruct d, s, r, n, e. Qed.
Lemma flags_zero d s r n e : (flag_word d s r n e =? GOV_SFLAG_NONE) = negb (d || s || r || n || e).
Proof. by destruct d, s, r, n, e. Qed.

Create Rewrite HintDb sflags.
#[export] Hint Rewrite flags_alive flags_range flags_no_range flags_stuck flags_no_stuck flags_nak flags_err
  flags_dropout : sflags.

(** ** One transfer *)
Lemma since_ok_cons_other st buf h : st <> GOV_BUS_OK -> since_ok ((st, buf) :: h) = (st, buf) :: since_ok h.
Proof. intros Hs. cbn. unfold is_ok. cbn. by rewrite bool_decide_false. Qed.

Lemma samples_other st buf h : st <> GOV_BUS_OK -> samples ((st, buf) :: h) = samples h.
Proof. intros Hs. unfold samples. cbn. unfold is_ok. cbn. by rewrite bool_decide_false. Qed.

Lemma since_ok_ok buf h : since_ok ((GOV_BUS_OK, buf) :: h) = [].
Proof. done. Qed.

Lemma samples_ok buf h : samples ((GOV_BUS_OK, buf) :: h) = sample_of (GOV_BUS_OK, buf) :: samples h.
Proof. done. Qed.

Lemma accepted_ok cfg buf h :
  accepted cfg ((GOV_BUS_OK, buf) :: h) =
    (if in_range cfg (sample_of (GOV_BUS_OK, buf)) then [sample_of (GOV_BUS_OK, buf)] else []) ++ accepted cfg h.
Proof. unfold accepted. rewrite samples_ok. cbn. by destruct (in_range cfg _). Qed.

Lemma count_cons st st' buf h : count st ((st', buf) :: h) = Z.b2z (bool_decide (st' = st)) + count st h.
Proof.
  unfold count. rewrite filter_cons. case_bool_decide as E.
  - rewrite decide_True by done. cbn [length Z.b2z]. lia.
  - rewrite decide_False by done. cbn [Z.b2z]. lia.
Qed.

Lemma count_nonneg st h : 0 <= count st h.
Proof. unfold count. lia. Qed.

Lemma repeats_of_nonneg v l : 0 <= repeats_of v l.
Proof. induction l as [|x l IH]; cbn; [lia|]. destruct (v =? x); lia. Qed.

Lemma repeats_nonneg l : 0 <= repeats l.
Proof. destruct l; [done|]. apply repeats_of_nonneg. Qed.

Lemma repeats_cons v l :
  repeats (v :: l) = (if bool_decide (head l = Some v) then 1 + repeats l else 0).
Proof.
  destruct l as [|x l]; [done|]. cbn. destruct (Z.eqb_spec v x) as [->|Hne].
  - by rewrite bool_decide_true.
  - by rewrite bool_decide_false by congruence.
Qed.

(** A failed transfer leaves everything but the transport flags and the dropout count alone. *)
Lemma rep_other s slot h st buf d n e cnt :
  sensor_rep s slot h -> st <> GOV_BUS_OK ->
  saw_dropout (sen_cfg s) ((st, buf) :: h) = d -> saw_nak ((st, buf) :: h) = n -> saw_err ((st, buf) :: h) = e ->
  Z.min (count GOV_BUS_NODATA (since_ok ((st, buf) :: h))) (cs_dropout_limit (sen_cfg s)) = cnt ->
  sensor_rep
    (set_sen_flags (flag_word d (stuck (sen_cfg s) h) (out_of_range (sen_cfg s) h) n e) (set_sen_nodata_cnt cnt s))
    slot ((st, buf) :: h).
Proof.
  intros (Hcfg & _ & _ & Hsc & Hh & Hg & Hsl) Hst <- <- <- <-.
  assert (Ha : accepted (sen_cfg s) ((st, buf) :: h) = accepted (sen_cfg s) h).
  { unfold accepted. by rewrite samples_other. }
  unfold sensor_rep, stuck, out_of_range. cbn -[saw_dropout saw_nak saw_err since_ok accepted samples].
  rewrite Ha, samples_other by done. by split_and!.
Qed.

Lemma same_as_last (acc : list Z) v :
  bool_decide (acc <> []) && (v =? default 0 (head acc)) = bool_decide (head acc = Some v).
Proof.
  destruct acc as [|x acc]; [done|]. rewrite bool_decide_true by done. cbn.
  destruct (Z.eqb_spec v x) as [->|Hne]; [by rewrite bool_decide_true|by rewrite bool_decide_false by congruence].
Qed.

(** The stuck counter after a sample in range. *)
Lemma stuck_count_step acc v lim c :
  is_u16 lim -> c = repeats acc `min` lim ->
  (if bool_decide (head acc = Some v) then if c <? lim then u16 (c + 1) else c else 0) =
    repeats (v :: acc) `min` lim.
Proof.
  intros Hl ->. rewrite repeats_cons. pose proof (repeats_nonneg acc). unfold is_u16 in Hl.
  repeat case_bool_decide; try done; [|lia]. destruct (Z.ltb_spec (repeats acc `min` lim) lim); [|lia].
  rewrite u16_small by clia. lia.
Qed.

(** A successful transfer: the branch of a sample in range, and of one that is not. *)
Lemma accept_rep s slot h buf v :
  let cfg := sen_cfg s in
  sensor_rep s slot h -> v = sample_of (GOV_BUS_OK, buf) -> in_range cfg v = true ->
  let c := repeats (v :: accepted cfg h) `min` cs_stuck_limit cfg in
  sensor_rep (mkSensor cfg (flag_word false (cs_stuck_limit cfg <=? c) false false false) v true 0 c)
    (match slot with Some slot => Some (gov_slot_push slot v) | None => None end) ((GOV_BUS_OK, buf) :: h).
Proof.
  intros cfg (Hcfg & _ & _ & _ & _ & _ & Hsl) Hv Hin c. subst v.
  pose proof (accepted_ok cfg buf h) as Hacc. rewrite Hin in Hacc. cbn [app] in Hacc.
  pose proof Hcfg as (_ & Hd & _). unfold is_u16 in Hd. fold cfg in Hd.
  unfold sensor_rep, stuck. cbn -[accepted repeats samples flag_word since_ok]. rewrite since_ok_ok, Hacc.
  unfold out_of_range. rewrite samples_ok, Hin. change (count _ []) with 0.
  split_and!; try done; try lia.
  - subst c. unfold saw_dropout, saw_nak, saw_err. cbn -[repeats flag_word]. f_equal.
    pose proof (repeats_nonneg (sample_of (GOV_BUS_OK, buf) :: accepted cfg h)). lia.
  - intros sl Hs _. destruct slot; inversion Hs. done.
Qed.

Lemma reject_rep s slot h buf v :
  let cfg := sen_cfg s in
  sensor_rep s slot h -> v = sample_of (GOV_BUS_OK, buf) -> in_range cfg v = false ->
  sensor_rep (set_sen_flags (flag_word false (stuck cfg h) true false false) (set_sen_nodata_cnt 0 s)) slot
    ((GOV_BUS_OK, buf) :: h).
Proof.
  intros cfg (Hcfg & _ & _ & Hsc & Hh & Hg & Hsl) Hv Hin. subst v.
  pose proof (accepted_ok cfg buf h) as Hacc. rewrite Hin in Hacc. cbn [app] in Hacc.
  pose proof Hcfg as (_ & Hd & _). unfold is_u16 in Hd. fold cfg in Hd.
  unfold sensor_rep, stuck. cbn -[accepted repeats samples flag_word since_ok]. fold cfg. rewrite since_ok_ok, Hacc.
  unfold out_of_range. rewrite samples_ok, Hin. change (count _ []) with 0.
  split_and!; try done. lia.
Qed.

Lemma on_sample_rep s slot h buf :
  sensor_rep s slot h -> transfer_ok (sen_cfg s) (GOV_BUS_OK, buf) ->
  exists s' slot', gov_sensor_on_sample s buf slot = Some (s', slot') /\
    sensor_rep s' slot' ((GOV_BUS_OK, buf) :: h) /\ sen_cfg s' = sen_cfg s.
Proof.
  intros Hrep Ht. pose proof Hrep as (Hcfg & Hf & Hn & Hsc & Hh & Hg & Hsl). pose proof Hcfg as (_ & _ & Hs16 & _).
  pose proof (decode_sample_spec _ _ Hcfg Ht eq_refl) as Hdec. cbn [snd] in Hdec.
  unfold gov_sensor_on_sample. rewrite Hdec. cbn -[accepted Z.ltb Z.leb].
  set (v := sample_of (GOV_BUS_OK, buf)) in *.
  assert (Hrange : (v <? cs_range_min (sen_cfg s)) || (cs_range_max (sen_cfg s) <? v) = negb (in_range (sen_cfg s) v)).
  { unfold in_range. lia. }
  rewrite Hrange, Hf. autorewrite with sflags. destruct (in_range (sen_cfg s) v) eqn:Hin; cbn [negb].
  - pose proof (accept_rep s slot h buf v Hrep eq_refl Hin) as Hacc. cbv zeta in Hacc.
    rewrite <- (stuck_count_step _ v _ _ Hs16 Hsc), <- same_as_last, <- Hh, <- Hg in Hacc.
    eexists _, _. split; [reflexivity|].
    destruct s as [cfg fl lg hg nc sc]; cbn in *.
    destruct (hg && (v =? lg)); [destruct (sc <? cs_stuck_limit cfg)|]; cbn in *;
      repeat case_match; cbn; autorewrite with sflags; done.
  - eexists _, _. split; [reflexivity|]. split; [|done].
    pose proof (reject_rep s slot h buf v Hrep eq_refl Hin) as Hrej. by destruct s.
Qed.

(** The failed transfers that carry no dropout information. *)
Lemma rep_flag s slot h st buf n e :
  sensor_rep s slot h -> st <> GOV_BUS_OK -> st <> GOV_BUS_NODATA ->
  saw_nak ((st, buf) :: h) = n -> saw_err ((st, buf) :: h) = e ->
  sensor_rep
    (set_sen_flags (flag_word (saw_dropout (sen_cfg s) h) (stuck (sen_cfg s) h) (out_of_range (sen_cfg s) h) n e) s)
    slot ((st, buf) :: h).
Proof.
  intros Hrep Hok Hnd Hn He. pose proof Hrep as (_ & _ & Hc & _).
  assert (Hcount : count GOV_BUS_NODATA (since_ok ((st, buf) :: h)) = count GOV_BUS_NODATA (since_ok h)).
  { rewrite since_ok_cons_other, count_cons by done. by rewrite bool_decide_false. }
  assert (Hdrop : saw_dropout (sen_cfg s) ((st, buf) :: h) = saw_dropout (sen_cfg s) h).
  { unfold saw_dropout. by rewrite Hcount. }
  pose proof (rep_other s slot h st buf _ _ _ _ Hrep Hok Hdrop Hn He eq_refl) as H.
  rewrite Hcount, <- Hc in H. by destruct s.
Qed.

(** A transfer without data. *)
Lemma rep_nodata s slot h buf :
  let cnt := Z.min (count GOV_BUS_NODATA (since_ok h) + 1) (cs_dropout_limit (sen_cfg s)) in
  sensor_rep s slot h ->
  sensor_rep
    (set_sen_flags (flag_word (saw_dropout (sen_cfg s) h || (cs_dropout_limit (sen_cfg s) <=? cnt))
      (stuck (sen_cfg s) h) (out_of_range (sen_cfg s) h) (saw_nak h) (saw_err h)) (set_sen_nodata_cnt cnt s))
    slot ((GOV_BUS_NODATA, buf) :: h).
Proof.
  intros cnt Hrep. pose proof (count_nonneg GOV_BUS_NODATA (since_ok h)) as H0.
  assert (Hcount : count GOV_BUS_NODATA (since_ok ((GOV_BUS_NODATA, buf) :: h)) = count GOV_BUS_NODATA (since_ok h) + 1).
  { rewrite since_ok_cons_other, count_cons by done. rewrite bool_decide_true by done. cbn [Z.b2z]. lia. }
  apply rep_other; try done.
  - unfold saw_dropout, cnt. rewrite Hcount. lia.
  - by rewrite Hcount.
Qed.

Lemma dispatch_rep s slot h t :
  sensor_rep s slot h -> transfer_ok (sen_cfg s) t ->
  exists s' slot', sensor_dispatch s slot t.1 t.2 = Some (s', slot') /\ sensor_rep s' slot' (t :: h) /\
    sen_cfg s' = sen_cfg s.
Proof.
  intros Hrep Ht. pose proof Hrep as (Hcfg & Hf & Hn & _). pose proof Hcfg as (_ & Hd16 & _ & _).
  destruct t as [st buf].
  destruct st; cbn [fst snd sensor_dispatch]; [by apply on_sample_rep| | | |];
    (eexists _, _; split; [reflexivity|split; [|by repeat case_match]]).
  1, 2, 4: rewrite Hf; autorewrite with sflags; by apply rep_flag.
  pose proof (rep_nodata s slot h buf Hrep) as H. cbv zeta in H.
  pose proof (count_nonneg GOV_BUS_NODATA (since_ok h)).
  assert (Hstep : (if sen_nodata_cnt s <? cs_dropout_limit (sen_cfg s) then set_sen_nodata_cnt (u16 (sen_nodata_cnt s + 1)) s
    else s) = set_sen_nodata_cnt (Z.min (count GOV_BUS_NODATA (since_ok h) + 1) (cs_dropout_limit (sen_cfg s))) s).
  { destruct (Z.ltb_spec (sen_nodata_cnt s) (cs_dropout_limit (sen_cfg s))).
    - f_equal. rewrite u16_small by clia. lia.
    - replace (Z.min _ _) with (sen_nodata_cnt s) by lia. by destruct s. }
  rewrite Hstep. set (cnt := Z.min (_ + 1) _) in *. cbn [sen_cfg sen_nodata_cnt set_sen_nodata_cnt].
  destruct (cs_dropout_limit (sen_cfg s) <=? cnt) eqn:Hle.
  - rewrite orb_true_r in H. change (sen_flags (set_sen_nodata_cnt cnt s)) with (sen_flags s). rewrite Hf. autorewrite with sflags. apply H.
  - rewrite orb_false_r, <- Hf in H. by destruct s.
Qed.

Lemma run_rep ts s slot h :
  sensor_rep s slot h -> Forall (transfer_ok (sen_cfg s)) ts ->
  exists s' slot', sensor_run s slot ts = Some (s', slot') /\ sensor_rep s' slot' (rev ts ++ h) /\
    sen_cfg s' = sen_cfg s.
Proof.
  revert s slot h. induction ts as [|t ts IH]; intros s slot h Hrep Hts; [by eexists _, _|].
  apply Forall_cons in Hts as [Ht Hts].
  destruct (dispatch_rep s slot h t Hrep Ht) as (s1 & slot1 & Hd & Hrep1 & Hc1).
  rewrite <- Hc1 in Hts. destruct (IH _ _ _ Hrep1 Hts) as (s2 & slot2 & Hr & Hrep2 & Hc2).
  exists s2, slot2. cbn [sensor_run]. rewrite Hd. cbn. split; [done|]. split; [|congruence].
  cbn [rev]. by rewrite <- app_assoc.
Qed.

(** What [gov_sensor_init] makes of a configuration. *)
Lemma init_rep cfg slot :
  cfg_ints cfg ->
  (forall sl, slot = Some sl -> sl.(ss_fresh) = false) -> sensor_rep (gov_sensor_init cfg) slot [].
Proof.
  intros (Hl & Hd & Hs & Hn) Hsl. unfold gov_sensor_init, sensor_rep, cfg_wf, GOV_SENSOR_MAX_READ.
  destruct cfg as [a r len lo hi dl sl nr]; cbn in *. destruct (Z.eqb_spec len 0); cbn; repeat case_match; cbn; split_and!; try done; try clia.
  all: try (change (count _ []) with 0; clia).
  all: intros ? H1 H2; apply Hsl in H1; congruence.
Qed.

(** ** The read with retries *)
Section retry.
Context {B} (read : bus_read B) (cfg : gov_sensor_cfg).
Abbreviation attempt := (attempt_at read cfg).
Abbreviation bus_before := (bus_at read cfg).
Abbreviation naks := (naks_at read cfg).

Lemma bus_before_S k b : bus_before (S k) b = bus_before k (attempt b).1.1.
Proof. unfold bus_at. by rewrite Nat.iter_succ_r. Qed.

Lemma naks_S b k : naks b (S k) <-> naks (attempt b).1.1 k.
Proof. unfold naks_at. by rewrite bus_before_S. Qed.

Lemma retry_loop_S fuel b tries :
  retry_loop read cfg (S fuel) b tries =
    if bool_decide ((attempt b).1.2 = GOV_BUS_NAK) && (u8 (tries + 1) <=? cfg.(cs_nak_retries))
    then retry_loop read cfg fuel (attempt b).1.1 (u8 (tries + 1)) else Some (attempt b).
Proof.
  cbn. unfold attempt_at.
  destruct (read b (cs_addr cfg) (cs_reg cfg) (cs_read_len cfg)) as [[b1 st] buf] eqn:E. cbn.
  destruct (bool_decide (st = GOV_BUS_NAK)) eqn:Hst; cbn; by repeat case_match.
Qed.

(** With [r] retries left the loop runs at most [r + 1] attempts. *)
Lemma retry_loop_returns r b tries fuel :
  cfg.(cs_nak_retries) < 255 -> 0 <= tries -> tries + Z.of_nat r = cfg.(cs_nak_retries) -> (r < fuel)%nat ->
  exists k, (k <= r)%nat /\ (forall j, (j < k)%nat -> naks b j) /\ (naks b k -> k = r) /\
    retry_loop read cfg fuel b tries = Some (attempt (bus_before k b)).
Proof.
  revert b tries fuel. induction r as [|r IH]; intros b tries fuel Hcfg Ht Hr Hf.
  - destruct fuel as [|fuel]; [lia|]. exists 0%nat. rewrite retry_loop_S, u8_small by clia.
    destruct (Z.leb_spec (tries + 1) (cs_nak_retries cfg)); [lia|]. rewrite andb_false_r. split_and!; try done. lia.
  - destruct fuel as [|fuel]; [lia|]. rewrite retry_loop_S, u8_small by clia.
    destruct (Z.leb_spec (tries + 1) (cs_nak_retries cfg)); [|lia]. rewrite andb_true_r.
    case_bool_decide as Hn.
    + destruct (IH (attempt b).1.1 (tries + 1) fuel) as (k & Hk & Hnaks & Hlast & Hres); try lia.
      exists (S k). split_and!; [lia| | |].
      * intros [|j] Hj; [done|]. rewrite naks_S. apply Hnaks. lia.
      * rewrite naks_S. intros Hk'. f_equal. by apply Hlast.
      * by rewrite Hres, bus_before_S.
    + exists 0%nat. split_and!; [lia|lia|done|done].
Qed.

Lemma retry_loop_first_answer r b tries fuel :
  cfg.(cs_nak_retries) < 255 -> 0 <= tries -> tries + Z.of_nat r = cfg.(cs_nak_retries) -> (r < fuel)%nat ->
  retry_loop read cfg fuel b tries = Some (first_answer read cfg r b).
Proof.
  revert b tries fuel. induction r as [|r IH]; intros b tries fuel Hcfg Ht Hr Hf;
    (destruct fuel as [|fuel]; [lia|]); rewrite retry_loop_S, u8_small by clia.
  - destruct (Z.leb_spec (tries + 1) (cs_nak_retries cfg)); [lia|]. by rewrite andb_false_r.
  - destruct (Z.leb_spec (tries + 1) (cs_nak_retries cfg)); [|lia]. rewrite andb_true_r.
    cbn [first_answer]. case_bool_decide; [|done]. apply IH; lia.
Qed.

(** With 255 retries the 8-bit counter wraps below its bound. *)
Lemma retry_loop_spins fuel b tries :
  cfg.(cs_nak_retries) = 255 -> (forall j, naks b j) -> retry_loop read cfg fuel b tries = None.
Proof.
  intros Hcfg. revert b tries. induction fuel as [|fuel IH]; intros b tries Hn; [done|].
  rewrite retry_loop_S, bool_decide_true by apply (Hn 0%nat). pose proof (u8_range (tries + 1)) as Hr.
  destruct (Z.leb_spec (u8 (tries + 1)) (cs_nak_retries cfg)); [|clia]. cbn [andb].
  apply IH. intros j. rewrite <- naks_S. done.
Qed.
End retry.

Lemma first_answer_ok {B} (read : bus_read B) `{!BusLaws read} cfg r b :
  0 <= cfg.(cs_read_len) ->
  transfer_ok cfg ((first_answer read cfg r b).1.2, (first_answer read cfg r b).2).
Proof.
  intros Hl. revert b. assert (H0 : forall b, transfer_ok cfg ((attempt_at read cfg b).1.2, (attempt_at read cfg b).2)).
  { intros b Hst. cbn in Hst. unfold attempt_at in *. destruct (read b _ _ _) as [[b1 st] buf] eqn:E. cbn in *. subst st.
    by eapply law_reads. }
  induction r as [|r IH]; intros b; cbn [first_answer]; [apply H0|].
  case_bool_decide; [apply IH|apply H0].
Qed.

(** ** A poll *)
Lemma poll_rep {B} (read : bus_read B) `{!BusLaws read} fuel b s slot h :
  sensor_rep s slot h -> (sen_cfg s).(cs_nak_retries) < 255 -> (Z.to_nat (sen_cfg s).(cs_nak_retries) < fuel)%nat ->
  let '(b', st, buf) := first_answer read (sen_cfg s) (Z.to_nat (sen_cfg s).(cs_nak_retries)) b in
  exists s' slot',
    gov_sensor_poll read fuel b s slot = Some (b', s', slot', gov_sensor_health s') /\
    sensor_rep s' slot' ((st, buf) :: h) /\ sen_cfg s' = sen_cfg s.
Proof.
  intros Hrep Hn Hf. pose proof Hrep as (((Hl & _) & _ & _ & Hu8) & _). unfold is_u8 in Hu8.
  pose proof (first_answer_ok read (sen_cfg s) (Z.to_nat (cs_nak_retries (sen_cfg s))) b ltac:(lia)) as Hok.
  pose proof (retry_loop_first_answer read (sen_cfg s) (Z.to_nat (cs_nak_retries (sen_cfg s))) b 0 fuel) as Hr.
  destruct (first_answer _ _ _ _) as [[b' st] buf]. cbn in Hok.
  destruct (dispatch_rep s slot h (st, buf) Hrep Hok) as (s' & slot' & Hd & Hrep' & Hcfg').
  exists s', slot'. unfold gov_sensor_poll, read_with_retry. rewrite Hr by lia. cbn in Hd |- *. rewrite Hd. by cbn.
Qed.

Lemma polls_rep {B} (read : bus_read B) `{!BusLaws read} fuel n b s slot :
  sensor_rep s slot [] -> (sen_cfg s).(cs_nak_retries) < 255 -> (Z.to_nat (sen_cfg s).(cs_nak_retries) < fuel)%nat ->
  exists s' slot',
    sensor_polls read fuel n b s slot = Some ((history read (sen_cfg s) n b).1, s', slot') /\
    sensor_rep s' slot' (history read (sen_cfg s) n b).2 /\ sen_cfg s' = sen_cfg s.
Proof.
  intros Hrep Hn Hf. induction n as [|n (s1 & slot1 & Hp & Hrep1 & Hc1)]; [by exists s, slot|].
  cbn [sensor_polls history]. rewrite Hp. destruct (history _ _ _ _) as [b1 h]. cbn in *.
  rewrite <- Hc1 in Hn, Hf. pose proof (poll_rep read fuel b1 s1 slot1 h Hrep1 Hn Hf) as H. rewrite Hc1 in H.
  destruct (first_answer _ _ _ _) as [[b2 st] buf]. destruct H as (s2 & slot2 & Hp2 & Hrep2 & Hc2).
  exists s2, slot2. rewrite Hp2. cbn. split_and!; [done|done|congruence].
Qed.

Lemma head_accepted cfg h v : head (accepted cfg h) = Some v -> in_range cfg v = true.
Proof.
  unfold accepted. induction (samples h) as [|x l IH]; [done|]. cbn.
  destruct (in_range cfg x) eqn:E; cbn; [congruence|done].
Qed.

(** What a representation says about the accessors. *)
Lemma rep_accessors s slot h :
  sensor_rep s slot h ->
  let cfg := sen_cfg s in
  gov_sensor_faults s = flag_word (saw_dropout cfg h) (stuck cfg h) (out_of_range cfg h) (saw_nak h) (saw_err h) /\
  gov_sensor_health s =
    (if saw_dropout cfg h || stuck cfg h || out_of_range cfg h || saw_nak h || saw_err h
     then GOV_SENSOR_FAULTED else GOV_SENSOR_HEALTHY) /\
  (gov_sensor_has_value s = true <-> accepted cfg h <> []) /\
  (gov_sensor_has_value s = true ->
   head (accepted cfg h) = Some (gov_sensor_value s) /\ in_range cfg (gov_sensor_value s) = true) /\
  (forall sl, slot = Some sl -> sl.(ss_fresh) = true -> ss_value sl = gov_sensor_value s).
Proof.
  intros (_ & Hf & _ & _ & Hh & Hg & Hsl). unfold gov_sensor_faults, gov_sensor_health, gov_sensor_has_value, gov_sensor_value.
  rewrite Hf, flags_zero, Hh, Hg, bool_decide_eq_true. split_and!.
  - done.
  - by destruct (_ || _).
  - done.
  - intros Ha. destruct (accepted (sen_cfg s) h) eqn:E; [done|]. split; [done|]. cbn. apply (head_accepted _ h). by rewrite E.
  - intros sl Hs Hfr. by rewrite (Hsl sl Hs Hfr).
Qed.

(** ** Theorems *)

(** The sensor's health is a function of the history of its transfers. On any bus that obeys
    its contract, for any number of polls after [gov_sensor_init]: no poll hangs or reads outside its
    buffer; the flag word has DROPOUT exactly when at least [dropout_limit] transfers without data
    came since the last good transfer, others between them or not, STUCK when the last accepted sample repeated the ones before
    it [stuck_limit] times, RANGE when the last sample read was out of range, BUS_NAK and BUS_ERR when
    such a transfer came since the last good one; the health is HEALTHY exactly without flags; and
    the value held and the value published are the last sample accepted, which is in range. *)
Lemma sensor_history_exact {B} (read : bus_read B) `{!BusLaws read} cfg0 slot b n fuel :
  cfg_ints cfg0 -> cfg0.(cs_nak_retries) < 255 -> (Z.to_nat cfg0.(cs_nak_retries) < fuel)%nat ->
  (forall sl, slot = Some sl -> sl.(ss_fresh) = false) ->
  let cfg := sen_cfg (gov_sensor_init cfg0) in
  let h := (history read cfg n b).2 in
  exists s slot',
    sensor_polls read fuel n b (gov_sensor_init cfg0) slot = Some ((history read cfg n b).1, s, slot') /\
    gov_sensor_faults s = flag_word (saw_dropout cfg h) (stuck cfg h) (out_of_range cfg h) (saw_nak h) (saw_err h) /\
    gov_sensor_health s =
      (if saw_dropout cfg h || stuck cfg h || out_of_range cfg h || saw_nak h || saw_err h
       then GOV_SENSOR_FAULTED else GOV_SENSOR_HEALTHY) /\
    (gov_sensor_has_value s = true <-> accepted cfg h <> []) /\
    (gov_sensor_has_value s = true ->
     head (accepted cfg h) = Some (gov_sensor_value s) /\ in_range cfg (gov_sensor_value s) = true) /\
    (forall sl, slot' = Some sl -> sl.(ss_fresh) = true -> ss_value sl = gov_sensor_value s).
Proof.
  intros Hi Hn Hf Hsl cfg h. pose proof (init_rep cfg0 slot Hi Hsl) as Hrep.
  assert (Hr : cs_nak_retries cfg = cs_nak_retries cfg0).
  { unfold cfg, gov_sensor_init. cbn. by repeat case_match. }
  rewrite <- Hr in Hn, Hf. destruct (polls_rep read fuel n b _ slot Hrep Hn Hf) as (s & slot' & Hp & Hrep' & Hc).
  exists s, slot'. split; [done|]. pose proof (rep_accessors s slot' _ Hrep') as H. rewrite Hc in H. apply H.
Qed.

(** [h] has a run of [limit] polls in a row without data, and no success since. *)
Definition dropout_run (limit : Z) (h : list transfer) : Prop :=
  exists recent run older, h = recent ++ run ++ older /\ Forall (fun t : transfer => t.1 <> GOV_BUS_OK) recent /\
    Forall (fun t : transfer => t.1 = GOV_BUS_NODATA) run /\ run <> [] /\ limit <= Z.of_nat (length run).

(** [limit] polls since the last success brought no data. *)
Definition dropout_seen (limit : Z) (h : list transfer) : Prop :=
  exists recent older, h = recent ++ older /\ Forall (fun t : transfer => t.1 <> GOV_BUS_OK) recent /\
    limit <= count GOV_BUS_NODATA recent.

Lemma since_ok_app recent h : Forall (fun t : transfer => t.1 <> GOV_BUS_OK) recent -> since_ok (recent ++ h) = recent ++ since_ok h.
Proof.
  induction 1 as [|t recent Ht _ IH]; [done|]. cbn [app since_ok]. unfold is_ok. rewrite bool_decide_false by done. by rewrite IH.
Qed.

Lemma since_ok_split h : exists older, h = since_ok h ++ older /\ Forall (fun t : transfer => t.1 <> GOV_BUS_OK) (since_ok h).
Proof.
  induction h as [|t h (older & E & Hh)]; [by exists []|]. cbn [since_ok]. unfold is_ok. case_bool_decide as Ht; [by exists (t :: h)|].
  exists older. split; [by rewrite E at 1|by constructor].
Qed.

Lemma count_app st h h' : count st (h ++ h') = count st h + count st h'.
Proof. unfold count. rewrite filter_app, length_app. lia. Qed.

Lemma count_all st h : Forall (fun t : transfer => t.1 = st) h -> count st h = Z.of_nat (length h).
Proof. unfold count. induction 1 as [|t h Ht _ IH]; [done|]. rewrite filter_cons_True by done. cbn. lia. Qed.

Lemma dropout_flagged cfg h : dropout_run cfg.(cs_dropout_limit) h -> saw_dropout cfg h = true.
Proof.
  intros (recent & run & older & -> & Hrec & Hrun & Hne & Hlen).
  assert (Hno : Forall (fun t : transfer => t.1 <> GOV_BUS_OK) run) by (eapply Forall_impl; [exact Hrun|]; by intros t ->).
  unfold saw_dropout. rewrite since_ok_app, since_ok_app, !count_app, (count_all _ run) by done.
  assert (0 <= count GOV_BUS_NODATA recent /\ 0 <= count GOV_BUS_NODATA (since_ok older)) by (unfold count; lia).
  destruct run; [done|]. cbn [length] in *. apply andb_true_iff. split; apply Z.leb_le; lia.
Qed.

Lemma dropout_earned cfg h : saw_dropout cfg h = true -> dropout_seen cfg.(cs_dropout_limit) h.
Proof.
  unfold saw_dropout. cbv zeta. intros [_ Hn%Z.leb_le]%andb_true_iff. destruct (since_ok_split h) as (older & E & Hf).
  exists (since_ok h), older. split_and!; [done|done|exact Hn].
Qed.


(** C27: The retry policy of a read (F04). With fewer than 255 retries configured, a read returns on
    every bus, after at most [nak_retries + 1] attempts: all attempts before the last were NAKs, and the
    result is that of the first attempt that was no NAK, or the NAK of attempt [nak_retries + 1]. With
    255 the 8-bit counter wraps to zero before it passes the limit, so on a bus whose device never
    acknowledges the loop does not end, whatever the fuel. *)
Theorem retry_policy {B} (read : bus_read B) s b :
  is_u8 (sen_cfg s).(cs_nak_retries) ->
  ((sen_cfg s).(cs_nak_retries) < 255 ->
   forall fuel, (Z.to_nat (sen_cfg s).(cs_nak_retries) < fuel)%nat ->
   exists k, Z.of_nat k <= (sen_cfg s).(cs_nak_retries) /\
     (forall j, (j < k)%nat -> naks_at read (sen_cfg s) b j) /\
     (naks_at read (sen_cfg s) b k -> Z.of_nat k = (sen_cfg s).(cs_nak_retries)) /\
     read_with_retry read s fuel b = Some (attempt_at read (sen_cfg s) (bus_at read (sen_cfg s) k b))) /\
  ((sen_cfg s).(cs_nak_retries) = 255 -> (forall j, naks_at read (sen_cfg s) b j) ->
   forall fuel, read_with_retry read s fuel b = None).
Proof.
  unfold is_u8. intros Hu8. split.
  - intros Hn fuel Hf.
    destruct (retry_loop_returns read (sen_cfg s) (Z.to_nat (cs_nak_retries (sen_cfg s))) b 0 fuel)
      as (k & Hk & Hnaks & Hlast & Hres); try lia.
    exists k. split_and!; [lia|done| |done]. intros Hk'. rewrite (Hlast Hk'). lia.
  - intros Hn Hnaks fuel. by apply retry_loop_spins.
Qed.

(** The Zephyr binding fulfils the bus contract the driver is proved against: given an I2C driver
    that, when it reports success, has filled the buffer with the bytes asked for, a read reports OK only
    with such a buffer, and never on a missing or unready controller. *)
Theorem zbus_lawful (EIO : Z) {D} (ready : D -> bool) (burst_read : D -> Z -> Z -> Z -> D * Z * list Z) :
  (forall d addr reg len d' data, burst_read d addr reg len = (d', 0, data) ->
    Z.of_nat (length data) = len /\ is_bytes data) ->
  0 < EIO ->
  BusLaws (zbus_read EIO ready burst_read) /\
  (forall dev addr reg len, (zbus_read EIO ready burst_read dev addr reg len).1.2 = GOV_BUS_OK ->
    exists d, dev = Some d /\ ready d = true) /\
  (forall dev addr reg len, (zbus_read EIO ready burst_read dev addr reg len).1.2 <> GOV_BUS_NODATA).
Proof.
  intros Hlaw HE. split; [|split].
  - split. intros [d|] addr reg len b' data _; cbn; [|done]. destruct (ready d); cbn; [|done].
    destruct (burst_read d addr reg len) as [[d1 rc] bytes] eqn:E. unfold map_status.
    destruct (Z.eqb_spec rc 0) as [->|_]; [|by repeat case_match]. intros [= <- <-]. by eapply Hlaw.
  - intros [d|] addr reg len; cbn; [|done]. destruct (ready d) eqn:E; cbn; [by exists d|done].
  - intros [d|] addr reg len; cbn; [|done]. destruct (ready d) eqn:E; cbn; [|done].
    destruct (burst_read d addr reg len) as [[d1 rc] bytes]. unfold map_status. by repeat case_match.
Qed.

(** The mailbox: the newest value wins, and is handed out once. *)
Lemma slot_newest_wins sl v w :
  gov_slot_get (gov_slot_push (gov_slot_push sl v) w) = (mkSampleSlot w false, Some w) /\
  gov_slot_get (mkSampleSlot w false) = (mkSampleSlot w false, None) /\
  gov_slot_get gov_slot_init = (gov_slot_init, None).
Proof. done. Qed.

(** ** Witnesses *)

(** A bus that replays a script of answers, then repeats NODATA. *)
Definition script_read : bus_read (list transfer) :=
  fun b _ _ len =>
    match b with
    | [] => ([], GOV_BUS_NODATA, [])
    | (GOV_BUS_OK, buf) :: b =>
        if bool_decide (Z.of_nat (length buf) = len /\ Forall (fun x => 0 <= x < 256) buf) then (b, GOV_BUS_OK, buf)
        else (b, GOV_BUS_ERR, [])
    | (st, buf) :: b => (b, st, buf)
    end.

#[export] Instance script_laws : BusLaws script_read.
Proof.
  split. intros [|[[] buf] b] addr reg len b' data Hl; cbn; try done; try congruence.
  case_bool_decide as H; intros [= <- <-]. done.
Qed.

Definition wit_cfg : gov_sensor_cfg := mkSensorCfg 72 0 2 (-100) 100 2 1 2.
Definition wit_bus : list transfer :=
  [(GOV_BUS_OK, [0; 5]); (GOV_BUS_NAK, []); (GOV_BUS_OK, [0; 5]); (GOV_BUS_OK, [1; 0]); (GOV_BUS_NODATA, []); (GOV_BUS_NODATA, [])].


Lemma retry_policy_witness :
  read_with_retry script_read (gov_sensor_init wit_cfg) 3 [(GOV_BUS_NAK, []); (GOV_BUS_OK, [0; 7])]
    = Some ([], GOV_BUS_OK, [0; 7]) /\
  (forall fuel, read_with_retry (fun b _ _ _ => (b, GOV_BUS_NAK, [])) (gov_sensor_init (set_cs_nak_retries 255 wit_cfg)) fuel tt = None).
Proof.
  split.
  - destruct (retry_policy script_read (gov_sensor_init wit_cfg) [(GOV_BUS_NAK, []); (GOV_BUS_OK, [0; 7])])
      as [H _]; [by vm_compute|].
    destruct (H eq_refl 3%nat ltac:(cbn; lia)) as (k & Hk & Hn & Hl & ->).
    destruct k as [|[|k]].
    + by specialize (Hl eq_refl).
    + done.
    + by specialize (Hn 1%nat ltac:(lia)).
  - apply (retry_policy (fun b _ _ _ => (b, GOV_BUS_NAK, [])) (gov_sensor_init (set_cs_nak_retries 255 wit_cfg)) tt).
    + by vm_compute.
    + done.
    + done.
Defined.

Lemma zbus_lawful_witness :
  BusLaws (zbus_read 5 (fun _ : unit => true) (fun d _ _ len => (d, if len <? 0 then 1 else 0, repeat 0 (Z.to_nat len)))).
Proof.
  apply (zbus_lawful 5); [|lia]. intros d addr reg len d' data H. destruct (Z.ltb_spec len 0); inversion H; subst.
  rewrite repeat_length. split; [lia|]. apply Forall_forall. intros x Hx. apply list_elem_of_In, repeat_spec in Hx. by subst x.
Defined.
