(* ===== verification/Float32.v ===== *)
(** * Float32: the C type [float]

    IEEE-754 binary32 with round-to-nearest-even, by the executable operations of the Standard
    Library's [SpecFloat] at precision 24 and exponent range 128, and what the control code needs of
    them: a finite float is an integer multiple of [2^-149]; addition, subtraction and multiplication
    are the exact result rounded by one monotone function; comparison is comparison of the integers. *)
From S2P Require Import Prelude.
From Stdlib Require Import SpecFloat.

(** ** Operations *)
Abbreviation float := spec_float.

Definition f_add : float -> float -> float := SFadd 24 128.
Definition f_sub : float -> float -> float := SFsub 24 128.
Definition f_mul : float -> float -> float := SFmul 24 128.
Definition f_div : float -> float -> float := SFdiv 24 128.
Definition f_opp : float -> float := SFopp.

(** [<], [==] and [!=]; all comparisons with NaN fail, so [!=] succeeds. *)
Definition f_lt (x y : float) : bool := SFltb x y.
Definition f_eq (x y : float) : bool := SFeqb x y.
Definition f_ne (x y : float) : bool := negb (SFeqb x y).

(** The conversion of an integer, and a decimal literal [n / d]: the nearest float. *)
Definition f_of_Z (z : Z) : float := binary_normalize 24 128 z 0 false.
Definition f_lit (n d : Z) : float := f_div (f_of_Z n) (f_of_Z d).

(** The conversion to [int32_t] truncates; it is undefined when the result does not fit. *)
Definition f_trunc (x : float) : option Z :=
  match x with
  | S754_zero _ => Some 0
  | S754_finite s m e =>
      let n := if 0 <=? e then Zpos m * 2 ^ e else Zpos m / 2 ^ (- e) in
      Some (if s then - n else n)
  | _ => None
  end.
Definition f_to_i32 (x : float) : option Z :=
  z ← f_trunc x; if bool_decide (is_i32 z) then Some z else None.

(** ** The integer value of a float, in units of [2^-149] *)
Definition f_ok (x : float) : Prop :=
  match x with S754_zero _ => True | S754_finite _ m e => bounded 24 128 m e = true | _ => False end.

Definition fval (x : float) : Z :=
  match x with
  | S754_finite s m e => (if s then -1 else 1) * (Zpos m * 2 ^ (e + 149))
  | _ => 0
  end.

(** [1.0f] in these units. *)
Definition f_unit : Z := 2 ^ 149.

(** ** Rounding of integers *)

(** The integer nearest to [x / 2^n], ties to even. *)
Definition rne (x n : Z) : Z :=
  let q := x / 2 ^ n in
  match 2 * (x mod 2 ^ n) ?= 2 ^ n with
  | Lt => q
  | Eq => if Z.even q then q else q + 1
  | Gt => q + 1
  end.

(** The nearest multiple of [2^g] with 24 significant bits. *)
Definition ndrop (g x : Z) : Z := Z.max (Zdigits2 x - 24) g.
Definition rnd_pos (g x : Z) : Z := rne x (ndrop g x) * 2 ^ ndrop g x.
Definition rnd (g x : Z) : Z := Z.sgn x * rnd_pos g (Z.abs x).

(** Integers that rounding leaves alone. *)
Definition representable (g x : Z) : Prop := exists m k, g <= k /\ Z.abs m <= 2 ^ 24 /\ x = m * 2 ^ k.

Lemma pow2_pred n : 1 <= n -> 2 ^ n = 2 ^ (n - 1) * 2.
Proof. intros Hn. replace n with (Z.succ (n - 1)) at 1 by lia. rewrite Z.pow_succ_r by lia. lia. Qed.

(** ** Rounding to a multiple *)
Lemma rne_bounds x n : 0 <= n -> x / 2 ^ n <= rne x n <= x / 2 ^ n + 1.
Proof. intros Hn. unfold rne. repeat case_match; lia. Qed.

Lemma rne_le x n k : 0 <= n -> x <= k * 2 ^ n -> rne x n <= k.
Proof.
  intros Hn Hx. assert (0 < 2 ^ n) by lia. pose proof (Z.div_mod x (2 ^ n) ltac:(lia)).
  pose proof (Z.mod_pos_bound x (2 ^ n) ltac:(lia)).
  assert (x / 2 ^ n <= k) by (apply Z.div_le_upper_bound; lia).
  pose proof (rne_bounds x n Hn).
  destruct (Z.eq_dec (x / 2 ^ n) k) as [E|]; [|lia].
  assert (x mod 2 ^ n = 0) as Hr by nia. unfold rne. rewrite Hr, E.
  destruct (Z.compare_spec (2 * 0) (2 ^ n)); lia.
Qed.

Lemma rne_ge x n k : 0 <= n -> k * 2 ^ n <= x -> k <= rne x n.
Proof.
  intros Hn Hx. pose proof (rne_bounds x n Hn).
  assert (k <= x / 2 ^ n) by (apply Z.div_le_lower_bound; lia). lia.
Qed.

Lemma rne_exact k n : 0 <= n -> rne (k * 2 ^ n) n = k.
Proof. intros Hn. pose proof (rne_le (k * 2 ^ n) n k Hn). pose proof (rne_ge (k * 2 ^ n) n k Hn). lia. Qed.

Lemma rne_mono x y n : 0 <= n -> x <= y -> rne x n <= rne y n.
Proof.
  intros Hn Hxy. assert (0 < 2 ^ n) by lia.
  pose proof (Z.div_le_mono x y (2 ^ n) ltac:(lia) Hxy).
  pose proof (rne_bounds x n Hn). pose proof (rne_bounds y n Hn).
  destruct (Z.eq_dec (x / 2 ^ n) (y / 2 ^ n)) as [E|]; [|lia].
  pose proof (Z.div_mod x (2 ^ n) ltac:(lia)). pose proof (Z.div_mod y (2 ^ n) ltac:(lia)).
  unfold rne. rewrite E.
  destruct (Z.compare_spec (2 * (x mod 2 ^ n)) (2 ^ n)), (Z.compare_spec (2 * (y mod 2 ^ n)) (2 ^ n));
    try (destruct (Z.even _)); nia.
Qed.

Lemma rne_0 n : 0 <= n -> rne 0 n = 0.
Proof. intros Hn. by apply (rne_exact 0 n). Qed.

Lemma rne_scale x n k : 0 <= n -> 0 <= k -> rne (x * 2 ^ k) (n + k) = rne x n.
Proof.
  intros Hn Hk. unfold rne. rewrite Z.pow_add_r by lia. assert (0 < 2 ^ k) by lia. assert (0 < 2 ^ n) by lia.
  rewrite Z.div_mul_cancel_r by lia. rewrite Z.mul_mod_distr_r by lia.
  replace (2 * (x mod 2 ^ n * 2 ^ k)) with (2 * (x mod 2 ^ n) * 2 ^ k) by lia.
  by rewrite <- Zmult_compare_compat_r by lia.
Qed.

(** ** Digits *)
Lemma digits2_pos_size p : Zpos (digits2_pos p) = Z.log2 (Zpos p) + 1.
Proof.
  induction p as [p IH|p IH|]; cbn [digits2_pos]; [..|done]; rewrite Pos2Z.inj_succ, IH.
  - change (Zpos p~1) with (2 * Zpos p + 1). rewrite Z.log2_succ_double by lia. lia.
  - change (Zpos p~0) with (2 * Zpos p). rewrite Z.log2_double by lia. lia.
Qed.

Lemma Zdigits2_pos x : 0 < x -> Zdigits2 x = Z.log2 x + 1.
Proof. destruct x; try done. intros _. apply digits2_pos_size. Qed.

Lemma Zdigits2_nonneg x : 0 <= x -> 0 <= Zdigits2 x.
Proof. destruct x; cbn; lia. Qed.

(** [d] digits bound the integer from both sides. *)
Lemma Zdigits2_bounds x : 0 < x -> 2 ^ (Zdigits2 x - 1) <= x < 2 ^ Zdigits2 x.
Proof.
  intros Hx. rewrite Zdigits2_pos by done. pose proof (Z.log2_spec x Hx) as H.
  replace (Z.log2 x + 1 - 1) with (Z.log2 x) by lia. by replace (Z.log2 x + 1) with (Z.succ (Z.log2 x)) by lia.
Qed.

Lemma Zdigits2_upper x : 0 <= x -> x < 2 ^ Zdigits2 x.
Proof. intros Hx. destruct (Z.eq_dec x 0) as [->|]; [done|]. apply Zdigits2_bounds. lia. Qed.

Lemma Zdigits2_mono x y : 0 <= x <= y -> Zdigits2 x <= Zdigits2 y.
Proof.
  intros [Hx Hxy]. destruct (Z.eq_dec x 0) as [->|]; [by apply Zdigits2_nonneg|].
  rewrite !Zdigits2_pos by lia. pose proof (Z.log2_le_mono x y Hxy). lia.
Qed.

Lemma Zdigits2_shift x k : 0 < x -> 0 <= k -> Zdigits2 (x * 2 ^ k) = Zdigits2 x + k.
Proof. intros Hx Hk. rewrite !Zdigits2_pos by nia. rewrite Z.log2_mul_pow2 by lia. lia. Qed.

Lemma Zdigits2_le x k : 0 <= x < 2 ^ k -> 0 <= k -> Zdigits2 x <= k.
Proof.
  intros Hx Hk. destruct (Z.eq_dec x 0) as [->|]; [done|]. rewrite Zdigits2_pos by lia.
  assert (Z.log2 x < k) by (apply Z.log2_lt_pow2; lia). lia.
Qed.

Lemma Zdigits2_ge x k : 2 ^ k <= x -> 0 <= k -> k + 1 <= Zdigits2 x.
Proof.
  intros Hx Hk. rewrite Zdigits2_pos by lia. assert (k <= Z.log2 x) by (apply Z.log2_le_pow2; lia). lia.
Qed.

(** ** Rounding is monotone and leaves representable integers alone *)
Lemma ndrop_mono g x y : 0 <= x <= y -> ndrop g x <= ndrop g y.
Proof. intros H. unfold ndrop. pose proof (Zdigits2_mono x y H). lia. Qed.

Lemma rnd_pos_mono g x y : 0 <= g -> 0 <= x <= y -> rnd_pos g x <= rnd_pos g y.
Proof.
  intros Hg Hxy. pose proof (ndrop_mono g x y Hxy) as Hn. unfold rnd_pos.
  assert (Hgx : g <= ndrop g x) by (unfold ndrop; lia).
  destruct (Z.eq_dec (ndrop g x) (ndrop g y)) as [->|Hne].
  { apply Z.mul_le_mono_nonneg_r; [lia|]. apply rne_mono; lia. }
  assert (Hy : 0 < y). { destruct (Z.eq_dec y 0) as [->|]; [|lia]. replace x with 0 in Hne by lia. done. }
  assert (Hd : ndrop g y = Zdigits2 y - 24) by (unfold ndrop in *; lia).
  assert (Hdx : Zdigits2 x < Zdigits2 y) by (unfold ndrop in *; lia).
  (* the power of two between them *)
  set (P := 2 ^ (Zdigits2 y - 1)).
  assert (HP : forall n, 0 <= n <= Zdigits2 y - 1 -> P = 2 ^ (Zdigits2 y - 1 - n) * 2 ^ n).
  { intros n Hn'. unfold P. rewrite <- Z.pow_add_r by lia. f_equal. lia. }
  assert (HxP : x <= P). { pose proof (Zdigits2_upper x). unfold P.
    assert (2 ^ Zdigits2 x <= 2 ^ (Zdigits2 y - 1)) by (apply Z.pow_le_mono_r; lia). lia. }
  pose proof (Zdigits2_bounds y Hy) as [HyP _]. fold P in HyP.
  transitivity P.
  - rewrite (HP (ndrop g x)) at 1 by lia. apply Z.mul_le_mono_nonneg_r; [lia|]. apply rne_le; [lia|].
    rewrite <- HP; lia.
  - rewrite (HP (ndrop g y)) at 1 by lia. apply Z.mul_le_mono_nonneg_r; [lia|]. apply rne_ge; [lia|].
    rewrite <- HP; lia.
Qed.

Lemma rnd_pos_nonneg g x : 0 <= g -> 0 <= x -> 0 <= rnd_pos g x.
Proof.
  intros Hg Hx. unfold rnd_pos. assert (0 <= ndrop g x) by (unfold ndrop; lia).
  assert (0 <= rne x (ndrop g x)) by (apply rne_ge; lia). nia.
Qed.

Lemma rnd_opp g x : rnd g (- x) = - rnd g x.
Proof. unfold rnd. rewrite Z.sgn_opp, Z.abs_opp. lia. Qed.

Lemma rnd_nonneg g x : 0 <= g -> 0 <= x -> rnd g x = rnd_pos g x.
Proof.
  intros Hg Hx. unfold rnd. rewrite Z.abs_eq by done. destruct (Z.eq_dec x 0) as [->|].
  - cbn [Z.sgn]. unfold rnd_pos. rewrite rne_0; [lia|unfold ndrop; lia].
  - rewrite Z.sgn_pos by lia. lia.
Qed.

Lemma rnd_mono g x y : 0 <= g -> x <= y -> rnd g x <= rnd g y.
Proof.
  intros Hg Hxy. destruct (Z.le_gt_cases 0 x) as [Hx|Hx].
  - rewrite !rnd_nonneg by lia. apply rnd_pos_mono; lia.
  - replace x with (- (- x)) by lia. rewrite rnd_opp, (rnd_nonneg _ (- x)) by lia.
    pose proof (rnd_pos_nonneg g (- x)). destruct (Z.le_gt_cases 0 y) as [Hy|Hy].
    + rewrite rnd_nonneg by lia. pose proof (rnd_pos_nonneg g y). lia.
    + replace y with (- (- y)) by lia. rewrite rnd_opp, rnd_nonneg by lia.
      pose proof (rnd_pos_mono g (- y) (- x)). lia.
Qed.

Lemma rnd_representable g x : 0 <= g -> representable g x -> rnd g x = x.
Proof.
  intros Hg. assert (Hpos : forall x, 0 <= x -> representable g x -> rnd_pos g x = x).
  { clear x. intros x Hx (m & k & Hk & Hm & ->). unfold rnd_pos.
    assert (0 < 2 ^ k) by lia. assert (Hm0 : 0 <= m) by nia. rewrite Z.abs_eq in Hm by done.
    destruct (Z.eq_dec m (2 ^ 24)) as [->|Hne].
    - rewrite <- Z.pow_add_r by lia. unfold ndrop. rewrite Zdigits2_pos, Z.log2_pow2 by lia.
      replace (24 + k + 1 - 24) with (k + 1) by lia.
      replace (2 ^ (24 + k)) with (2 ^ (24 + k - Z.max (k + 1) g) * 2 ^ Z.max (k + 1) g)
        by (rewrite <- Z.pow_add_r by lia; f_equal; lia).
      rewrite rne_exact by lia. done.
    - assert (Hn : 0 <= ndrop g (m * 2 ^ k) <= k).
      { unfold ndrop. split; [lia|]. assert (Zdigits2 (m * 2 ^ k) <= 24 + k); [|lia].
        apply Zdigits2_le; [|lia]. rewrite Z.pow_add_r by lia. nia. }
      set (n := ndrop g (m * 2 ^ k)) in *.
      replace (m * 2 ^ k) with (m * 2 ^ (k - n) * 2 ^ n)
        by (rewrite <- Z.mul_assoc, <- Z.pow_add_r by lia; do 2 f_equal; lia).
      rewrite rne_exact by lia. done. }
  intros Hx. destruct (Z.le_gt_cases 0 x) as [H0|H0].
  - rewrite rnd_nonneg by done. by apply Hpos.
  - replace x with (- (- x)) by lia. rewrite rnd_opp, rnd_nonneg by lia. rewrite Hpos; [lia|lia|].
    destruct Hx as (m & k & Hk & Hm & ->). exists (- m), k. lia.
Qed.

Lemma rnd_0 g : 0 <= g -> rnd g 0 = 0.
Proof. intros Hg. done. Qed.

(** The error is at most half a unit in the last place. *)
Lemma rne_half x n : 0 <= n -> 2 * (rne x n * 2 ^ n) <= 2 * x + 2 ^ n.
Proof.
  intros Hn. assert (0 < 2 ^ n) by lia. pose proof (Z.div_mod x (2 ^ n) ltac:(lia)).
  pose proof (Z.mod_pos_bound x (2 ^ n) ltac:(lia)). unfold rne.
  destruct (Z.compare_spec (2 * (x mod 2 ^ n)) (2 ^ n)); try (destruct (Z.even _)); nia.
Qed.

Lemma rnd_error g x : 0 <= g -> 0 <= x -> 2 * rnd g x <= 2 * x + Z.max (2 ^ g) x.
Proof.
  intros Hg Hx. rewrite rnd_nonneg by done. unfold rnd_pos.
  assert (Hn : 0 <= ndrop g x) by (unfold ndrop; lia). pose proof (rne_half x (ndrop g x) Hn).
  assert (2 ^ ndrop g x <= Z.max (2 ^ g) x); [|lia]. unfold ndrop in *.
  destruct (Z.max_spec (Zdigits2 x - 24) g) as [[_ ->]|[Hlt E]]; [lia|]. rewrite E in *.
  assert (Hx0 : 0 < x). { destruct (Z.eq_dec x 0) as [->|]; [change (Zdigits2 0) with 0 in *; lia|lia]. }
  pose proof (Zdigits2_bounds x Hx0) as [Hb _].
  assert (2 ^ (Zdigits2 x - 24) <= 2 ^ (Zdigits2 x - 1)) by (apply Z.pow_le_mono_r; lia). lia.
Qed.

(** Rounding stays between representable bounds. *)
Lemma rnd_le g x b : 0 <= g -> representable g b -> x <= b -> rnd g x <= b.
Proof. intros Hg Hb Hx. rewrite <- (rnd_representable g b) by done. by apply rnd_mono. Qed.
Lemma rnd_ge g x b : 0 <= g -> representable g b -> b <= x -> b <= rnd g x.
Proof. intros Hg Hb Hx. rewrite <- (rnd_representable g b) by done. by apply rnd_mono. Qed.

(** ** The shift register of [SpecFloat] *)

(** The register holds [x / 2^n], the bit below, and whether anything is left below that bit. *)
Definition holds (x n : Z) (mrs : shr_record) : Prop :=
  shr_m mrs = x / 2 ^ n /\ shr_r mrs = Z.odd (x / 2 ^ (n - 1)) /\ shr_s mrs = negb (x mod 2 ^ (n - 1) =? 0).

Definition loc_code (l : location) : Z :=
  match l with loc_Exact => 0 | loc_Inexact Lt => 1 | loc_Inexact Eq => 2 | loc_Inexact Gt => 3 end.

Lemma loc_code_range l : 0 <= loc_code l <= 3.
Proof. destruct l as [|[]]; cbn; lia. Qed.

Lemma holds_init m l : 0 <= m -> holds (4 * m + loc_code l) 2 (shr_record_of_loc m l).
Proof.
  intros Hm. change (2 ^ 2) with 4. assert (H2 : forall c, 0 <= c <= 3 -> (4 * m + c) / 4 = m /\ (4 * m + c) / 2 = 2 * m + c / 2
    /\ (4 * m + c) mod 2 = c mod 2).
  { intros c Hc. split_and!; Z.div_mod_to_equations; lia. }
  destruct (H2 (loc_code l) (loc_code_range l)) as (E1 & E2 & E3). unfold holds.
  change (2 ^ (2 - 1)) with 2. change (2 ^ 2) with 4. rewrite E1, E2, E3, Z.odd_add_mul_2 || rewrite E1, E2, E3.
  destruct l as [|[]]; cbn [shr_record_of_loc shr_m shr_r shr_s loc_code];
    (split; [done|]); (split; [|done]); rewrite Z.add_comm, Z.odd_add_mul_2; done.
Qed.

Lemma shr_1_spec mrs :
  0 <= shr_m mrs -> shr_1 mrs = Build_shr_record (shr_m mrs / 2) (Z.odd (shr_m mrs)) (shr_r mrs || shr_s mrs).
Proof.
  destruct mrs as [m r s]. cbn [shr_m shr_r shr_s]. intros Hm. destruct m as [|p|p]; try done. destruct p as [p|p|]; cbn; try done.
  - f_equal. change (Z.pos p~1) with (2 * Z.pos p + 1). Z.div_mod_to_equations; lia.
  - f_equal. change (Z.pos p~0) with (2 * Z.pos p). Z.div_mod_to_equations; lia.
Qed.

Lemma holds_shr_1 x n mrs : 0 <= x -> 1 <= n -> holds x n mrs -> holds x (n + 1) (shr_1 mrs).
Proof.
  intros Hx Hn (Hm & Hr & Hs). assert (0 <= shr_m mrs) by (rewrite Hm; apply Z.div_pos; lia).
  rewrite shr_1_spec by done. unfold holds. cbn [shr_m shr_r shr_s]. replace (n + 1 - 1) with n by lia. split_and!.
  - rewrite Hm, Z.pow_add_r, <- Z.div_div by lia. done.
  - by rewrite Hm.
  - rewrite Hr, Hs. rewrite (pow2_pred n) by done.
    assert (0 < 2 ^ (n - 1)) by lia. rewrite Z.rem_mul_r by lia. rewrite (Zmod_odd (x / 2 ^ (n - 1))).
    pose proof (Z.mod_pos_bound x (2 ^ (n - 1))). destruct (Z.odd (x / 2 ^ (n - 1))); cbn [orb]; lia.
Qed.

Lemma iter_pos_ind {A} (f : A -> A) (P : Z -> A -> Prop) p n a :
  (forall n a, 1 <= n -> P n a -> P (n + 1) (f a)) -> 1 <= n -> P n a -> P (n + Zpos p) (iter_pos f p a).
Proof.
  intros Hf. revert n a. induction p as [p IH|p IH|]; intros n a Hn Ha; cbn [iter_pos].
  - replace (n + Zpos p~1) with (n + 1 + Zpos p + Zpos p) by lia. apply IH; [lia|]. apply IH; [lia|]. by apply Hf.
  - replace (n + Zpos p~0) with (n + Zpos p + Zpos p) by lia. apply IH; [lia|]. by apply IH.
  - by apply Hf.
Qed.

Lemma holds_shr x n mrs e k :
  0 <= x -> 1 <= n -> holds x n mrs ->
  holds x (n + Z.max k 0) (fst (shr mrs e k)) /\ snd (shr mrs e k) = e + Z.max k 0.
Proof.
  intros Hx Hn H. unfold shr. destruct k as [|p|p]; cbn [fst snd].
  - rewrite Z.max_id, !Z.add_0_r. done.
  - replace (Z.max (Zpos p) 0) with (Zpos p) by lia. split; [|done]. apply (iter_pos_ind shr_1 (holds x)); try done.
    intros. by apply holds_shr_1.
  - replace (Z.max (Zneg p) 0) with 0 by lia. rewrite !Z.add_0_r. done.
Qed.

Lemma holds_rne x n mrs :
  0 <= x -> 1 <= n -> holds x n mrs -> round_nearest_even (shr_m mrs) (loc_of_shr_record mrs) = rne x n.
Proof.
  intros Hx Hn (Hm & Hr & Hs). destruct mrs as [m r s]. cbn [shr_m shr_r shr_s loc_of_shr_record] in *. unfold rne.
  pose proof (pow2_pred n Hn) as H2.
  assert (0 < 2 ^ (n - 1)) by lia.
  assert (Hmod : x mod 2 ^ n = x mod 2 ^ (n - 1) + 2 ^ (n - 1) * Z.b2z r).
  { rewrite H2, Z.rem_mul_r, Zmod_odd, Hr by lia. by destruct (Z.odd _). }
  rewrite Hm, Hmod, H2. pose proof (Z.mod_pos_bound x (2 ^ (n - 1)) ltac:(done)) as Hd. clear - Hs Hd.
  rewrite <- (Z.mul_comm 2 (2 ^ (n - 1))). set (d := x mod 2 ^ (n - 1)) in *. set (P := 2 ^ (n - 1)) in *. clearbody d P.
  subst s. destruct r, (Z.eqb_spec d 0) as [->|Hne]; cbn [Z.b2z negb round_nearest_even];
    match goal with |- context [?a ?= ?b] => destruct (Z.compare_spec a b) end; try done; lia.
Qed.

(** [binary_round_aux] computes the nearest float of [(4 mx + c) 2^(ex - 2)]. *)
Lemma fexp_eq e : fexp 24 128 e = Z.max (e - 24) (-149).
Proof. done. Qed.

(** What the first pass leaves: at most [2^24], and at least [2^23] above the smallest exponent. *)
Lemma rounded_range mx ex lx :
  0 <= mx -> ex <= fexp 24 128 (Zdigits2 mx + ex) ->
  let e' := fexp 24 128 (Zdigits2 mx + ex) in
  let M := rne (4 * mx + loc_code lx) (e' - ex + 2) in
  0 <= M <= 2 ^ 24 /\ -149 <= e' /\ (-149 < e' -> 2 ^ 23 <= M).
Proof.
  intros Hm He e' M. rewrite fexp_eq in He. pose proof (loc_code_range lx). pose proof (Zdigits2_upper mx Hm) as Hu.
  pose proof (Zdigits2_nonneg mx Hm) as Hd.
  assert (He' : e' = Z.max (Zdigits2 mx + ex - 24) (-149)) by apply fexp_eq.
  assert (H4 : 2 ^ (Zdigits2 mx + 2) = 4 * 2 ^ Zdigits2 mx) by (rewrite Z.pow_add_r by lia; lia).
  split_and!; [apply rne_ge; lia| |lia|].
  - apply rne_le; [lia|]. rewrite <- Z.pow_add_r by lia.
    assert (2 ^ (Zdigits2 mx + 2) <= 2 ^ (24 + (e' - ex + 2))) by (apply Z.pow_le_mono_r; lia). lia.
  - intros Hlo. assert (Hpos : 0 < mx). { destruct (Z.eq_dec mx 0) as [->|]; [|lia]. change (Zdigits2 0) with 0 in *. lia. }
    pose proof (Zdigits2_bounds mx Hpos) as [Hb _]. pose proof (pow2_pred (Zdigits2 mx)) as Hp.
    assert (1 <= Zdigits2 mx) by (rewrite Zdigits2_pos by done; pose proof (Z.log2_nonneg mx); lia).
    apply rne_ge; [lia|]. rewrite <- Z.pow_add_r by lia. replace (23 + (e' - ex + 2)) with (Zdigits2 mx - 1 + 2) by lia.
    rewrite Z.pow_add_r by lia. lia.
Qed.

(** The second pass and the overflow check. *)
Definition round_finish (sx : bool) (M e' : Z) : float :=
  let '(mrs'', e'') := shr_fexp 24 128 M e' loc_Exact in
  match shr_m mrs'' with
  | Z0 => S754_zero sx
  | Zpos m => if Z.leb e'' (Z.sub 128 24) then S754_finite sx m e'' else S754_infinity sx
  | _ => S754_nan
  end.

Lemma finish_spec sx M e' :
  0 <= M <= 2 ^ 24 -> -149 <= e' -> (-149 < e' -> 2 ^ 23 <= M) -> M * 2 ^ (e' + 149) < 2 ^ 277 ->
  f_ok (round_finish sx M e') /\ fval (round_finish sx M e') = (if sx then -1 else 1) * (M * 2 ^ (e' + 149)).
Proof.
  intros HM He Hn Hv. unfold round_finish, shr_fexp. cbn [shr_record_of_loc]. rewrite fexp_eq.
  destruct (Z.eq_dec M (2 ^ 24)) as [->|Hne].
  - change (Zdigits2 (2 ^ 24)) with 25. replace (Z.max (25 + e' - 24) (-149) - e') with 1 by lia.
    change (shr _ e' 1) with (Build_shr_record (2 ^ 23) false false, e' + 1). cbn [shr_m].
    assert (He2 : e' + 1 <= 104).
    { apply Z.nlt_ge. intros Hlt. assert (2 ^ (104 + 149) <= 2 ^ (e' + 149)) by (apply Z.pow_le_mono_r; lia). lia. }
    change (2 ^ 23) with (Zpos (2 ^ 23)). destruct (Z.leb_spec (e' + 1) (128 - 24)); [|lia]. split.
    + unfold f_ok, bounded, canonical_mantissa. rewrite fexp_eq. change (Zpos (digits2_pos (2 ^ 23))) with 24. lia.
    + unfold fval. replace (e' + 1 + 149) with (1 + (e' + 149)) by lia. rewrite Z.pow_add_r by lia.
      change (Zpos (2 ^ 23)) with (2 ^ 23). destruct sx; lia.
  - assert (Hd : Zdigits2 M <= 24) by (apply Zdigits2_le; lia).
    assert (Hk : Z.max (Zdigits2 M + e' - 24) (-149) - e' <= 0) by lia.
    assert (Hshr : forall mrs k, k <= 0 -> shr mrs e' k = (mrs, e')) by (intros mrs [] ?; done || lia).
    rewrite Hshr by done. cbn [shr_m]. destruct M as [|p|p]; [by destruct sx| |lia].
    assert (He2 : e' <= 104).
    { apply Z.nlt_ge. intros Hlt. assert (2 ^ (105 + 149) <= 2 ^ (e' + 149)) by (apply Z.pow_le_mono_r; lia).
      pose proof (Hn ltac:(lia)). nia. }
    destruct (Z.leb_spec e' (128 - 24)); [|lia]. split; [|unfold fval; destruct sx; lia].
    unfold f_ok, bounded, canonical_mantissa. rewrite fexp_eq. change (Zpos (digits2_pos p)) with (Zdigits2 (Zpos p)).
    destruct (Z.eq_dec e' (-149)) as [->|]; [lia|].
    pose proof (Zdigits2_ge (Zpos p) 23 ltac:(lia)). lia.
Qed.

Lemma round_aux_spec sx mx ex lx :
  0 <= mx -> ex <= fexp 24 128 (Zdigits2 mx + ex) ->
  let e' := fexp 24 128 (Zdigits2 mx + ex) in
  let M := rne (4 * mx + loc_code lx) (e' - ex + 2) in
  M * 2 ^ (e' + 149) < 2 ^ 277 ->
  f_ok (binary_round_aux 24 128 sx mx ex lx) /\
  fval (binary_round_aux 24 128 sx mx ex lx) = (if sx then -1 else 1) * (M * 2 ^ (e' + 149)).
Proof.
  intros Hm He e' M Hv. pose proof (rounded_range mx ex lx Hm He) as Hr. cbv zeta in Hr. fold e' in Hr, He. fold M in Hr.
  pose proof (loc_code_range lx).
  pose proof (holds_shr (4 * mx + loc_code lx) 2 _ ex (e' - ex) ltac:(lia) ltac:(lia) (holds_init mx lx Hm)) as [Hh Hs].
  assert (Heq : binary_round_aux 24 128 sx mx ex lx = round_finish sx M e').
  { unfold binary_round_aux. unfold shr_fexp at 1. fold e'.
    destruct (shr (shr_record_of_loc mx lx) ex (e' - ex)) as [mrs1 e1]. cbn [fst snd] in Hh, Hs.
    replace (2 + Z.max (e' - ex) 0) with (e' - ex + 2) in Hh by lia. replace e1 with e' by lia.
    by rewrite (holds_rne (4 * mx + loc_code lx) (e' - ex + 2) mrs1) by (lia || done). }
  rewrite Heq. apply finish_spec; try done; apply Hr.
Qed.

(** The exact case, in units of [2^-U]. *)
Lemma round_aux_rnd sx p ex U :
  149 <= U -> - U <= ex -> ex <= fexp 24 128 (Zdigits2 (Zpos p) + ex) ->
  let w := Zpos p * 2 ^ (ex + U) in
  rnd_pos (U - 149) w < 2 ^ (277 + (U - 149)) ->
  f_ok (binary_round_aux 24 128 sx (Zpos p) ex loc_Exact) /\
  fval (binary_round_aux 24 128 sx (Zpos p) ex loc_Exact) * 2 ^ (U - 149) =
    (if sx then -1 else 1) * rnd_pos (U - 149) w.
Proof.
  intros HU Hex He w Hv. pose proof (round_aux_spec sx (Zpos p) ex loc_Exact ltac:(lia) He) as H. cbv zeta in H.
  pose proof (rounded_range (Zpos p) ex loc_Exact ltac:(lia) He) as Hr. cbv zeta in Hr.
  set (e' := fexp 24 128 (Zdigits2 (Zpos p) + ex)) in *.
  assert (He' : e' = Z.max (Zdigits2 (Zpos p) + ex - 24) (-149)) by apply fexp_eq.
  cbn [loc_code] in *. rewrite Z.add_0_r in *.
  assert (HM : rne (4 * Zpos p) (e' - ex + 2) = rne (Zpos p) (e' - ex)).
  { rewrite <- (rne_scale (Zpos p) (e' - ex) 2) by lia. f_equal. lia. }
  assert (Hw : rnd_pos (U - 149) w = rne (Zpos p) (e' - ex) * 2 ^ (e' + 149) * 2 ^ (U - 149)).
  { unfold rnd_pos. assert (Hn : ndrop (U - 149) w = e' + U).
    { unfold ndrop, w. rewrite Zdigits2_shift by lia. lia. }
    rewrite Hn. unfold w. rewrite <- (rne_scale (Zpos p) (e' - ex) (ex + U)) by lia.
    rewrite <- Z.mul_assoc, <- Z.pow_add_r by lia. f_equal; f_equal; lia. }
  rewrite HM in *. rewrite Hw in *. rewrite (Z.pow_add_r 2 277 (U - 149)) in Hv by lia.
  destruct H as [Hok Hval]; [nia|]. split; [done|]. rewrite Hval. lia.
Qed.

Lemma iter_xO_shift p d : Zpos (Pos.iter xO p d) = Zpos p * 2 ^ Zpos d.
Proof.
  induction d as [|d IH] using Pos.peano_ind; [cbn; lia|].
  rewrite Pos.iter_succ, Pos2Z.inj_succ, Z.pow_succ_r by lia. change (Zpos (Pos.iter xO p d)~0) with (2 * Zpos (Pos.iter xO p d)). lia.
Qed.

Lemma shl_align_spec p e e' :
  let '(q, f) := shl_align p e e' in f = Z.min e e' /\ Zpos q = Zpos p * 2 ^ (e - f).
Proof.
  unfold shl_align. destruct (e' - e) as [|d|d] eqn:E.
  - split; [lia|]. rewrite Z.sub_diag. lia.
  - split; [lia|]. rewrite Z.sub_diag. lia.
  - split; [lia|]. rewrite iter_xO_shift. do 2 f_equal. lia.
Qed.

Lemma binary_round_rnd sx p e :
  -149 <= e ->
  let w := Zpos p * 2 ^ (e + 149) in
  rnd_pos 0 w < 2 ^ 277 ->
  f_ok (binary_round 24 128 sx p e) /\ fval (binary_round 24 128 sx p e) = (if sx then -1 else 1) * rnd_pos 0 w.
Proof.
  intros He w Hv. unfold binary_round. pose proof (shl_align_spec p e (fexp 24 128 (Zpos (digits2_pos p) + e))) as Ha.
  change (Zpos (digits2_pos p)) with (Zdigits2 (Zpos p)) in *.
  destruct (shl_align p e _) as [q f]. destruct Ha as [Hf Hq]. rewrite fexp_eq in Hf.
  assert (Hd : Zdigits2 (Zpos q) = Zdigits2 (Zpos p) + (e - f)) by (rewrite Hq; apply Zdigits2_shift; lia).
  assert (Hw : w = Zpos q * 2 ^ (f + 149)).
  { unfold w. rewrite Hq, <- Z.mul_assoc, <- Z.pow_add_r by lia. do 2 f_equal. lia. }
  pose proof (round_aux_rnd sx q f 149 ltac:(lia) ltac:(lia)) as H. rewrite fexp_eq in H. cbv zeta in H.
  rewrite <- Hw in H. change (149 - 149) with 0 in H. rewrite Z.mul_1_r in H. apply H; [lia|done].
Qed.

Lemma rnd_bound g x b : 0 <= g -> representable g b -> Z.abs x <= b -> Z.abs (rnd g x) <= b.
Proof.
  intros Hg Hb Hx. assert (representable g (- b)). { destruct Hb as (m & k & Hk & Hm & ->). exists (- m), k. lia. }
  pose proof (rnd_le g x b Hg Hb ltac:(lia)). pose proof (rnd_ge g x (- b) Hg ltac:(done) ltac:(lia)). lia.
Qed.

Lemma binary_normalize_rnd m e s :
  -149 <= e -> Z.abs (rnd 0 (m * 2 ^ (e + 149))) < 2 ^ 277 ->
  f_ok (binary_normalize 24 128 m e s) /\ fval (binary_normalize 24 128 m e s) = rnd 0 (m * 2 ^ (e + 149)).
Proof.
  intros He Hv. assert (0 < 2 ^ (e + 149)) by lia. destruct m as [|p|p]; cbn [binary_normalize]; [done|..].
  - rewrite rnd_nonneg in * by lia. pose proof (rnd_pos_nonneg 0 (Zpos p * 2 ^ (e + 149))).
    destruct (binary_round_rnd false p e He); [lia|]. split; [done|]. lia.
  - replace (Zneg p * 2 ^ (e + 149)) with (- (Zpos p * 2 ^ (e + 149))) in * by lia.
    rewrite rnd_opp, rnd_nonneg in * by lia. pose proof (rnd_pos_nonneg 0 (Zpos p * 2 ^ (e + 149))).
    destruct (binary_round_rnd true p e He); [lia|]. split; [done|]. lia.
Qed.

(** ** Floats as integers *)
Lemma bounded_spec m e :
  bounded 24 128 m e = true <-> Zpos m < 2 ^ 24 /\ -149 <= e <= 104 /\ (-149 < e -> 2 ^ 23 <= Zpos m).
Proof.
  unfold bounded, canonical_mantissa. rewrite fexp_eq. change (Zpos (digits2_pos m)) with (Zdigits2 (Zpos m)).
  pose proof (Zdigits2_bounds (Zpos m) ltac:(lia)) as Hb. split.
  - intros H. assert (Hd : Zdigits2 (Zpos m) <= 24) by lia. split_and!; try lia.
    + assert (2 ^ Zdigits2 (Zpos m) <= 2 ^ 24) by (apply Z.pow_le_mono_r; lia). lia.
    + intros He. replace (Zdigits2 (Zpos m)) with 24 in Hb by lia. lia.
  - intros (Hm & He & Hn). pose proof (Zdigits2_le (Zpos m) 24 ltac:(lia)).
    destruct (Z.eq_dec e (-149)) as [->|]; [lia|]. pose proof (Zdigits2_ge (Zpos m) 23 ltac:(lia)). lia.
Qed.

Lemma fval_representable x : f_ok x -> representable 0 (fval x).
Proof.
  destruct x as [s| | |s m e]; intros Hx; [by exists 0, 0|done|done|]. apply bounded_spec in Hx as (Hm & He & _).
  exists (if s then Zneg m else Zpos m), (e + 149). cbn [fval]. split_and!; [lia|destruct s; lia|destruct s; lia].
Qed.

Lemma fval_range x : f_ok x -> Z.abs (fval x) < 2 ^ 277.
Proof.
  destruct x as [s| | |s m e]; intros Hx; [done|done|done|]. apply bounded_spec in Hx as (Hm & He & _). cbn [fval].
  assert (Z.pos m * 2 ^ (e + 149) < 2 ^ 24 * 2 ^ 253).
  { assert (0 < 2 ^ (e + 149) <= 2 ^ 253) by (split; [lia|apply Z.pow_le_mono_r; lia]). nia. }
  assert (0 < 2 ^ (e + 149)) by lia. destruct s; lia.
Qed.

Lemma rnd_fval x : f_ok x -> rnd 0 (fval x) = fval x.
Proof. intros Hx. by apply rnd_representable, fval_representable. Qed.

Lemma shl_align_val (s : bool) m e ez :
  ez <= e -> -149 <= ez ->
  cond_Zopp s (Zpos (fst (shl_align m e ez))) * 2 ^ (ez + 149) = fval (S754_finite s m e).
Proof.
  intros Hez Hlo. pose proof (shl_align_spec m e ez) as H. destruct (shl_align m e ez) as [q f]. cbn [fst fval].
  destruct H as [-> Hq]. replace (Z.min e ez) with ez in Hq by lia.
  assert (E : Zpos q * 2 ^ (ez + 149) = Zpos m * 2 ^ (e + 149)).
  { rewrite Hq, <- Z.mul_assoc, <- Z.pow_add_r by lia. do 2 f_equal. lia. }
  destruct s; cbn [cond_Zopp]; lia.
Qed.

Lemma f_opp_spec x : f_ok x -> f_ok (f_opp x) /\ fval (f_opp x) = - fval x.
Proof. destruct x as [s| | |[] m e]; cbn; intros H; (split; [done|lia]). Qed.

Lemma f_add_spec x y :
  f_ok x -> f_ok y -> Z.abs (rnd 0 (fval x + fval y)) < 2 ^ 277 ->
  f_ok (f_add x y) /\ fval (f_add x y) = rnd 0 (fval x + fval y).
Proof.
  intros Hx Hy Hv. destruct x as [sx| | |sx mx ex], y as [sy| | |sy my ey]; try done.
  - by destruct sx, sy.
  - cbn [f_add SFadd fval] in *. rewrite Z.add_0_l. split; [done|]. symmetry. by apply (rnd_fval (S754_finite sy my ey)).
  - cbn [f_add SFadd fval] in *. rewrite Z.add_0_r. split; [done|]. symmetry. by apply (rnd_fval (S754_finite sx mx ex)).
  - pose proof Hx as (_ & Hex & _)%bounded_spec. pose proof Hy as (_ & Hey & _)%bounded_spec.
    unfold f_add. cbn [SFadd].
    pose proof (shl_align_val sx mx ex (Z.min ex ey) ltac:(lia) ltac:(lia)) as Ex.
    pose proof (shl_align_val sy my ey (Z.min ex ey) ltac:(lia) ltac:(lia)) as Ey.
    rewrite <- Ex, <- Ey, <- Z.mul_add_distr_r in *. apply binary_normalize_rnd; [lia|done].
Qed.

Lemma f_sub_spec x y :
  f_ok x -> f_ok y -> Z.abs (rnd 0 (fval x - fval y)) < 2 ^ 277 ->
  f_ok (f_sub x y) /\ fval (f_sub x y) = rnd 0 (fval x - fval y).
Proof.
  intros Hx Hy Hv. destruct x as [sx| | |sx mx ex], y as [sy| | |sy my ey]; try done.
  - by destruct sx, sy.
  - unfold f_sub. cbn [SFsub]. split; [done|]. cbn [fval]. rewrite Z.sub_0_l.
    pose proof (rnd_fval (S754_finite sy my ey) Hy) as E. cbn [fval] in E. rewrite rnd_opp, E. destruct sy; cbn [negb]; lia.
  - unfold f_sub. cbn [SFsub]. split; [done|]. replace (fval (S754_zero sy)) with 0 by done. rewrite Z.sub_0_r.
    symmetry. by apply (rnd_fval (S754_finite sx mx ex)).
  - pose proof Hx as (_ & Hex & _)%bounded_spec. pose proof Hy as (_ & Hey & _)%bounded_spec.
    unfold f_sub. cbn [SFsub].
    pose proof (shl_align_val sx mx ex (Z.min ex ey) ltac:(lia) ltac:(lia)) as Ex.
    pose proof (shl_align_val sy my ey (Z.min ex ey) ltac:(lia) ltac:(lia)) as Ey.
    rewrite <- Ex, <- Ey, <- Z.mul_sub_distr_r in *. apply binary_normalize_rnd; [lia|done].
Qed.

Lemma f_mul_spec x y :
  f_ok x -> f_ok y -> Z.abs (rnd 149 (fval x * fval y)) < 2 ^ (277 + 149) ->
  f_ok (f_mul x y) /\ fval (f_mul x y) * f_unit = rnd 149 (fval x * fval y).
Proof.
  intros Hx Hy Hv. destruct x as [sx| | |sx mx ex], y as [sy| | |sy my ey]; try done.
  { cbn [f_mul SFmul fval]. by rewrite Z.mul_0_r. }
  pose proof Hx as (Hmx & Hex & Hnx)%bounded_spec. pose proof Hy as (Hmy & Hey & Hny)%bounded_spec.
  unfold f_mul. cbn [SFmul].
  set (w := Zpos (mx * my) * 2 ^ (ex + ey + 298)).
  assert (Hw : fval (S754_finite sx mx ex) * fval (S754_finite sy my ey) = (if xorb sx sy then -1 else 1) * w).
  { cbn [fval]. unfold w. replace (ex + ey + 298) with ((ex + 149) + (ey + 149)) by lia. rewrite (Z.pow_add_r 2 (ex + 149)) by lia.
    rewrite Pos2Z.inj_mul. destruct sx, sy; cbn [xorb]; lia. }
  assert (Hw0 : 0 < w) by (unfold w; assert (0 < 2 ^ (ex + ey + 298)) by lia; lia).
  assert (Hr : rnd 149 (fval (S754_finite sx mx ex) * fval (S754_finite sy my ey)) = (if xorb sx sy then -1 else 1) * rnd_pos 149 w).
  { rewrite Hw. destruct (xorb sx sy).
    - replace (-1 * w) with (- w) by lia. rewrite rnd_opp, rnd_nonneg by lia. lia.
    - rewrite !Z.mul_1_l. apply rnd_nonneg; lia. }
  rewrite Hr in *. pose proof (rnd_pos_nonneg 149 w).
  pose proof (round_aux_rnd (xorb sx sy) (mx * my) (ex + ey) 298 ltac:(lia) ltac:(lia)) as Hx2. cbv zeta in Hx2.
  fold w in Hx2. change (298 - 149) with 149 in Hx2. apply Hx2; [|destruct (xorb sx sy); lia].
  rewrite fexp_eq. destruct (Z.le_gt_cases (ex + ey) (-149)); [lia|].
  assert (Hd : 24 <= Zdigits2 (Zpos (mx * my))); [|lia].
  apply (Zdigits2_ge _ 23); [|lia]. rewrite Pos2Z.inj_mul.
  destruct (Z.eq_dec ex (-149)) as [->|]; [|nia]. destruct (Z.eq_dec ey (-149)) as [->|]; nia.
Qed.

(** Multiplication by [1.0f] is exact. *)
Lemma f_mul_unit g u :
  f_ok g -> fval g = f_unit -> f_ok u -> f_ok (f_mul g u) /\ fval (f_mul g u) = fval u.
Proof.
  intros Hg Hgv Hu.
  assert (E : rnd 149 (fval g * fval u) = fval u * f_unit).
  { rewrite Hgv, Z.mul_comm. apply rnd_representable; [done|].
    destruct (fval_representable u Hu) as (m & k & Hk & Hm & ->). exists m, (k + 149). unfold f_unit.
    rewrite Z.pow_add_r by lia. lia. }
  pose proof (f_mul_spec g u Hg Hu) as H. rewrite E in H.
  destruct H as [Hok Hv]; [|split; [done|unfold f_unit in *; lia]].
  pose proof (fval_range u Hu). rewrite Z.abs_mul. unfold f_unit. change (2 ^ (277 + 149)) with (2 ^ 277 * 2 ^ 149). lia.
Qed.

Lemma f_of_Z_spec z :
  Z.abs z <= 2 ^ 127 -> f_ok (f_of_Z z) /\ fval (f_of_Z z) = rnd 0 (z * f_unit).
Proof.
  intros Hz. unfold f_of_Z. apply binary_normalize_rnd; [lia|]. change (0 + 149) with 149.
  assert (Z.abs (rnd 0 (z * 2 ^ 149)) <= 2 ^ 276); [|lia]. apply rnd_bound; [done|by exists 1, 276|].
  rewrite Z.abs_mul. change (2 ^ 276) with (2 ^ 127 * 2 ^ 149). lia.
Qed.

(** ** Division, bounded by powers of two *)
Lemma loc_code_new_location n r :
  0 <= r < n -> (loc_code (new_location n r) = 0 <-> r = 0).
Proof.
  intros Hr. unfold new_location, new_location_even, new_location_odd.
  destruct (Z.even n), (Z.eqb_spec r 0) as [->|]; try done; (split; [|lia]); cbn [loc_code]; by repeat case_match.
Qed.

(** The quotient [SFdiv] rounds, its exponent and its location. *)
Lemma div_core_spec mx ex my ey :
  let e' := Z.min (fexp 24 128 (Zdigits2 (Zpos mx) + ex - (Zdigits2 (Zpos my) + ey))) (ex - ey) in
  let m' := Zpos mx * 2 ^ (ex - ey - e') in
  SFdiv_core_binary 24 128 (Zpos mx) ex (Zpos my) ey = (m' / Zpos my, e', new_location (Zpos my) (m' mod Zpos my)).
Proof.
  cbv zeta. unfold SFdiv_core_binary. set (e' := Z.min _ _). assert (Hs : 0 <= ex - ey - e') by lia.
  assert (Hm : match ex - ey - e' with 0 => Zpos mx | Zpos _ => Z.shiftl (Zpos mx) (ex - ey - e') | Zneg _ => 0 end
    = Zpos mx * 2 ^ (ex - ey - e')).
  { rewrite <- Z.shiftl_mul_pow2 by done. by destruct (ex - ey - e'). }
  rewrite Hm. rewrite (surjective_pairing (Z.div_eucl _ _)). done.
Qed.

Lemma div_core_exp mx ex my ey q e' l :
  SFdiv_core_binary 24 128 (Zpos mx) ex (Zpos my) ey = (q, e', l) ->
  0 <= q /\ e' <= fexp 24 128 (Zdigits2 q + e') /\ e' <= ex - ey /\
  q = Zpos mx * 2 ^ (ex - ey - e') / Zpos my /\ l = new_location (Zpos my) (Zpos mx * 2 ^ (ex - ey - e') mod Zpos my).
Proof.
  rewrite div_core_spec. set (D := Zdigits2 (Zpos mx) + ex - (Zdigits2 (Zpos my) + ey)).
  intros [= <- <- <-]. set (e' := Z.min _ _). assert (He : e' <= ex - ey /\ e' <= fexp 24 128 D) by lia. clearbody e'.
  assert (0 < 2 ^ (ex - ey - e')) by lia. split_and!; try done; try lia; [by apply Z.div_pos; lia|].
  rewrite fexp_eq in *. destruct (Z.le_gt_cases e' (-149)) as [|Hlo]; [lia|].
  assert (H23 : 2 ^ 23 <= Zpos mx * 2 ^ (ex - ey - e') / Zpos my).
  { pose proof (Zdigits2_bounds (Zpos mx) ltac:(lia)) as [Hx _]. pose proof (Zdigits2_bounds (Zpos my) ltac:(lia)) as [_ Hy].
    pose proof (Zdigits2_nonneg (Zpos my) ltac:(lia)). assert (1 <= Zdigits2 (Zpos mx)) by (cbn; lia).
    apply Z.div_le_lower_bound; [lia|].
    assert (2 ^ 23 * 2 ^ Zdigits2 (Zpos my) <= 2 ^ (Zdigits2 (Zpos mx) - 1) * 2 ^ (ex - ey - e')); [|nia].
    rewrite <- !Z.pow_add_r by lia. apply Z.pow_le_mono_r; lia. }
  pose proof (Zdigits2_ge _ 23 H23). lia.
Qed.

(** When the quotient is at most [2^j], so is its integer part at the quotient's exponent, and its rounding unit
    is 24 digits below. *)
Lemma div_quotient_le mx ex my ey q e' l j :
  -149 <= ex <= 104 -> -149 <= ey <= 104 ->
  SFdiv_core_binary 24 128 (Zpos mx) ex (Zpos my) ey = (q, e', l) -> -149 <= j ->
  Zpos mx * 2 ^ (ex + 298) <= 2 ^ (j + 149) * (Zpos my * 2 ^ (ey + 149)) ->
  (e' <= j -> Zpos mx * 2 ^ (ex - ey - e') <= 2 ^ (j - e') * Zpos my) /\
  fexp 24 128 (Zdigits2 q + e') <= Z.max (j - 23) (-149).
Proof.
  intros Hex Hey Hd Hj Hle. destruct (div_core_exp _ _ _ _ _ _ _ Hd) as (Hq0 & HE & Hs & Hq & _). clear Hd.
  set (m' := Zpos mx * 2 ^ (ex - ey - e')) in *. rewrite fexp_eq.
  pose proof (Z.div_mod m' (Zpos my) ltac:(lia)) as Hm'. pose proof (Z.mod_pos_bound m' (Zpos my) ltac:(lia)) as Hr.
  rewrite <- Hq in Hm'. set (a := 1000 + Z.abs e'). assert (Ha : 1000 <= a /\ 0 <= e' + a) by lia. clearbody a.
  assert (Hscale : m' * 2 ^ (e' + a) <= 2 ^ (j + a) * Zpos my).
  { unfold m'. rewrite <- Z.mul_assoc, <- Z.pow_add_r by lia.
    apply (Z.mul_le_mono_nonneg_r _ _ (2 ^ (a - 298 - ey))) in Hle; [|lia].
    rewrite <- Z.mul_assoc, <- Z.pow_add_r in Hle by lia.
    replace (ex + 298 + (a - 298 - ey)) with (ex - ey - e' + (e' + a)) in Hle by lia.
    replace (2 ^ (j + 149) * (Zpos my * 2 ^ (ey + 149)) * 2 ^ (a - 298 - ey))
      with (2 ^ (j + 149) * (2 ^ (ey + 149) * 2 ^ (a - 298 - ey)) * Zpos my) in Hle by lia.
    rewrite <- !Z.pow_add_r in Hle by lia.
    by replace (j + 149 + (ey + 149 + (a - 298 - ey))) with (j + a) in Hle by lia. }
  assert (0 < 2 ^ (e' + a)) by lia. split.
  - intros Hej. apply (Z.mul_le_mono_pos_r _ _ (2 ^ (e' + a))); [lia|].
    replace (2 ^ (j - e') * Zpos my * 2 ^ (e' + a)) with (2 ^ (j - e') * 2 ^ (e' + a) * Zpos my) by lia.
    rewrite <- Z.pow_add_r by lia. by replace (j - e' + (e' + a)) with (j + a) by lia.
  - destruct (Z.eq_dec q 0) as [->|Hq1]; [rewrite fexp_eq in HE; change (Zdigits2 0) with 0 in *; lia|].
    assert (Hqj : q * 2 ^ (e' + a) <= 2 ^ (j + a)) by nia.
    pose proof (Zdigits2_bounds q ltac:(lia)) as [Hb _].
    assert (1 <= Zdigits2 q) by (rewrite Zdigits2_pos by lia; pose proof (Z.log2_nonneg q); lia).
    assert (2 ^ (Zdigits2 q - 1 + (e' + a)) <= 2 ^ (j + a)) as Hpow by (rewrite Z.pow_add_r by lia; nia).
    apply Z.pow_le_mono_r_iff in Hpow; lia.
Qed.

(** The rounded quotient is at most [2^j] when the quotient is. *)
Lemma div_round_le mx ex my ey q e' l j :
  -149 <= ex <= 104 -> -149 <= ey <= 104 ->
  SFdiv_core_binary 24 128 (Zpos mx) ex (Zpos my) ey = (q, e', l) -> -149 <= j ->
  Zpos mx * 2 ^ (ex + 298) <= 2 ^ (j + 149) * (Zpos my * 2 ^ (ey + 149)) ->
  let E := fexp 24 128 (Zdigits2 q + e') in
  rne (4 * q + loc_code l) (E - e' + 2) * 2 ^ (E + 149) <= 2 ^ (j + 149).
Proof.
  intros Hex Hey Hd Hj Hle E. destruct (div_quotient_le _ _ _ _ _ _ _ j Hex Hey Hd Hj Hle) as [Hmj HjE]. fold E in HjE.
  destruct (div_core_exp _ _ _ _ _ _ _ Hd) as (Hq0 & HE & Hs & Hq & Hl). clear Hd. fold E in HE. specialize (Hmj ltac:(lia)).
  set (m' := Zpos mx * 2 ^ (ex - ey - e')) in *. assert (HE' : E = Z.max (Zdigits2 q + e' - 24) (-149)) by apply fexp_eq.
  pose proof (Z.div_mod m' (Zpos my) ltac:(lia)) as Hm'. pose proof (Z.mod_pos_bound m' (Zpos my) ltac:(lia)) as Hr.
  rewrite <- Hq in Hm'. pose proof (loc_code_new_location (Zpos my) (m' mod Zpos my) Hr) as Hc. rewrite <- Hl in Hc.
  pose proof (loc_code_range l) as Hcr.
  replace (2 ^ (j + 149)) with (2 ^ (j - E) * 2 ^ (E + 149)) by (rewrite <- Z.pow_add_r by lia; f_equal; lia).
  apply Z.mul_le_mono_nonneg_r; [lia|]. apply rne_le; [lia|]. rewrite <- Z.pow_add_r by lia.
  replace (j - E + (E - e' + 2)) with (j - e' + 2) by lia. rewrite Z.pow_add_r by lia.
  set (T := 2 ^ (j - e')) in *. assert (HqT : q <= T) by nia. change (2 ^ 2) with 4.
  destruct (Z.eq_dec q T) as [EqT|]; [|lia]. assert (Hr0 : m' mod Zpos my = 0) by nia. apply Hc in Hr0. lia.
Qed.

Lemma f_div_le x y j :
  f_ok x -> f_ok y -> fval y <> 0 -> -149 <= j <= 127 ->
  Z.abs (fval x) * f_unit <= 2 ^ (j + 149) * Z.abs (fval y) ->
  f_ok (f_div x y) /\ Z.abs (fval (f_div x y)) <= 2 ^ (j + 149).
Proof.
  intros Hx Hy Hy0 Hj Hle. assert (0 < 2 ^ (j + 149)) by lia.
  destruct y as [sy| | |sy my ey]; try done. destruct x as [sx| | |sx mx ex]; try done; [split; [done|cbn; lia]|].
  pose proof Hx as (_ & Hex & _)%bounded_spec. pose proof Hy as (_ & Hey & _)%bounded_spec.
  assert (Hle' : Zpos mx * 2 ^ (ex + 298) <= 2 ^ (j + 149) * (Zpos my * 2 ^ (ey + 149))).
  { replace (ex + 298) with (ex + 149 + 149) by lia. rewrite Z.pow_add_r by lia. cbn [fval] in Hle. unfold f_unit in Hle.
    assert (0 < 2 ^ (ex + 149)) by lia. assert (0 < 2 ^ (ey + 149)) by lia. destruct sx, sy; lia. }
  unfold f_div. cbn [SFdiv]. destruct (SFdiv_core_binary 24 128 (Zpos mx) ex (Zpos my) ey) as [[q e'] l] eqn:E.
  pose proof (div_round_le _ _ _ _ _ _ _ j Hex Hey E ltac:(lia) Hle') as Hb. cbv zeta in Hb.
  destruct (div_core_exp _ _ _ _ _ _ _ E) as (Hq0 & HE & _).
  pose proof (rounded_range q e' l Hq0 HE) as (HM & He & _).
  assert (2 ^ (j + 149) <= 2 ^ 276) by (apply Z.pow_le_mono_r; lia).
  destruct (round_aux_spec (xorb sx sy) q e' l Hq0 HE ltac:(lia)) as [Hok Hval]. split; [done|]. rewrite Hval.
  assert (0 < 2 ^ (fexp 24 128 (Zdigits2 q + e') + 149)) by lia. destruct (xorb sx sy); nia.
Qed.

(** ** Comparison and conversion *)
Lemma magnitude_lt m1 e1 m2 e2 :
  bounded 24 128 m1 e1 = true -> bounded 24 128 m2 e2 = true -> e1 < e2 ->
  Zpos m1 * 2 ^ (e1 + 149) < Zpos m2 * 2 ^ (e2 + 149).
Proof.
  intros (Hm1 & He1 & _)%bounded_spec (_ & He2 & Hm2)%bounded_spec Hlt.
  replace (e2 + 149) with (1 + (e2 - e1 - 1) + (e1 + 149)) by lia. rewrite (Z.pow_add_r 2 (1 + _)) by lia.
  assert (2 ^ 1 <= 2 ^ (1 + (e2 - e1 - 1))) by (apply Z.pow_le_mono_r; lia).
  assert (0 < 2 ^ (e1 + 149)) by lia. specialize (Hm2 ltac:(lia)).
  set (X := 2 ^ (1 + (e2 - e1 - 1))) in *. assert (Zpos m1 < Zpos m2 * X) by nia. nia.
Qed.

Lemma magnitude_compare m1 e1 m2 e2 :
  bounded 24 128 m1 e1 = true -> bounded 24 128 m2 e2 = true ->
  match e1 ?= e2 with Lt => Lt | Gt => Gt | Eq => Pos.compare_cont Eq m1 m2 end =
    (Zpos m1 * 2 ^ (e1 + 149) ?= Zpos m2 * 2 ^ (e2 + 149)).
Proof.
  intros H1 H2. destruct (Z.compare_spec e1 e2) as [->|Hlt|Hlt]; symmetry.
  - apply bounded_spec in H2 as (_ & He & _). rewrite <- Zmult_compare_compat_r by lia. done.
  - apply Z.compare_lt_iff. by apply magnitude_lt.
  - apply Z.compare_gt_iff. by apply magnitude_lt.
Qed.

Lemma f_compare_spec x y : f_ok x -> f_ok y -> SFcompare x y = Some (fval x ?= fval y).
Proof.
  intros Hx Hy.
  destruct x as [sx| | |sx mx ex], y as [sy| | |sy my ey]; try done; cbn [SFcompare].
  - pose proof Hy as (_ & He & _)%bounded_spec. cbn [fval]. assert (0 < 2 ^ (ey + 149)) by lia. f_equal. symmetry.
    destruct sy; [apply Z.compare_gt_iff|apply Z.compare_lt_iff]; lia.
  - pose proof Hx as (_ & He & _)%bounded_spec. cbn [fval]. assert (0 < 2 ^ (ex + 149)) by lia. f_equal. symmetry.
    destruct sx; [apply Z.compare_lt_iff|apply Z.compare_gt_iff]; cbn [fval]; lia.
  - pose proof (magnitude_compare mx ex my ey Hx Hy) as Hm. cbn [fval].
    pose proof Hx as (_ & Hex & _)%bounded_spec. pose proof Hy as (_ & Hey & _)%bounded_spec.
    assert (0 < 2 ^ (ex + 149)) by lia. assert (0 < 2 ^ (ey + 149)) by lia. f_equal. destruct sx, sy.
    + replace (-1 * (Zpos mx * 2 ^ (ex + 149))) with (- (Zpos mx * 2 ^ (ex + 149))) by lia.
      replace (-1 * (Zpos my * 2 ^ (ey + 149))) with (- (Zpos my * 2 ^ (ey + 149))) by lia.
      rewrite Z.compare_opp, <- (Zcompare_antisym (Zpos mx * _)), <- Hm. by destruct (ex ?= ey).
    + symmetry. apply Z.compare_lt_iff. lia.
    + symmetry. apply Z.compare_gt_iff. lia.
    + by rewrite !Z.mul_1_l.
Qed.

Lemma f_lt_spec x y : f_ok x -> f_ok y -> f_lt x y = (fval x <? fval y).
Proof. intros Hx Hy. unfold f_lt, SFltb. rewrite f_compare_spec by done. unfold Z.ltb. by destruct (_ ?= _). Qed.

Lemma f_eq_spec x y : f_ok x -> f_ok y -> f_eq x y = (fval x =? fval y).
Proof.
  intros Hx Hy. unfold f_eq, SFeqb. rewrite f_compare_spec by done.
  destruct (Z.compare_spec (fval x) (fval y)); symmetry; lia.
Qed.

(** Truncation is integer division of the value by [1.0f]. *)
Lemma f_trunc_spec x : f_ok x -> f_trunc x = Some (Z.quot (fval x) f_unit).
Proof.
  destruct x as [s| | |s m e]; try done. intros Hx. pose proof Hx as (_ & He & _)%bounded_spec. cbn [f_trunc fval]. f_equal.
  assert (E : (if 0 <=? e then Zpos m * 2 ^ e else Zpos m / 2 ^ (- e)) = Z.quot (Zpos m * 2 ^ (e + 149)) f_unit).
  { unfold f_unit. assert (0 < 2 ^ (e + 149)) by lia. rewrite Z.quot_div_nonneg by lia. destruct (Z.leb_spec 0 e).
    - rewrite Z.pow_add_r, Z.mul_assoc, Z.div_mul by lia. done.
    - replace (2 ^ 149) with (2 ^ (- e) * 2 ^ (e + 149)) by (rewrite <- Z.pow_add_r by lia; f_equal; lia).
      by rewrite Z.div_mul_cancel_r by lia. }
  rewrite E. destruct s.
  - replace (-1 * (Zpos m * 2 ^ (e + 149))) with (- (Zpos m * 2 ^ (e + 149))) by lia. by rewrite Z.quot_opp_l by done.
  - by rewrite Z.mul_1_l.
Qed.

Lemma f_to_i32_spec x lo hi :
  f_ok x -> - 2 ^ 31 <= lo -> hi < 2 ^ 31 -> lo * f_unit <= fval x <= hi * f_unit ->
  exists z, f_to_i32 x = Some z /\ Z.min lo 0 <= z <= Z.max hi 0 /\ (0 <= lo -> lo <= z) /\ (hi <= 0 -> z <= hi).
Proof.
  intros Hx Hlo Hhi Hb. unfold f_to_i32. rewrite f_trunc_spec by done. cbn.
  assert (Hq : Z.min lo 0 <= fval x ÷ f_unit <= Z.max hi 0 /\ (0 <= lo -> lo <= fval x ÷ f_unit) /\ (hi <= 0 -> fval x ÷ f_unit <= hi)).
  { unfold f_unit in *. Z.quot_rem_to_equations. lia. }
  exists (fval x ÷ f_unit). rewrite bool_decide_true by clia. split; [done|]. lia.
Qed.

(** ** Small integers are exact *)
Lemma f_of_Z_exact z : Z.abs z <= 2 ^ 24 -> f_ok (f_of_Z z) /\ fval (f_of_Z z) = z * f_unit.
Proof.
  intros Hz. destruct (f_of_Z_spec z ltac:(lia)) as [Hok Hv]. split; [done|]. rewrite Hv.
  apply rnd_representable; [done|]. exists z, 149. unfold f_unit. lia.
Qed.

(** ** Bounds through an expression *)

(** [x] is finite and at most [2^k] in magnitude. *)
Definition fbnd (k : Z) (x : float) : Prop := f_ok x /\ Z.abs (fval x) <= 2 ^ (k + 149).

Lemma pow2_representable g j : 0 <= g <= j -> representable g (2 ^ j).
Proof. intros Hj. exists 1, j. lia. Qed.

Lemma fbnd_weaken k j x : -149 <= k <= j -> fbnd k x -> fbnd j x.
Proof.
  intros Hk [Hok Hx]. split; [done|]. assert (2 ^ (k + 149) <= 2 ^ (j + 149)) by (apply Z.pow_le_mono_r; lia). lia.
Qed.

Lemma pow2_sum a b k : -149 <= a < k -> -149 <= b < k -> 2 ^ (a + 149) + 2 ^ (b + 149) <= 2 ^ (k + 149).
Proof.
  intros Ha Hb. replace (k + 149) with (Z.succ (k - 1 + 149)) by lia. rewrite Z.pow_succ_r by lia.
  assert (2 ^ (a + 149) <= 2 ^ (k - 1 + 149)) by (apply Z.pow_le_mono_r; lia).
  assert (2 ^ (b + 149) <= 2 ^ (k - 1 + 149)) by (apply Z.pow_le_mono_r; lia). lia.
Qed.

Lemma rnd0_small v k : -149 <= k <= 127 -> Z.abs v <= 2 ^ (k + 149) -> Z.abs (rnd 0 v) <= 2 ^ (k + 149) < 2 ^ 277.
Proof.
  intros Hk Hv. split; [|apply Z.pow_lt_mono_r; lia]. apply rnd_bound; [done| |done]. apply pow2_representable. lia.
Qed.

Lemma fbnd_opp k x : fbnd k x -> fbnd k (f_opp x).
Proof. intros [Hok Hx]. destruct (f_opp_spec x Hok) as [Ho Hv]. split; [done|]. lia. Qed.

Lemma fbnd_add a b k x y :
  fbnd a x -> fbnd b y -> -149 <= a < k -> -149 <= b < k -> k <= 127 -> fbnd k (f_add x y).
Proof.
  intros [Hx Hxb] [Hy Hyb] Ha Hb Hk. pose proof (pow2_sum a b k Ha Hb).
  pose proof (rnd0_small (fval x + fval y) k ltac:(lia) ltac:(lia)).
  destruct (f_add_spec x y Hx Hy ltac:(lia)) as [Hok Hv]. split; [done|]. lia.
Qed.

Lemma fbnd_sub a b k x y :
  fbnd a x -> fbnd b y -> -149 <= a < k -> -149 <= b < k -> k <= 127 -> fbnd k (f_sub x y).
Proof.
  intros [Hx Hxb] [Hy Hyb] Ha Hb Hk. pose proof (pow2_sum a b k Ha Hb).
  pose proof (rnd0_small (fval x - fval y) k ltac:(lia) ltac:(lia)).
  destruct (f_sub_spec x y Hx Hy ltac:(lia)) as [Hok Hv]. split; [done|]. lia.
Qed.

Lemma fbnd_mul a b k x y :
  fbnd a x -> fbnd b y -> -149 <= a -> -149 <= b -> a + b <= k -> -149 <= k <= 127 -> fbnd k (f_mul x y).
Proof.
  intros [Hx Hxb] [Hy Hyb] Ha Hb Hab Hk.
  assert (Hp : Z.abs (fval x * fval y) <= 2 ^ (k + 149 + 149)).
  { rewrite Z.abs_mul. transitivity (2 ^ (a + 149) * 2 ^ (b + 149)); [nia|]. rewrite <- Z.pow_add_r by lia.
    apply Z.pow_le_mono_r; lia. }
  assert (Hr : Z.abs (rnd 149 (fval x * fval y)) <= 2 ^ (k + 149 + 149)).
  { apply rnd_bound; [done| |done]. apply pow2_representable. lia. }
  assert (2 ^ (k + 149 + 149) < 2 ^ (277 + 149)) by (apply Z.pow_lt_mono_r; lia).
  destruct (f_mul_spec x y Hx Hy ltac:(lia)) as [Hok Hv]. split; [done|].
  rewrite <- Hv, Z.pow_add_r, Z.abs_mul in Hr by lia. unfold f_unit in Hr. lia.
Qed.

Lemma fbnd_div a b k x y :
  fbnd a x -> f_ok y -> 2 ^ (b + 149) <= Z.abs (fval y) -> -149 <= a -> -149 <= b -> a - b <= k -> -149 <= k <= 127 ->
  fbnd k (f_div x y).
Proof.
  intros [Hx Hxb] Hy Hyb Ha Hb Hab Hk. apply f_div_le; try done; [lia|].
  transitivity (2 ^ (a + 149) * 2 ^ 149); [unfold f_unit; nia|].
  transitivity (2 ^ (k + 149) * 2 ^ (b + 149)); [|nia]. rewrite <- !Z.pow_add_r by lia. apply Z.pow_le_mono_r; lia.
Qed.

Lemma fbnd_of_Z z k : 0 <= k <= 127 -> Z.abs z <= 2 ^ k -> fbnd k (f_of_Z z).
Proof.
  intros Hk Hz. assert (2 ^ k <= 2 ^ 127) by (apply Z.pow_le_mono_r; lia).
  destruct (f_of_Z_spec z ltac:(lia)) as [Hok Hv]. split; [done|]. rewrite Hv. apply rnd0_small; [lia|].
  rewrite Z.abs_mul, Z.pow_add_r by lia. unfold f_unit. lia.
Qed.

(** A literal is a concrete float. *)
Ltac f_const := split; [by vm_compute|by vm_compute].

(** [0.1f] as a compiler stores it (0x3dcccccd). *)
Lemma f_lit_tenth : f_lit 1 10 = S754_finite false 13421773 (-27).
Proof. by vm_compute. Qed.
