(* ===== verification/Rounding.v ===== *)
(** * Rounding: how far binary32 arithmetic is from exact arithmetic

    For a result of magnitude at most [2^j], an addition, subtraction or multiplication is off by at
    most [2^(j - 24)] and a division by at most twice that; all in units of [2^-149]. *)
From S2P Require Import Prelude Float32.
From Stdlib Require Import SpecFloat.

(** Rounding moves an integer of [24 + k] digits by at most [2^k]. *)
Lemma rnd_near g k x : 0 <= g <= k -> Z.abs x <= 2 ^ (24 + k) -> Z.abs (rnd g x - x) <= 2 ^ k.
Proof.
  intros Hk Hx. rewrite Z.pow_add_r in Hx by lia. assert (0 < 2 ^ k) by lia.
  pose proof (Z.div_mod x (2 ^ k) ltac:(lia)) as Hdm. pose proof (Z.mod_pos_bound x (2 ^ k) ltac:(lia)) as Hm.
  set (q := x / 2 ^ k) in *. assert (Hq : - 2 ^ 24 <= q <= 2 ^ 24) by nia.
  assert (Hlo : q * 2 ^ k <= rnd g x) by (apply rnd_ge; [lia|exists q, k; lia|lia]).
  destruct (Z.eq_dec (x mod 2 ^ k) 0) as [E|E].
  - assert (rnd g x <= q * 2 ^ k) by (apply rnd_le; [lia|exists q, k; lia|lia]). lia.
  - assert (rnd g x <= (q + 1) * 2 ^ k) by (apply rnd_le; [lia|exists (q + 1), k; split_and!; nia|nia]). nia.
Qed.

(** The rounded quotient, off by at most two units in its last place. *)
Lemma div_round_near mx ex my ey q e' l :
  -149 <= ex <= 104 -> -149 <= ey <= 104 ->
  SFdiv_core_binary 24 128 (Zpos mx) ex (Zpos my) ey = (q, e', l) ->
  let E := fexp 24 128 (Zdigits2 q + e') in
  let v := rne (4 * q + loc_code l) (E - e' + 2) * 2 ^ (E + 149) in
  Z.abs (v * (Zpos my * 2 ^ (ey + 149)) - Zpos mx * 2 ^ (ex + 298)) <= 2 * 2 ^ (E + 149) * (Zpos my * 2 ^ (ey + 149)).
Proof.
  intros Hex Hey Hd E v. destruct (div_core_exp _ _ _ _ _ _ _ Hd) as (Hq0 & HE & Hs & Hq & Hl). clear Hd.
  set (m' := Zpos mx * 2 ^ (ex - ey - e')) in *. fold E in HE. assert (HE' : -149 <= E) by (unfold E; rewrite fexp_eq; lia).
  pose proof (Z.div_mod m' (Zpos my) ltac:(lia)) as Hm'. pose proof (Z.mod_pos_bound m' (Zpos my) ltac:(lia)) as Hr.
  rewrite <- Hq in Hm'. pose proof (loc_code_range l) as Hc. set (r := rne _ _) in *.
  assert (Hr1 : Z.abs (r * 2 ^ (E - e' + 2) - (4 * q + loc_code l)) <= 2 ^ (E - e' + 2)).
  { pose proof (rne_bounds (4 * q + loc_code l) (E - e' + 2) ltac:(lia)) as Hb. fold r in Hb.
    assert (0 < 2 ^ (E - e' + 2)) by lia. pose proof (Z.div_mod (4 * q + loc_code l) (2 ^ (E - e' + 2)) ltac:(lia)).
    pose proof (Z.mod_pos_bound (4 * q + loc_code l) (2 ^ (E - e' + 2)) ltac:(lia)). nia. }
  rewrite Z.pow_add_r in Hr1 by lia. change (2 ^ 2) with 4 in Hr1. set (X := 2 ^ (E - e')) in *. assert (HX : 1 <= X) by lia.
  assert (Hmain : Z.abs (r * X * Zpos my - m') <= 2 * X * Zpos my) by nia.
  set (a := 1000 + Z.abs e').
  assert (H1 : X * 2 ^ (e' + ey + 298 + a) = 2 ^ (E + 149) * 2 ^ (ey + 149) * 2 ^ a).
  { unfold X. rewrite <- !Z.pow_add_r by lia. f_equal. lia. }
  assert (H2 : m' * 2 ^ (e' + ey + 298 + a) = Zpos mx * 2 ^ (ex + 298) * 2 ^ a).
  { unfold m'. rewrite <- !Z.mul_assoc, <- !Z.pow_add_r by lia. do 2 f_equal. lia. }
  apply (Z.mul_le_mono_nonneg_r _ _ (2 ^ (e' + ey + 298 + a))) in Hmain; [|lia]. unfold v.
  assert (0 < 2 ^ a) by lia. assert (HP : 0 < 2 ^ (e' + ey + 298 + a)) by lia. clearbody a X. clear -Hmain H1 H2 H HP.
  set (P := 2 ^ (e' + ey + 298 + a)) in *. set (G := 2 ^ (E + 149)) in *. set (Fy := 2 ^ (ey + 149)) in *. set (mxx := 2 ^ (ex + 298)) in *.
  apply (Z.mul_le_mono_pos_r _ _ (2 ^ a)); [done|].
  replace (2 * G * (Zpos my * Fy) * 2 ^ a) with (2 * X * Zpos my * P) by nia.
  etransitivity; [|exact Hmain]. apply Z.eq_le_incl.
  rewrite <- (Z.abs_eq (2 ^ a)) at 1 by lia. rewrite <- (Z.abs_eq P) by lia. rewrite <- !Z.abs_mul. f_equal.
  replace ((r * X * Zpos my - m') * P) with (r * Zpos my * (X * P) - m' * P) by ring. rewrite H1, H2. ring.
Qed.

(** The quotient by a positive float, when it is at most [2^j]. *)
Lemma f_div_near x y j :
  f_ok x -> f_ok y -> 0 < fval y -> -126 <= j <= 127 ->
  Z.abs (fval x) * f_unit <= 2 ^ (j + 149) * fval y ->
  f_ok (f_div x y) /\ Z.abs (fval (f_div x y) * fval y - fval x * f_unit) <= 2 ^ (j - 22 + 149) * fval y.
Proof.
  intros Hx Hy Hy0 Hj Hle.
  destruct (f_div_le x y j Hx Hy ltac:(lia) ltac:(lia) ltac:(rewrite (Z.abs_eq (fval y)) by lia; exact Hle)) as [Hok _]. split; [done|].
  assert (0 < 2 ^ (j - 22 + 149)) by lia.
  destruct y as [sy| | |sy my ey]; try done. destruct x as [sx| | |sx mx ex]; try done; [unfold f_div; cbn [SFdiv fval] in *; nia|].
  pose proof Hx as (_ & Hex & _)%bounded_spec. pose proof Hy as (_ & Hey & _)%bounded_spec.
  assert (Hpy : 0 < 2 ^ (ey + 149)) by lia. assert (0 < 2 ^ (ex + 149)) by lia.
  destruct sy; [cbn [fval] in Hy0; lia|].
  assert (Hpow : 2 ^ (ex + 298) = 2 ^ (ex + 149) * f_unit) by (replace (ex + 298) with (ex + 149 + 149) by lia; by rewrite Z.pow_add_r by lia).
  assert (Hle' : Zpos mx * 2 ^ (ex + 298) <= 2 ^ (j + 149) * (Zpos my * 2 ^ (ey + 149))).
  { rewrite Hpow. cbn [fval] in Hle. unfold f_unit in *. destruct sx; lia. }
  unfold f_div in *. cbn [SFdiv] in *. destruct (SFdiv_core_binary 24 128 (Zpos mx) ex (Zpos my) ey) as [[q e'] l] eqn:E.
  pose proof (div_round_near _ _ _ _ _ _ _ Hex Hey E) as Hn. cbv zeta in Hn.
  pose proof (div_round_le _ _ _ _ _ _ _ j Hex Hey E ltac:(lia) Hle') as Hb. cbv zeta in Hb.
  destruct (div_quotient_le _ _ _ _ _ _ _ j Hex Hey E ltac:(lia) Hle') as [_ HE']. destruct (div_core_exp _ _ _ _ _ _ _ E) as (Hq0 & HE & _).
  assert (2 ^ (j + 149) <= 2 ^ 276) by (apply Z.pow_le_mono_r; lia).
  destruct (round_aux_spec (xorb sx false) q e' l Hq0 HE ltac:(lia)) as [_ ->]. rewrite fexp_eq in *.
  set (F := Z.max (Zdigits2 q + e' - 24) (-149)) in *. set (v := rne _ _ * _) in *.
  assert (Hunit : 2 * 2 ^ (F + 149) <= 2 ^ (j - 22 + 149)).
  { rewrite <- (Z.pow_succ_r 2) by lia. apply Z.pow_le_mono_r; lia. }
  rewrite Hpow in Hn. cbn [fval xorb]. set (P := 2 ^ (F + 149)) in *. set (Q := 2 ^ (j - 22 + 149)) in *.
  set (Y := Zpos my * 2 ^ (ey + 149)) in *. assert (HY : 0 < Y) by lia. assert (2 * P * Y <= Q * Y) by nia.
  destruct sx; cbn [xorb]; lia.
Qed.

(** Addition and subtraction. *)
Lemma f_add_near x y j :
  f_ok x -> f_ok y -> -125 <= j <= 127 -> Z.abs (fval x + fval y) <= 2 ^ (j + 149) ->
  f_ok (f_add x y) /\ Z.abs (fval (f_add x y) - (fval x + fval y)) <= 2 ^ (j - 24 + 149).
Proof.
  intros Hx Hy Hj Hle. destruct (f_add_spec x y Hx Hy) as [Hok ->].
  { pose proof (rnd0_small (fval x + fval y) j ltac:(lia) Hle). lia. }
  split; [done|]. apply rnd_near; [lia|]. by replace (24 + (j - 24 + 149)) with (j + 149) by lia.
Qed.

Lemma f_sub_near x y j :
  f_ok x -> f_ok y -> -125 <= j <= 127 -> Z.abs (fval x - fval y) <= 2 ^ (j + 149) ->
  f_ok (f_sub x y) /\ Z.abs (fval (f_sub x y) - (fval x - fval y)) <= 2 ^ (j - 24 + 149).
Proof.
  intros Hx Hy Hj Hle. destruct (f_sub_spec x y Hx Hy) as [Hok ->].
  { pose proof (rnd0_small (fval x - fval y) j ltac:(lia) Hle). lia. }
  split; [done|]. apply rnd_near; [lia|]. by replace (24 + (j - 24 + 149)) with (j + 149) by lia.
Qed.

(** Multiplication. *)
Lemma f_mul_near x y j :
  f_ok x -> f_ok y -> -125 <= j <= 127 -> Z.abs (fval x * fval y) <= 2 ^ (j + 149) * f_unit ->
  f_ok (f_mul x y) /\ Z.abs (fval (f_mul x y) * f_unit - fval x * fval y) <= 2 ^ (j - 24 + 149) * f_unit.
Proof.
  intros Hx Hy Hj Hle. unfold f_unit in Hle. rewrite <- Z.pow_add_r in Hle by lia.
  destruct (f_mul_spec x y Hx Hy) as [Hok ->].
  { assert (Z.abs (rnd 149 (fval x * fval y)) <= 2 ^ (j + 149 + 149)).
    { apply rnd_bound; [done|apply pow2_representable; lia|done]. }
    assert (2 ^ (j + 149 + 149) < 2 ^ (277 + 149)) by (apply Z.pow_lt_mono_r; lia). lia. }
  split; [done|]. unfold f_unit. rewrite <- Z.pow_add_r by lia. apply rnd_near; [lia|].
  by replace (24 + (j - 24 + 149 + 149)) with (j + 149 + 149) by lia.
Qed.
