(* ===== verification/Control.v ===== *)
(** * Control: the PID controller and the simulated plant (lib/control)

    [gov_pid_step], [gov_plant_step] and [gov_ctrl_degraded_clamp] with the operation order of the C
    code on binary32 floats; finiteness and range of the controller's output, the divergence report
    as a function of the history, the contraction of the plant towards its input. *)
From S2P Require Import Prelude Float32.
From Stdlib Require Import SpecFloat.

(** ** Data *)
Definition f_zero : float := S754_zero false.

Definition GOV_CTRL_PERIOD_MS : Z := 10.
Definition GOV_DIVERGE_LIMIT : float := f_of_Z 150.
Definition GOV_DIVERGE_MS : Z := 200.
Definition GOV_SAFE_OUTPUT : Z := 0.
Definition GOV_DEGRADED_CLAMP_PCT : Z := 50.
Definition GOV_CTRL_OUT_MIN : float := f_zero.
Definition GOV_CTRL_OUT_MAX : float := f_of_Z 100.

Record gov_pid_cfg := mkPidCfg {
  pc_kp : float;
  pc_ki : float;
  pc_kd : float;
  pc_out_min : float;
  pc_out_max : float;
  pc_integ_min : float;
  pc_integ_max : float;
  pc_diverge_limit : float;
  pc_diverge_ms : Z
}.

Definition set_pc_kp (v : float) (r : gov_pid_cfg) : gov_pid_cfg :=
  {| pc_kp := v; pc_ki := r.(pc_ki); pc_kd := r.(pc_kd); pc_out_min := r.(pc_out_min);
     pc_out_max := r.(pc_out_max); pc_integ_min := r.(pc_integ_min);
     pc_integ_max := r.(pc_integ_max); pc_diverge_limit := r.(pc_diverge_limit);
     pc_diverge_ms := r.(pc_diverge_ms) |}.
Definition set_pc_ki (v : float) (r : gov_pid_cfg) : gov_pid_cfg :=
  {| pc_kp := r.(pc_kp); pc_ki := v; pc_kd := r.(pc_kd); pc_out_min := r.(pc_out_min);
     pc_out_max := r.(pc_out_max); pc_integ_min := r.(pc_integ_min);
     pc_integ_max := r.(pc_integ_max); pc_diverge_limit := r.(pc_diverge_limit);
     pc_diverge_ms := r.(pc_diverge_ms) |}.
Definition set_pc_kd (v : float) (r : gov_pid_cfg) : gov_pid_cfg :=
  {| pc_kp := r.(pc_kp); pc_ki := r.(pc_ki); pc_kd := v; pc_out_min := r.(pc_out_min);
     pc_out_max := r.(pc_out_max); pc_integ_min := r.(pc_integ_min);
     pc_integ_max := r.(pc_integ_max); pc_diverge_limit := r.(pc_diverge_limit);
     pc_diverge_ms := r.(pc_diverge_ms) |}.
Definition set_pc_out_min (v : float) (r : gov_pid_cfg) : gov_pid_cfg :=
  {| pc_kp := r.(pc_kp); pc_ki := r.(pc_ki); pc_kd := r.(pc_kd); pc_out_min := v;
     pc_out_max := r.(pc_out_max); pc_integ_min := r.(pc_integ_min);
     pc_integ_max := r.(pc_integ_max); pc_diverge_limit := r.(pc_diverge_limit);
     pc_diverge_ms := r.(pc_diverge_ms) |}.
Definition set_pc_out_max (v : float) (r : gov_pid_cfg) : gov_pid_cfg :=
  {| pc_kp := r.(pc_kp); pc_ki := r.(pc_ki); pc_kd := r.(pc_kd); pc_out_min := r.(pc_out_min);
     pc_out_max := v; pc_integ_min := r.(pc_integ_min); pc_integ_max := r.(pc_integ_max);
     pc_diverge_limit := r.(pc_diverge_limit); pc_diverge_ms := r.(pc_diverge_ms) |}.
Definition set_pc_integ_min (v : float) (r : gov_pid_cfg) : gov_pid_cfg :=
  {| pc_kp := r.(pc_kp); pc_ki := r.(pc_ki); pc_kd := r.(pc_kd); pc_out_min := r.(pc_out_min);
     pc_out_max := r.(pc_out_max); pc_integ_min := v; pc_integ_max := r.(pc_integ_max);
     pc_diverge_limit := r.(pc_diverge_limit); pc_diverge_ms := r.(pc_diverge_ms) |}.
Definition set_pc_integ_max (v : float) (r : gov_pid_cfg) : gov_pid_cfg :=
  {| pc_kp := r.(pc_kp); pc_ki := r.(pc_ki); pc_kd := r.(pc_kd); pc_out_min := r.(pc_out_min);
     pc_out_max := r.(pc_out_max); pc_integ_min := r.(pc_integ_min); pc_integ_max := v;
     pc_diverge_limit := r.(pc_diverge_limit); pc_diverge_ms := r.(pc_diverge_ms) |}.
Definition set_pc_diverge_limit (v : float) (r : gov_pid_cfg) : gov_pid_cfg :=
  {| pc_kp := r.(pc_kp); pc_ki := r.(pc_ki); pc_kd := r.(pc_kd); pc_out_min := r.(pc_out_min);
     pc_out_max := r.(pc_out_max); pc_integ_min := r.(pc_integ_min);
     pc_integ_max := r.(pc_integ_max); pc_diverge_limit := v;
     pc_diverge_ms := r.(pc_diverge_ms) |}.
Definition set_pc_diverge_ms (v : Z) (r : gov_pid_cfg) : gov_pid_cfg :=
  {| pc_kp := r.(pc_kp); pc_ki := r.(pc_ki); pc_kd := r.(pc_kd); pc_out_min := r.(pc_out_min);
     pc_out_max := r.(pc_out_max); pc_integ_min := r.(pc_integ_min);
     pc_integ_max := r.(pc_integ_max); pc_diverge_limit := r.(pc_diverge_limit);
     pc_diverge_ms := v |}.

Record gov_pid := mkPid {
  pid_cfg : gov_pid_cfg;
  pid_integ : float;
  pid_prev_meas : float;
  pid_has_prev : bool;
  pid_saturated : bool;
  pid_div_accum_ms : Z;
  pid_diverging : bool
}.

Definition set_pid_cfg (v : gov_pid_cfg) (r : gov_pid) : gov_pid :=
  {| pid_cfg := v; pid_integ := r.(pid_integ); pid_prev_meas := r.(pid_prev_meas);
     pid_has_prev := r.(pid_has_prev); pid_saturated := r.(pid_saturated);
     pid_div_accum_ms := r.(pid_div_accum_ms); pid_diverging := r.(pid_diverging) |}.
Definition set_pid_integ (v : float) (r : gov_pid) : gov_pid :=
  {| pid_cfg := r.(pid_cfg); pid_integ := v; pid_prev_meas := r.(pid_prev_meas);
     pid_has_prev := r.(pid_has_prev); pid_saturated := r.(pid_saturated);
     pid_div_accum_ms := r.(pid_div_accum_ms); pid_diverging := r.(pid_diverging) |}.
Definition set_pid_prev_meas (v : float) (r : gov_pid) : gov_pid :=
  {| pid_cfg := r.(pid_cfg); pid_integ := r.(pid_integ); pid_prev_meas := v;
     pid_has_prev := r.(pid_has_prev); pid_saturated := r.(pid_saturated);
     pid_div_accum_ms := r.(pid_div_accum_ms); pid_diverging := r.(pid_diverging) |}.
Definition set_pid_has_prev (v : bool) (r : gov_pid) : gov_pid :=
  {| pid_cfg := r.(pid_cfg); pid_integ := r.(pid_integ); pid_prev_meas := r.(pid_prev_meas);
     pid_has_prev := v; pid_saturated := r.(pid_saturated);
     pid_div_accum_ms := r.(pid_div_accum_ms); pid_diverging := r.(pid_diverging) |}.
Definition set_pid_saturated (v : bool) (r : gov_pid) : gov_pid :=
  {| pid_cfg := r.(pid_cfg); pid_integ := r.(pid_integ); pid_prev_meas := r.(pid_prev_meas);
     pid_has_prev := r.(pid_has_prev); pid_saturated := v;
     pid_div_accum_ms := r.(pid_div_accum_ms); pid_diverging := r.(pid_diverging) |}.
Definition set_pid_div_accum_ms (v : Z) (r : gov_pid) : gov_pid :=
  {| pid_cfg := r.(pid_cfg); pid_integ := r.(pid_integ); pid_prev_meas := r.(pid_prev_meas);
     pid_has_prev := r.(pid_has_prev); pid_saturated := r.(pid_saturated);
     pid_div_accum_ms := v; pid_diverging := r.(pid_diverging) |}.
Definition set_pid_diverging (v : bool) (r : gov_pid) : gov_pid :=
  {| pid_cfg := r.(pid_cfg); pid_integ := r.(pid_integ); pid_prev_meas := r.(pid_prev_meas);
     pid_has_prev := r.(pid_has_prev); pid_saturated := r.(pid_saturated);
     pid_div_accum_ms := r.(pid_div_accum_ms); pid_diverging := v |}.

Record gov_plant_cfg := mkPlantCfg { pl_tau_s : float; pl_gain : float; pl_y0 : float }.

Record gov_plant := mkPlant {
  pl_cfg : gov_plant_cfg;
  pl_y : float;
  pl_disturbance : float
}.

Definition set_pl_cfg (v : gov_plant_cfg) (r : gov_plant) : gov_plant :=
  {| pl_cfg := v; pl_y := r.(pl_y); pl_disturbance := r.(pl_disturbance) |}.
Definition set_pl_y (v : float) (r : gov_plant) : gov_plant :=
  {| pl_cfg := r.(pl_cfg); pl_y := v; pl_disturbance := r.(pl_disturbance) |}.
Definition set_pl_disturbance (v : float) (r : gov_plant) : gov_plant :=
  {| pl_cfg := r.(pl_cfg); pl_y := r.(pl_y); pl_disturbance := v |}.

(** ** Operations *)
Definition gov_fabsf (x : float) : float := if f_lt x f_zero then f_opp x else x.

Definition gov_clampf (x lo hi : float) : float := if f_lt x lo then lo else if f_lt hi x then hi else x.

Definition gov_pid_reset (p : gov_pid) : gov_pid := mkPid p.(pid_cfg) f_zero f_zero false false 0 false.

Definition gov_pid_init (cfg : gov_pid_cfg) : gov_pid := mkPid cfg f_zero f_zero false false 0 false.

Definition dt_seconds (dt_ms : Z) : float := f_div (f_of_Z dt_ms) (f_of_Z 1000).

(** The derivative on measurement. *)
Definition pid_d_term (p : gov_pid) (measurement dt : float) : float :=
  if p.(pid_has_prev) && f_lt f_zero dt then
    f_mul (f_opp p.(pid_cfg).(pc_kd)) (f_div (f_sub measurement p.(pid_prev_meas)) dt)
  else f_zero.

(** The divergence report. *)
Definition pid_divergence (p : gov_pid) (error : float) (dt_ms : Z) : gov_pid :=
  if f_lt p.(pid_cfg).(pc_diverge_limit) (gov_fabsf error) then
    let p := set_pid_div_accum_ms (u32 (p.(pid_div_accum_ms) + dt_ms)) p in
    if p.(pid_cfg).(pc_diverge_ms) <=? p.(pid_div_accum_ms) then set_pid_diverging true p else p
  else set_pid_diverging false (set_pid_div_accum_ms 0 p).

Definition gov_pid_step (p : gov_pid) (setpoint measurement : float) (dt_ms : Z) : gov_pid * float :=
  let cfg := p.(pid_cfg) in
  let dt := dt_seconds dt_ms in
  let error := f_sub setpoint measurement in
  let p_term := f_mul cfg.(pc_kp) error in
  let d_term := pid_d_term p measurement dt in
  let integ_candidate :=
    gov_clampf (f_add p.(pid_integ) (f_mul (f_mul cfg.(pc_ki) error) dt)) cfg.(pc_integ_min) cfg.(pc_integ_max) in
  let out_unsat := f_add (f_add p_term integ_candidate) d_term in
  let commit_integ :=
    if f_lt cfg.(pc_out_max) out_unsat && f_lt f_zero error then false
    else if f_lt out_unsat cfg.(pc_out_min) && f_lt error f_zero then false
    else true in
  let p := if commit_integ then set_pid_integ integ_candidate p else p in
  let out_unsat := if commit_integ then out_unsat else f_add (f_add p_term p.(pid_integ)) d_term in
  let out := gov_clampf out_unsat cfg.(pc_out_min) cfg.(pc_out_max) in
  let p := set_pid_saturated (f_ne out out_unsat) p in
  let p := pid_divergence p error dt_ms in
  let p := set_pid_has_prev true (set_pid_prev_meas measurement p) in
  (p, out).

Definition gov_pid_saturated (p : gov_pid) : bool := p.(pid_saturated).
Definition gov_pid_diverging (p : gov_pid) : bool := p.(pid_diverging).

Definition gov_plant_reset (pl : gov_plant) : gov_plant := mkPlant pl.(pl_cfg) pl.(pl_cfg).(pl_y0) f_zero.

Definition gov_plant_init (cfg : gov_plant_cfg) : gov_plant := mkPlant cfg cfg.(pl_y0) f_zero.

Definition gov_plant_step (pl : gov_plant) (u : float) (dt_ms : Z) : gov_plant * float :=
  let dt := dt_seconds dt_ms in
  let pl :=
    if f_lt f_zero pl.(pl_cfg).(pl_tau_s) then
      let drive := f_sub (f_mul pl.(pl_cfg).(pl_gain) u) pl.(pl_y) in
      set_pl_y (f_add pl.(pl_y) (f_mul (f_div dt pl.(pl_cfg).(pl_tau_s)) drive)) pl
    else pl in
  let pl := set_pl_y (f_add pl.(pl_y) pl.(pl_disturbance)) pl in
  (pl, pl.(pl_y)).

Definition gov_plant_output (pl : gov_plant) : float := pl.(pl_y).
Definition gov_plant_set_disturbance (pl : gov_plant) (d : float) : gov_plant := set_pl_disturbance d pl.

Definition gov_ctrl_degraded_clamp (desired : float) : float :=
  let safe := f_of_Z GOV_SAFE_OUTPUT in
  let span := f_sub GOV_CTRL_OUT_MAX GOV_CTRL_OUT_MIN in
  let half := f_mul (f_div (f_of_Z GOV_DEGRADED_CLAMP_PCT) (f_of_Z 100)) span in
  let lo := if f_lt (f_sub safe half) GOV_CTRL_OUT_MIN then GOV_CTRL_OUT_MIN else f_sub safe half in
  let hi := if f_lt GOV_CTRL_OUT_MAX (f_add safe half) then GOV_CTRL_OUT_MAX else f_add safe half in
  if f_lt desired lo then lo else if f_lt hi desired then hi else desired.

(** ** What the configuration and the state promise *)

(** Finite gains and limits, in order; the integrator's limits contain 0. *)
Definition pid_cfg_ok (cfg : gov_pid_cfg) : Prop :=
  fbnd 16 cfg.(pc_kp) /\ fbnd 16 cfg.(pc_ki) /\ fbnd 16 cfg.(pc_kd) /\
  fbnd 31 cfg.(pc_out_min) /\ fbnd 31 cfg.(pc_out_max) /\ fval cfg.(pc_out_min) <= fval cfg.(pc_out_max) /\
  fbnd 31 cfg.(pc_integ_min) /\ fbnd 31 cfg.(pc_integ_max) /\
  fval cfg.(pc_integ_min) <= 0 <= fval cfg.(pc_integ_max) /\
  f_ok cfg.(pc_diverge_limit) /\ is_u32 cfg.(pc_diverge_ms).

Definition pid_ok (p : gov_pid) : Prop :=
  pid_cfg_ok p.(pid_cfg) /\ f_ok p.(pid_integ) /\
  fval p.(pid_cfg).(pc_integ_min) <= fval p.(pid_integ) <= fval p.(pid_cfg).(pc_integ_max) /\
  fbnd 31 p.(pid_prev_meas).

(** A step's inputs. *)
Record pid_input := mkPidInput { in_setpoint : float; in_meas : float; in_dt : Z }.

Definition pid_run (p : gov_pid) (ins : list pid_input) : gov_pid :=
  fold_left (fun p i => (gov_pid_step p i.(in_setpoint) i.(in_meas) i.(in_dt)).1) ins p.

(** The tracking error of a step is beyond the limit. *)
Definition out_of_band (cfg : gov_pid_cfg) (i : pid_input) : bool :=
  f_lt cfg.(pc_diverge_limit) (gov_fabsf (f_sub i.(in_setpoint) i.(in_meas))).

(** The steps since the last one in band, the newest first, and their time. *)
Fixpoint since_band (cfg : gov_pid_cfg) (h : list pid_input) : list pid_input :=
  match h with [] => [] | i :: h => if out_of_band cfg i then i :: since_band cfg h else [] end.
Definition total_ms (h : list pid_input) : Z := foldr (fun i t => i.(in_dt) + t) 0 h.

(** ** Clamping *)
Lemma gov_clampf_spec x lo hi :
  f_ok x -> f_ok lo -> f_ok hi -> fval lo <= fval hi ->
  f_ok (gov_clampf x lo hi) /\ fval (gov_clampf x lo hi) = Z.max (fval lo) (Z.min (fval x) (fval hi)).
Proof.
  intros Hx Hlo Hhi Hle. unfold gov_clampf. rewrite !f_lt_spec by done.
  destruct (Z.ltb_spec (fval x) (fval lo)); [split; [done|lia]|].
  destruct (Z.ltb_spec (fval hi) (fval x)); (split; [done|lia]).
Qed.

Lemma gov_fabsf_spec x : f_ok x -> f_ok (gov_fabsf x) /\ fval (gov_fabsf x) = Z.abs (fval x).
Proof.
  intros Hx. unfold gov_fabsf. rewrite f_lt_spec by done. change (fval f_zero) with 0.
  destruct (f_opp_spec x Hx) as [Ho Hv]. destruct (Z.ltb_spec (fval x) 0); (split; [done|lia]).
Qed.

(** ** The time step *)
Lemma dt_seconds_spec dt_ms :
  1 <= dt_ms <= 1000 ->
  f_ok (dt_seconds dt_ms) /\ 2 ^ (-10 + 149) <= fval (dt_seconds dt_ms) <= 2 ^ (0 + 149).
Proof.
  intros Hdt.
  assert (Hall : forallb (fun d => match dt_seconds d with S754_finite _ m e => bounded 24 128 m e | _ => false end
    && (2 ^ (-10 + 149) <=? fval (dt_seconds d)) && (fval (dt_seconds d) <=? 2 ^ (0 + 149))) (seqZ 1 1000) = true).
  { by vm_compute. }
  rewrite forallb_forall in Hall. specialize (Hall dt_ms). rewrite <- list_elem_of_In, elem_of_seqZ in Hall.
  specialize (Hall ltac:(lia)). unfold f_ok. destruct (dt_seconds dt_ms); try done.
  apply andb_true_iff in Hall as [[Hok Hlo]%andb_true_iff Hhi]. split; [done|]. apply Z.leb_le in Hlo, Hhi. done.
Qed.

(** ** A step of the controller stays finite *)
Lemma f_zero_bnd k : fbnd k f_zero.
Proof. split; [done|]. cbn. lia. Qed.

Lemma pid_d_term_bnd p m dt :
  pid_ok p -> fbnd 31 m -> f_ok dt -> 2 ^ (-10 + 149) <= fval dt -> fbnd 58 (pid_d_term p m dt).
Proof.
  intros ((_ & _ & Hkd & _) & _ & _ & Hprev) Hm Hdt Hlo. unfold pid_d_term.
  destruct (pid_has_prev p && f_lt f_zero dt); [|apply f_zero_bnd].
  apply (fbnd_mul 16 42); try lia; [by apply fbnd_opp|].
  apply (fbnd_div 32 (-10)); try done; try lia. apply (fbnd_sub 31 31); try done; lia.
Qed.

Lemma clamp_bnd k x lo hi :
  f_ok x -> fbnd k lo -> fbnd k hi -> fval lo <= fval hi -> fbnd k (gov_clampf x lo hi).
Proof.
  intros Hx [Hlo Hlob] [Hhi Hhib] Hle. destruct (gov_clampf_spec x lo hi Hx Hlo Hhi Hle) as [Hok Hv]. split; [done|]. lia.
Qed.

Lemma integ_candidate_bnd p error dt :
  pid_ok p -> fbnd 32 error -> f_ok dt -> 2 ^ (-10 + 149) <= fval dt <= 2 ^ (0 + 149) ->
  f_ok (f_add p.(pid_integ) (f_mul (f_mul p.(pid_cfg).(pc_ki) error) dt)).
Proof.
  intros ((_ & Hki & _ & _ & _ & _ & [_ Himin] & [_ Himax] & _) & Hi & Hir & _) He Hdt Hb.
  assert (Hint : fbnd 31 (pid_integ p)) by (split; [done|lia]).
  assert (Hdtb : fbnd 0 dt) by (split; [done|assert (0 < 2 ^ (-10 + 149)) by done; lia]).
  apply (fbnd_add 31 48 49); try done; try lia. apply (fbnd_mul 48 0); try done; try lia.
  apply (fbnd_mul 16 32); try done; lia.
Qed.

Lemma out_unsat_bnd p_term integ d_term :
  fbnd 48 p_term -> fbnd 31 integ -> fbnd 58 d_term -> f_ok (f_add (f_add p_term integ) d_term).
Proof. intros Hp Hi Hd. apply (fbnd_add 49 58 59); try lia; [|done]. apply (fbnd_add 48 31); try done; lia. Qed.

Lemma pid_divergence_frame p e dt :
  let p' := pid_divergence p e dt in
  pid_cfg p' = pid_cfg p /\ pid_integ p' = pid_integ p /\ pid_saturated p' = pid_saturated p.
Proof. unfold pid_divergence. by repeat case_match. Qed.

(** The command before saturation, with an integrator value. *)
Definition pid_unsat (p : gov_pid) (sp m : float) (dt_ms : Z) (integ : float) : float :=
  f_add (f_add (f_mul p.(pid_cfg).(pc_kp) (f_sub sp m)) integ) (pid_d_term p m (dt_seconds dt_ms)).
Definition pid_candidate (p : gov_pid) (sp m : float) (dt_ms : Z) : float :=
  gov_clampf (f_add p.(pid_integ) (f_mul (f_mul p.(pid_cfg).(pc_ki) (f_sub sp m)) (dt_seconds dt_ms)))
    p.(pid_cfg).(pc_integ_min) p.(pid_cfg).(pc_integ_max).

(** A step commits the candidate, or holds the integrator because the candidate drives the command
    further beyond the limit it is at. *)
Lemma gov_pid_step_cases p sp m dt_ms :
  let cfg := p.(pid_cfg) in
  let error := f_sub sp m in
  let '(p', out) := gov_pid_step p sp m dt_ms in
  let held := f_lt cfg.(pc_out_max) (pid_unsat p sp m dt_ms (pid_candidate p sp m dt_ms)) && f_lt f_zero error
    || f_lt (pid_unsat p sp m dt_ms (pid_candidate p sp m dt_ms)) cfg.(pc_out_min) && f_lt error f_zero in
  pid_integ p' = (if held then p.(pid_integ) else pid_candidate p sp m dt_ms) /\
  pid_cfg p' = cfg /\ pid_prev_meas p' = m /\
  out = gov_clampf (pid_unsat p sp m dt_ms (pid_integ p')) cfg.(pc_out_min) cfg.(pc_out_max) /\
  pid_saturated p' = f_ne out (pid_unsat p sp m dt_ms (pid_integ p')).
Proof.
  cbv zeta. unfold gov_pid_step. fold (pid_candidate p sp m dt_ms).
  fold (pid_unsat p sp m dt_ms (pid_candidate p sp m dt_ms)).
  set (hi := f_lt _ (pid_unsat _ _ _ _ _) && _). set (lo := f_lt (pid_unsat _ _ _ _ _) _ && _).
  destruct hi, lo; cbn [orb pid_integ pid_cfg set_pid_integ set_pid_saturated set_pid_has_prev set_pid_prev_meas pid_prev_meas pid_saturated];
    match goal with |- context [pid_divergence ?q ?e ?d] => destruct (pid_divergence_frame q e d) as (-> & -> & ->) end;
    split_and!; try done.
Qed.

Lemma pid_unsat_ok p sp m dt_ms integ :
  pid_ok p -> fbnd 31 sp -> fbnd 31 m -> 1 <= dt_ms <= 1000 -> fbnd 31 integ -> f_ok (pid_unsat p sp m dt_ms integ).
Proof.
  intros Hp Hsp Hm Hdt Hi. destruct (dt_seconds_spec dt_ms Hdt) as [Hok Hb]. apply out_unsat_bnd; [|done|].
  - destruct Hp as ((Hkp & _) & _). apply (fbnd_mul 16 32); try done; try lia. apply (fbnd_sub 31 31); try done; lia.
  - apply pid_d_term_bnd; try done. lia.
Qed.

Lemma pid_candidate_ok p sp m dt_ms :
  pid_ok p -> fbnd 31 sp -> fbnd 31 m -> 1 <= dt_ms <= 1000 ->
  fbnd 31 (pid_candidate p sp m dt_ms) /\
  fval p.(pid_cfg).(pc_integ_min) <= fval (pid_candidate p sp m dt_ms) <= fval p.(pid_cfg).(pc_integ_max).
Proof.
  intros Hp Hsp Hm Hdt. destruct (dt_seconds_spec dt_ms Hdt) as [Hok Hb].
  pose proof Hp as ((_ & _ & _ & _ & _ & _ & Himin & Himax & Hile & _) & _).
  assert (Herr : fbnd 32 (f_sub sp m)) by (apply (fbnd_sub 31 31); try done; lia).
  pose proof (integ_candidate_bnd p (f_sub sp m) (dt_seconds dt_ms) Hp Herr Hok Hb) as Hc.
  destruct (gov_clampf_spec _ _ _ Hc (proj1 Himin) (proj1 Himax) ltac:(lia)) as [_ Hv].
  split; [apply clamp_bnd; try done; lia|]. unfold pid_candidate. lia.
Qed.

(** ** The divergence report *)
Lemma total_ms_nonneg h : Forall (fun i => 0 <= i.(in_dt)) h -> 0 <= total_ms h.
Proof. induction 1 as [|i h Hi Hh IH]; cbn; [lia|]. unfold total_ms in IH. lia. Qed.

Lemma since_band_Forall (P : pid_input -> Prop) cfg h : Forall P h -> Forall P (since_band cfg h).
Proof. induction 1 as [|i h Hi Hh IH]; cbn; [done|]. destruct (out_of_band cfg i); [by constructor|done]. Qed.

Lemma gov_pid_step_report p i :
  let p' := (gov_pid_step p i.(in_setpoint) i.(in_meas) i.(in_dt)).1 in
  pid_cfg p' = pid_cfg p /\
  pid_div_accum_ms p' = (if out_of_band (pid_cfg p) i then u32 (pid_div_accum_ms p + i.(in_dt)) else 0) /\
  pid_diverging p' =
    (if out_of_band (pid_cfg p) i
     then pid_diverging p || (pc_diverge_ms (pid_cfg p) <=? u32 (pid_div_accum_ms p + i.(in_dt))) else false).
Proof.
  unfold gov_pid_step, out_of_band. cbv zeta. set (err := f_sub _ _).
  match goal with |- context [pid_divergence ?q ?e ?d] => assert (Hq : pid_cfg q = pid_cfg p /\ pid_div_accum_ms q = pid_div_accum_ms p
    /\ pid_diverging q = pid_diverging p) by (repeat case_match; done); set (q' := q) in *; clearbody q' end.
  destruct Hq as (E1 & E2 & E3). unfold pid_divergence. cbn [fst]. rewrite E1.
  destruct (f_lt (pc_diverge_limit (pid_cfg p)) (gov_fabsf err)); cbn [pid_cfg pid_div_accum_ms pid_diverging set_pid_div_accum_ms
    set_pid_diverging set_pid_has_prev set_pid_prev_meas]; [|done].
  rewrite E1, E2. destruct (_ <=? _); cbn; rewrite ?E1, ?E2, ?E3; by rewrite ?orb_true_r, ?orb_false_r.
Qed.

Definition report_inv (cfg : gov_pid_cfg) (p : gov_pid) (h : list pid_input) : Prop :=
  let b := since_band cfg h in
  pid_cfg p = cfg /\ pid_div_accum_ms p = u32 (total_ms b) /\
  pid_diverging p = bool_decide (b <> []) && (cfg.(pc_diverge_ms) <=? total_ms b).

Lemma report_step cfg p h i :
  is_u32 cfg.(pc_diverge_ms) -> Forall (fun i => 0 <= i.(in_dt) <= 2 ^ 32 - cfg.(pc_diverge_ms)) (i :: h) ->
  report_inv cfg p h -> report_inv cfg (gov_pid_step p i.(in_setpoint) i.(in_meas) i.(in_dt)).1 (i :: h).
Proof.
  intros Hlim [Hi Hh]%Forall_cons (Hc & Ha & Hd). pose proof (gov_pid_step_report p i) as (E1 & E2 & E3).
  assert (Ht : 0 <= total_ms (since_band cfg h)).
  { apply total_ms_nonneg, since_band_Forall. apply (Forall_impl _ _ _ Hh). intros ? ?. lia. }
  unfold report_inv. rewrite E1, E2, E3, Hc, Ha, Hd. cbn [since_band].
  destruct (out_of_band cfg i); [|split_and!; [done|done|by rewrite bool_decide_false by (by intros [])]]. change (total_ms (i :: ?l)) with (in_dt i + total_ms l).
  rewrite (bool_decide_true (i :: since_band cfg h <> [])) by done. split_and!; [done|unfold u32; rewrite Zplus_mod_idemp_l; f_equal; lia|].
  unfold is_u32 in Hlim. cbn [andb]. destruct (Z.leb_spec (pc_diverge_ms cfg) (total_ms (since_band cfg h))).
  - rewrite andb_true_r. case_bool_decide as Hb; [cbn; lia|]. cbn [orb].
    rewrite Hb in *. cbn in *. change (u32 0) with 0. rewrite Z.add_0_l, Z.add_0_r.
    pose proof (u32_range (in_dt i)) as Hu. unfold is_u32 in Hu. lia.
  - rewrite andb_false_r. cbn [orb]. rewrite (u32_small (total_ms _)) by clia.
    destruct (Z.eq_dec (total_ms (since_band cfg h) + in_dt i) (2 ^ 32)); [lia|]. rewrite u32_small by clia. f_equal. lia.
Qed.

(** ** Theorems about the controller *)

Lemma pid_step_facts p sp m dt_ms :
  pid_ok p -> fbnd 31 sp -> fbnd 31 m -> 1 <= dt_ms <= 1000 ->
  let cfg := p.(pid_cfg) in
  let '(p', out) := gov_pid_step p sp m dt_ms in
  pid_ok p' /\ pid_cfg p' = cfg /\
  f_ok out /\ fval cfg.(pc_out_min) <= fval out <= fval cfg.(pc_out_max) /\
  (gov_pid_saturated p' = true -> fval out = fval cfg.(pc_out_min) \/ fval out = fval cfg.(pc_out_max)) /\
  (gov_pid_saturated p' = true -> fval cfg.(pc_out_min) < fval out -> 0 < fval (f_sub sp m) -> pid_integ p' = pid_integ p) /\
  (gov_pid_saturated p' = true -> fval out < fval cfg.(pc_out_max) -> fval (f_sub sp m) < 0 -> pid_integ p' = pid_integ p).
Proof.
  intros Hp Hsp Hm Hdt. cbv zeta. pose proof (gov_pid_step_cases p sp m dt_ms) as H. cbv zeta in H.
  destruct (gov_pid_step p sp m dt_ms) as [p' out]. destruct H as (Hi & Hc & Hpm & Hout & Hsat).
  destruct (pid_candidate_ok p sp m dt_ms Hp Hsp Hm Hdt) as [Hcand Hcandr].
  pose proof Hp as (Hcfg & Hio & Hir & _). pose proof Hcfg as (_ & _ & _ & [Hmin _] & [Hmax _] & Hle & [_ Himin] & [_ Himax] & _).
  assert (Hint : fbnd 31 (pid_integ p')) by (rewrite Hi; destruct (_ || _); [split; [done|lia]|done]).
  pose proof (pid_unsat_ok p sp m dt_ms _ Hp Hsp Hm Hdt Hint) as Hu.
  pose proof (pid_unsat_ok p sp m dt_ms _ Hp Hsp Hm Hdt Hcand) as Huc.
  destruct (gov_clampf_spec _ _ _ Hu Hmin Hmax Hle) as [Hook Hoval]. rewrite <- Hout in Hook, Hoval.
  assert (Hs : gov_pid_saturated p' = true <-> fval out <> fval (pid_unsat p sp m dt_ms (pid_integ p'))).
  { unfold gov_pid_saturated, f_ne in *. rewrite Hsat, negb_true_iff. fold (f_eq out (pid_unsat p sp m dt_ms (pid_integ p'))).
    rewrite f_eq_spec by done. lia. }
  assert (Herr : f_ok (f_sub sp m)) by (apply (fbnd_sub 31 31 32); try done; lia).
  rewrite !f_lt_spec in Hi by done. change (fval f_zero) with 0 in Hi.
  assert (Hpok : pid_ok p').
  { split; [by rewrite Hc|]. split; [apply Hint|]. rewrite Hc, Hpm. split; [|done]. rewrite Hi. by destruct (_ || _). }
  split_and!; try done; try lia.
  - intros Hsat'%Hs. lia.
  - intros Hsat'%Hs Hlt Hpos. destruct (_ || _) eqn:E in Hi; [done|]. rewrite Hi in *. lia.
  - intros Hsat'%Hs Hlt Hpos. destruct (_ || _) eqn:E in Hi; [done|]. rewrite Hi in *. lia.
Qed.

(** C28: A control step keeps the controller well formed and its command applicable. From a state whose
    integrator is within its limits, for any setpoint and measurement up to [2^31] in magnitude and any
    time step of 1 to 1000 ms: no overflow and no NaN arises; the command is a finite float within
    [out_min, out_max]; the integrator stays within [integ_min, integ_max]; when the command is
    saturated it sits on a limit, and the integrator did not move if the error drives the command
    further beyond that limit (anti-windup). *)
Theorem pid_step_safe p sp m dt_ms :
  pid_ok p -> fbnd 31 sp -> fbnd 31 m -> 1 <= dt_ms <= 1000 ->
  let cfg := p.(pid_cfg) in
  let '(p', out) := gov_pid_step p sp m dt_ms in
  pid_ok p' /\ pid_cfg p' = cfg /\
  f_ok out /\ fval cfg.(pc_out_min) <= fval out <= fval cfg.(pc_out_max) /\
  (gov_pid_saturated p' = true -> fval out = fval cfg.(pc_out_min) \/ fval out = fval cfg.(pc_out_max)) /\
  (gov_pid_saturated p' = true -> fval cfg.(pc_out_min) < fval out -> 0 < fval (f_sub sp m) -> pid_integ p' = pid_integ p) /\
  (gov_pid_saturated p' = true -> fval out < fval cfg.(pc_out_max) -> fval (f_sub sp m) < 0 -> pid_integ p' = pid_integ p).
Proof. apply pid_step_facts. Qed.

(** C29: The divergence report is exactly "the error has been beyond [diverge_limit] for at least
    [diverge_ms]". After any sequence of control steps, the controller reports divergence if and only
    if the last step was out of band and the time steps since the last one in band add up to
    [diverge_ms] or more - even when the 32-bit millisecond accumulator has wrapped around, as long as
    a single time step does not exceed [2^32 - diverge_ms]. *)
Theorem divergence_report cfg ins :
  is_u32 cfg.(pc_diverge_ms) -> Forall (fun i => 0 <= i.(in_dt) <= 2 ^ 32 - cfg.(pc_diverge_ms)) ins ->
  let b := since_band cfg (rev ins) in
  gov_pid_diverging (pid_run (gov_pid_init cfg) ins) = bool_decide (b <> []) && (cfg.(pc_diverge_ms) <=? total_ms b).
Proof.
  intros Hlim Hins. assert (H : report_inv cfg (pid_run (gov_pid_init cfg) ins) (rev ins)); [|by apply H].
  induction ins as [|i ins IH] using rev_ind; [done|]. apply Forall_app in Hins as [Hins Hi].
  unfold pid_run. rewrite fold_left_app, rev_app_distr. cbn [fold_left rev app].
  apply report_step; [done| |by apply IH]. apply Forall_cons in Hi as [Hi _]. constructor; [done|]. by apply Forall_rev.
Qed.

(** ** The plant *)

(** The plant of unit gain, stable with margin: [dt / tau] at most 1/4. *)
Definition plant_cfg_ok (cfg : gov_plant_cfg) (dt_ms : Z) : Prop :=
  f_ok cfg.(pl_tau_s) /\ 0 < fval cfg.(pl_tau_s) /\ f_ok cfg.(pl_gain) /\ fval cfg.(pl_gain) = f_unit /\
  f_ok (f_div (dt_seconds dt_ms) cfg.(pl_tau_s)) /\ 0 <= 4 * fval (f_div (dt_seconds dt_ms) cfg.(pl_tau_s)) <= f_unit.

(** A step towards a target at distance [d] does not overshoot it. *)
Lemma no_overshoot c d :
  0 <= 4 * c <= f_unit -> 0 <= d -> 0 <= rnd 149 (c * rnd 0 d) <= d * f_unit.
Proof.
  intros Hc Hd. destruct (Z.eq_dec d 0) as [->|]; [by rewrite Z.mul_0_r|].
  pose proof (rnd_error 0 d ltac:(done) Hd) as H1. change (2 ^ 0) with 1 in H1.
  assert (H0 : 0 <= rnd 0 d) by (rewrite rnd_nonneg by done; by apply rnd_pos_nonneg).
  assert (Hw : 0 <= c * rnd 0 d) by nia.
  pose proof (rnd_error 149 (c * rnd 0 d) ltac:(done) Hw) as H2. fold f_unit in H2. split.
  - rewrite rnd_nonneg by done. by apply rnd_pos_nonneg.
  - assert (8 * (c * rnd 0 d) <= 3 * (d * f_unit)) by nia. assert (f_unit <= d * f_unit) by (unfold f_unit; lia). lia.
Qed.

Lemma move_towards c y u :
  0 <= 4 * c <= f_unit ->
  exists t, rnd 149 (c * rnd 0 (u - y)) = t /\
    (y <= u -> 0 <= t <= (u - y) * f_unit) /\ (u <= y -> (u - y) * f_unit <= t <= 0).
Proof.
  intros Hc. eexists. split; [reflexivity|]. split; intros H.
  - apply no_overshoot; [done|lia].
  - pose proof (no_overshoot c (y - u) Hc ltac:(lia)) as Ho. replace (u - y) with (- (y - u)) by lia.
    rewrite rnd_opp, Z.mul_opp_r, rnd_opp. lia.
Qed.

Lemma plant_step_between pl u dt_ms :
  plant_cfg_ok pl.(pl_cfg) dt_ms -> fbnd 100 pl.(pl_y) -> fbnd 100 u ->
  f_ok pl.(pl_disturbance) -> fval pl.(pl_disturbance) = 0 ->
  let '(pl', y') := gov_plant_step pl u dt_ms in
  f_ok y' /\ Z.min (fval pl.(pl_y)) (fval u) <= fval y' <= Z.max (fval pl.(pl_y)) (fval u) /\
  gov_plant_output pl' = y' /\ pl_cfg pl' = pl_cfg pl /\ pl_disturbance pl' = pl_disturbance pl.
Proof.
  intros (Htau & Htau0 & Hg & Hgv & Hc & Hcb) [Hy Hyb] [Hu Hub] Hdo Hd. unfold gov_plant_step.
  rewrite f_lt_spec by done. change (fval f_zero) with 0. destruct (Z.ltb_spec 0 (fval (pl_tau_s (pl_cfg pl)))); [|lia].
  cbn [pl_y pl_disturbance set_pl_y pl_cfg gov_plant_output]. set (c := f_div _ _) in *.
  assert (Hbig : 0 < 2 ^ (100 + 149) < 2 ^ 276 /\ 2 ^ (101 + 149) < 2 ^ 276) by done.
  destruct (f_mul_unit (pl_gain (pl_cfg pl)) u Hg Hgv Hu) as [Hguo Hguv].
  (* the drive, the increment, the output *)
  pose proof (f_sub_spec _ (pl_y pl) Hguo Hy) as Hs. rewrite Hguv in Hs.
  pose proof (rnd0_small (fval u - fval (pl_y pl)) 101 ltac:(lia)) as Hsb.
  change (2 ^ (101 + 149)) with (2 * 2 ^ (100 + 149)) in Hsb. specialize (Hsb ltac:(lia)).
  destruct Hs as [Hso Hsv]; [lia|]. set (drive := f_sub _ _) in *.
  destruct (move_towards (fval c) (fval (pl_y pl)) (fval u) Hcb) as (t & Ht & Hup & Hdown).
  pose proof (f_mul_spec c drive Hc Hso) as Hm. rewrite Hsv, Ht in Hm.
  destruct Hm as [Hmo Hmv].
  { change (2 ^ (277 + 149)) with (2 ^ 277 * 2 ^ 149). change f_unit with (2 ^ 149) in *.
    destruct (Z.le_ge_cases (fval (pl_y pl)) (fval u)); [specialize (Hup ltac:(done))|specialize (Hdown ltac:(done))]; nia. }
  set (inc := f_mul c drive) in *.
  assert (Hsum : Z.min (fval (pl_y pl)) (fval u) <= fval (pl_y pl) + fval inc <= Z.max (fval (pl_y pl)) (fval u)).
  { unfold f_unit in *. destruct (Z.le_ge_cases (fval (pl_y pl)) (fval u)); [specialize (Hup ltac:(done))|specialize (Hdown ltac:(done))]; nia. }
  assert (Hrmin : representable 0 (Z.min (fval (pl_y pl)) (fval u))).
  { destruct (Z.min_spec (fval (pl_y pl)) (fval u)) as [[_ ->]|[_ ->]]; by apply fval_representable. }
  assert (Hrmax : representable 0 (Z.max (fval (pl_y pl)) (fval u))).
  { destruct (Z.max_spec (fval (pl_y pl)) (fval u)) as [[_ ->]|[_ ->]]; by apply fval_representable. }
  pose proof (rnd_ge 0 _ _ ltac:(done) Hrmin (proj1 Hsum)) as Hlo. pose proof (rnd_le 0 _ _ ltac:(done) Hrmax (proj2 Hsum)) as Hhi.
  destruct (f_add_spec (pl_y pl) inc Hy Hmo) as [Hao Hav]; [lia|].
  destruct (f_add_spec (f_add (pl_y pl) inc) (pl_disturbance pl) Hao Hdo) as [Hbo Hbv].
  { rewrite Hd, Z.add_0_r, rnd_fval by done. rewrite Hav. lia. }
  rewrite Hd, Z.add_0_r, rnd_fval in Hbv by done. split_and!; [done|lia|lia|done|done|done].
Qed.

(** C31: The simulated plant contracts towards its input. Without a disturbance, with unit gain and
    [dt / tau] at most 1/4, a forward-Euler step in binary32 arithmetic leaves the output between its old
    value and the applied input, whatever rounding does: it never overshoots the input, so an output
    and inputs within an envelope stay within it. *)
Theorem plant_contracts pl u dt_ms :
  plant_cfg_ok pl.(pl_cfg) dt_ms -> fbnd 100 pl.(pl_y) -> fbnd 100 u ->
  f_ok pl.(pl_disturbance) -> fval pl.(pl_disturbance) = 0 ->
  let '(pl', y') := gov_plant_step pl u dt_ms in
  f_ok y' /\ Z.min (fval pl.(pl_y)) (fval u) <= fval y' <= Z.max (fval pl.(pl_y)) (fval u) /\
  gov_plant_output pl' = y' /\ pl_cfg pl' = pl_cfg pl /\ pl_disturbance pl' = pl_disturbance pl.
Proof. apply plant_step_between. Qed.

(** ** The reference clamp *)
Lemma degraded_clamp_is_clamp d : gov_ctrl_degraded_clamp d = gov_clampf d f_zero (f_of_Z 50).
Proof.
  unfold gov_ctrl_degraded_clamp.
  set (lo := if f_lt (f_sub _ _) _ then _ else _). set (hi := if f_lt _ (f_add _ _) then _ else _).
  assert (Hlo : lo = f_zero) by (subst lo; by vm_compute). assert (Hhi : hi = f_of_Z 50) by (subst hi; by vm_compute).
  by rewrite Hlo, Hhi.
Qed.

(** The control-side reference clamp is the clamp to the fixed window 0..50 plant units: every
    finite command is limited to the window and unchanged inside it, the infinities go to its ends,
    and a NaN command passes through. *)
Theorem degraded_clamp_window d :
  (f_ok d ->
   f_ok (gov_ctrl_degraded_clamp d) /\
   fval (gov_ctrl_degraded_clamp d) = Z.max 0 (Z.min (fval d) (50 * f_unit))) /\
  gov_ctrl_degraded_clamp (S754_infinity true) = f_zero /\
  gov_ctrl_degraded_clamp (S754_infinity false) = f_of_Z 50 /\
  gov_ctrl_degraded_clamp S754_nan = S754_nan.
Proof.
  rewrite !degraded_clamp_is_clamp. destruct (f_of_Z_exact 50 ltac:(lia)) as [Hok Hv].
  split; [|split_and!; by vm_compute].
  intros Hd. pose proof (gov_clampf_spec d f_zero (f_of_Z 50) Hd I Hok) as H. change (fval f_zero) with 0 in H.
  rewrite Hv in H. apply H. unfold f_unit. lia.
Qed.

(** ** Witnesses *)
Definition wit_pid_cfg : gov_pid_cfg :=
  mkPidCfg (f_of_Z 3) (f_of_Z 18) (f_lit 6 100) f_zero (f_of_Z 100) (f_of_Z (-100)) (f_of_Z 100) (f_of_Z 150) 200.

Lemma wit_pid_ok : pid_ok (gov_pid_init wit_pid_cfg).
Proof. repeat split; by vm_compute. Qed.

Lemma pid_step_safe_witness :
  exists p' out, gov_pid_step (gov_pid_init wit_pid_cfg) (f_of_Z 50) f_zero 10 = (p', out) /\
    fval out = 100 * f_unit /\ gov_pid_saturated p' = true /\ pid_integ p' = f_zero.
Proof.
  pose proof (pid_step_safe (gov_pid_init wit_pid_cfg) (f_of_Z 50) f_zero 10 wit_pid_ok) as H.
  assert (H50 : fbnd 31 (f_of_Z 50)) by (split; by vm_compute).
  specialize (H H50 (f_zero_bnd 31) ltac:(lia)). cbv zeta in H.
  destruct (gov_pid_step (gov_pid_init wit_pid_cfg) (f_of_Z 50) f_zero 10) as [p' out] eqn:E.
  destruct H as (_ & _ & _ & _ & _ & Hhi & _). exists p', out. vm_compute in E. inversion E; subst.
  split_and!; [done|by vm_compute|by vm_compute|by apply Hhi; vm_compute].
Defined.

Lemma divergence_report_witness :
  gov_pid_diverging (pid_run (gov_pid_init wit_pid_cfg) (repeat (mkPidInput (f_of_Z 200) f_zero 10) 20)) = true /\
  gov_pid_diverging (pid_run (gov_pid_init wit_pid_cfg) (repeat (mkPidInput (f_of_Z 200) f_zero 10) 19)) = false.
Proof.
  assert (Hin : forall n, Forall (fun i => 0 <= in_dt i <= 2 ^ 32 - pc_diverge_ms wit_pid_cfg) (repeat (mkPidInput (f_of_Z 200) f_zero 10) n)).
  { intros n. apply Forall_forall. intros x Hx. apply list_elem_of_In, repeat_spec in Hx. subst x. cbn. lia. }
  assert (Hu : is_u32 (pc_diverge_ms wit_pid_cfg)) by (cbn; clia).
  split; rewrite (divergence_report wit_pid_cfg _ Hu (Hin _)); by vm_compute.
Defined.

Definition wit_plant : gov_plant := gov_plant_init (mkPlantCfg (f_lit 1 10) (f_of_Z 1) f_zero).

Lemma wit_plant_ok : plant_cfg_ok (pl_cfg wit_plant) 10.
Proof. unfold plant_cfg_ok. split_and!; by vm_compute. Qed.

Lemma plant_contracts_witness :
  0 <= fval (gov_plant_step wit_plant (f_of_Z 100) 10).2 <= 100 * f_unit.
Proof.
  pose proof (plant_contracts wit_plant (f_of_Z 100) 10 wit_plant_ok) as H.
  assert (Hy : fbnd 100 (pl_y wit_plant)) by (split; by vm_compute).
  assert (Hu : fbnd 100 (f_of_Z 100)) by (split; by vm_compute).
  specialize (H Hy Hu I eq_refl). destruct (gov_plant_step wit_plant (f_of_Z 100) 10) as [pl' y'].
  destruct H as (_ & H & _). change (fval (pl_y wit_plant)) with 0 in H.
  destruct (f_of_Z_exact 100 ltac:(lia)) as [_ Hv]. rewrite Hv in H. unfold f_unit in *. cbn [snd]. lia.
Defined.

Lemma degraded_clamp_window_witness : fval (gov_ctrl_degraded_clamp (f_of_Z 80)) = 50 * f_unit.
Proof. destruct (degraded_clamp_window (f_of_Z 80)) as [H _]. rewrite (proj2 (H ltac:(by vm_compute))). by vm_compute. Defined.
