(* ===== verification/Node.v ===== *)
(** * Node: the node coordinator (app/node_core.h, app/node_core.c)

    [struct gov_node] composes the safety machine, the controller, the plant and the fault shadow;
    the operations follow the C functions, a cast of a float to [int32_t] being undefined ([None])
    when the value does not fit. *)
From S2P Require Import Prelude Faults Safety Telem Float32 Control.
From Stdlib Require Import SpecFloat.

(** ** Data *)
Definition PID_CFG : gov_pid_cfg :=
  mkPidCfg (f_lit 35 10) (f_of_Z 18) (f_lit 6 100) GOV_CTRL_OUT_MIN GOV_CTRL_OUT_MAX
    (f_of_Z (-100)) (f_of_Z 100) GOV_DIVERGE_LIMIT GOV_DIVERGE_MS.

Definition PLANT_CFG : gov_plant_cfg := mkPlantCfg (f_lit 1 10) (f_of_Z 1) f_zero.

Definition GOV_CAUSE_SENSOR : Z := 1 .<< 0.
Definition GOV_CAUSE_LINK : Z := 1 .<< 1.
Definition GOV_CAUSE_TIMING : Z := 1 .<< 2.

Record gov_node := mkNode {
  n_safety : gov_safety_t;
  n_pid : gov_pid;
  n_plant : gov_plant;
  n_setpoint : float;
  n_tick_ms : Z;
  n_seq : Z;
  n_last_output : float;
  n_last_measurement : float;
  n_driver_faults : Z;
  n_active_causes : Z
}.

Definition set_n_safety (v : gov_safety_t) (r : gov_node) : gov_node :=
  {| n_safety := v; n_pid := r.(n_pid); n_plant := r.(n_plant); n_setpoint := r.(n_setpoint);
     n_tick_ms := r.(n_tick_ms); n_seq := r.(n_seq); n_last_output := r.(n_last_output);
     n_last_measurement := r.(n_last_measurement); n_driver_faults := r.(n_driver_faults);
     n_active_causes := r.(n_active_causes) |}.
Definition set_n_pid (v : gov_pid) (r : gov_node) : gov_node :=
  {| n_safety := r.(n_safety); n_pid := v; n_plant := r.(n_plant);
     n_setpoint := r.(n_setpoint); n_tick_ms := r.(n_tick_ms); n_seq := r.(n_seq);
     n_last_output := r.(n_last_output); n_last_measurement := r.(n_last_measurement);
     n_driver_faults := r.(n_driver_faults); n_active_causes := r.(n_active_causes) |}.
Definition set_n_plant (v : gov_plant) (r : gov_node) : gov_node :=
  {| n_safety := r.(n_safety); n_pid := r.(n_pid); n_plant := v; n_setpoint := r.(n_setpoint);
     n_tick_ms := r.(n_tick_ms); n_seq := r.(n_seq); n_last_output := r.(n_last_output);
     n_last_measurement := r.(n_last_measurement); n_driver_faults := r.(n_driver_faults);
     n_active_causes := r.(n_active_causes) |}.
Definition set_n_setpoint (v : float) (r : gov_node) : gov_node :=
  {| n_safety := r.(n_safety); n_pid := r.(n_pid); n_plant := r.(n_plant); n_setpoint := v;
     n_tick_ms := r.(n_tick_ms); n_seq := r.(n_seq); n_last_output := r.(n_last_output);
     n_last_measurement := r.(n_last_measurement); n_driver_faults := r.(n_driver_faults);
     n_active_causes := r.(n_active_causes) |}.
Definition set_n_tick_ms (v : Z) (r : gov_node) : gov_node :=
  {| n_safety := r.(n_safety); n_pid := r.(n_pid); n_plant := r.(n_plant);
     n_setpoint := r.(n_setpoint); n_tick_ms := v; n_seq := r.(n_seq);
     n_last_output := r.(n_last_output); n_last_measurement := r.(n_last_measurement);
     n_driver_faults := r.(n_driver_faults); n_active_causes := r.(n_active_causes) |}.
Definition set_n_seq (v : Z) (r : gov_node) : gov_node :=
  {| n_safety := r.(n_safety); n_pid := r.(n_pid); n_plant := r.(n_plant);
     n_setpoint := r.(n_setpoint); n_tick_ms := r.(n_tick_ms); n_seq := v;
     n_last_output := r.(n_last_output); n_last_measurement := r.(n_last_measurement);
     n_driver_faults := r.(n_driver_faults); n_active_causes := r.(n_active_causes) |}.
Definition set_n_last_output (v : float) (r : gov_node) : gov_node :=
  {| n_safety := r.(n_safety); n_pid := r.(n_pid); n_plant := r.(n_plant);
     n_setpoint := r.(n_setpoint); n_tick_ms := r.(n_tick_ms); n_seq := r.(n_seq);
     n_last_output := v; n_last_measurement := r.(n_last_measurement);
     n_driver_faults := r.(n_driver_faults); n_active_causes := r.(n_active_causes) |}.
Definition set_n_last_measurement (v : float) (r : gov_node) : gov_node :=
  {| n_safety := r.(n_safety); n_pid := r.(n_pid); n_plant := r.(n_plant);
     n_setpoint := r.(n_setpoint); n_tick_ms := r.(n_tick_ms); n_seq := r.(n_seq);
     n_last_output := r.(n_last_output); n_last_measurement := v;
     n_driver_faults := r.(n_driver_faults); n_active_causes := r.(n_active_causes) |}.
Definition set_n_driver_faults (v : Z) (r : gov_node) : gov_node :=
  {| n_safety := r.(n_safety); n_pid := r.(n_pid); n_plant := r.(n_plant);
     n_setpoint := r.(n_setpoint); n_tick_ms := r.(n_tick_ms); n_seq := r.(n_seq);
     n_last_output := r.(n_last_output); n_last_measurement := r.(n_last_measurement);
     n_driver_faults := v; n_active_causes := r.(n_active_causes) |}.
Definition set_n_active_causes (v : Z) (r : gov_node) : gov_node :=
  {| n_safety := r.(n_safety); n_pid := r.(n_pid); n_plant := r.(n_plant);
     n_setpoint := r.(n_setpoint); n_tick_ms := r.(n_tick_ms); n_seq := r.(n_seq);
     n_last_output := r.(n_last_output); n_last_measurement := r.(n_last_measurement);
     n_driver_faults := r.(n_driver_faults); n_active_causes := v |}.

(** ** Operations: the body on the object, and the API function on a possibly NULL pointer *)
Definition node_init (setpoint : float) : gov_node :=
  mkNode (safety_init_sticky GOV_FAULT_NONE) (gov_pid_init PID_CFG) (gov_plant_init PLANT_CFG) setpoint
    0 0 f_zero f_zero 0 0.

Definition gov_node_init (n : option gov_node) (setpoint : float) : option gov_node :=
  match n with None => None | Some _ => Some (node_init setpoint) end.

(** [gov_safety_step(&n->safety, ev, now_ms)]. *)
Definition sm (ev : gov_event_t) (now_ms : Z) (n : gov_node) : gov_node :=
  set_n_safety (safety_step ev now_ms n.(n_safety)) n.

Definition resync_shadow (n : gov_node) : gov_node :=
  if decide (n.(n_safety).(s_state) = GOV_ST_INIT) then
    set_n_driver_faults 0 (set_n_active_causes 0 n)
  else n.

Definition note_cause (n : gov_node) (cause : Z) (fault_ev : gov_event_t) (healthy : bool) (now_ms : Z) : gov_node :=
  let n :=
    if negb healthy then
      let rising := (n.(n_active_causes) .& cause) =? 0 in
      let other_active := negb ((n.(n_active_causes) .& not32 cause) =? 0) in
      let n := set_n_active_causes (n.(n_active_causes) .| cause) n in
      if rising && other_active then sm GOV_EV_SECOND_FAULT now_ms n else sm fault_ev now_ms n
    else if negb ((n.(n_active_causes) .& cause) =? 0) then
      let n := set_n_active_causes (n.(n_active_causes) .& not32 cause) n in
      if n.(n_active_causes) =? 0 then sm GOV_EV_CAUSE_CLEARED now_ms n else n
    else n in
  resync_shadow n.

Definition node_note_sensor (n : gov_node) (sflags : Z) (healthy : bool) (now_ms : Z) : gov_node :=
  let n :=
    if negb healthy then set_n_driver_faults (n.(n_driver_faults) .| sflags) n
    else if gov_safety_actuation_allowed (Some n.(n_safety)) then
      set_n_driver_faults (n.(n_driver_faults) .& not32 GOV_FAULT_SENSOR_ANY_DRIVER) n
    else n in
  note_cause n GOV_CAUSE_SENSOR GOV_EV_SENSOR_FAULT healthy now_ms.

Definition node_note_link (n : gov_node) (healthy : bool) (now_ms : Z) : gov_node :=
  note_cause n GOV_CAUSE_LINK GOV_EV_LINK_FAULT healthy now_ms.

Definition node_note_timing (n : gov_node) (healthy : bool) (now_ms : Z) : gov_node :=
  note_cause n GOV_CAUSE_TIMING GOV_EV_DEADLINE_MISS healthy now_ms.

Definition node_selftest_ok (n : gov_node) (now_ms : Z) : gov_node := sm GOV_EV_SELFTEST_OK now_ms n.

Definition node_post_event (n : gov_node) (ev : gov_event_t) (now_ms : Z) : gov_node := resync_shadow (sm ev now_ms n).

Definition node_control_step (n : gov_node) (measurement : float) (now_ms : Z) : option (gov_node * float) :=
  let n := set_n_tick_ms now_ms n in
  let n := set_n_last_measurement measurement n in
  let '(p, desired) := gov_pid_step n.(n_pid) n.(n_setpoint) measurement GOV_CTRL_PERIOD_MS in
  let n := set_n_pid p n in
  let n := if gov_pid_diverging n.(n_pid) then sm GOV_EV_DIVERGE now_ms n else sm GOV_EV_TICK now_ms n in
  let n := resync_shadow n in
  desired_i ← f_to_i32 desired;
  applied_i ← gov_safety_clamp_output (Some n.(n_safety)) desired_i;
  let applied := f_of_Z applied_i in
  let n := set_n_plant (gov_plant_step n.(n_plant) applied GOV_CTRL_PERIOD_MS).1 n in
  Some (set_n_last_output applied n, applied).

Definition gov_node_note_sensor (n : option gov_node) (sflags : Z) (healthy : bool) (now_ms : Z) : option gov_node :=
  match n with None => None | Some n => Some (node_note_sensor n sflags healthy now_ms) end.
Definition gov_node_note_link (n : option gov_node) (healthy : bool) (now_ms : Z) : option gov_node :=
  match n with None => None | Some n => Some (node_note_link n healthy now_ms) end.
Definition gov_node_note_timing (n : option gov_node) (healthy : bool) (now_ms : Z) : option gov_node :=
  match n with None => None | Some n => Some (node_note_timing n healthy now_ms) end.
Definition gov_node_selftest_ok (n : option gov_node) (now_ms : Z) : option gov_node :=
  match n with None => None | Some n => Some (node_selftest_ok n now_ms) end.
Definition gov_node_post_event (n : option gov_node) (ev : gov_event_t) (now_ms : Z) : option gov_node :=
  match n with None => None | Some n => Some (node_post_event n ev now_ms) end.

(** The outer option is undefined behaviour, the inner one the pointer. *)
Definition gov_node_control_step (n : option gov_node) (measurement : float) (now_ms : Z) :
    option (option gov_node * float) :=
  match n with
  | None => Some (None, f_of_Z GOV_SAFE_OUTPUT)
  | Some n => '(n, applied) ← node_control_step n measurement now_ms; Some (Some n, applied)
  end.

Definition node_state (n : gov_node) : gov_state_t := n.(n_safety).(s_state).
Definition node_faults (n : gov_node) : Z := n.(n_safety).(s_faults) .| n.(n_driver_faults).

Definition gov_node_state (n : option gov_node) : gov_state_t :=
  match n with None => GOV_ST_FAULT_HALT | Some n => node_state n end.
Definition gov_node_faults (n : option gov_node) : Z :=
  match n with None => GOV_FAULT_INTERNAL | Some n => node_faults n end.

Definition node_telemetry (n : gov_node) : option gov_telem_record :=
  setpoint ← f_to_i32 n.(n_setpoint);
  measurement ← f_to_i32 n.(n_last_measurement);
  output ← f_to_i32 n.(n_last_output);
  Some (mkTelem n.(n_tick_ms) setpoint measurement output (u8 (state_code (node_state n))) (node_faults n)).

Definition gov_node_fill_telemetry (n : option gov_node) (rec : option gov_telem_record) :
    option (option gov_telem_record) :=
  match n, rec with
  | Some n, Some _ => r ← node_telemetry n; Some (Some r)
  | _, _ => Some rec
  end.

Definition gov_node_fill_heartbeat (n : option gov_node) (hb : option gov_heartbeat) : option gov_heartbeat :=
  match n, hb with
  | Some n, Some _ => Some (mkHeartbeat (u8 (state_code (node_state n))) (node_faults n) n.(n_tick_ms))
  | _, _ => hb
  end.

(** ** What the coordinator keeps *)

(** The fault shadow agrees with the machine: no cause is on record while the machine actuates fully,
    dwells towards recovery, or runs bring-up. *)
Record shadow_core (n : gov_node) : Prop := {
  sh_safety : safety_inv n.(n_safety);
  sh_causes : 0 <= n.(n_active_causes) < 8;
  sh_run : n.(n_safety).(s_state) = GOV_ST_RUN -> n.(n_active_causes) = 0;
  sh_dwell : n.(n_safety).(s_cause_clear_ms) <> 0 -> n.(n_active_causes) = 0;
  sh_init : n.(n_safety).(s_state) = GOV_ST_INIT -> n.(n_active_causes) = 0
}.

(** And the driver's specific bits are dropped with it. *)
Definition shadow_ok (n : gov_node) : Prop :=
  shadow_core n /\ (n.(n_safety).(s_state) = GOV_ST_INIT -> n.(n_driver_faults) = 0).

(** The calls the application makes on a node. *)
Inductive node_call :=
  | CallSelftestOk
  | CallPost (ev : gov_event_t)
  | CallSensor (sflags : Z) (healthy : bool)
  | CallLink (healthy : bool)
  | CallTiming (healthy : bool)
  | CallControl (measurement : float).

Definition node_apply (n : gov_node) (c : node_call) (now : Z) : option gov_node :=
  match c with
  | CallSelftestOk => Some (node_selftest_ok n now)
  | CallPost ev => Some (node_post_event n ev now)
  | CallSensor sflags healthy => Some (node_note_sensor n sflags healthy now)
  | CallLink healthy => Some (node_note_link n healthy now)
  | CallTiming healthy => Some (node_note_timing n healthy now)
  | CallControl m => '(n, _) ← node_control_step n m now; Some n
  end.

Fixpoint node_run (n : gov_node) (cs : list (node_call * Z)) : option gov_node :=
  match cs with
  | [] => Some n
  | (c, now) :: cs => n ← node_apply n c now; node_run n cs
  end.

(** [CAUSE_CLEARED] is the coordinator's to post. *)
Definition call_ok (c : node_call) : Prop := match c with CallPost ev => ev <> GOV_EV_CAUSE_CLEARED | _ => True end.

(** ** The machine, as the coordinator sees it *)

Lemma enter_clear next now s :
  (enter next now s).(s_cause_clear_ms) = if decide (next = GOV_ST_DEGRADED) then s.(s_cause_clear_ms) else 0.
Proof. by destruct next. Qed.

Lemma enter_since next now s : (enter next now s).(s_state_since_ms) = now.
Proof. by destruct next. Qed.

Lemma service_timers_to_run now s :
  (service_timers now s).(s_state) = GOV_ST_RUN -> 
  s.(s_state) = GOV_ST_RUN \/ s.(s_state) = GOV_ST_DEGRADED /\ s.(s_cause_clear_ms) <> 0.
Proof.
  unfold service_timers, to_safe_stop. destruct (s_state s) eqn:E; try (by left); repeat case_match; rewrite ?enter_state, ?E; try done.
  intros _. right. split; [done|]. destruct (Z.eqb_spec (s_cause_clear_ms s) 0); done.
Qed.

Lemma service_timers_clear now s :
  (service_timers now s).(s_cause_clear_ms) <> 0 -> s.(s_cause_clear_ms) <> 0.
Proof. unfold service_timers, to_safe_stop. repeat case_match; rewrite ?enter_clear; try done. Qed.

Ltac sm_cases Hc E ev :=
  destruct ev; cbn in *; unfold step_fault_halt, to_safe_stop in *; repeat case_decide; cbn in *; rewrite ?enter_state, ?enter_clear in *; cbn in *;
  rewrite ?E in *; try congruence; try (rewrite Hc in * by done); try congruence; try tauto.

(** How RUN is reached: by staying, from bring-up, or at the end of a dwell - never by a fault event. *)
Lemma step_to_run ev now s :
  safety_ok s -> (safety_step ev now s).(s_state) = GOV_ST_RUN ->
  reasserts ev = false /\ (s.(s_state) = GOV_ST_RUN \/ s.(s_state) = GOV_ST_INIT \/ s.(s_cause_clear_ms) <> 0 \/ ev = GOV_EV_CAUSE_CLEARED).
Proof.
  intros Hs. pose proof (no_dwell s Hs) as Hc.
  unfold safety_step, to_fault_halt, to_safe_stop. destruct (now <? s_now_ms s); [by rewrite enter_state|].
  repeat case_decide; rewrite ?enter_state; try done. unfold dispatch. cbn [s_state set_s_now_ms].
  destruct (s_state s) eqn:E; try (unfold to_fault_halt; by rewrite enter_state).
  all: intros [H2|[H2 H3]]%service_timers_to_run; sm_cases Hc E ev.

Qed.

(** A dwell is started by [CAUSE_CLEARED] only, and cancelled by every fault event. *)
Lemma step_to_dwell ev now s :
  safety_ok s -> (safety_step ev now s).(s_cause_clear_ms) <> 0 ->
  reasserts ev = false /\ (s.(s_cause_clear_ms) <> 0 \/ ev = GOV_EV_CAUSE_CLEARED).
Proof.
  intros Hs. pose proof (no_dwell s Hs) as Hc.
  unfold safety_step, to_fault_halt, to_safe_stop. destruct (now <? s_now_ms s); [by rewrite enter_clear|].
  repeat case_decide; rewrite ?enter_clear; try done. unfold dispatch. cbn [s_state set_s_now_ms].
  destruct (s_state s) eqn:E; try (unfold to_fault_halt; by rewrite enter_clear).
  all: intros H2%service_timers_clear; sm_cases Hc E ev.
Qed.

(** INIT is entered by an operator clear or a watchdog reset only. *)
Lemma step_to_init ev now s :
  safety_ok s -> (safety_step ev now s).(s_state) = GOV_ST_INIT ->
  s.(s_state) = GOV_ST_INIT /\ ev <> GOV_EV_SELFTEST_OK \/ ev = GOV_EV_OPERATOR_CLEAR \/ ev = GOV_EV_WATCHDOG.
Proof.
  intros Hs. pose proof (no_dwell s Hs) as Hc.
  unfold safety_step, to_fault_halt, to_safe_stop. destruct (now <? s_now_ms s); [by rewrite enter_state|].
  repeat case_decide; rewrite ?enter_state; try done; [by auto|]. unfold dispatch. cbn [s_state set_s_now_ms].
  assert (Ht : forall t, (service_timers now t).(s_state) = GOV_ST_INIT -> t.(s_state) = GOV_ST_INIT).
  { intros t. unfold service_timers, to_safe_stop. repeat case_match; rewrite ?enter_state; congruence. }
  destruct (s_state s) eqn:E; try (unfold to_fault_halt; by rewrite enter_state).
  all: intros H2%Ht; sm_cases Hc E ev; try first [by left | by right; left].
  destruct (s_cause_clear_ms s =? 0); cbn in H2; congruence.
Qed.

(** ** The shadow invariant *)
Lemma cause_bits a c :
  0 <= a < 8 -> c = 1 \/ c = 2 \/ c = 4 ->
  0 < a .| c < 8 /\ 0 <= a .& not32 c < 8 /\ (a .& c = 0 -> a .& not32 c = a) /\ (a .& c <> 0 -> a <> 0).
Proof.
  intros Ha Hc.
  assert (a = 0 \/ a = 1 \/ a = 2 \/ a = 3 \/ a = 4 \/ a = 5 \/ a = 6 \/ a = 7) as Hcases by lia. clear Ha.
  destruct Hcases as [-> | [-> | [-> | [-> | [-> | [-> | [-> | ->]]]]]]]; destruct Hc as [-> | [-> | ->]]; vm_compute;
    intuition congruence.
Qed.

(** A cause on record, recorded again. *)
Lemma cause_recorded a c : 0 <= a < 8 -> c = 1 \/ c = 2 \/ c = 4 -> a .& c <> 0 -> a .| c = a.
Proof.
  intros Ha Hc. assert (a = 0 \/ a = 1 \/ a = 2 \/ a = 3 \/ a = 4 \/ a = 5 \/ a = 6 \/ a = 7) as Hcases by lia. clear Ha.
  destruct Hcases as [-> | [-> | [-> | [-> | [-> | [-> | [-> | ->]]]]]]]; destruct Hc as [-> | [-> | ->]]; by vm_compute.
Qed.

Lemma resync_ok n :
  safety_inv n.(n_safety) -> 0 <= n.(n_active_causes) < 8 ->
  (n.(n_safety).(s_state) = GOV_ST_RUN -> n.(n_active_causes) = 0) ->
  (n.(n_safety).(s_cause_clear_ms) <> 0 -> n.(n_active_causes) = 0) -> shadow_ok (resync_shadow n).
Proof.
  intros Hs Ha Hr Hd. unfold resync_shadow. case_decide; (split; [split|]); cbn; try done; try lia.
Qed.

(** Every event but a fault event keeps the agreement; a fault event leaves RUN and ends the dwell. *)
Lemma shadow_event n ev now :
  shadow_core n -> is_u32 now ->
  let s' := safety_step ev now n.(n_safety) in
  safety_inv s' /\
  (ev <> GOV_EV_CAUSE_CLEARED -> s'.(s_state) = GOV_ST_RUN -> n.(n_active_causes) = 0 /\ reasserts ev = false) /\
  (ev <> GOV_EV_CAUSE_CLEARED -> s'.(s_cause_clear_ms) <> 0 -> n.(n_active_causes) = 0 /\ reasserts ev = false).
Proof.
  intros [Hinv _ Hrun Hdw Hini] Hnow s'. split; [by apply safety_step_inv|]. split; intros Hev H.
  - destruct (step_to_run ev now _ (proj1 Hinv) H) as [Hre Hfrom]. split; [|done].
    destruct Hfrom as [?|[Hi|[?|?]]]; [by auto|by auto|by auto|done].
  - destruct (step_to_dwell ev now _ (proj1 Hinv) H) as [Hre [?|?]]; [|done]. auto.
Qed.

Lemma sm_resync_ok n ev now :
  shadow_core n -> is_u32 now -> ev <> GOV_EV_CAUSE_CLEARED -> shadow_ok (resync_shadow (sm ev now n)).
Proof.
  intros Hn Hnow Hev. destruct (shadow_event n ev now Hn Hnow) as (Hi & Hr & Hd).
  apply resync_ok; cbn; [done|apply Hn| |]; intros H; [by apply Hr|by apply Hd].
Qed.

Lemma note_cause_ok n cause ev healthy now :
  shadow_core n -> is_u32 now -> cause = 1 \/ cause = 2 \/ cause = 4 -> reasserts ev = true ->
  shadow_ok (note_cause n cause ev healthy now).
Proof.
  intros Hn Hnow Hc Hev. pose proof (sh_causes n Hn) as Ha. destruct (cause_bits _ _ Ha Hc) as (Hor & Hand & Hid & Hnz).
  assert (Hev' : ev <> GOV_EV_CAUSE_CLEARED) by (by intros ->). unfold note_cause. destruct healthy; cbn [negb].
  - destruct (Z.eqb_spec (n_active_causes n .& cause) 0) as [E|E]; cbn [negb].
    + apply resync_ok; apply Hn.
    + cbn [n_active_causes set_n_active_causes]. destruct (Z.eqb_spec (n_active_causes n .& not32 cause) 0) as [E0|E0].
      * destruct (shadow_event n GOV_EV_CAUSE_CLEARED now Hn Hnow) as (Hi & _). by apply resync_ok.
      * apply resync_ok; cbn; [apply Hn|done| |]; intros H; [apply (sh_run n Hn) in H|apply (sh_dwell n Hn) in H]; by apply Hnz in E.
  - destruct ((n_active_causes n .& cause =? 0) && negb (n_active_causes n .& not32 cause =? 0)) eqn:E.
    + destruct (shadow_event n GOV_EV_SECOND_FAULT now Hn Hnow) as (Hi & Hr & Hd).
      assert (n_active_causes n <> 0). { intros H0. rewrite H0 in E. by rewrite !Z.land_0_l in E. }
      apply resync_ok; cbn; [done|lia| |]; intros H'; [apply Hr in H'|apply Hd in H']; try done; lia.
    + destruct (shadow_event n ev now Hn Hnow) as (Hi & Hr & Hd).
      apply resync_ok; cbn; [done|lia| |]; intros H'; [apply Hr in H'|apply Hd in H']; try done; destruct H' as [_ H']; congruence.
Qed.

(** The driver bits are not part of the agreement. *)
Lemma set_driver_core n f : shadow_core n -> shadow_core (set_n_driver_faults f n).
Proof. intros []. by split. Qed.

Lemma selftest_shadow_ok n now : shadow_ok n -> is_u32 now -> shadow_ok (node_selftest_ok n now).
Proof.
  intros [Hn Hd] Hnow. destruct (shadow_event n GOV_EV_SELFTEST_OK now Hn Hnow) as (Hi & Hr & Hdw).
  pose proof (step_to_init GOV_EV_SELFTEST_OK now _ (proj1 (sh_safety n Hn))) as Hinit.
  split; [split; cbn|cbn].
  - done.
  - apply Hn.
  - intros H. by apply Hr.
  - intros H. by apply Hdw.
  - intros H. by destruct (Hinit H) as [[_ ?]|[?|?]].
  - intros H. by destruct (Hinit H) as [[_ ?]|[?|?]].
Qed.

Lemma control_step_shadow_ok n m now n' out :
  shadow_core n -> is_u32 now -> node_control_step n m now = Some (n', out) -> shadow_ok n'.
Proof.
  intros Hn Hnow. unfold node_control_step.
  set (n1 := set_n_last_measurement m (set_n_tick_ms now n)).
  destruct (gov_pid_step (n_pid n1) (n_setpoint n1) m GOV_CTRL_PERIOD_MS) as [p desired].
  assert (Hn1 : shadow_core (set_n_pid p n1)) by (destruct Hn; by split). clearbody n1. set (n2 := set_n_pid p n1) in *. clearbody n2.
  assert (Hn3 : shadow_ok (resync_shadow (if gov_pid_diverging (n_pid n2) then sm GOV_EV_DIVERGE now n2 else sm GOV_EV_TICK now n2))).
  { destruct (gov_pid_diverging (n_pid n2)); by apply sm_resync_ok. }
  set (n3 := resync_shadow _) in *. clearbody n3.
  destruct (f_to_i32 desired); cbn; [|done]. destruct (clamp_output _ _); cbn; [|done].
  intros [= <- _]. destruct Hn3 as [[] ?]. split; [by split|done].
Qed.

Lemma node_apply_shadow_ok n c now n' :
  shadow_ok n -> is_u32 now -> call_ok c -> node_apply n c now = Some n' -> shadow_ok n'.
Proof.
  intros Hn Hnow Hc. destruct c as [|ev|sflags healthy|healthy|healthy|m]; cbn [node_apply].
  - intros [= <-]. by apply selftest_shadow_ok.
  - intros [= <-]. apply sm_resync_ok; [apply Hn|done|done].
  - intros [= <-]. unfold node_note_sensor. apply note_cause_ok; try done; [|by left].
    destruct healthy; cbn [negb]; [destruct (gov_safety_actuation_allowed _)|]; try apply set_driver_core; apply Hn.
  - intros [= <-]. apply note_cause_ok; try done; [apply Hn|by right; left].
  - intros [= <-]. apply note_cause_ok; try done; [apply Hn|by right; right].
  - destruct (node_control_step n m now) as [[n1 out]|] eqn:E; cbn; [|done]. intros [= <-].
    eapply control_step_shadow_ok; [apply Hn|done|exact E].
Qed.

Lemma node_init_shadow_ok sp : shadow_ok (node_init sp).
Proof. split; [split|]; cbn; try done. apply init_sticky_inv. Qed.

Lemma node_run_shadow_ok cs n n' :
  shadow_ok n -> Forall (fun p => call_ok p.1 /\ is_u32 p.2) cs -> node_run n cs = Some n' -> shadow_ok n'.
Proof.
  intros Hn Hcs. revert n Hn. induction Hcs as [|[c now] cs [Hc Hnow] _ IH]; intros n Hn; cbn.
  - by intros [= <-].
  - destruct (node_apply n c now) as [n1|] eqn:E; cbn; [|done]. apply IH. by eapply node_apply_shadow_ok.
Qed.

(** ** The control step *)

(** The numeric part of a node: the controller within its limits, the plant within its envelope. *)
Record node_ok (n : gov_node) : Prop := {
  no_pid : pid_ok n.(n_pid);
  no_pid_cfg : pid_cfg n.(n_pid) = PID_CFG;
  no_plant_cfg : pl_cfg n.(n_plant) = PLANT_CFG;
  no_disturbance : pl_disturbance n.(n_plant) = f_zero;
  no_y : f_ok (pl_y n.(n_plant));
  no_y_range : 0 <= fval (pl_y n.(n_plant)) <= 100 * f_unit;
  no_setpoint : fbnd 31 n.(n_setpoint);
  no_measurement : fbnd 31 n.(n_last_measurement);
  no_output : exists z, 0 <= z <= 100 /\ n.(n_last_output) = f_of_Z z
}.

Lemma PID_CFG_ok : pid_cfg_ok PID_CFG.
Proof. repeat split; by vm_compute. Qed.

Lemma PLANT_CFG_ok : plant_cfg_ok PLANT_CFG GOV_CTRL_PERIOD_MS.
Proof. unfold plant_cfg_ok. split_and!; by vm_compute. Qed.

Lemma out_min_val : fval (pc_out_min PID_CFG) = 0.
Proof. done. Qed.
Lemma out_max_val : fval (pc_out_max PID_CFG) = 100 * f_unit.
Proof. by vm_compute. Qed.

Lemma node_init_ok sp : fbnd 31 sp -> node_ok (node_init sp).
Proof.
  intros Hsp. split; cbn; try done.
  by exists 0.
Qed.

(** What the clamp applies of a command between 0 and 100. *)
Definition clamped (st : gov_state_t) (z : Z) : Z :=
  match st with GOV_ST_RUN => z | GOV_ST_DEGRADED => z / 2 | _ => 0 end.

Lemma clamp_output_range st z : 0 <= z <= 100 -> clamp_output st z = Some (clamped st z).
Proof.
  intros Hz. destruct st; cbn [clamp_output clamped]; try done.
  unfold checked_i32, Safety.GOV_SAFE_OUTPUT, GOV_DEGRADED_CLAMP_NUM, GOV_DEGRADED_CLAMP_DEN.
  rewrite Z.sub_0_r, bool_decide_true by clia. cbn. rewrite Z.mul_1_r, bool_decide_true by clia. cbn.
  rewrite Z.quot_div_nonneg by lia. assert (0 <= z / 2 <= z) by (Z.div_mod_to_equations; lia).
  rewrite bool_decide_true by clia. cbn. rewrite Z.add_0_l, bool_decide_true by clia. done.
Qed.

Lemma clamped_range st z : 0 <= z <= 100 -> 0 <= clamped st z <= z.
Proof. intros Hz. destruct st; cbn; try lia. Z.div_mod_to_equations; lia. Qed.

(** The controller's command for a measurement, as the node asks for it. *)
Definition desired_output (n : gov_node) (m : float) : float :=
  (gov_pid_step n.(n_pid) n.(n_setpoint) m GOV_CTRL_PERIOD_MS).2.

(** One step of the plant under an integer output. *)
Lemma no_plant_step n u :
  node_ok n -> 0 <= u <= 100 ->
  let pl' := (gov_plant_step n.(n_plant) (f_of_Z u) GOV_CTRL_PERIOD_MS).1 in
  f_ok (pl_y pl') /\
  Z.min (fval (pl_y n.(n_plant))) (u * f_unit) <= fval (pl_y pl') <= Z.max (fval (pl_y n.(n_plant))) (u * f_unit) /\
  pl_cfg pl' = PLANT_CFG /\ pl_disturbance pl' = f_zero.
Proof.
  intros Hn Hu. destruct (f_of_Z_exact u ltac:(lia)) as [Huo Huv].
  pose proof (plant_step_between n.(n_plant) (f_of_Z u) GOV_CTRL_PERIOD_MS) as H.
  rewrite (no_plant_cfg n Hn), (no_disturbance n Hn) in H. specialize (H PLANT_CFG_ok).
  pose proof (no_y_range n Hn) as Hy. assert (H100 : 100 * f_unit <= 2 ^ (100 + 149)) by (unfold f_unit; lia).
  assert (H0 : 0 < f_unit) by done.
  specialize (H ltac:(split; [apply Hn|lia]) ltac:(split; [done|rewrite Huv; nia]) I eq_refl).
  destruct (gov_plant_step _ _ _) as [pl' y']. cbn [fst]. destruct H as (Hok & Hr & <- & Hc & Hd). rewrite Huv in Hr.
  split; [exact Hok|]. split; [exact Hr|]. by split.
Qed.

(** Resynchronising touches the shadow only. *)
Lemma resync_frame n :
  let n' := resync_shadow n in
  n_safety n' = n_safety n /\ n_pid n' = n_pid n /\ n_plant n' = n_plant n /\ n_setpoint n' = n_setpoint n /\
  n_tick_ms n' = n_tick_ms n /\ n_last_output n' = n_last_output n /\ n_last_measurement n' = n_last_measurement n.
Proof. cbv zeta. unfold resync_shadow. by case_decide. Qed.

(** The event a control step posts. *)
Definition control_event (n : gov_node) (m : float) : gov_event_t :=
  if gov_pid_diverging (gov_pid_step n.(n_pid) n.(n_setpoint) m GOV_CTRL_PERIOD_MS).1 then GOV_EV_DIVERGE else GOV_EV_TICK.

(** A control step is defined, and this is what it does. *)
Lemma control_step_ok n m now :
  node_ok n -> fbnd 31 m ->
  exists n' z,
    f_to_i32 (desired_output n m) = Some z /\ 0 <= z <= 100 /\
    node_control_step n m now = Some (n', f_of_Z (clamped (node_state n') z)) /\
    node_ok n' /\ n'.(n_tick_ms) = now /\ n'.(n_last_measurement) = m /\ n'.(n_setpoint) = n.(n_setpoint) /\
    n'.(n_last_output) = f_of_Z (clamped (node_state n') z) /\
    Z.min (fval (pl_y n.(n_plant))) (clamped (node_state n') z * f_unit) <= fval (pl_y n'.(n_plant)) <=
      Z.max (fval (pl_y n.(n_plant))) (clamped (node_state n') z * f_unit) /\
    n'.(n_pid) = (gov_pid_step n.(n_pid) n.(n_setpoint) m GOV_CTRL_PERIOD_MS).1 /\
    n'.(n_plant) = (gov_plant_step n.(n_plant) (f_of_Z (clamped (node_state n') z)) GOV_CTRL_PERIOD_MS).1 /\
    n'.(n_safety) = safety_step (control_event n m) now n.(n_safety).
Proof.
  intros Hn Hm. unfold desired_output, control_event.
  pose proof (pid_step_facts n.(n_pid) n.(n_setpoint) m GOV_CTRL_PERIOD_MS (no_pid n Hn) (no_setpoint n Hn) Hm) as Hp.
  specialize (Hp ltac:(unfold GOV_CTRL_PERIOD_MS; lia)). cbv zeta in Hp. rewrite (no_pid_cfg n Hn), out_min_val, out_max_val in Hp.
  unfold node_control_step. cbn [n_pid n_setpoint set_n_last_measurement set_n_tick_ms].
  destruct (gov_pid_step (n_pid n) (n_setpoint n) m GOV_CTRL_PERIOD_MS) as [p desired]. cbn [fst snd].
  destruct Hp as (Hpok & Hpcfg & Hdok & Hdr & _).
  destruct (f_to_i32_spec desired 0 100 Hdok ltac:(lia) ltac:(lia) ltac:(lia)) as (z & Hz & Hzr & _). rewrite Hz.
  set (n1 := set_n_pid p _). change (n_pid n1) with p.
  set (n2 := if gov_pid_diverging p then sm GOV_EV_DIVERGE now n1 else sm GOV_EV_TICK now n1).
  assert (H2 : n_safety n2 = safety_step (if gov_pid_diverging p then GOV_EV_DIVERGE else GOV_EV_TICK) now (n_safety n) /\
    n_pid n2 = p /\ n_plant n2 = n_plant n /\ n_setpoint n2 = n_setpoint n /\ n_tick_ms n2 = now /\ n_last_measurement n2 = m).
  { unfold n2. by destruct (gov_pid_diverging p). }
  clearbody n2. destruct H2 as (Es & Ep & Epl & Esp & Et & Em).
  destruct (resync_frame n2) as (Rs & Rp & Rpl & Rsp & Rt & _ & Rm). set (n3 := resync_shadow n2) in *. clearbody n3.
  cbn [mbind option_bind gov_safety_clamp_output].
  assert (Hz0 : 0 <= z <= 100) by lia. rewrite (clamp_output_range (s_state (n_safety n3)) z Hz0). cbn [mbind option_bind].
  change (s_state (n_safety n3)) with (node_state n3). pose proof (clamped_range (node_state n3) z Hz0) as Hc.
  set (u := clamped (node_state n3) z) in *.
  destruct (f_of_Z_exact u ltac:(lia)) as [Huo Huv].
  destruct (no_plant_step n u Hn ltac:(lia)) as (Hy & Hyr & Hcfg' & Hd'). rewrite <- Epl, <- Rpl in Hyr, Hcfg', Hd', Hy.
  remember (gov_plant_step (n_plant n3) (f_of_Z u) GOV_CTRL_PERIOD_MS).1 as pl' eqn:Epl'.
  rewrite Rpl, Epl in Epl'.
  exists (set_n_last_output (f_of_Z u) (set_n_plant pl' n3)), z.
  change (node_state (set_n_last_output _ (set_n_plant pl' n3))) with (node_state n3). fold u.
  cbn [n_safety n_pid n_plant n_setpoint n_tick_ms n_last_measurement n_last_output set_n_last_output set_n_plant].
  rewrite Rpl, Epl in Hyr. rewrite Rs, Es, Rt, Et, Rm, Em, Rsp, Esp, Rp, Ep.
  split_and!; try done; try lia.
  pose proof (no_y_range n Hn) as Hyn. assert (0 < f_unit) by done.
  split; cbn; rewrite ?Rp, ?Ep, ?Rsp, ?Esp, ?Rm, ?Em; try done; [nia|apply Hn|].
  exists u. split; [lia|done].
Qed.

(** ** Fault routing *)

(** A recoverable source, its cause bit, event and coarse flag, and its report. *)
Inductive source := SrcSensor (sflags : Z) | SrcLink | SrcTiming.

Definition src_cause (src : source) : Z :=
  match src with SrcSensor _ => GOV_CAUSE_SENSOR | SrcLink => GOV_CAUSE_LINK | SrcTiming => GOV_CAUSE_TIMING end.
Definition src_event (src : source) : gov_event_t :=
  match src with SrcSensor _ => GOV_EV_SENSOR_FAULT | SrcLink => GOV_EV_LINK_FAULT | SrcTiming => GOV_EV_DEADLINE_MISS end.
Definition src_flag (src : source) : Z :=
  match src with SrcSensor _ => GOV_FAULT_SENSOR_ACTIVE | SrcLink => GOV_FAULT_LINK | SrcTiming => GOV_FAULT_TIMING end.
Definition src_bits (src : source) : Z := match src with SrcSensor f => f | _ => 0 end.
Definition report (n : gov_node) (src : source) (healthy : bool) (now : Z) : gov_node :=
  match src with
  | SrcSensor f => node_note_sensor n f healthy now
  | SrcLink => node_note_link n healthy now
  | SrcTiming => node_note_timing n healthy now
  end.

Lemma src_cause_cases src : src_cause src = 1 \/ src_cause src = 2 \/ src_cause src = 4.
Proof. destruct src; [by left|by right; left|by right; right]. Qed.

Lemma safety_step_run_fault src now s :
  safety_ok s -> s.(s_state) = GOV_ST_RUN -> s.(s_now_ms) <= now -> is_u32 now ->
  safety_step (src_event src) now s =
    enter GOV_ST_DEGRADED now (set_s_faults (s.(s_faults) .| src_flag src) (set_s_now_ms now s)).
Proof.
  intros Hs Est Hle Hnow. rewrite safety_step_plain by (done || by destruct src). unfold dispatch. cbn [s_state set_s_now_ms].
  rewrite Est. assert (Hc : s_cause_clear_ms s = 0) by (apply no_dwell; [done|by rewrite Est]).
  assert (E : step_run (src_event src) now (set_s_now_ms now s) =
    enter GOV_ST_DEGRADED now (set_s_faults (s.(s_faults) .| src_flag src) (set_s_now_ms now s))) by (by destruct src).
  rewrite E. unfold service_timers. rewrite enter_state, enter_since, enter_clear. cbn [s_cause_clear_ms set_s_faults set_s_now_ms].
  rewrite decide_True by done. by rewrite Z.sub_diag, Hc.
Qed.

Lemma safety_step_second now s :
  s.(s_state) = GOV_ST_DEGRADED -> s.(s_now_ms) <= now ->
  safety_step GOV_EV_SECOND_FAULT now s = to_safe_stop GOV_FAULT_ESCALATED now (set_s_now_ms now s).
Proof.
  intros Est Hle. rewrite safety_step_plain by done. unfold dispatch. cbn [s_state set_s_now_ms]. rewrite Est. done.
Qed.

Lemma safety_step_cleared now s :
  safety_ok s -> s.(s_state) = GOV_ST_DEGRADED -> s.(s_cause_clear_ms) = 0 -> s.(s_now_ms) <= now -> is_u32 now ->
  now < s.(s_state_since_ms) + GOV_DEGRADE_MAX_MS ->
  safety_step GOV_EV_CAUSE_CLEARED now s = set_s_cause_clear_ms now (set_s_now_ms now s).
Proof.
  intros Hs Est Hc Hle Hnow Hlt. rewrite safety_step_plain by done. unfold dispatch. cbn [s_state set_s_now_ms]. rewrite Est.
  cbn [step_degraded]. cbn [s_cause_clear_ms set_s_now_ms]. rewrite Hc. cbn [Z.eqb]. unfold service_timers. cbn. rewrite Est.
  destruct Hs. rewrite u32_sub_le by clia. rewrite (proj2 (Z.leb_gt _ _)) by lia. rewrite Z.sub_diag.
  by rewrite andb_false_r.
Qed.

(** The report of an unhealthy source, by the machine's event and the driver's bits. *)
Lemma report_unhealthy n src now :
  let second := (n.(n_active_causes) .& src_cause src =? 0) && negb (n.(n_active_causes) .& not32 (src_cause src) =? 0) in
  let n' := sm (if second then GOV_EV_SECOND_FAULT else src_event src) now
    (set_n_active_causes (n.(n_active_causes) .| src_cause src)
      (match src with SrcSensor f => set_n_driver_faults (n.(n_driver_faults) .| f) n | _ => n end)) in
  report n src false now = resync_shadow n'.
Proof.
  cbv zeta. destruct src; cbn [report src_cause src_event]; unfold node_note_sensor, node_note_link, node_note_timing, note_cause;
    cbn [negb n_active_causes set_n_driver_faults]; by destruct (_ && _).
Qed.

Lemma resync_keeps n : node_state n <> GOV_ST_INIT -> resync_shadow n = n.
Proof. intros Hn. unfold resync_shadow. by rewrite decide_False by done. Qed.

(** C33: The first fault degrades the node and is visible. In RUN, an unhealthy report of the sensor, the
    link or the loop timing, at a time not before the machine's last step as the API asks, takes the node to DEGRADED, records exactly that cause, and the fault word the
    node reports carries the source's flag and, for the sensor, the driver's specific bits. *)
Theorem first_fault_degrades n src now :
  shadow_ok n -> node_state n = GOV_ST_RUN -> n.(n_safety).(s_now_ms) <= now -> is_u32 now ->
  let n' := report n src false now in
  node_state n' = GOV_ST_DEGRADED /\ n'.(n_active_causes) = src_cause src /\
  has (node_faults n') (src_flag src) /\ has (node_faults n') (src_bits src) /\
  n'.(n_safety).(s_cause_clear_ms) = 0.
Proof.
  intros [Hn _] Hst Hle Hnow. cbv zeta. rewrite report_unhealthy. rewrite (sh_run n Hn Hst).
  rewrite !Z.land_0_l, Z.lor_0_l. cbn [Z.eqb negb andb].
  assert (Hsafe : safety_ok (n_safety n)) by apply (sh_safety n Hn).
  set (n0 := match src with SrcSensor f => _ | _ => n end).
  assert (E0 : n_safety n0 = n_safety n) by (by destruct src).
  assert (Hb : has (n_driver_faults n0) (src_bits src)).
  { destruct src; cbn; [apply has_lor_r|by unfold has; rewrite Z.land_0_r..]. }
  assert (Est : node_state (sm (src_event src) now (set_n_active_causes (src_cause src) n0)) = GOV_ST_DEGRADED).
  { unfold node_state, sm. cbn. rewrite E0, safety_step_run_fault by done. by apply enter_state. }
  rewrite resync_keeps by (by rewrite Est). split; [done|]. split; [done|].
  unfold node_faults, sm. cbn. rewrite E0, safety_step_run_fault by done.
  rewrite enter_clear. cbn. split_and!.
  - apply has_lor_l, has_lor_r.
  - rewrite Z.lor_comm. by apply has_lor_l.
  - apply no_dwell; [done|]. unfold node_state in Hst. by rewrite Hst.
Qed.

(** A recoverable fault in DEGRADED, before the escalation bound and from it on. *)
Lemma safety_step_reassert src now s :
  safety_ok s -> s.(s_state) = GOV_ST_DEGRADED -> s.(s_now_ms) <= now -> is_u32 now ->
  safety_step (src_event src) now s =
    (let s' := set_s_faults (s.(s_faults) .| src_flag src) (set_s_cause_clear_ms 0 (set_s_now_ms now s)) in
     if s.(s_state_since_ms) + GOV_DEGRADE_MAX_MS <=? now then to_safe_stop GOV_FAULT_ESCALATED now s' else s').
Proof.
  intros Hs Est Hle Hnow. rewrite safety_step_plain by (done || by destruct src). unfold dispatch. cbn [s_state set_s_now_ms]. rewrite Est.
  assert (E : step_degraded (src_event src) now (set_s_now_ms now s) =
    set_s_faults (s.(s_faults) .| src_flag src) (set_s_cause_clear_ms 0 (set_s_now_ms now s))) by (by destruct src).
  rewrite E. cbv zeta. unfold service_timers.
  cbn [s_state s_state_since_ms s_cause_clear_ms set_s_faults set_s_cause_clear_ms set_s_now_ms Z.eqb negb andb]. rewrite Est.
  destruct Hs. rewrite u32_sub_le by clia.
  by destruct (Z.leb_spec GOV_DEGRADE_MAX_MS (now - s_state_since_ms s)),
    (Z.leb_spec (s_state_since_ms s + GOV_DEGRADE_MAX_MS) now); try lia.
Qed.

(** An unhealthy report in DEGRADED that is not a second, different fault. *)
Lemma report_reassert n src now :
  shadow_core n -> node_state n = GOV_ST_DEGRADED -> n.(n_safety).(s_now_ms) <= now -> is_u32 now ->
  n.(n_active_causes) = 0 \/ n.(n_active_causes) .& src_cause src <> 0 ->
  let n' := report n src false now in
  n_safety n' = safety_step (src_event src) now n.(n_safety) /\ n'.(n_active_causes) = n.(n_active_causes) .| src_cause src.
Proof.
  intros Hn Hst Hle Hnow Hc. cbv zeta. rewrite report_unhealthy.
  set (n0 := match src with SrcSensor f => set_n_driver_faults (n.(n_driver_faults) .| f) n | _ => n end).
  assert (E0 : n_safety n0 = n_safety n) by (by destruct src).
  assert (E : (n.(n_active_causes) .& src_cause src =? 0) && negb (n.(n_active_causes) .& not32 (src_cause src) =? 0) = false).
  { destruct Hc as [-> | Hc]; [by rewrite Z.land_0_l, andb_false_r|by rewrite (proj2 (Z.eqb_neq _ _) Hc)]. }
  rewrite E. rewrite resync_keeps; unfold sm, node_state; cbn; rewrite E0; [done|].
  rewrite safety_step_reassert by (done || apply (proj1 (sh_safety n Hn))). cbv zeta. case_match; [by unfold to_safe_stop; rewrite enter_state|].
  cbn. unfold node_state in Hst. by rewrite Hst.
Qed.


(** The escalation keeps the driver's specific bits of a sensor fault. *)
Lemma escalation_keeps_driver_bits n f now :
  shadow_core n -> node_state n = GOV_ST_DEGRADED -> n.(n_active_causes) <> 0 -> n.(n_active_causes) .& GOV_CAUSE_SENSOR = 0 ->
  n.(n_safety).(s_now_ms) <= now -> has (node_faults (report n (SrcSensor f) false now)) f.
Proof.
  intros Hn Hst Hact Hdiff Hle.
  destruct (cause_bits _ _ (sh_causes n Hn) (src_cause_cases (SrcSensor f))) as (_ & _ & Hid & _). rewrite report_unhealthy.
  cbn [src_cause] in *. rewrite Hdiff, (Hid Hdiff), (proj2 (Z.eqb_neq _ _) Hact). cbn [Z.eqb negb andb].
  rewrite resync_keeps.
  - unfold node_faults, sm. cbn. rewrite Z.lor_comm. apply has_lor_l, has_lor_r.
  - unfold node_state, sm. cbn. rewrite safety_step_second by done. unfold to_safe_stop. by rewrite enter_state.
Qed.

Lemma report_shadow_ok n src healthy now : shadow_core n -> is_u32 now -> shadow_ok (report n src healthy now).
Proof.
  intros Hn Hnow. destruct src; cbn [report]; unfold node_note_sensor; apply note_cause_ok; try done;
    [|by left|by right; left|by right; right].
  destruct healthy; cbn [negb]; [destruct (gov_safety_actuation_allowed _)|]; try apply set_driver_core; apply Hn.
Qed.

(** Reports touch the safety machine and the shadow, not the numeric part. *)
Lemma report_frame n src healthy now :
  let n' := report n src healthy now in
  n_pid n' = n_pid n /\ n_plant n' = n_plant n /\ n_setpoint n' = n_setpoint n /\
  n_last_output n' = n_last_output n /\ n_last_measurement n' = n_last_measurement n.
Proof.
  cbv zeta. assert (Hnc : forall n cause ev, let n' := note_cause n cause ev healthy now in
    n_pid n' = n_pid n /\ n_plant n' = n_plant n /\ n_setpoint n' = n_setpoint n /\
    n_last_output n' = n_last_output n /\ n_last_measurement n' = n_last_measurement n).
  { clear. intros n cause ev. cbv zeta. unfold note_cause, resync_shadow, sm. by repeat case_match. }
  destruct src; cbn [report]; [|apply Hnc..]. unfold node_note_sensor.
  match goal with |- context [note_cause ?q ?c ?e healthy now] => destruct (Hnc q c e) as (-> & -> & -> & -> & ->) end.
  by repeat case_match.
Qed.

Lemma node_ok_frame n n' :
  node_ok n -> n_pid n' = n_pid n -> n_plant n' = n_plant n -> n_setpoint n' = n_setpoint n ->
  n_last_output n' = n_last_output n -> n_last_measurement n' = n_last_measurement n -> node_ok n'.
Proof. intros [] E1 E2 E3 E4 E5. split; by rewrite ?E1, ?E2, ?E3, ?E4, ?E5. Qed.

Lemma note_cause_last n src ev now :
  n.(n_active_causes) = src_cause src ->
  note_cause n (src_cause src) ev true now = resync_shadow (sm GOV_EV_CAUSE_CLEARED now (set_n_active_causes 0 n)).
Proof.
  intros Ha. assert (H1 : (src_cause src .& src_cause src =? 0) = false) by (by destruct src).
  assert (H2 : src_cause src .& not32 (src_cause src) = 0) by (by destruct src).
  unfold note_cause. cbn [negb]. rewrite Ha, H1. cbn [negb n_active_causes set_n_active_causes]. by rewrite H2.
Qed.

(** The last cause reported healthy starts the dwell. *)
Lemma report_healthy_last n src now :
  shadow_core n -> node_state n = GOV_ST_DEGRADED -> n.(n_active_causes) = src_cause src ->
  n.(n_safety).(s_now_ms) <= now -> is_u32 now -> now < n.(n_safety).(s_state_since_ms) + GOV_DEGRADE_MAX_MS ->
  let n' := report n src true now in
  n_safety n' = set_s_cause_clear_ms now (set_s_now_ms now n.(n_safety)) /\ n_active_causes n' = 0 /\
  n_driver_faults n' =
    match src with SrcSensor _ => n.(n_driver_faults) .& not32 GOV_FAULT_SENSOR_ANY_DRIVER | _ => n.(n_driver_faults) end.
Proof.
  intros Hn Hst Hact Hle Hnow Hlt. cbv zeta.
  assert (Hdw : s_cause_clear_ms (n_safety n) = 0).
  { destruct (Z.eq_dec (s_cause_clear_ms (n_safety n)) 0) as [|Hc]; [done|]. apply (sh_dwell n Hn) in Hc.
    rewrite Hact in Hc. by destruct src. }
  pose proof (safety_step_cleared now _ (proj1 (sh_safety n Hn)) Hst Hdw Hle Hnow Hlt) as Hs.
  assert (Hal : gov_safety_actuation_allowed (Some (n_safety n)) = true).
  { unfold gov_safety_actuation_allowed. unfold node_state in Hst. by rewrite Hst. }
  set (n0 := match src with SrcSensor _ => set_n_driver_faults (n.(n_driver_faults) .& not32 GOV_FAULT_SENSOR_ANY_DRIVER) n | _ => n end).
  assert (E : report n src true now = note_cause n0 (src_cause src) (src_event src) true now).
  { destruct src; [|done..]. cbn [report]. unfold node_note_sensor. by rewrite Hal. }
  assert (E0 : n_safety n0 = n_safety n /\ n_active_causes n0 = src_cause src) by (by destruct src). destruct E0 as [Es Ea].
  rewrite E, (note_cause_last n0 src _ now Ea), resync_keeps; unfold sm, node_state; cbn [n_safety set_n_safety set_n_active_causes n_active_causes n_driver_faults];
    rewrite Es, Hs; [|cbn; unfold node_state in Hst; by rewrite Hst]. split_and!; try done. by destruct src.
Qed.

(** The fault shadow after a control step outside INIT. *)
Lemma control_step_shadow n m t n' out :
  node_control_step n m t = Some (n', out) -> node_state n' <> GOV_ST_INIT ->
  n_active_causes n' = n_active_causes n /\ n_driver_faults n' = n_driver_faults n.
Proof.
  unfold node_control_step. destruct (gov_pid_step _ _ _ _) as [p desired]. cbn -[f_to_i32 resync_shadow].
  set (n1 := if gov_pid_diverging p then _ else _).
  assert (E : n_active_causes n1 = n_active_causes n /\ n_driver_faults n1 = n_driver_faults n) by (unfold n1; by destruct (gov_pid_diverging p)).
  clearbody n1. destruct (f_to_i32 desired); cbn -[resync_shadow]; [|done]. destruct (clamp_output _ _); cbn -[resync_shadow]; [|done].
  intros [= <- _] Hst. unfold node_state in Hst. cbn -[resync_shadow] in *.
  rewrite (resync_keeps n1); [done|]. unfold node_state. by rewrite <-(proj1 (resync_frame n1)).
Qed.

(** The driver's bits without the mask. *)
Lemma masked_driver m : within m GOV_FAULT_SENSOR_ANY_DRIVER -> m .& not32 GOV_FAULT_SENSOR_ANY_DRIVER = 0.
Proof.
  rewrite within_spec. intros H. apply Z.bits_inj. intros i. rewrite Z.land_spec, Z.bits_0.
  destruct (Z.testbit m i) eqn:E; [|done]. apply H in E.
  assert (E0 : GOV_FAULT_SENSOR_ANY_DRIVER .& not32 GOV_FAULT_SENSOR_ANY_DRIVER = 0) by done.
  pose proof (f_equal (fun z => Z.testbit z i) E0) as Hz. cbv beta in Hz. by rewrite Z.land_spec, Z.bits_0, E in Hz.
Qed.

(** C35: The node recovers when the last cause clears, on schedule. In DEGRADED with one cause on record, the
    healthy report of that source at time [t1] keeps DEGRADED with no cause on record and starts the dwell; if the
    source is the sensor it also drops the driver's specific bits. A control step that finds no divergence then stays
    DEGRADED before [t1 + 500] ms and returns to RUN from then on, as long as the escalation bound of
    5000 ms in DEGRADED has not passed. The word the node reports in RUN is then the watchdog and sticky bits that the
    machine had raised, and nothing else after a sensor fault; after a link or timing fault it is those and whatever
    driver bits the node held. *)
Theorem last_cause_recovers n src t1 m t :
  shadow_ok n -> node_ok n -> node_state n = GOV_ST_DEGRADED -> n.(n_active_causes) = src_cause src ->
  within n.(n_driver_faults) GOV_FAULT_SENSOR_ANY_DRIVER ->
  n.(n_safety).(s_now_ms) <= t1 -> 0 < t1 <= t -> is_u32 t -> fbnd 31 m ->
  t < n.(n_safety).(s_state_since_ms) + GOV_DEGRADE_MAX_MS ->
  let n1 := report n src true t1 in
  let driver := match src with SrcSensor _ => 0 | _ => n.(n_driver_faults) end in
  control_event n1 m = GOV_EV_TICK ->
  node_state n1 = GOV_ST_DEGRADED /\ n_active_causes n1 = 0 /\ n_driver_faults n1 = driver /\
  exists n2 out, node_control_step n1 m t = Some (n2, out) /\ node_ok n2 /\
    node_state n2 = (if t1 + GOV_RECOVER_MS <=? t then GOV_ST_RUN else GOV_ST_DEGRADED) /\
    (node_state n2 = GOV_ST_RUN ->
     node_faults n2 = ((n_safety n).(s_faults) .& (GOV_FAULT_WATCHDOG .| (n_safety n).(s_sticky))) .| driver).
Proof.
  intros [Hn _] Hok Hst Hact Hdw Hle Ht Hu Hm Hlt n1 driver Hev.
  assert (Hu1 : is_u32 t1) by clia.
  destruct (report_healthy_last n src t1 Hn Hst Hact Hle Hu1 ltac:(lia)) as (Hs1 & Ha1 & Hd1). fold n1 in Hs1, Ha1, Hd1.
  assert (Hd : n_driver_faults n1 = driver).
  { rewrite Hd1. unfold driver. destruct src; [|done..]. by apply masked_driver. }
  split; [unfold node_state in *; by rewrite Hs1|]. split; [done|]. split; [done|].
  destruct (report_frame n src true t1) as (F1 & F2 & F3 & F4 & F5). fold n1 in F1, F2, F3, F4, F5.
  assert (Hok1 : node_ok n1) by (by apply (node_ok_frame n)).
  destruct (control_step_ok n1 m t Hok1 Hm) as (n2 & z & _ & _ & Hstep & Hok2 & _ & _ & _ & _ & _ & _ & _ & Hsafe).
  exists n2. eexists. split; [exact Hstep|]. split; [done|]. rewrite Hev in Hsafe.
  assert (Hinv1 : safety_inv (n_safety n1)).
  { rewrite Hs1, <- (safety_step_cleared t1 _ (proj1 (sh_safety n Hn)) Hst); [apply safety_step_inv; [apply Hn|done]| |done|done|lia].
    destruct (Z.eq_dec (s_cause_clear_ms (n_safety n)) 0) as [|Hc]; [done|]. apply (sh_dwell n Hn) in Hc. rewrite Hact in Hc. by destruct src. }
  rewrite step_recovering in Hsafe; [|done|by rewrite Hs1|rewrite Hs1; cbn; lia|by left|rewrite Hs1; cbn; lia|done|rewrite Hs1; cbn; lia].
  assert (Hr : node_state n2 = (if t1 + GOV_RECOVER_MS <=? t then GOV_ST_RUN else GOV_ST_DEGRADED)).
  { unfold node_state. rewrite Hsafe, Hs1. cbn [s_cause_clear_ms set_s_cause_clear_ms s_faults s_sticky set_s_now_ms].
    destruct (t1 + GOV_RECOVER_MS <=? t); [by rewrite enter_state|]. exact Hst. }
  split; [done|]. intros Hrun. unfold node_faults.
  destruct (control_step_shadow _ _ _ _ _ Hstep) as [_ ->]; [by rewrite Hrun|]. rewrite Hd. f_equal.
  rewrite Hrun in Hr. rewrite Hsafe, Hs1. cbn [s_cause_clear_ms set_s_cause_clear_ms s_faults s_sticky set_s_now_ms].
  by destruct (t1 + GOV_RECOVER_MS <=? t).
Qed.

(** ** Theorems about runs and the actuator *)

(** C5: The coordinator's fault shadow never lies. After any sequence of the application's calls, at any
    times (even ones that go back), from a freshly initialised node: in RUN no cause is on record, so
    the next fault is routed as a first fault; while a recovery dwell runs no cause is on record, so
    recovery to RUN never happens with a fault still active; in INIT the record and the driver's
    specific bits are empty, so nothing leaks from one episode to the next; and the safety machine
    keeps its own invariant. *)
Theorem shadow_never_lies sp cs n :
  Forall (fun p => call_ok p.1 /\ is_u32 p.2) cs -> node_run (node_init sp) cs = Some n ->
  (node_state n = GOV_ST_RUN -> n.(n_active_causes) = 0) /\
  (n.(n_safety).(s_cause_clear_ms) <> 0 -> n.(n_active_causes) = 0) /\
  (node_state n = GOV_ST_INIT -> n.(n_active_causes) = 0 /\ n.(n_driver_faults) = 0) /\
  0 <= n.(n_active_causes) < 8 /\ safety_ok n.(n_safety) /\ timers_ok n.(n_safety).
Proof.
  intros Hcs Hrun. destruct (node_run_shadow_ok cs _ _ (node_init_shadow_ok sp) Hcs Hrun) as [[] Hd].
  split_and!; try done; try apply sh_safety0; auto; lia.
Qed.

(** C2: The safety machine is the sole authority over the actuator, through the float arithmetic. For a node
    whose controller and plant are well formed, and any measurement up to [2^31] in magnitude, a
    control step is defined (no cast is out of range) and applies a whole number [u] of plant units
    in 0..100: 0 unless the machine, after the step's own event, is in RUN or DEGRADED; at most 50 in
    DEGRADED; the controller's command truncated in RUN. The node stays well formed, and the plant moves
    between its old output and [u], so it never leaves the envelope 0..100. *)
Theorem control_step_authority n m now :
  node_ok n -> fbnd 31 m ->
  exists n' u,
    node_control_step n m now = Some (n', f_of_Z u) /\ node_ok n' /\
    0 <= u <= 100 /\
    n'.(n_safety) = safety_step (control_event n m) now n.(n_safety) /\
    (gov_safety_actuation_allowed (Some n'.(n_safety)) = false -> u = 0) /\
    (node_state n' = GOV_ST_DEGRADED -> u <= 50) /\
    (node_state n' = GOV_ST_RUN -> f_to_i32 (desired_output n m) = Some u) /\
    Z.min (fval (pl_y n.(n_plant))) (u * f_unit) <= fval (pl_y n'.(n_plant)) <= Z.max (fval (pl_y n.(n_plant))) (u * f_unit) /\
    0 <= fval (pl_y n'.(n_plant)) <= 100 * f_unit.
Proof.
  intros Hn Hm. destruct (control_step_ok n m now Hn Hm) as (n' & z & Hz & Hzr & Hstep & Hok & _ & _ & _ & _ & Hy & _ & _ & Hs).
  exists n', (clamped (node_state n') z). pose proof (clamped_range (node_state n') z Hzr) as Hc.
  split_and!; try done; try lia; try apply Hok.
  - unfold gov_safety_actuation_allowed. change (s_state (n_safety n')) with (node_state n'). by destruct (node_state n').
  - intros ->. cbn. Z.div_mod_to_equations; lia.
  - intros ->. done.
Qed.

(** ** Telemetry *)
Lemma state_code_u8 st : is_u8 (state_code st).
Proof. destruct st; by vm_compute. Qed.

Lemma f_to_i32_inside x :
  fbnd 31 x -> Z.abs (fval x) < 2 ^ 31 * f_unit -> exists z, f_to_i32 x = Some z /\ is_i32 z /\ z = Z.quot (fval x) f_unit.
Proof.
  intros [Hok _] Hx. unfold f_to_i32. rewrite f_trunc_spec by done. cbn.
  assert (Hq : - 2 ^ 31 < Z.quot (fval x) f_unit < 2 ^ 31) by (unfold f_unit in *; Z.quot_rem_to_equations; lia).
  exists (Z.quot (fval x) f_unit). rewrite bool_decide_true by clia. split_and!; try done; clia.
Qed.

(** C36: Telemetry tells the truth. For a well-formed node whose setpoint and last measurement are inside the
    [int32_t] range, [gov_node_fill_telemetry] is defined, and what the ground station decodes from the
    encoded record, whatever follows it, is the tick, the truncated setpoint and measurement, the
    output actually applied, the machine's state code, and the merged fault word with every bit of the
    machine and of the driver. *)
Theorem telemetry_truthful n rec out rest :
  node_ok n -> shadow_ok n -> is_u32 n.(n_tick_ms) -> 0 <= n.(n_driver_faults) -> within n.(n_driver_faults) GOV_FAULT_ALL ->
  Z.abs (fval n.(n_setpoint)) < 2 ^ 31 * f_unit -> Z.abs (fval n.(n_last_measurement)) < 2 ^ 31 * f_unit ->
  (21 <= length out)%nat ->
  exists r, gov_node_fill_telemetry (Some n) (Some rec) = Some (Some r) /\
    gov_telem_encode (Some r) (Some out) (Z.of_nat (length out)) = Some (21, Some (telem_bytes r ++ drop 21 out)) /\
    gov_telem_decode (Some (telem_bytes r ++ rest)) 21 = Some (Some r) /\
    tm_tick r = n.(n_tick_ms) /\
    tm_setpoint r = Z.quot (fval n.(n_setpoint)) f_unit /\ tm_measurement r = Z.quot (fval n.(n_last_measurement)) f_unit /\
    n.(n_last_output) = f_of_Z (tm_output r) /\ 0 <= tm_output r <= 100 /\
    tm_state r = state_code (node_state n) /\
    has (tm_fault_flags r) n.(n_safety).(s_faults) /\ has (tm_fault_flags r) n.(n_driver_faults).
Proof.
  intros Hok [Hsh _] Htick Hd0 Hd Hsp Hm Hlen.
  destruct (f_to_i32_inside _ (no_setpoint n Hok) Hsp) as (sp & Esp & Hspi & ->).
  destruct (f_to_i32_inside _ (no_measurement n Hok) Hm) as (me & Eme & Hmei & ->).
  destruct (no_output n Hok) as (u & Hu & Eu). destruct (f_of_Z_exact u ltac:(lia)) as [Huo Huv].
  assert (Eou : f_to_i32 (n_last_output n) = Some u).
  { unfold f_to_i32. rewrite Eu, f_trunc_spec, Huv, Z.quot_mul by done. cbn. rewrite bool_decide_true by clia. done. }
  pose proof (state_code_u8 (node_state n)) as Hst.
  assert (Hf : is_u32 (node_faults n)).
  { destruct (sh_safety n Hsh) as [[] _]. unfold node_faults.
    pose proof (within_all_u32 (s_faults (n_safety n) .| n_driver_faults n)) as H.
    destruct H; [by apply Z.lor_nonneg|by apply within_lor|clia]. }
  exists (mkTelem n.(n_tick_ms) (Z.quot (fval n.(n_setpoint)) f_unit) (Z.quot (fval n.(n_last_measurement)) f_unit) u
    (state_code (node_state n)) (node_faults n)).
  split. { unfold gov_node_fill_telemetry, node_telemetry. rewrite Esp, Eme, Eou. cbn. by rewrite u8_small. }
  split. { apply telem_encode_at; lia. }
  split.
  { apply telem_decode_bytes; [|done]. split; [exact Htick|]. split; [exact Hspi|]. split; [exact Hmei|]. cbn. by split; [clia|]. }
  cbn. split_and!; try done; try lia; unfold node_faults; [by apply has_lor_l, has_refl|apply has_lor_r].
Qed.

(** A setpoint at the top of the [int32_t] range makes telemetry undefined. The persisted setpoint is an
    [int32_t]; from 2147483584 on it converts to the float 2147483648, and the cast back to [int32_t] in
    [gov_node_fill_telemetry] is then out of range. *)
Theorem top_setpoint_undefined sp rec :
  2147483584 <= sp < 2 ^ 31 -> gov_node_fill_telemetry (Some (node_init (f_of_Z sp))) (Some rec) = None.
Proof.
  intros Hsp. destruct (f_of_Z_spec sp ltac:(lia)) as [Hok Hv].
  assert (Hr : 2 ^ 31 * f_unit <= rnd 0 (sp * f_unit)).
  { assert (E : rnd 0 (2147483584 * f_unit) = 2 ^ 31 * f_unit) by (by vm_compute). rewrite <- E. apply rnd_mono; [done|].
    unfold f_unit. lia. }
  rewrite <- Hv in Hr. unfold gov_node_fill_telemetry, node_telemetry, f_to_i32. cbn [n_setpoint node_init].
  rewrite (f_trunc_spec (f_of_Z sp)) by done. cbn.
  rewrite (bool_decide_false (is_i32 (fval (f_of_Z sp) ÷ f_unit))); [done|].
  assert (2 ^ 31 <= Z.quot (fval (f_of_Z sp)) f_unit) by (unfold f_unit in *; Z.quot_rem_to_equations; lia). clia.
Qed.

(** ** The closed loop on a board without a sensor *)

(** The iterations of [control_entry] that start at the given times, the measurement being the plant's
    output of the iteration before. *)
Fixpoint control_loop (n : gov_node) (m : float) (times : list Z) : option (gov_node * float) :=
  match times with
  | [] => Some (n, m)
  | t :: times => '(n, _) ← node_control_step n m t; control_loop n (gov_plant_output n.(n_plant)) times
  end.

Fixpoint increasing_from (t : Z) (times : list Z) : Prop :=
  match times with [] => True | t' :: times => t <= t' /\ is_u32 t' /\ increasing_from t' times end.

(** The numbers of the loop in RUN: they do not depend on the clock. *)
Definition loop_step (sp : float) (st : gov_pid * gov_plant * float) : gov_pid * gov_plant * float :=
  let '(p, pl, m) := st in
  let '(p, desired) := gov_pid_step p sp m GOV_CTRL_PERIOD_MS in
  let pl := (gov_plant_step pl (f_of_Z (default 0 (f_to_i32 desired))) GOV_CTRL_PERIOD_MS).1 in
  (p, pl, gov_plant_output pl).

Fixpoint trajectory (sp : float) (k : nat) (st : gov_pid * gov_plant * float) : list (gov_pid * gov_plant * float) :=
  match k with O => [st] | S k => st :: trajectory sp k (loop_step sp st) end.

Lemma trajectory_lookup sp k j st : (j <= k)%nat -> trajectory sp k st !! j = Some (Nat.iter j (loop_step sp) st).
Proof.
  revert j st. induction k as [|k IH]; intros [|j] st Hj; cbn [trajectory]; try done; [lia|].
  cbn [lookup list_lookup]. rewrite IH by lia. by rewrite Nat.iter_succ_r.
Qed.

(** The state of the loop started at rest with the setpoint 50. *)
Definition loop_start : gov_pid * gov_plant * float := (gov_pid_init PID_CFG, gov_plant_init PLANT_CFG, f_zero).
Definition loop_at (k : nat) : gov_pid * gov_plant * float := Nat.iter k (loop_step (f_of_Z 50)) loop_start.

(** Not diverging, at most 50, and at least 49 from the 38th iteration on. *)
Definition settled (j : nat) (st : gov_pid * gov_plant * float) : bool :=
  negb (gov_pid_diverging st.1.1) && (0 <=? fval st.2) && (fval st.2 <=? 50 * f_unit)
  && ((Z.of_nat j <? 38) || (49 * f_unit <=? fval st.2)).

Definition horizon : nat := 3000.

Lemma settled_all :
  forallb (fun p => settled p.1 p.2) (zip (seq 0 (S horizon)) (trajectory (f_of_Z 50) horizon loop_start)) = true.
Proof. by vm_compute. Qed.

Lemma settled_at k : (k <= horizon)%nat -> settled k (loop_at k) = true.
Proof.
  intros Hk. pose proof settled_all as H. rewrite forallb_forall in H.
  apply (H (k, loop_at k)). apply list_elem_of_In, (list_elem_of_lookup_2 _ k). apply lookup_zip_with_Some.
  exists k, (loop_at k). split; [done|]. split.
  - rewrite lookup_seq_lt by lia. done.
  - by apply trajectory_lookup.
Qed.

Lemma safety_step_run_tick t s :
  s.(s_state) = GOV_ST_RUN -> s.(s_now_ms) <= t -> safety_step GOV_EV_TICK t s = set_s_now_ms t s.
Proof.
  intros Est Hle. rewrite safety_step_plain by done. unfold dispatch. cbn [s_state set_s_now_ms]. rewrite Est. cbn [step_run].
  unfold service_timers. cbn [s_state set_s_now_ms]. by rewrite Est.
Qed.

(** An iteration in RUN does what [loop_step] does. *)
Lemma control_step_in_run n m t :
  node_ok n -> fbnd 31 m -> node_state n = GOV_ST_RUN -> (n_safety n).(s_now_ms) <= t ->
  gov_pid_diverging (loop_step n.(n_setpoint) (n.(n_pid), n.(n_plant), m)).1.1 = false ->
  exists n' out, node_control_step n m t = Some (n', out) /\ node_ok n' /\ node_state n' = GOV_ST_RUN /\
    (n_safety n').(s_now_ms) = t /\ n_setpoint n' = n_setpoint n /\
    (n_pid n', n_plant n', gov_plant_output (n_plant n')) = loop_step n.(n_setpoint) (n.(n_pid), n.(n_plant), m).
Proof.
  intros Hn Hm Hst Hle Hdiv.
  destruct (control_step_ok n m t Hn Hm) as (n' & z & Hz & Hzr & Hstep & Hok & _ & _ & Hsp & _ & _ & Hp & Hpl & Hs).
  unfold control_event, desired_output in *. cbn [loop_step] in *.
  destruct (gov_pid_step (n_pid n) (n_setpoint n) m GOV_CTRL_PERIOD_MS) as [p desired]. cbn [fst snd] in *.
  rewrite Hdiv, safety_step_run_tick in Hs by done.
  assert (Hst' : node_state n' = GOV_ST_RUN) by (unfold node_state in *; by rewrite Hs).
  exists n'. eexists. split; [exact Hstep|]. split; [done|]. split; [done|]. rewrite Hst' in Hpl. cbn [clamped] in Hpl.
  rewrite Hp, Hpl, Hz, Hsp, Hs. done.
Qed.

Lemma control_loop_run times t n m k :
  node_ok n -> node_state n = GOV_ST_RUN -> (n_safety n).(s_now_ms) <= t -> increasing_from t times ->
  n_setpoint n = f_of_Z 50 -> fbnd 31 m -> (n_pid n, n_plant n, m) = loop_at k -> (k + length times <= horizon)%nat ->
  exists n' m', control_loop n m times = Some (n', m') /\ node_state n' = GOV_ST_RUN /\
    (n_pid n', n_plant n', m') = loop_at (k + length times).
Proof.
  revert t n m k. induction times as [|t' times IH]; intros t n m k Hn Hst Hle Hinc Hsp Hm Heq Hk; cbn [control_loop].
  { exists n, m. cbn. by rewrite Nat.add_0_r. }
  destruct Hinc as (Ht & Hu & Hinc). cbn [length] in Hk.
  assert (Hnext : loop_step (f_of_Z 50) (n_pid n, n_plant n, m) = loop_at (S k)) by (rewrite Heq; done).
  pose proof (settled_at (S k) ltac:(lia)) as Hset. unfold settled in Hset.
  apply andb_true_iff in Hset as [[[Hdiv _]%andb_true_iff _]%andb_true_iff _]. apply negb_true_iff in Hdiv.
  destruct (control_step_in_run n m t' Hn Hm Hst ltac:(lia)) as (n1 & out & Hstep & Hok & Hst1 & Hnow1 & Hsp1 & Hloop).
  { by rewrite Hsp, Hnext. }
  rewrite Hsp, Hnext in Hloop. rewrite Hstep. cbn.
  destruct (IH t' n1 (gov_plant_output (n_plant n1)) (S k)) as (n' & m' & Hrun & Hst' & Heq'); try done; [lia|congruence| |lia|].
  - split; [apply Hok|]. pose proof (no_y_range n1 Hok) as Hy. unfold gov_plant_output, f_unit in *. lia.
  - exists n', m'. rewrite Nat.add_succ_r. done.
Qed.

(** The closed loop settles without overshoot. On a board without a sensor, a node that passed its
    self-test with the compile-time setpoint 50 stays in RUN over the first 3000 control periods (30 s at
    100 Hz), whatever the times at which the control thread wakes up, as long as they do not go back: no
    iteration reports divergence, the measurement never exceeds 50, and from the 38th iteration on (0.38 s)
    it is within one plant unit of the setpoint. *)
Theorem closed_loop_settles t0 times :
  is_u32 t0 -> increasing_from t0 times -> (length times <= horizon)%nat ->
  exists n m, control_loop (node_selftest_ok (node_init (f_of_Z 50)) t0) f_zero times = Some (n, m) /\
    node_state n = GOV_ST_RUN /\ 0 <= fval m <= 50 * f_unit /\ ((38 <= length times)%nat -> 49 * f_unit <= fval m).
Proof.
  intros Ht0 Hinc Hlen. set (n0 := node_selftest_ok _ _).
  assert (Hsp : fbnd 31 (f_of_Z 50)) by (split; by vm_compute).
  assert (Hn0 : node_ok n0) by (apply (node_ok_frame (node_init (f_of_Z 50))); try done; by apply node_init_ok).
  assert (Hst0 : node_state n0 = GOV_ST_RUN).
  { unfold n0, node_state, node_selftest_ok, sm. cbn [n_safety set_n_safety]. apply state_after_selftest; [done|]. cbn. clia. }
  assert (Hnow0 : (n_safety n0).(s_now_ms) <= t0).
  { unfold n0, node_selftest_ok, sm. cbn [n_safety set_n_safety]. rewrite safety_step_now; [done|]. cbn. clia. }
  destruct (control_loop_run times t0 n0 f_zero 0 Hn0 Hst0 Hnow0 Hinc) as (n & m & Hrun & Hst & Heq); try done.
  exists n, m. pose proof (settled_at (length times) Hlen) as Hset. change (0 + length times)%nat with (length times) in Heq.
  rewrite <- Heq in Hset. unfold settled in Hset. cbn [snd] in Hset.
  apply andb_true_iff in Hset as [[[_ H0]%andb_true_iff H50]%andb_true_iff H49]. apply orb_true_iff in H49.
  apply Z.leb_le in H0, H50. split_and!; try done. intros H38. destruct H49 as [H|H]; [apply Z.ltb_lt in H; lia|by apply Z.leb_le in H].
Qed.

(** ** Witnesses *)
Definition wit_node : gov_node := node_init (f_of_Z 50).
Definition wit_run : gov_node := node_selftest_ok wit_node 10.
Definition wit_degraded : gov_node := report wit_run (SrcSensor 1) false 20.

Lemma wit_setpoint : fbnd 31 (f_of_Z 50).
Proof. split; by vm_compute. Qed.

Lemma wit_run_shadow : shadow_ok wit_run.
Proof. apply selftest_shadow_ok; [apply node_init_shadow_ok|clia]. Qed.

Lemma wit_run_ok : node_ok wit_run.
Proof. exact (node_ok_frame wit_node wit_run (node_init_ok _ wit_setpoint) eq_refl eq_refl eq_refl eq_refl eq_refl). Qed.

Lemma wit_degraded_shadow : shadow_ok wit_degraded.
Proof. exact (report_shadow_ok wit_run (SrcSensor 1) false 20 (proj1 wit_run_shadow) ltac:(clia)). Qed.

Lemma wit_degraded_ok : node_ok wit_degraded.
Proof.
  destruct (report_frame wit_run (SrcSensor 1) false 20) as (H1 & H2 & H3 & H4 & H5).
  exact (node_ok_frame wit_run wit_degraded wit_run_ok H1 H2 H3 H4 H5).
Qed.

Definition wit_calls : list (node_call * Z) :=
  [(CallSelftestOk, 10); (CallSensor 1 false, 20); (CallSensor 1 true, 30); (CallPost GOV_EV_TICK, 600)].

Lemma wit_calls_ok : Forall (fun p => call_ok p.1 /\ is_u32 p.2) wit_calls.
Proof. unfold wit_calls. repeat constructor; cbn; done. Qed.

Lemma shadow_never_lies_witness :
  exists n, node_run (node_init (f_of_Z 50)) wit_calls = Some n /\ node_state n = GOV_ST_RUN /\ n_active_causes n = 0.
Proof.
  destruct (node_run (node_init (f_of_Z 50)) wit_calls) as [n|] eqn:E; [|by vm_compute in E].
  destruct (shadow_never_lies (f_of_Z 50) wit_calls n wit_calls_ok E) as (Hrun & _).
  assert (Hst : node_state n = GOV_ST_RUN) by (vm_compute in E; by inversion E).
  exists n. split; [done|]. split; [done|by apply Hrun].
Defined.

Lemma control_step_authority_witness :
  exists n' u, node_control_step wit_degraded f_zero 30 = Some (n', f_of_Z u) /\ node_state n' = GOV_ST_DEGRADED /\ u <= 50.
Proof.
  destruct (control_step_authority wit_degraded f_zero 30 wit_degraded_ok (f_zero_bnd 31))
    as (n' & u & Hstep & _ & _ & Hs & _ & Hd & _).
  assert (Hst : node_state n' = GOV_ST_DEGRADED) by (unfold node_state; rewrite Hs; by vm_compute).
  exists n', u. split; [exact Hstep|]. split; [exact Hst|exact (Hd Hst)].
Defined.

Lemma first_fault_degrades_witness :
  node_state wit_degraded = GOV_ST_DEGRADED /\ has (node_faults wit_degraded) GOV_FAULT_SENSOR_ACTIVE /\ has (node_faults wit_degraded) 1.
Proof.
  destruct (first_fault_degrades wit_run (SrcSensor 1) 20 wit_run_shadow eq_refl) as (H1 & _ & H2 & H3 & _);
    [vm_compute; discriminate|clia|]. split; [exact H1|]. split; [exact H2|exact H3].
Defined.


Lemma last_cause_recovers_witness :
  exists n2 out, node_control_step (report wit_degraded (SrcSensor 1) true 30) f_zero 530 = Some (n2, out) /\
    node_state n2 = GOV_ST_RUN /\ node_faults n2 = 0.
Proof.
  destruct (last_cause_recovers wit_degraded (SrcSensor 1) 30 f_zero 530 wit_degraded_shadow wit_degraded_ok eq_refl eq_refl)
    as (_ & _ & _ & n2 & out & Hstep & _ & Hst & Hf).
  - by vm_compute.
  - vm_compute; discriminate.
  - lia.
  - clia.
  - apply f_zero_bnd.
  - by vm_compute.
  - by vm_compute.
  - exists n2, out. split; [exact Hstep|]. split; [exact Hst|exact (Hf Hst)].
Defined.

Lemma telemetry_truthful_witness :
  exists r, gov_node_fill_telemetry (Some wit_degraded) (Some (mkTelem 0 0 0 0 0 0)) = Some (Some r) /\ tm_setpoint r = 50 /\ tm_state r = 2.
Proof.
  destruct (telemetry_truthful wit_degraded (mkTelem 0 0 0 0 0 0) (repeat 0 21) [] wit_degraded_ok wit_degraded_shadow)
    as (r & Hr & _ & _ & _ & Hsp & _ & _ & _ & Hst & _).
  - by vm_compute.
  - by vm_compute.
  - by vm_compute.
  - by vm_compute.
  - by vm_compute.
  - by vm_compute.
  - exists r. split; [exact Hr|]. split; [rewrite Hsp; by vm_compute|rewrite Hst; by vm_compute].
Defined.

Lemma top_setpoint_undefined_witness :
  gov_node_fill_telemetry (Some (node_init (f_of_Z 2147483647))) (Some (mkTelem 0 0 0 0 0 0)) = None.
Proof. apply top_setpoint_undefined. lia. Defined.

Lemma closed_loop_settles_witness :
  exists n m, control_loop (node_selftest_ok (node_init (f_of_Z 50)) 10) f_zero (repeat 20 40) = Some (n, m) /\ 49 * f_unit <= fval m.
Proof.
  destruct (closed_loop_settles 10 (repeat 20 40)) as (n & m & Hrun & _ & _ & H49).
  - clia.
  - cbn. unfold is_u32. repeat split; lia.
  - rewrite repeat_length. unfold horizon. lia.
  - exists n, m. split; [exact Hrun|]. apply H49. rewrite repeat_length. lia.
Defined.
