(* ===== verification/Settle.v ===== *)
(** * Settle: the closed loop stays settled for ever (app/node_core.c, lib/control)

    At the compile-time set point the command is truncated to an integer while the controller's integral is
    not, so the loop does not come to rest: the command keeps moving between neighbouring integers.  What
    holds for ever is an invariant polytope of the loop's three numbers, which absorbs the truncation and every
    rounding of the binary32 arithmetic. *)
From S2P Require Import Prelude Float32 Rounding Control Node.
From Stdlib Require Import SpecFloat.

(** ** Products with a constant [k 2^-30] *)
Lemma f_mul_comm x y : f_mul x y = f_mul y x.
Proof.
  destruct x as [| | |sx mx ex], y as [| | |sy my ey]; unfold f_mul; cbn [SFmul]; try done; rewrite xorb_comm; try done.
  by rewrite Pos.mul_comm, Z.add_comm.
Qed.

Lemma mul_scaled c x j k :
  f_ok c -> f_ok x -> fval c = k * 2 ^ 119 -> -125 <= j <= 127 -> Z.abs (k * fval x) <= 2 ^ (j + 179) ->
  f_ok (f_mul c x) /\ Z.abs (fval (f_mul c x) * 2 ^ 30 - k * fval x) <= 2 ^ (j + 155).
Proof.
  intros Hc Hx Hk Hj Hle. destruct (f_mul_near c x j Hc Hx Hj) as [Hok He].
  - replace (fval c * fval x) with (k * fval x * 2 ^ 119) by (rewrite Hk; ring).
    replace (2 ^ (j + 149) * f_unit) with (2 ^ (j + 179) * 2 ^ 119)
      by (unfold f_unit; rewrite <- !Z.pow_add_r by lia; f_equal; lia). lia.
  - split; [done|]. rewrite Hk in He. replace (j - 24 + 149) with (j + 125) in He by lia. unfold f_unit in He.
    replace (2 ^ (j + 155)) with (2 ^ (j + 125) * 2 ^ 30) by (rewrite <- Z.pow_add_r by lia; f_equal; lia). lia.
Qed.

(** ** One step of the controller near the set point *)
Definition dt : float := dt_seconds GOV_CTRL_PERIOD_MS.

Lemma dt_val : f_ok dt /\ fval dt = 10737418 * 2 ^ 119.
Proof. split; by vm_compute. Qed.
Lemma kp_val : f_ok (pc_kp PID_CFG) /\ fval (pc_kp PID_CFG) = 3758096384 * 2 ^ 119.
Proof. split; by vm_compute. Qed.
Lemma ki_val : f_ok (pc_ki PID_CFG) /\ fval (pc_ki PID_CFG) = 19327352832 * 2 ^ 119.
Proof. split; by vm_compute. Qed.
Lemma kd_val : f_ok (f_opp (pc_kd PID_CFG)) /\ fval (f_opp (pc_kd PID_CFG)) = -64424508 * 2 ^ 119.
Proof. split; by vm_compute. Qed.

(** The derivative term is six times the change of the measurement, up to [2^-17]. *)
Lemma d_term_near p m :
  pid_cfg p = PID_CFG -> pid_has_prev p = true -> f_ok m -> f_ok p.(pid_prev_meas) ->
  2 * Z.abs (fval m - fval p.(pid_prev_meas)) <= f_unit ->
  f_ok (pid_d_term p m dt) /\ Z.abs (fval (pid_d_term p m dt) + 6 * (fval m - fval p.(pid_prev_meas))) <= 2 ^ 132.
Proof.
  intros Hc Hh Hm Hp Hd. unfold pid_d_term. rewrite Hh, Hc. destruct dt_val as [Hdt Hdtv]. rewrite f_lt_spec by done. rewrite Hdtv.
  change (fval f_zero <? _) with true. cbn [andb]. unfold f_unit in Hd.
  destruct (f_sub_near m p.(pid_prev_meas) 0 Hm Hp ltac:(lia) ltac:(lia)) as [Hs Hse].
  destruct (f_div_near (f_sub m p.(pid_prev_meas)) dt 7 Hs Hdt ltac:(lia) ltac:(lia)) as [Hq Hqe]; [rewrite Hdtv; unfold f_unit; lia|].
  rewrite Hdtv in Hqe. unfold f_unit in Hqe.
  destruct kd_val as [Hk Hkv]. destruct (mul_scaled _ _ 3 _ Hk Hq Hkv ltac:(lia) ltac:(lia)) as [Ht Hte]. split; [done|]. lia.
Qed.

(** ** The invariant polytope *)

(** The polytope, for the deviations of the measurement, the one before and twice the integral from the set point [sp], [sp] and [2 sp + 1]. *)
Definition box (a b j : Z) : Prop :=
  Z.abs (2000 * a - 1492 * b - 55 * j) <= 540 * f_unit /\
  Z.abs (2000 * a + 1534 * b - 458 * j) <= 490 * f_unit /\
  Z.abs (2000 * a + 1258 * b - 2186 * j) <= 2300 * f_unit.

Lemma box_bounds a b j :
  box a b j -> 2 * Z.abs a <= f_unit /\ 2 * Z.abs (a - b) <= f_unit /\ Z.abs j <= 2 * f_unit /\
  Z.abs (50 * j - 18 * a) <= 75 * f_unit /\ Z.abs (100 * j - 968 * 2 * a + 600 * 2 * b) <= 540 * f_unit.
Proof. unfold box, f_unit. lia. Qed.

(** The step in exact terms: [w] is what the truncation takes off the command. *)
Lemma box_step a b j a' j' u :
  box a b j -> Z.abs (100 * j' - (100 * j - 36 * a)) <= 2 ^ 141 ->
  (exists o, u * f_unit <= o < (u + 1) * f_unit /\ Z.abs (2 * o - (j' + f_unit - 7 * a - 12 * (a - b))) <= 2 ^ 136) ->
  Z.abs (10 * a' - (9 * a + u * f_unit)) <= 2 ^ 137 -> box a' a j'.
Proof. intros (H1 & H2 & H3) Hj (o & Ho & Hov) Ha. unfold box, f_unit in *. lia. Qed.

(** ** Near a set point *)
Section setpoint.
Context (sp : Z) (Hsp : 3 <= sp <= 96).

(** The integral's candidate: it moves by 0.18 times the error. *)
Lemma candidate_near p m :
  pid_cfg p = PID_CFG -> f_ok m -> f_ok p.(pid_integ) ->
  2 * Z.abs (fval m - sp * f_unit) <= f_unit -> (sp - 1) * f_unit <= fval p.(pid_integ) <= (sp + 2) * f_unit ->
  let c := pid_candidate p (f_of_Z sp) m GOV_CTRL_PERIOD_MS in
  f_ok c /\ Z.abs (100 * fval c - (100 * fval p.(pid_integ) - 18 * (fval m - sp * f_unit))) <= 2 ^ 140.
Proof.
  intros Hc Hm Hi Ha Hib c. subst c. unfold pid_candidate. rewrite Hc. fold dt. destruct (f_of_Z_exact sp ltac:(lia)) as [Hspo Hspv].
  unfold f_unit in *. destruct (f_sub_near (f_of_Z sp) m 0 Hspo Hm ltac:(lia) ltac:(lia)) as [He Hev].
  destruct ki_val as [Hk Hkv]. destruct (mul_scaled _ _ 4 _ Hk He Hkv ltac:(lia) ltac:(lia)) as [Ht Htv].
  destruct dt_val as [Hdt Hdtv]. destruct (mul_scaled dt _ (-2) _ Hdt Ht Hdtv ltac:(lia) ltac:(lia)) as [Hs Hsv].
  rewrite (f_mul_comm _ dt). destruct (f_add_near p.(pid_integ) _ 7 Hi Hs ltac:(lia) ltac:(lia)) as [Hu Huv].
  assert (Hlo : f_ok (pc_integ_min PID_CFG) /\ fval (pc_integ_min PID_CFG) = -100 * 2 ^ 149) by (split; by vm_compute).
  assert (Hhi : f_ok (pc_integ_max PID_CFG) /\ fval (pc_integ_max PID_CFG) = 100 * 2 ^ 149) by (split; by vm_compute).
  destruct Hlo as [Hlo Hlov], Hhi as [Hhi Hhiv]. destruct (gov_clampf_spec _ _ _ Hu Hlo Hhi ltac:(lia)) as [Hco Hcv].
  split; [done|]. rewrite Hcv, Hlov, Hhiv. lia.
Qed.

(** The command before the limits, for any integral. *)
Lemma unsat_near p m integ :
  pid_cfg p = PID_CFG -> pid_has_prev p = true -> f_ok m -> f_ok p.(pid_prev_meas) -> f_ok integ ->
  2 * Z.abs (fval m - sp * f_unit) <= f_unit -> 2 * Z.abs (fval m - fval p.(pid_prev_meas)) <= f_unit ->
  (sp - 2) * f_unit <= fval integ <= (sp + 3) * f_unit ->
  let u := pid_unsat p (f_of_Z sp) m GOV_CTRL_PERIOD_MS integ in
  f_ok u /\ Z.abs (2 * fval u - (2 * fval integ - 7 * (fval m - sp * f_unit) - 12 * (fval m - fval p.(pid_prev_meas)))) <= 2 ^ 136.
Proof.
  intros Hc Hh Hm Hp Hi Ha Hd Hib u. subst u. unfold pid_unsat. rewrite Hc. fold dt. destruct (f_of_Z_exact sp ltac:(lia)) as [Hspo Hspv].
  destruct (d_term_near p m Hc Hh Hm Hp Hd) as [Hdo Hdv]. unfold f_unit in *.
  destruct (f_sub_near (f_of_Z sp) m 0 Hspo Hm ltac:(lia) ltac:(lia)) as [He Hev].
  destruct kp_val as [Hk Hkv]. destruct (mul_scaled _ _ 1 _ Hk He Hkv ltac:(lia) ltac:(lia)) as [Ht Htv].
  destruct (f_add_near _ integ 7 Ht Hi ltac:(lia) ltac:(lia)) as [Hs Hsv].
  destruct (f_add_near _ _ 7 Hs Hdo ltac:(lia) ltac:(lia)) as [Hu Huv]. split; [done|]. lia.
Qed.

(** ** One step of the plant *)
Lemma plant_near pl u :
  pl_cfg pl = PLANT_CFG -> pl_disturbance pl = f_zero -> f_ok (pl_y pl) ->
  sp - 4 <= u <= sp + 4 -> 2 * Z.abs (fval (pl_y pl) - sp * f_unit) <= f_unit ->
  let y := gov_plant_output (gov_plant_step pl (f_of_Z u) GOV_CTRL_PERIOD_MS).1 in
  f_ok y /\ Z.abs (10 * fval y - (9 * fval (pl_y pl) + u * f_unit)) <= 2 ^ 137.
Proof.
  intros Hc Hd Hy Hu Ha y. subst y. unfold gov_plant_step. fold dt. rewrite Hc. destruct (f_of_Z_exact u ltac:(lia)) as [Huo Huv].
  change (f_lt f_zero (pl_tau_s PLANT_CFG)) with true. cbn iota. cbn [fst gov_plant_output pl_y pl_disturbance set_pl_y].
  destruct (f_mul_unit (pl_gain PLANT_CFG) (f_of_Z u)) as [Hg Hgv]; try done; [by vm_compute..|]. rewrite Huv in Hgv. unfold f_unit in *.
  destruct (f_sub_near _ (pl_y pl) 3 Hg Hy ltac:(lia) ltac:(lia)) as [Hs Hsv].
  assert (Hr : f_ok (f_div dt (pl_tau_s PLANT_CFG)) /\ fval (f_div dt (pl_tau_s PLANT_CFG)) = 107374176 * 2 ^ 119) by (split; by vm_compute).
  destruct Hr as [Hr Hrv]. destruct (mul_scaled _ _ 0 _ Hr Hs Hrv ltac:(lia) ltac:(lia)) as [Hi Hiv].
  destruct (f_add_near (pl_y pl) _ 7 Hy Hi ltac:(lia) ltac:(lia)) as [Hn Hnv]. rewrite Hd.
  destruct (f_add_near _ f_zero 7 Hn I ltac:(lia)) as [Hz Hzv]; [change (fval f_zero) with 0; lia|]. change (fval f_zero) with 0 in Hzv.
  split; [done|]. lia.
Qed.

(** ** The loop inside the polytope *)
Definition settling (st : gov_pid * gov_plant * float) : Prop :=
  let '(p, pl, m) := st in
  pid_cfg p = PID_CFG /\ pl_cfg pl = PLANT_CFG /\ pl_disturbance pl = f_zero /\ pid_has_prev p = true /\
  gov_plant_output pl = m /\ f_ok m /\ f_ok p.(pid_prev_meas) /\ f_ok p.(pid_integ) /\
  box (fval m - sp * f_unit) (fval p.(pid_prev_meas) - sp * f_unit) (2 * fval p.(pid_integ) - (2 * sp + 1) * f_unit).

Lemma pid_has_prev_step p set m dt_ms : pid_has_prev (gov_pid_step p set m dt_ms).1 = true.
Proof. done. Qed.

(** The controller's step: no limit is reached, the candidate is committed. *)
Lemma pid_settling p pl m :
  settling (p, pl, m) ->
  let p' := (gov_pid_step p (f_of_Z sp) m GOV_CTRL_PERIOD_MS).1 in
  let out := (gov_pid_step p (f_of_Z sp) m GOV_CTRL_PERIOD_MS).2 in
  let a := fval m - sp * f_unit in
  let j := 2 * fval p.(pid_integ) - (2 * sp + 1) * f_unit in
  let j' := 2 * fval p'.(pid_integ) - (2 * sp + 1) * f_unit in
  pid_cfg p' = PID_CFG /\ pid_prev_meas p' = m /\ f_ok p'.(pid_integ) /\
  Z.abs (100 * j' - (100 * j - 36 * a)) <= 2 ^ 141 /\ f_ok out /\
  Z.abs (2 * fval out - (j' + (2 * sp + 1) * f_unit - 7 * a - 12 * (fval m - fval p.(pid_prev_meas)))) <= 2 ^ 136 /\
  (sp - 3) * f_unit <= fval out <= (sp + 4) * f_unit.
Proof.
  intros (Hc & _ & _ & Hh & _ & Hm & Hp & Hi & Hbox) p' out a j j'. fold a j in Hbox.
  destruct (box_bounds _ _ _ Hbox) as (Ha & Hd & Hj & Hj' & Ho). fold a in Ha.
  pose proof (gov_pid_step_cases p (f_of_Z sp) m GOV_CTRL_PERIOD_MS) as H. cbv zeta in H. subst p' out j'.
  destruct (gov_pid_step p (f_of_Z sp) m GOV_CTRL_PERIOD_MS) as [p' out]. cbn [fst snd]. destruct H as (Hcase & Hc' & Hpm & Hout & _).
  unfold f_unit in *. destruct (candidate_near p m Hc Hm Hi) as [Hco Hcv]; [unfold f_unit; lia..|]. unfold f_unit in *.
  set (c := pid_candidate _ _ _ _) in *.
  destruct (unsat_near p m c Hc Hh Hm Hp Hco) as [Huo Huv]; [unfold f_unit; lia..|]. unfold f_unit in *.
  set (u := pid_unsat _ _ _ _ c) in *. rewrite Hc in *.
  assert (Hlo : f_ok (pc_out_min PID_CFG) /\ fval (pc_out_min PID_CFG) = 0) by done.
  assert (Hhi : f_ok (pc_out_max PID_CFG) /\ fval (pc_out_max PID_CFG) = 100 * 2 ^ 149) by (split; by vm_compute).
  destruct Hlo as [Hlo Hlov], Hhi as [Hhi Hhiv]. rewrite !(f_lt_spec _ u), !(f_lt_spec u) in Hcase by done. rewrite Hlov, Hhiv in Hcase.
  replace (100 * 2 ^ 149 <? fval u) with false in Hcase by lia. replace (fval u <? 0) with false in Hcase by lia. cbn [andb orb] in Hcase.
  rewrite Hcase in *. fold u in Hout. destruct (gov_clampf_spec u _ _ Huo Hlo Hhi ltac:(lia)) as [Hoo Hov]. rewrite <- Hout in Hoo, Hov.
  rewrite Hlov, Hhiv in Hov. split_and!; try done; lia.
Qed.

Lemma plant_frame pl u dt_ms :
  pl_cfg (gov_plant_step pl u dt_ms).1 = pl_cfg pl /\ pl_disturbance (gov_plant_step pl u dt_ms).1 = pl_disturbance pl.
Proof. unfold gov_plant_step. by destruct (f_lt _ _). Qed.

Lemma f_to_i32_floor x z : f_ok x -> 0 <= fval x -> f_to_i32 x = Some z -> z * f_unit <= fval x < (z + 1) * f_unit.
Proof.
  intros Hx Hpos. unfold f_to_i32. rewrite f_trunc_spec by done. cbn [mbind option_bind]. case_bool_decide; [|done].
  intros [= <-]. unfold f_unit in *. Z.quot_rem_to_equations. lia.
Qed.

Lemma settling_step st : settling st -> settling (loop_step (f_of_Z sp) st).
Proof.
  destruct st as [[p pl] m]. intros Hst. pose proof (pid_settling p pl m Hst) as H. cbv zeta in H.
  pose proof (pid_has_prev_step p (f_of_Z sp) m GOV_CTRL_PERIOD_MS) as Hh'.
  destruct Hst as (_ & Hplc & Hdist & _ & <- & Hm & _ & _ & Hbox). destruct (box_bounds _ _ _ Hbox) as (Ha & _).
  unfold loop_step. destruct (gov_pid_step p (f_of_Z sp) _ GOV_CTRL_PERIOD_MS) as [p' out]. cbn [fst snd] in *.
  destruct H as (Hc' & Hpm & Hi' & Hj & Hoo & Hov & Hr).
  destruct (f_to_i32_spec out (sp - 3) (sp + 4) Hoo) as (u & Eu & _ & Hu1 & _); [lia..|]. rewrite Eu. change (default 0 (Some u)) with u.
  assert (H0 : 0 <= fval out) by (unfold f_unit in *; lia). pose proof (f_to_i32_floor out u Hoo H0 Eu) as Hur.
  destruct (plant_near pl u Hplc Hdist Hm) as [Hyo Hyv]; [unfold f_unit in *; lia|exact Ha|].
  destruct (plant_frame pl (f_of_Z u) GOV_CTRL_PERIOD_MS) as [E1 E2]. rewrite Hplc in E1. rewrite Hdist in E2.
  unfold settling. rewrite Hpm. split_and!; try done. unfold gov_plant_output in *.
  eapply (box_step _ _ _ _ _ (u - sp)); [exact Hbox|unfold f_unit in *; lia| |unfold f_unit in *; lia].
  exists (fval out - sp * f_unit). unfold f_unit in *. lia.
Qed.

End setpoint.

(** ** From rest *)

(** The state of the loop started at rest with the set point [sp]. *)
Definition loop_from (sp : Z) (k : nat) : gov_pid * gov_plant * float := Nat.iter k (loop_step (f_of_Z sp)) loop_start.

(** The steps after which it stays within one unit: 0.38 s up to the set point 50, 0.78 s above it. *)
Definition settling_time (sp : Z) : nat := if sp <=? 50 then 38 else 78.

Definition near_setpoint (sp : Z) (k : nat) (y : Z) : Prop :=
  2 * y <= (2 * sp + 1) * f_unit /\ ((settling_time sp <= k)%nat -> (sp - 1) * f_unit <= y).

(** The first 134 steps, computed: the loop is then inside the polytope. *)
Definition f_okb (x : float) : bool :=
  match x with S754_zero _ => true | S754_finite _ m e => bounded 24 128 m e | _ => false end.
Definition in_polytope (sp : Z) (st : gov_pid * gov_plant * float) : bool :=
  let '(p, pl, m) := st in
  let a := fval m - sp * f_unit in
  let b := fval p.(pid_prev_meas) - sp * f_unit in
  let j := 2 * fval p.(pid_integ) - (2 * sp + 1) * f_unit in
  f_okb m && f_okb p.(pid_prev_meas) && f_okb p.(pid_integ) && p.(pid_has_prev) &&
  (Z.abs (2000 * a - 1492 * b - 55 * j) <=? 540 * f_unit) &&
  (Z.abs (2000 * a + 1534 * b - 458 * j) <=? 490 * f_unit) &&
  (Z.abs (2000 * a + 1258 * b - 2186 * j) <=? 2300 * f_unit).
Definition entry : nat := 134.
Definition transient_ok (sp : Z) : bool :=
  let states := trajectory (f_of_Z sp) entry loop_start in
  forallb (fun '(k, st) => (2 * fval st.2 <=? (2 * sp + 1) * f_unit) &&
      ((k <? settling_time sp)%nat || ((sp - 1) * f_unit <=? fval st.2))) (zip (seq 0 (S entry)) states) &&
  from_option (in_polytope sp) false (states !! entry).

Lemma transients_ok : forallb transient_ok (seqZ 3 94) = true.
Proof. by vm_compute. Qed.

Lemma f_okb_spec x : f_okb x = true -> f_ok x.
Proof. by destruct x. Qed.

(** The steps leave the configurations, the disturbance and the link from the plant to the measurement alone. *)
Definition wired (st : gov_pid * gov_plant * float) : Prop :=
  let '(p, pl, m) := st in
  pid_cfg p = PID_CFG /\ pl_cfg pl = PLANT_CFG /\ pl_disturbance pl = f_zero /\ gov_plant_output pl = m.

Lemma wired_step set st : wired st -> wired (loop_step set st).
Proof.
  destruct st as [[p pl] m]. intros (Hc & Hpl & Hd & _). unfold loop_step.
  pose proof (gov_pid_step_cases p set m GOV_CTRL_PERIOD_MS) as H. cbv zeta in H.
  destruct (gov_pid_step p set m GOV_CTRL_PERIOD_MS) as [p' out]. destruct H as (_ & Hc' & _).
  destruct (plant_frame pl (f_of_Z (default 0 (f_to_i32 out))) GOV_CTRL_PERIOD_MS) as [E1 E2]. unfold wired. split_and!; congruence.
Qed.

Lemma loop_from_wired sp k : wired (loop_from sp k).
Proof. induction k as [|k IH]; [done|]. exact (wired_step _ _ IH). Qed.

Section from_rest.
Context (sp : Z) (Hsp : 3 <= sp <= 96).

Lemma transient : transient_ok sp = true.
Proof.
  pose proof transients_ok as H. rewrite forallb_forall in H. apply H. apply list_elem_of_In, elem_of_seqZ. lia.
Qed.

Lemma transient_near k : (k <= entry)%nat -> near_setpoint sp k (fval (loop_from sp k).2).
Proof.
  intros Hk. pose proof transient as H. apply andb_true_iff in H as [H _]. rewrite forallb_forall in H.
  specialize (H (k, loop_from sp k)). unfold near_setpoint. apply andb_true_iff in H as [H1 H2].
  - apply Z.leb_le in H1. split; [exact H1|]. intros Hs. apply orb_true_iff in H2 as [H2|H2]; [apply Nat.ltb_lt in H2; lia|by apply Z.leb_le in H2].
  - apply list_elem_of_In, (list_elem_of_lookup_2 _ k), lookup_zip_with_Some. exists k, (loop_from sp k). split; [done|].
    split; [by rewrite lookup_seq_lt by lia|by apply trajectory_lookup].
Qed.

Lemma in_polytope_settling st : wired st -> in_polytope sp st = true -> settling sp st.
Proof.
  destruct st as [[p pl] m]. intros (Hc & Hpl & Hd & Hm) H.
  unfold in_polytope in H. repeat (apply andb_true_iff in H as [H ?]).
  unfold settling, box. rewrite Z.leb_le in *. split_and!; try done; try (by apply f_okb_spec); lia.
Qed.

Lemma trajectory_end k :
  from_option (in_polytope sp) false (trajectory (f_of_Z sp) k loop_start !! k) = true -> in_polytope sp (loop_from sp k) = true.
Proof. by rewrite trajectory_lookup by done. Qed.

Lemma settling_enters : settling sp (loop_from sp entry).
Proof.
  apply in_polytope_settling; [apply loop_from_wired|]. apply trajectory_end.
  pose proof transient as H. apply andb_true_iff in H as [_ H]. exact H.
Qed.

Lemma settling_at k : (entry <= k)%nat -> settling sp (loop_from sp k).
Proof.
  intros Hk. replace k with ((k - entry) + entry)%nat by lia. induction (k - entry)%nat as [|i IH]; [exact settling_enters|].
  exact (settling_step sp Hsp _ IH).
Qed.

(** At every step the measurement is at most half a unit above the set point, and once the settling time has
    passed, at most one unit below it. *)
Lemma settled_forever k : near_setpoint sp k (fval (loop_from sp k).2).
Proof.
  destruct (le_lt_dec entry k) as [H|H]; [|apply transient_near; lia].
  pose proof (settling_at k H) as Hs. destruct (loop_from sp k) as [[p pl] m]. destruct Hs as (_ & _ & _ & _ & _ & _ & _ & _ & Hbox).
  apply box_bounds in Hbox as [Ha _]. unfold near_setpoint. cbn [snd]. unfold f_unit in *. lia.
Qed.
End from_rest.
