(* ===== verification/App.v ===== *)
(** * App: the threads (src/main.c)

    The node, the link, the telemetry ring, the health aggregator and the sensor are shared by five
    preemptible threads, a UART interrupt and the control timer.  A thread is a program counter and
    its locals; one step of it is one access to the shared state - a critical section of [node_lock] or
    [slot_lock], one call on an object that no lock protects, or one reading of the clock.  The
    reading of [now_ms()] in [locked_*(..., now_ms())] is a step of its own, before the lock is
    taken; a byte given to the UART is a step, and so is its reading from the shared transmit buffer; the
    poll of the sender is preemptible between its tests and its writes.  Any interleaving of such
    steps is a run.

    [None] is undefined behaviour; a thread that has to wait makes no progress. *)
From S2P Require Import Prelude Faults Safety Crc16 Frame Reliable Arq Telem Ring Health Config Persist Sensor Float32 Control Node.

(** ** Constants *)
Definition GOV_HEALTH_PERIOD_MS : Z := 50.
Definition GOV_SENSOR_I2C_ADDR : Z := 0x48.
Definition GOV_SENSOR_I2C_REG : Z := 0x00.
Definition rx_byteq_depth : Z := 256.

(** [HAVE_SENSOR] (the board has CONFIG_I2C) and [HAVE_LINK_UART]. *)
Record board := mkBoard { b_sensor : bool; b_uart : bool }.

(** [sensor_setup]'s configuration, and the zero-initialised static objects. *)
Definition sensor_cfg : gov_sensor_cfg :=
  mkSensorCfg GOV_SENSOR_I2C_ADDR GOV_SENSOR_I2C_REG 2 0 100 5 50 3.
Definition sensor_zero : gov_sensor := mkSensor (mkSensorCfg 0 0 0 0 0 0 0 0) 0 0 false 0 0.
Definition ring_zero : gov_telem_ring := mkRing (replicate 9 (mkTelem 0 0 0 0 0 0)) 0 0 0.

(** One attempt and three retries. *)
Definition poll_fuel : nat := 4.

(** ** Program counters, with the locals that are live *)
Inductive control_pc :=
  | CT_wait                      (* k_sem_take *)
  | CT_slot                      (* gov_slot_get under slot_lock *)
  | CT_time                      (* now_ms() of locked_control_step *)
  | CT_step (t : Z)              (* the critical section *)
  | CT_plant                     (* gov_plant_output *)
  | CT_deadline                  (* gov_health_note_deadline *)
  | CT_stamp                     (* now_ms() of gov_health_note_alive *)
  | CT_alive (t : Z).

Inductive link_rx_pc :=
  | RX_get                       (* k_msgq_get and gov_decoder_push *)
  | RX_outs (outs : list rx_out) (* the callbacks of gov_rx_on_frame *)
  | RX_post (ev : gov_event_t) (t : Z) (outs : list rx_out)
  | RX_poll                      (* gov_sensor_poll *)
  | RX_push (v : Z)              (* gov_slot_push under slot_lock *)
  | RX_report                    (* the arguments of locked_note_sensor *)
  | RX_note (sflags : Z) (ok : bool) (t : Z)
  | RX_stamp
  | RX_alive (t : Z).

Inductive link_tx_pc :=
  | TX_time
  | TX_poll (t : Z)              (* the tests of gov_tx_poll *)
  | TX_commit (t : Z) (act : poll_action)
  | TX_out (i n : Z)             (* link_wire_out of the n bytes of the frame; then the result *)
  | TX_report (ok : bool)
  | TX_note (ok : bool) (t : Z)
  | TX_clear (ok : bool).

Inductive telemetry_pc :=
  | TM_fill
  | TM_push (rec : gov_telem_record)
  | TM_pop (rec : gov_telem_record)
  | TM_send (payload : list Z) (n t : Z) (rec : gov_telem_record)
  | TM_out (i n : Z) (rec : gov_telem_record)
  | TM_log (rec : gov_telem_record).

Inductive health_pc :=
  | HE_stamp
  | HE_alive (t : Z)
  | HE_report
  | HE_note (ok : bool) (t : Z)
  | HE_time
  | HE_feed (t : Z).

Inductive thread := Control | LinkRx | LinkTx | Telemetry | Health.

(** ** Pure parts *)

(** The event an accepted frame posts, if any. *)
Definition on_app_deliver (f : frame) : option gov_event_t :=
  if negb (f.(f_type) =? GOV_TYPE_CMD) then None
  else match f.(f_payload) with
  | [] => None
  | cmd :: _ =>
      if cmd =? 0xE5 then Some GOV_EV_OPERATOR_STOP
      else if cmd =? 0xC1 then Some GOV_EV_OPERATOR_CLEAR
      else None
  end.

(** [(gov_state_t)rec.state]. *)
Definition state_of_code (code : Z) : gov_state_t :=
  match code with
  | 0 => GOV_ST_INIT | 1 => GOV_ST_RUN | 2 => GOV_ST_DEGRADED | 3 => GOV_ST_SAFE_STOP
  | 4 => GOV_ST_FAULT_HALT | _ => GOV_ST_COUNT
  end.

(** [RESET_WATCHDOG] and the answer of [hwinfo_get_reset_cause] (its return code and the cause) are
    Zephyr's; [None] without CONFIG_HWINFO. *)
Definition was_watchdog_reset (reset_watchdog : Z) (hwinfo : option (Z * Z)) : bool :=
  match hwinfo with
  | Some (rc, cause) => if rc =? 0 then negb (cause .& reset_watchdog =? 0) else false
  | None => false
  end.

(** The channel; the device's readiness and the answer of [wdt_install_timeout] are Zephyr's;
    [None] without a watchdog. *)
Definition watchdog_setup (wdt : option (bool * Z)) : Z :=
  match wdt with
  | Some (ready, channel) => if ready : bool then channel else -1
  | None => -1
  end.

Section app.
(** The sensor bus (drivers/hal.h) and the board. *)
Context {B : Type} (read : bus_read B) (brd : board).

(** ** The shared state and the threads *)
Record app := mkApp {
  ap_now : Z;
  ap_node : gov_node;
  ap_link : link;
  ap_ring : gov_telem_ring;
  ap_health : gov_health;
  ap_slot : gov_sample_slot;
  ap_byteq : list Z;
  ap_tick : bool;
  ap_sensor : gov_sensor;
  ap_bus : option B;
  ap_wdt : Z;
  ap_wire : list (thread * Z);
  ap_feeds : nat;
  ap_log : list (String.string * Z * Z * Z);
  ap_measurement : float;
  ap_tm_tick : Z;
  ap_control : control_pc;
  ap_link_rx : link_rx_pc;
  ap_link_tx : link_tx_pc;
  ap_telemetry : telemetry_pc;
  ap_health_th : health_pc
}.

Definition set_ap_now (v : Z) (r : app) : app :=
  {| ap_now := v; ap_node := r.(ap_node); ap_link := r.(ap_link); ap_ring := r.(ap_ring);
     ap_health := r.(ap_health); ap_slot := r.(ap_slot); ap_byteq := r.(ap_byteq);
     ap_tick := r.(ap_tick); ap_sensor := r.(ap_sensor); ap_bus := r.(ap_bus);
     ap_wdt := r.(ap_wdt); ap_wire := r.(ap_wire); ap_feeds := r.(ap_feeds);
     ap_log := r.(ap_log); ap_measurement := r.(ap_measurement); ap_tm_tick := r.(ap_tm_tick);
     ap_control := r.(ap_control); ap_link_rx := r.(ap_link_rx); ap_link_tx := r.(ap_link_tx);
     ap_telemetry := r.(ap_telemetry); ap_health_th := r.(ap_health_th) |}.
Definition set_ap_node (v : gov_node) (r : app) : app :=
  {| ap_now := r.(ap_now); ap_node := v; ap_link := r.(ap_link); ap_ring := r.(ap_ring);
     ap_health := r.(ap_health); ap_slot := r.(ap_slot); ap_byteq := r.(ap_byteq);
     ap_tick := r.(ap_tick); ap_sensor := r.(ap_sensor); ap_bus := r.(ap_bus);
     ap_wdt := r.(ap_wdt); ap_wire := r.(ap_wire); ap_feeds := r.(ap_feeds);
     ap_log := r.(ap_log); ap_measurement := r.(ap_measurement); ap_tm_tick := r.(ap_tm_tick);
     ap_control := r.(ap_control); ap_link_rx := r.(ap_link_rx); ap_link_tx := r.(ap_link_tx);
     ap_telemetry := r.(ap_telemetry); ap_health_th := r.(ap_health_th) |}.
Definition set_ap_link (v : link) (r : app) : app :=
  {| ap_now := r.(ap_now); ap_node := r.(ap_node); ap_link := v; ap_ring := r.(ap_ring);
     ap_health := r.(ap_health); ap_slot := r.(ap_slot); ap_byteq := r.(ap_byteq);
     ap_tick := r.(ap_tick); ap_sensor := r.(ap_sensor); ap_bus := r.(ap_bus);
     ap_wdt := r.(ap_wdt); ap_wire := r.(ap_wire); ap_feeds := r.(ap_feeds);
     ap_log := r.(ap_log); ap_measurement := r.(ap_measurement); ap_tm_tick := r.(ap_tm_tick);
     ap_control := r.(ap_control); ap_link_rx := r.(ap_link_rx); ap_link_tx := r.(ap_link_tx);
     ap_telemetry := r.(ap_telemetry); ap_health_th := r.(ap_health_th) |}.
Definition set_ap_ring (v : gov_telem_ring) (r : app) : app :=
  {| ap_now := r.(ap_now); ap_node := r.(ap_node); ap_link := r.(ap_link); ap_ring := v;
     ap_health := r.(ap_health); ap_slot := r.(ap_slot); ap_byteq := r.(ap_byteq);
     ap_tick := r.(ap_tick); ap_sensor := r.(ap_sensor); ap_bus := r.(ap_bus);
     ap_wdt := r.(ap_wdt); ap_wire := r.(ap_wire); ap_feeds := r.(ap_feeds);
     ap_log := r.(ap_log); ap_measurement := r.(ap_measurement); ap_tm_tick := r.(ap_tm_tick);
     ap_control := r.(ap_control); ap_link_rx := r.(ap_link_rx); ap_link_tx := r.(ap_link_tx);
     ap_telemetry := r.(ap_telemetry); ap_health_th := r.(ap_health_th) |}.
Definition set_ap_health (v : gov_health) (r : app) : app :=
  {| ap_now := r.(ap_now); ap_node := r.(ap_node); ap_link := r.(ap_link);
     ap_ring := r.(ap_ring); ap_health := v; ap_slot := r.(ap_slot); ap_byteq := r.(ap_byteq);
     ap_tick := r.(ap_tick); ap_sensor := r.(ap_sensor); ap_bus := r.(ap_bus);
     ap_wdt := r.(ap_wdt); ap_wire := r.(ap_wire); ap_feeds := r.(ap_feeds);
     ap_log := r.(ap_log); ap_measurement := r.(ap_measurement); ap_tm_tick := r.(ap_tm_tick);
     ap_control := r.(ap_control); ap_link_rx := r.(ap_link_rx); ap_link_tx := r.(ap_link_tx);
     ap_telemetry := r.(ap_telemetry); ap_health_th := r.(ap_health_th) |}.
Definition set_ap_slot (v : gov_sample_slot) (r : app) : app :=
  {| ap_now := r.(ap_now); ap_node := r.(ap_node); ap_link := r.(ap_link);
     ap_ring := r.(ap_ring); ap_health := r.(ap_health); ap_slot := v;
     ap_byteq := r.(ap_byteq); ap_tick := r.(ap_tick); ap_sensor := r.(ap_sensor);
     ap_bus := r.(ap_bus); ap_wdt := r.(ap_wdt); ap_wire := r.(ap_wire);
     ap_feeds := r.(ap_feeds); ap_log := r.(ap_log); ap_measurement := r.(ap_measurement);
     ap_tm_tick := r.(ap_tm_tick); ap_control := r.(ap_control); ap_link_rx := r.(ap_link_rx);
     ap_link_tx := r.(ap_link_tx); ap_telemetry := r.(ap_telemetry);
     ap_health_th := r.(ap_health_th) |}.
Definition set_ap_byteq (v : list Z) (r : app) : app :=
  {| ap_now := r.(ap_now); ap_node := r.(ap_node); ap_link := r.(ap_link);
     ap_ring := r.(ap_ring); ap_health := r.(ap_health); ap_slot := r.(ap_slot); ap_byteq := v;
     ap_tick := r.(ap_tick); ap_sensor := r.(ap_sensor); ap_bus := r.(ap_bus);
     ap_wdt := r.(ap_wdt); ap_wire := r.(ap_wire); ap_feeds := r.(ap_feeds);
     ap_log := r.(ap_log); ap_measurement := r.(ap_measurement); ap_tm_tick := r.(ap_tm_tick);
     ap_control := r.(ap_control); ap_link_rx := r.(ap_link_rx); ap_link_tx := r.(ap_link_tx);
     ap_telemetry := r.(ap_telemetry); ap_health_th := r.(ap_health_th) |}.
Definition set_ap_tick (v : bool) (r : app) : app :=
  {| ap_now := r.(ap_now); ap_node := r.(ap_node); ap_link := r.(ap_link);
     ap_ring := r.(ap_ring); ap_health := r.(ap_health); ap_slot := r.(ap_slot);
     ap_byteq := r.(ap_byteq); ap_tick := v; ap_sensor := r.(ap_sensor); ap_bus := r.(ap_bus);
     ap_wdt := r.(ap_wdt); ap_wire := r.(ap_wire); ap_feeds := r.(ap_feeds);
     ap_log := r.(ap_log); ap_measurement := r.(ap_measurement); ap_tm_tick := r.(ap_tm_tick);
     ap_control := r.(ap_control); ap_link_rx := r.(ap_link_rx); ap_link_tx := r.(ap_link_tx);
     ap_telemetry := r.(ap_telemetry); ap_health_th := r.(ap_health_th) |}.
Definition set_ap_sensor (v : gov_sensor) (r : app) : app :=
  {| ap_now := r.(ap_now); ap_node := r.(ap_node); ap_link := r.(ap_link);
     ap_ring := r.(ap_ring); ap_health := r.(ap_health); ap_slot := r.(ap_slot);
     ap_byteq := r.(ap_byteq); ap_tick := r.(ap_tick); ap_sensor := v; ap_bus := r.(ap_bus);
     ap_wdt := r.(ap_wdt); ap_wire := r.(ap_wire); ap_feeds := r.(ap_feeds);
     ap_log := r.(ap_log); ap_measurement := r.(ap_measurement); ap_tm_tick := r.(ap_tm_tick);
     ap_control := r.(ap_control); ap_link_rx := r.(ap_link_rx); ap_link_tx := r.(ap_link_tx);
     ap_telemetry := r.(ap_telemetry); ap_health_th := r.(ap_health_th) |}.
Definition set_ap_bus (v : option B) (r : app) : app :=
  {| ap_now := r.(ap_now); ap_node := r.(ap_node); ap_link := r.(ap_link);
     ap_ring := r.(ap_ring); ap_health := r.(ap_health); ap_slot := r.(ap_slot);
     ap_byteq := r.(ap_byteq); ap_tick := r.(ap_tick); ap_sensor := r.(ap_sensor); ap_bus := v;
     ap_wdt := r.(ap_wdt); ap_wire := r.(ap_wire); ap_feeds := r.(ap_feeds);
     ap_log := r.(ap_log); ap_measurement := r.(ap_measurement); ap_tm_tick := r.(ap_tm_tick);
     ap_control := r.(ap_control); ap_link_rx := r.(ap_link_rx); ap_link_tx := r.(ap_link_tx);
     ap_telemetry := r.(ap_telemetry); ap_health_th := r.(ap_health_th) |}.
Definition set_ap_wdt (v : Z) (r : app) : app :=
  {| ap_now := r.(ap_now); ap_node := r.(ap_node); ap_link := r.(ap_link);
     ap_ring := r.(ap_ring); ap_health := r.(ap_health); ap_slot := r.(ap_slot);
     ap_byteq := r.(ap_byteq); ap_tick := r.(ap_tick); ap_sensor := r.(ap_sensor);
     ap_bus := r.(ap_bus); ap_wdt := v; ap_wire := r.(ap_wire); ap_feeds := r.(ap_feeds);
     ap_log := r.(ap_log); ap_measurement := r.(ap_measurement); ap_tm_tick := r.(ap_tm_tick);
     ap_control := r.(ap_control); ap_link_rx := r.(ap_link_rx); ap_link_tx := r.(ap_link_tx);
     ap_telemetry := r.(ap_telemetry); ap_health_th := r.(ap_health_th) |}.
Definition set_ap_wire (v : list (thread * Z)) (r : app) : app :=
  {| ap_now := r.(ap_now); ap_node := r.(ap_node); ap_link := r.(ap_link);
     ap_ring := r.(ap_ring); ap_health := r.(ap_health); ap_slot := r.(ap_slot);
     ap_byteq := r.(ap_byteq); ap_tick := r.(ap_tick); ap_sensor := r.(ap_sensor);
     ap_bus := r.(ap_bus); ap_wdt := r.(ap_wdt); ap_wire := v; ap_feeds := r.(ap_feeds);
     ap_log := r.(ap_log); ap_measurement := r.(ap_measurement); ap_tm_tick := r.(ap_tm_tick);
     ap_control := r.(ap_control); ap_link_rx := r.(ap_link_rx); ap_link_tx := r.(ap_link_tx);
     ap_telemetry := r.(ap_telemetry); ap_health_th := r.(ap_health_th) |}.
Definition set_ap_feeds (v : nat) (r : app) : app :=
  {| ap_now := r.(ap_now); ap_node := r.(ap_node); ap_link := r.(ap_link);
     ap_ring := r.(ap_ring); ap_health := r.(ap_health); ap_slot := r.(ap_slot);
     ap_byteq := r.(ap_byteq); ap_tick := r.(ap_tick); ap_sensor := r.(ap_sensor);
     ap_bus := r.(ap_bus); ap_wdt := r.(ap_wdt); ap_wire := r.(ap_wire); ap_feeds := v;
     ap_log := r.(ap_log); ap_measurement := r.(ap_measurement); ap_tm_tick := r.(ap_tm_tick);
     ap_control := r.(ap_control); ap_link_rx := r.(ap_link_rx); ap_link_tx := r.(ap_link_tx);
     ap_telemetry := r.(ap_telemetry); ap_health_th := r.(ap_health_th) |}.
Definition set_ap_log (v : list (String.string * Z * Z * Z)) (r : app) : app :=
  {| ap_now := r.(ap_now); ap_node := r.(ap_node); ap_link := r.(ap_link);
     ap_ring := r.(ap_ring); ap_health := r.(ap_health); ap_slot := r.(ap_slot);
     ap_byteq := r.(ap_byteq); ap_tick := r.(ap_tick); ap_sensor := r.(ap_sensor);
     ap_bus := r.(ap_bus); ap_wdt := r.(ap_wdt); ap_wire := r.(ap_wire);
     ap_feeds := r.(ap_feeds); ap_log := v; ap_measurement := r.(ap_measurement);
     ap_tm_tick := r.(ap_tm_tick); ap_control := r.(ap_control); ap_link_rx := r.(ap_link_rx);
     ap_link_tx := r.(ap_link_tx); ap_telemetry := r.(ap_telemetry);
     ap_health_th := r.(ap_health_th) |}.
Definition set_ap_measurement (v : float) (r : app) : app :=
  {| ap_now := r.(ap_now); ap_node := r.(ap_node); ap_link := r.(ap_link);
     ap_ring := r.(ap_ring); ap_health := r.(ap_health); ap_slot := r.(ap_slot);
     ap_byteq := r.(ap_byteq); ap_tick := r.(ap_tick); ap_sensor := r.(ap_sensor);
     ap_bus := r.(ap_bus); ap_wdt := r.(ap_wdt); ap_wire := r.(ap_wire);
     ap_feeds := r.(ap_feeds); ap_log := r.(ap_log); ap_measurement := v;
     ap_tm_tick := r.(ap_tm_tick); ap_control := r.(ap_control); ap_link_rx := r.(ap_link_rx);
     ap_link_tx := r.(ap_link_tx); ap_telemetry := r.(ap_telemetry);
     ap_health_th := r.(ap_health_th) |}.
Definition set_ap_tm_tick (v : Z) (r : app) : app :=
  {| ap_now := r.(ap_now); ap_node := r.(ap_node); ap_link := r.(ap_link);
     ap_ring := r.(ap_ring); ap_health := r.(ap_health); ap_slot := r.(ap_slot);
     ap_byteq := r.(ap_byteq); ap_tick := r.(ap_tick); ap_sensor := r.(ap_sensor);
     ap_bus := r.(ap_bus); ap_wdt := r.(ap_wdt); ap_wire := r.(ap_wire);
     ap_feeds := r.(ap_feeds); ap_log := r.(ap_log); ap_measurement := r.(ap_measurement);
     ap_tm_tick := v; ap_control := r.(ap_control); ap_link_rx := r.(ap_link_rx);
     ap_link_tx := r.(ap_link_tx); ap_telemetry := r.(ap_telemetry);
     ap_health_th := r.(ap_health_th) |}.
Definition set_ap_control (v : control_pc) (r : app) : app :=
  {| ap_now := r.(ap_now); ap_node := r.(ap_node); ap_link := r.(ap_link);
     ap_ring := r.(ap_ring); ap_health := r.(ap_health); ap_slot := r.(ap_slot);
     ap_byteq := r.(ap_byteq); ap_tick := r.(ap_tick); ap_sensor := r.(ap_sensor);
     ap_bus := r.(ap_bus); ap_wdt := r.(ap_wdt); ap_wire := r.(ap_wire);
     ap_feeds := r.(ap_feeds); ap_log := r.(ap_log); ap_measurement := r.(ap_measurement);
     ap_tm_tick := r.(ap_tm_tick); ap_control := v; ap_link_rx := r.(ap_link_rx);
     ap_link_tx := r.(ap_link_tx); ap_telemetry := r.(ap_telemetry);
     ap_health_th := r.(ap_health_th) |}.
Definition set_ap_link_rx (v : link_rx_pc) (r : app) : app :=
  {| ap_now := r.(ap_now); ap_node := r.(ap_node); ap_link := r.(ap_link);
     ap_ring := r.(ap_ring); ap_health := r.(ap_health); ap_slot := r.(ap_slot);
     ap_byteq := r.(ap_byteq); ap_tick := r.(ap_tick); ap_sensor := r.(ap_sensor);
     ap_bus := r.(ap_bus); ap_wdt := r.(ap_wdt); ap_wire := r.(ap_wire);
     ap_feeds := r.(ap_feeds); ap_log := r.(ap_log); ap_measurement := r.(ap_measurement);
     ap_tm_tick := r.(ap_tm_tick); ap_control := r.(ap_control); ap_link_rx := v;
     ap_link_tx := r.(ap_link_tx); ap_telemetry := r.(ap_telemetry);
     ap_health_th := r.(ap_health_th) |}.
Definition set_ap_link_tx (v : link_tx_pc) (r : app) : app :=
  {| ap_now := r.(ap_now); ap_node := r.(ap_node); ap_link := r.(ap_link);
     ap_ring := r.(ap_ring); ap_health := r.(ap_health); ap_slot := r.(ap_slot);
     ap_byteq := r.(ap_byteq); ap_tick := r.(ap_tick); ap_sensor := r.(ap_sensor);
     ap_bus := r.(ap_bus); ap_wdt := r.(ap_wdt); ap_wire := r.(ap_wire);
     ap_feeds := r.(ap_feeds); ap_log := r.(ap_log); ap_measurement := r.(ap_measurement);
     ap_tm_tick := r.(ap_tm_tick); ap_control := r.(ap_control); ap_link_rx := r.(ap_link_rx);
     ap_link_tx := v; ap_telemetry := r.(ap_telemetry); ap_health_th := r.(ap_health_th) |}.
Definition set_ap_telemetry (v : telemetry_pc) (r : app) : app :=
  {| ap_now := r.(ap_now); ap_node := r.(ap_node); ap_link := r.(ap_link);
     ap_ring := r.(ap_ring); ap_health := r.(ap_health); ap_slot := r.(ap_slot);
     ap_byteq := r.(ap_byteq); ap_tick := r.(ap_tick); ap_sensor := r.(ap_sensor);
     ap_bus := r.(ap_bus); ap_wdt := r.(ap_wdt); ap_wire := r.(ap_wire);
     ap_feeds := r.(ap_feeds); ap_log := r.(ap_log); ap_measurement := r.(ap_measurement);
     ap_tm_tick := r.(ap_tm_tick); ap_control := r.(ap_control); ap_link_rx := r.(ap_link_rx);
     ap_link_tx := r.(ap_link_tx); ap_telemetry := v; ap_health_th := r.(ap_health_th) |}.
Definition set_ap_health_th (v : health_pc) (r : app) : app :=
  {| ap_now := r.(ap_now); ap_node := r.(ap_node); ap_link := r.(ap_link);
     ap_ring := r.(ap_ring); ap_health := r.(ap_health); ap_slot := r.(ap_slot);
     ap_byteq := r.(ap_byteq); ap_tick := r.(ap_tick); ap_sensor := r.(ap_sensor);
     ap_bus := r.(ap_bus); ap_wdt := r.(ap_wdt); ap_wire := r.(ap_wire);
     ap_feeds := r.(ap_feeds); ap_log := r.(ap_log); ap_measurement := r.(ap_measurement);
     ap_tm_tick := r.(ap_tm_tick); ap_control := r.(ap_control); ap_link_rx := r.(ap_link_rx);
     ap_link_tx := r.(ap_link_tx); ap_telemetry := r.(ap_telemetry); ap_health_th := v |}.

(** The critical sections of [node_lock]. *)
Definition locked_post_event (ev : gov_event_t) (t : Z) (s : app) : app :=
  set_ap_node (node_post_event s.(ap_node) ev t) s.
Definition locked_note_sensor (sflags : Z) (ok : bool) (t : Z) (s : app) : app :=
  set_ap_node (node_note_sensor s.(ap_node) sflags ok t) s.
Definition locked_note_link (ok : bool) (t : Z) (s : app) : app :=
  set_ap_node (node_note_link s.(ap_node) ok t) s.
Definition locked_note_timing (ok : bool) (t : Z) (s : app) : app :=
  set_ap_node (node_note_timing s.(ap_node) ok t) s.
Definition locked_control_step (meas : float) (t : Z) (s : app) : option (app * float) :=
  '(n, applied) ← node_control_step s.(ap_node) meas t; Some (set_ap_node n s, applied).
Definition locked_fill_telemetry (s : app) : option gov_telem_record := node_telemetry s.(ap_node).
Definition locked_selftest_ok (t : Z) (s : app) : app := set_ap_node (node_selftest_ok s.(ap_node) t) s.

(** The link UART: the interrupt drains the FIFO into the byte queue and drops what does not fit; the
    wire callback gives the UART one byte per iteration (the sending thread is recorded with it), and only
    logs without a UART. *)
Definition msgq_put (q : list Z) (byte : Z) : list Z :=
  if Z.of_nat (length q) <? rx_byteq_depth then q ++ [byte] else q.
Definition link_uart_isr (ready : bool) (fifo : list Z) (s : app) : app :=
  if ready then set_ap_byteq (fold_left msgq_put fifo s.(ap_byteq)) s else s.
Definition link_wire_out (th : thread) (byte : Z) (s : app) : app := set_ap_wire (s.(ap_wire) ++ [(th, byte)]) s.
Definition wire_more (i n : Z) : bool := brd.(b_uart) && (i <? n).

Definition watchdog_feed (s : app) : app :=
  if 0 <=? s.(ap_wdt) then set_ap_feeds (S s.(ap_feeds)) s else s.

Definition note_alive (sys : gov_health_subsys) (t : Z) (s : app) : option app :=
  h ← gov_health_note_alive s.(ap_health) sys t; Some (set_ap_health h s).

(** ** The threads' loops *)
Definition control_thread (s : app) : option app :=
  match s.(ap_control) with
  | CT_wait => Some (if s.(ap_tick) then set_ap_control CT_slot (set_ap_tick false s) else s)
  | CT_slot =>
      let '(slot, v) := gov_slot_get s.(ap_slot) in
      let s := set_ap_slot slot s in
      let s := match v with Some v => set_ap_measurement (f_of_Z v) s | None => s end in
      Some (set_ap_control CT_time s)
  | CT_time => Some (set_ap_control (CT_step s.(ap_now)) s)
  | CT_step t => '(s, _) ← locked_control_step s.(ap_measurement) t s; Some (set_ap_control CT_plant s)
  | CT_plant =>
      let s := if brd.(b_sensor) then s
               else set_ap_measurement (gov_plant_output s.(ap_node).(n_plant)) s in
      Some (set_ap_control CT_deadline s)
  | CT_deadline =>
      Some (set_ap_control CT_stamp (set_ap_health (gov_health_note_deadline s.(ap_health) true) s))
  | CT_stamp => Some (set_ap_control (CT_alive s.(ap_now)) s)
  | CT_alive t => s ← note_alive GOV_HS_CONTROL t s; Some (set_ap_control CT_wait s)
  end.

Definition after_frame : link_rx_pc := if brd.(b_sensor) then RX_poll else RX_stamp.

Definition link_rx_thread (s : app) : option app :=
  match s.(ap_link_rx) with
  | RX_get =>
      match s.(ap_byteq) with
      | byte :: q =>
          '(l, outs) ← link_receive s.(ap_link) [byte];
          Some (set_ap_link_rx (RX_outs outs) (set_ap_link l (set_ap_byteq q s)))
      | [] => Some (set_ap_link_rx after_frame s)
      end
  | RX_outs [] => Some (set_ap_link_rx after_frame s)
  | RX_outs (rx_delivers f :: outs) =>
      Some (set_ap_link_rx (match on_app_deliver f with
                            | Some ev => RX_post ev s.(ap_now) outs
                            | None => RX_outs outs
                            end) s)
  | RX_outs (rx_emits (byte :: bytes) :: outs) =>
      Some (if brd.(b_uart) then set_ap_link_rx (RX_outs (rx_emits bytes :: outs)) (link_wire_out LinkRx byte s)
            else set_ap_link_rx (RX_outs outs) s)
  | RX_outs (rx_emits [] :: outs) => Some (set_ap_link_rx (RX_outs outs) s)
  | RX_post ev t outs => Some (set_ap_link_rx (RX_outs outs) (locked_post_event ev t s))
  | RX_poll =>
      b ← s.(ap_bus);
      '(b, sen, _, health) ← gov_sensor_poll read poll_fuel b s.(ap_sensor) None;
      let s := set_ap_sensor sen (set_ap_bus (Some b) s) in
      Some (set_ap_link_rx
              (if bool_decide (health = GOV_SENSOR_HEALTHY) && gov_sensor_has_value sen
               then RX_push (gov_sensor_value sen) else RX_report) s)
  | RX_push v => Some (set_ap_link_rx RX_report (set_ap_slot (gov_slot_push s.(ap_slot) v) s))
  | RX_report =>
      let sensor_ok := negb (bool_decide (gov_sensor_health s.(ap_sensor) = GOV_SENSOR_FAULTED)) in
      Some (set_ap_link_rx (RX_note (gov_sensor_faults s.(ap_sensor)) sensor_ok s.(ap_now)) s)
  | RX_note sflags ok t => Some (set_ap_link_rx RX_stamp (locked_note_sensor sflags ok t s))
  | RX_stamp => Some (set_ap_link_rx (RX_alive s.(ap_now)) s)
  | RX_alive t => s ← note_alive GOV_HS_LINK t s; Some (set_ap_link_rx RX_get s)
  end.

Definition link_tx_thread (s : app) : option app :=
  match s.(ap_link_tx) with
  | TX_time => Some (set_ap_link_tx (TX_poll s.(ap_now)) s)
  | TX_poll t => Some (set_ap_link_tx (TX_commit t (poll_decide s.(ap_link).(l_tx) t)) s)
  | TX_commit t act =>
      '(tx, out) ← poll_commit s.(ap_link).(l_tx) t act;
      Some (set_ap_link_tx (TX_out 0 (Z.of_nat (length (concat out)))) (set_ap_link (set_l_tx tx s.(ap_link)) s))
  | TX_out i n =>
      if wire_more i n then
        byte ← load s.(ap_link).(l_tx).(tx_frame) i;
        Some (set_ap_link_tx (TX_out (i + 1) n) (link_wire_out LinkTx byte s))
      else
        let fault := bool_decide (s.(ap_link).(l_tx).(tx_state) = GOV_TX_LINK_FAULT) in
        Some (set_ap_link_tx (TX_report (negb fault)) s)
  | TX_report ok => Some (set_ap_link_tx (TX_note ok s.(ap_now)) s)
  | TX_note ok t => Some (set_ap_link_tx (TX_clear ok) (locked_note_link ok t s))
  | TX_clear ok =>
      let s := if ok : bool then s
               else set_ap_link (set_l_tx (gov_tx_clear_fault s.(ap_link).(l_tx)) s.(ap_link)) s in
      Some (set_ap_link_tx TX_time s)
  end.

Definition telemetry_thread (s : app) : option app :=
  match s.(ap_telemetry) with
  | TM_fill => rec ← locked_fill_telemetry s; Some (set_ap_telemetry (TM_push rec) s)
  | TM_push rec =>
      '(r, _) ← gov_telem_ring_push s.(ap_ring) rec;
      Some (set_ap_telemetry (TM_pop rec) (set_ap_ring r s))
  | TM_pop rec =>
      if brd.(b_uart) then
        '(r, popped) ← gov_telem_ring_pop s.(ap_ring);
        let s := set_ap_ring r s in
        match popped with
        | None => Some (set_ap_telemetry (TM_log rec) s)
        | Some out =>
            '(n, payload) ← gov_telem_encode (Some out) (Some (replicate 21 0)) GOV_TELEM_DATA_LEN;
            Some (set_ap_telemetry
                    (if 0 <? n then TM_send (default [] payload) n s.(ap_now) rec else TM_log rec) s)
        end
      else Some (set_ap_telemetry (TM_log rec) s)
  | TM_send payload n t rec =>
      '(tx, _, out) ← gov_tx_send s.(ap_link).(l_tx) GOV_TYPE_DATA (Some payload) (u16 n) t;
      let s := set_ap_link (set_l_tx tx s.(ap_link)) s in
      Some (set_ap_telemetry (TM_out 0 (Z.of_nat (length (concat out))) rec) s)
  | TM_out i n rec =>
      if wire_more i n then
        byte ← load s.(ap_link).(l_tx).(tx_frame) i;
        Some (set_ap_telemetry (TM_out (i + 1) n rec) (link_wire_out Telemetry byte s))
      else Some (set_ap_telemetry (TM_log rec) s)
  | TM_log rec =>
      let line := (gov_safety_state_name (state_of_code rec.(tm_state)), rec.(tm_fault_flags),
                   rec.(tm_measurement), rec.(tm_output)) in
      let s := if s.(ap_tm_tick) mod 10 =? 0 then set_ap_log (line :: s.(ap_log)) s else s in
      Some (set_ap_telemetry TM_fill (set_ap_tm_tick (u32 (s.(ap_tm_tick) + 1)) s))
  end.

Definition health_thread (s : app) : option app :=
  match s.(ap_health_th) with
  | HE_stamp => Some (set_ap_health_th (HE_alive s.(ap_now)) s)
  | HE_alive t => s ← note_alive GOV_HS_SENSOR t s; Some (set_ap_health_th HE_report s)
  | HE_report =>
      Some (set_ap_health_th (HE_note (negb (gov_health_timing_fault s.(ap_health))) s.(ap_now)) s)
  | HE_note ok t => Some (set_ap_health_th HE_time (locked_note_timing ok t s))
  | HE_time => Some (set_ap_health_th (HE_feed s.(ap_now)) s)
  | HE_feed t =>
      feed ← gov_health_feed_watchdog s.(ap_health) t (3 * GOV_HEALTH_PERIOD_MS);
      Some (set_ap_health_th HE_stamp (if feed : bool then watchdog_feed s else s))
  end.

(** ** Boot *)

(** [hal] is what [gov_hal_zephyr_init] made of the bus, [None] when it failed. *)
Definition sensor_setup (hal : option B) : gov_sensor * option B * bool :=
  if brd.(b_sensor) then
    match hal with
    | Some b => (gov_sensor_init sensor_cfg, Some b, true)
    | None => (sensor_zero, None, false)
    end
  else (sensor_zero, None, true).

(** [main] from [gov_node_init] on, up to the creation of the threads; it reads the clock at [t]. *)
Definition boot (setpoint : float) (watchdog_reset : bool) (hal : option B) (wdt : option (bool * Z)) (t : Z) : app :=
  let node := node_init setpoint in
  let node := if watchdog_reset then set_n_safety (safety_init_sticky GOV_FAULT_WATCHDOG) node else node in
  let '(sensor, bus, ok) := sensor_setup hal in
  let s := mkApp t node link_init (gov_telem_ring_init ring_zero) gov_health_init gov_slot_init [] false
             sensor bus (watchdog_setup wdt) [] 0 [] f_zero 0 CT_wait RX_get TX_time TM_fill HE_stamp in
  if ok : bool then locked_selftest_ok t s else locked_post_event GOV_EV_SELFTEST_FAIL t s.

(** The whole of [main], with persistence. *)
Definition main {nvs} (big : bool) (api : settings_api nvs) (n : nvs) (c : gov_config_ctx_t)
    (reset_watchdog : Z) (hwinfo : option (Z * Z)) (hal : option B) (wdt : option (bool * Z)) (t : Z) : option (app * nvs) :=
  '(setpoint, n, _) ← boot_sequence big api n c;
  Some (boot (f_of_Z setpoint) (was_watchdog_reset reset_watchdog hwinfo) hal wdt t, n).

(** ** Runs *)
Inductive action :=
  | Run (th : thread)
  | Timer                                   (* control_timer_fn *)
  | Isr (ready : bool) (fifo : list Z)      (* link_uart_isr *)
  | Elapse (d : Z).                         (* the uptime counter *)

Definition app_step (s : app) (a : action) : option app :=
  match a with
  | Run Control => control_thread s
  | Run LinkRx => link_rx_thread s
  | Run LinkTx => link_tx_thread s
  | Run Telemetry => telemetry_thread s
  | Run Health => health_thread s
  | Timer => Some (set_ap_tick true s)
  | Isr ready fifo => Some (link_uart_isr ready fifo s)
  | Elapse d => Some (set_ap_now (u32 (s.(ap_now) + d)) s)
  end.

Fixpoint app_run (s : app) (acts : list action) : option app :=
  match acts with
  | [] => Some s
  | a :: acts => s ← app_step s a; app_run s acts
  end.

(** The wire carries bytes. *)
Definition act_ok (a : action) : Prop := match a with Isr _ fifo => is_bytes fifo | _ => True end.
(** ** The invariant *)

(** A float a cast to [int32_t] accepts. *)
Definition castable (x : float) : Prop := fbnd 31 x /\ Z.abs (fval x) < 2 ^ 31 * f_unit.

Definition link_ok (l : link) : Prop :=
  dec_ok l.(l_dec) /\ d_cb l.(l_dec) = true /\ tx_ok l.(l_tx) /\
  l.(l_rx).(rx_wire) = true /\ l.(l_rx).(rx_deliver) = true.

(** The fault bits the sensor driver can set. *)
Definition driver_bits (m : Z) : Prop := 0 <= m /\ within m GOV_FAULT_SENSOR_ANY_DRIVER.

(** The steps the callbacks of a frame take, one per byte sent. *)
Fixpoint cost (outs : list rx_out) : nat :=
  match outs with
  | [] => 0
  | rx_delivers _ :: outs => 2 + cost outs
  | rx_emits bytes :: outs => 1 + length bytes + cost outs
  end.

(** The times sampled are clock values, the values pushed are samples in range, the callbacks of a frame
    are a delivery and an acknowledgement, and bytes are read from inside the transmit buffer. *)
Definition control_pc_ok (pc : control_pc) : Prop := match pc with CT_step t => is_u32 t | _ => True end.
Definition link_rx_pc_ok (pc : link_rx_pc) : Prop :=
  match pc with
  | RX_outs outs => (cost outs <= 12)%nat
  | RX_post ev t outs => (ev = GOV_EV_OPERATOR_STOP \/ ev = GOV_EV_OPERATOR_CLEAR) /\ is_u32 t /\ (cost outs <= 10)%nat
  | RX_push v => brd.(b_sensor) = true /\ 0 <= v <= 100
  | RX_poll | RX_report => brd.(b_sensor) = true
  | RX_note sflags _ t => is_u32 t /\ driver_bits sflags
  | _ => True
  end.
Definition link_tx_pc_ok (tx : gov_tx) (pc : link_tx_pc) : Prop :=
  match pc with
  | TX_commit _ PollRetry => tx.(tx_retries) < GOV_MAX_RETRIES
  | TX_out i n => 0 <= i /\ n <= 72
  | TX_note _ t => is_u32 t
  | _ => True
  end.
Definition telemetry_pc_ok (pc : telemetry_pc) : Prop :=
  match pc with
  | TM_send payload n _ _ => n = 21 /\ length payload = 21%nat
  | TM_out i n _ => 0 <= i /\ n <= 72
  | _ => True
  end.
Definition health_pc_ok (pc : health_pc) : Prop := match pc with HE_note _ t => is_u32 t | _ => True end.

(** The health record represents some history of reports, one without a missed deadline. *)
Definition health_good (h : gov_health) : Prop := (exists reports, health_rep h reports) /\ h.(h_consec_misses) = 0.

Record app_ok (s : app) : Prop := {
  ao_now : is_u32 s.(ap_now);
  ao_node : node_ok s.(ap_node);
  ao_shadow : shadow_ok s.(ap_node);
  ao_driver : driver_bits s.(ap_node).(n_driver_faults);
  ao_setpoint : castable s.(ap_node).(n_setpoint);
  ao_last : castable s.(ap_node).(n_last_measurement);
  ao_measurement : castable s.(ap_measurement);
  ao_link : link_ok s.(ap_link);
  ao_ring : ring_ok s.(ap_ring);
  ao_health : health_good s.(ap_health);
  ao_slot : s.(ap_slot).(ss_fresh) = true -> 0 <= s.(ap_slot).(ss_value) <= 100;
  ao_byteq : is_bytes s.(ap_byteq) /\ Z.of_nat (length s.(ap_byteq)) <= rx_byteq_depth;
  ao_sensor : brd.(b_sensor) = true -> is_Some s.(ap_bus) /\
    exists h, sensor_rep s.(ap_sensor) None h /\ s.(ap_sensor).(sen_cfg) = sensor_cfg;
  ao_control : control_pc_ok s.(ap_control);
  ao_link_rx : link_rx_pc_ok s.(ap_link_rx);
  ao_link_tx : link_tx_pc_ok s.(ap_link).(l_tx) s.(ap_link_tx);
  ao_telemetry : telemetry_pc_ok s.(ap_telemetry);
  ao_health_th : health_pc_ok s.(ap_health_th)
}.

(** ** Preservation, object by object *)

(** Progress and preservation of one step. *)
Definition steps_ok (r : option app) : Prop := exists s', r = Some s' /\ app_ok s'.

Lemma steps_ok_ret s : app_ok s -> steps_ok (Some s).
Proof. by exists s. Qed.

(** What the machine's posts leave alone. *)
Definition numeric_eq (n n' : gov_node) : Prop :=
  n_pid n' = n_pid n /\ n_plant n' = n_plant n /\ n_setpoint n' = n_setpoint n /\
  n_last_output n' = n_last_output n /\ n_last_measurement n' = n_last_measurement n.

Lemma node_post_numeric n ev t : numeric_eq n (node_post_event n ev t).
Proof. unfold numeric_eq, node_post_event. destruct (resync_frame (sm ev t n)) as (_ & -> & -> & -> & _ & -> & ->). done. Qed.

(** The driver's bits stay the driver's. *)
Lemma driver_bits_lor a b : driver_bits a -> driver_bits b -> driver_bits (a .| b).
Proof. intros [] []. split; [by apply Z.lor_nonneg|by apply within_lor]. Qed.

Lemma resync_driver n : driver_bits n.(n_driver_faults) -> driver_bits (resync_shadow n).(n_driver_faults).
Proof. unfold resync_shadow. by case_decide. Qed.

Lemma post_driver n ev t : driver_bits n.(n_driver_faults) -> driver_bits (node_post_event n ev t).(n_driver_faults).
Proof. intros Hn. by apply resync_driver. Qed.

Lemma report_driver n src ok t :
  driver_bits n.(n_driver_faults) -> (forall f, src = SrcSensor f -> driver_bits f) ->
  driver_bits (report n src ok t).(n_driver_faults).
Proof.
  intros Hn Hsrc.
  assert (Hc : forall n cause ev, driver_bits n.(n_driver_faults) -> driver_bits (note_cause n cause ev ok t).(n_driver_faults)).
  { clear. intros n cause ev Hn. apply resync_driver. unfold sm. by repeat case_match. }
  destruct src as [f| |]; cbn [report]; [|by apply Hc..]. apply Hc. destruct ok; cbn [negb].
  - destruct (gov_safety_actuation_allowed _); [|done]. destruct Hn. split; [by apply Z.land_nonneg; left|by apply within_land].
  - apply driver_bits_lor; [done|by apply Hsrc].
Qed.

Lemma control_step_driver n m t n' out :
  node_control_step n m t = Some (n', out) -> driver_bits n.(n_driver_faults) -> driver_bits n'.(n_driver_faults).
Proof.
  unfold node_control_step. destruct (gov_pid_step _ _ _ _) as [p desired]. cbn -[f_to_i32 resync_shadow].
  set (n1 := if gov_pid_diverging p then _ else _).
  assert (E : n_driver_faults n1 = n_driver_faults n) by (unfold n1; by destruct (gov_pid_diverging p)). clearbody n1.
  destruct (f_to_i32 desired); cbn -[resync_shadow]; [|done]. destruct (clamp_output _ _); cbn -[resync_shadow]; [|done].
  intros [= <- _] Hn. cbn -[resync_shadow]. apply resync_driver. by rewrite E.
Qed.

Lemma sensor_flags_driver sen slot h : sensor_rep sen slot h -> driver_bits (gov_sensor_faults sen).
Proof.
  intros (_ & Hf & _). unfold gov_sensor_faults. rewrite Hf.
  by destruct (saw_dropout _ _), (stuck _ _), (out_of_range _ _), (saw_nak _), (saw_err _).
Qed.

Lemma app_ok_node s n' :
  app_ok s -> shadow_ok n' -> driver_bits n'.(n_driver_faults) -> numeric_eq s.(ap_node) n' -> app_ok (set_ap_node n' s).
Proof.
  intros [] Hs Hdr (E1 & E2 & E3 & E4 & E5). split; cbn; try done; rewrite ?E3, ?E5; try done. by apply (node_ok_frame (ap_node s)).
Qed.

Lemma app_ok_report s src ok t :
  app_ok s -> is_u32 t -> (forall f, src = SrcSensor f -> driver_bits f) -> app_ok (set_ap_node (report s.(ap_node) src ok t) s).
Proof.
  intros Hs Ht Hsrc. apply app_ok_node; [done| | |apply report_frame]; [apply report_shadow_ok; [apply Hs|done]|].
  apply report_driver; [apply Hs|done].
Qed.

Lemma note_alive_ok sys t s : app_ok s -> exists h, note_alive sys t s = Some (set_ap_health h s) /\ health_good h.
Proof.
  intros Hs. destruct (ao_health s Hs) as [[r Hr] Hm].
  destruct (health_step_rep _ r (rep_alive sys t) Hr) as (h & Hh & Hr'). cbn in Hh.
  exists h. unfold note_alive. rewrite Hh. split; [done|split; [by eexists|]].
  unfold gov_health_note_alive in Hh. by repeat (case_match || simplify_option_eq).
Qed.

Lemma push_one d b d' fs : gov_decoder_push d b = Some (d', fs) -> (length fs <= 1)%nat.
Proof.
  unfold gov_decoder_push, push_payload, push_crc, finish_frame. intros H.
  repeat case_match; cbn in *; simplify_option_eq; repeat (case_match; simplify_option_eq); cbn; lia.
Qed.

Lemma on_decoded_frame_ok l f :
  link_ok l -> exists l' outs, on_decoded_frame l f = Some (l', outs) /\ link_ok l' /\ (cost outs <= 12)%nat /\ l'.(l_dec) = l.(l_dec) /\ tx_retries (l_tx l') = tx_retries (l_tx l).
Proof.
  intros (Hd & Hcb & Htx & Hw & Hdel). unfold on_decoded_frame.
  assert (Hl : forall sq, length (frame_bytes (ack_frame sq)) = 9%nat) by (intros sq; by rewrite frame_bytes_length).
  destruct ((f_type f =? GOV_TYPE_ACK) && bool_decide (1 <= length (f_payload f))%nat) eqn:E.
  - apply andb_true_iff in E as [_ E%bool_decide_eq_true].
    destruct (f_payload f) as [|a p]; cbn in *; [lia|]. eexists _, []. split; [reflexivity|]. split; [|split; [cbn; lia|]].
    + split_and!; try done. cbn. unfold gov_tx_on_ack. by case_match.
    + split; [done|]. cbn. unfold gov_tx_on_ack. by case_match.
  - rewrite gov_rx_on_frame_spec, Hw, Hdel. cbn -[frame_bytes]. destruct (rx_have_last _ && _); eexists _, _; (split; [reflexivity|]);
      (split; [exact (conj Hd (conj Hcb (conj Htx (conj Hw Hdel))))|split; [cbn -[frame_bytes]; rewrite Hl; lia|done]]).
Qed.

Lemma receive_byte l b :
  is_u8 b -> link_ok l ->
  exists d' fs, gov_decoder_push l.(l_dec) b = Some (d', fs) /\ dec_ok d' /\ d_cb d' = true /\ (length fs <= 1)%nat /\
    link_receive l [b] = feed on_decoded_frame (set_l_dec d' l) fs.
Proof.
  intros Hb Hl. destruct (push_refines _ b Hb (proj1 Hl)) as (d' & fs & evs & Hp & Hd' & _ & Hsh).
  exists d', fs. split_and!; try done; [by rewrite (proj1 Hsh); apply Hl|by eapply push_one|].
  unfold link_receive, decode. cbn [feed]. rewrite Hp. cbn. by rewrite app_nil_r.
Qed.

Lemma link_receive_byte_ok l b :
  is_u8 b -> link_ok l -> exists l' outs, link_receive l [b] = Some (l', outs) /\ link_ok l' /\ (cost outs <= 12)%nat /\
    tx_retries (l_tx l') = tx_retries (l_tx l).
Proof.
  intros Hb Hl. destruct (receive_byte l b Hb Hl) as (d' & fs & _ & Hd' & Hcb & Hlen & ->).
  assert (Hl' : link_ok (set_l_dec d' l)) by (destruct Hl as (? & ? & ? & ? & ?); done).
  destruct fs as [|f [|? ?]]; cbn in Hlen; [|..|lia]; cbn [feed].
  - eexists _, []. split; [reflexivity|]. split; [done|split; [cbn; lia|done]].
  - destruct (on_decoded_frame_ok _ f Hl') as (l' & outs & -> & ? & ? & _ & ?). cbn. rewrite app_nil_r. by eexists _, _.
Qed.

Lemma poll_decide_retry tx t : poll_decide tx t = PollRetry -> tx.(tx_retries) < GOV_MAX_RETRIES.
Proof. unfold poll_decide. intros H. repeat case_match; try done. by apply Z.leb_gt. Qed.

Lemma poll_commit_ok tx t act :
  tx_ok tx -> (act = PollRetry -> tx.(tx_retries) < GOV_MAX_RETRIES) ->
  exists tx' out, poll_commit tx t act = Some (tx', out) /\ tx_ok tx' /\ (length (concat out) <= 72)%nat.
Proof.
  intros Hok Hr. pose proof Hok as (Hw & Hbuf & Hfl & Hret & Hn). destruct act; cbn [poll_commit].
  - eexists _, _. split; [reflexivity|]. split; [done|cbn; lia].
  - eexists _, _. split; [reflexivity|]. split; [done|cbn; lia].
  - specialize (Hr eq_refl). unfold GOV_MAX_RETRIES in *. unfold call_wire. cbn -[load_bytes u8]. rewrite Hw, load_bytes_Some by lia. cbn [mbind option_bind].
    eexists _, _. split; [reflexivity|]. unfold tx_ok, GOV_MAX_RETRIES. cbn -[u8]. rewrite u8_small by clia.
    rewrite app_nil_r, length_take. split; [split_and!; try done; lia|lia].
Qed.

Lemma tx_send_data_ok tx payload t :
  tx_ok tx -> length payload = 21%nat ->
  exists tx' st out, gov_tx_send tx GOV_TYPE_DATA (Some payload) (u16 21) t = Some (tx', st, out) /\ tx_ok tx' /\
    (length (concat out) <= 72)%nat /\ (tx_retries tx' <= tx_retries tx).
Proof.
  intros Hok Hl. pose proof Hok as (Hw & Hbuf & Hfl & Hret & Hn). change (u16 21) with 21.
  destruct (decide (tx_state tx = GOV_TX_IDLE)) as [Hi|Hi]; [|rewrite tx_send_busy by done; eexists _, _, _; split; [reflexivity|split; [done|split; [cbn; lia|done]]]].
  rewrite tx_send_ok; [|done|done|done|lia|done|intros ? [= <-]; lia].
  eexists _, _, _. split; [reflexivity|]. split; [|split; [|cbn; lia]].
  - apply waiting_sent; try done. cbn. rewrite length_take. lia.
  - cbn -[frame_bytes]. rewrite app_nil_r, frame_bytes_length. cbn. rewrite length_take. lia.
Qed.

Lemma msgq_put_ok q fifo :
  is_bytes q -> is_bytes fifo -> Z.of_nat (length q) <= rx_byteq_depth ->
  is_bytes (fold_left msgq_put fifo q) /\ Z.of_nat (length (fold_left msgq_put fifo q)) <= rx_byteq_depth.
Proof.
  intros Hq Hf Hl. revert q Hq Hl. induction Hf as [|b fifo Hb _ IH]; intros q Hq Hl; [done|]. cbn. apply IH; unfold msgq_put.
  - case_match; [|done]. apply Forall_app. by split; [|constructor].
  - destruct (Z.ltb_spec (Z.of_nat (length q)) rx_byteq_depth); [|done]. rewrite length_app. cbn. lia.
Qed.

Lemma sample_castable v : 0 <= v <= 100 -> castable (f_of_Z v).
Proof.
  intros Hv. destruct (f_of_Z_exact v ltac:(lia)) as [Hok E]. unfold castable, fbnd. rewrite E, Z.pow_add_r by lia. unfold f_unit.
  split; [split; [done|]|]; lia.
Qed.

Lemma plant_castable n : node_ok n -> castable (gov_plant_output n.(n_plant)).
Proof.
  intros Hn. pose proof (no_y_range n Hn) as Hr. split; [split; [apply Hn|]|]; unfold gov_plant_output, f_unit in *; lia.
Qed.
(** ** Preservation, thread by thread *)
Ltac keeps Hs := apply steps_ok_ret; destruct Hs; split; cbn; try done.

Lemma ao_with_health s h : app_ok s -> health_good h -> app_ok (set_ap_health h s).
Proof. intros [] Hh. by split. Qed.

Lemma control_step_app_ok s t :
  app_ok s -> is_u32 t ->
  exists n' u, node_control_step s.(ap_node) s.(ap_measurement) t = Some (n', f_of_Z (clamped (node_state n') u)) /\
    n_last_output n' = f_of_Z (clamped (node_state n') u) /\ 0 <= u <= 100 /\
    n_safety n' = safety_step (control_event s.(ap_node) s.(ap_measurement)) t (n_safety s.(ap_node)) /\
    app_ok (set_ap_node n' s).
Proof.
  intros Hs Ht. pose proof (ao_measurement s Hs) as [Hm Hm'].
  destruct (control_step_ok _ _ t (ao_node s Hs) Hm) as (n' & u & _ & Hu & Hstep & Hok & _ & El & Esp & Eo & _ & _ & _ & Es).
  exists n', u. split_and!; try done; try lia. pose proof (control_step_shadow_ok _ _ _ _ _ (proj1 (ao_shadow s Hs)) Ht Hstep).
  pose proof (control_step_driver _ _ _ _ _ Hstep (ao_driver s Hs)).
  destruct Hs. split; cbn; try done; by rewrite ?Esp, ?El.
Qed.

Lemma control_thread_ok s : app_ok s -> steps_ok (control_thread s).
Proof.
  intros Hs. unfold control_thread. pose proof (ao_control s Hs) as Hpc. destruct (ap_control s) eqn:E; cbn in Hpc.
  - destruct (ap_tick s); [keeps Hs|by apply steps_ok_ret].
  - pose proof (ao_slot s Hs) as Hsl. unfold gov_slot_get. destruct (ss_fresh (ap_slot s)); cbn; keeps Hs.
    by apply sample_castable, Hsl.
  - keeps Hs.
  - destruct (control_step_app_ok s t Hs Hpc) as (n' & u & Hstep & _ & _ & _ & Hs').
    unfold locked_control_step. rewrite Hstep. cbn. keeps Hs'.
  - destruct (b_sensor brd) eqn:Eb; keeps Hs. by apply plant_castable.
  - destruct (ao_health s Hs) as [[r Hr] Hm]. destruct (health_step_rep _ r (rep_deadline true) Hr) as (h & [= <-] & Hr').
    keeps Hs. split; [by eexists|done].
  - keeps Hs.
  - destruct (note_alive_ok GOV_HS_CONTROL t s Hs) as (h & -> & Hh). cbn. pose proof (ao_with_health s h Hs Hh) as Hs'. keeps Hs'.
Qed.

Lemma after_frame_ok : link_rx_pc_ok after_frame.
Proof. unfold after_frame. by destruct (b_sensor brd) eqn:E. Qed.

Lemma on_app_deliver_event f ev : on_app_deliver f = Some ev -> ev = GOV_EV_OPERATOR_STOP \/ ev = GOV_EV_OPERATOR_CLEAR.
Proof. unfold on_app_deliver. repeat case_match; intros [= <-]; [by left|by right]. Qed.

Lemma link_wire_out_ok th byte s : app_ok s -> app_ok (link_wire_out th byte s).
Proof. intros []. by split. Qed.

(** A poll of the sensor of a board that has one. *)
Lemma sensor_poll_ok `{!BusLaws read} s b :
  app_ok s -> brd.(b_sensor) = true -> ap_bus s = Some b ->
  exists b' sen, gov_sensor_poll read poll_fuel b s.(ap_sensor) None = Some (b', sen, None, gov_sensor_health sen) /\
    sen_cfg sen = sensor_cfg /\ (exists h, sensor_rep sen None h) /\
    (gov_sensor_has_value sen = true -> 0 <= gov_sensor_value sen <= 100).
Proof.
  intros Hs Hb Hbus. destruct (ao_sensor s Hs Hb) as (_ & h & Hrep & Hcfg).
  pose proof (poll_rep read poll_fuel b (ap_sensor s) None h Hrep) as H. rewrite Hcfg in H.
  specialize (H ltac:(by vm_compute) ltac:(apply Nat.ltb_lt; by vm_compute)).
  destruct (first_answer _ _ _ _) as [[b' st] buf]. destruct H as (sen & slot' & Hp & Hrep' & Hcfg').
  assert (slot' = None) as ->.
  { unfold gov_sensor_poll, read_with_retry in Hp. destruct (retry_loop _ _ _ _ _) as [[[? st'] buf']|]; [|done]. cbn in Hp.
    unfold sensor_dispatch, gov_sensor_on_sample in Hp. destruct st'; cbn in Hp; try (by simplify_eq).
    destruct (decode_sample _ _); cbn in Hp; [|done]. by case_match; simplify_eq/=. }
  exists b', sen. split; [done|]. split; [done|]. split; [by eexists|].
  intros Hv. destruct (rep_accessors _ _ _ Hrep') as (_ & _ & _ & Hval & _). destruct (Hval Hv) as [_ Hr].
  rewrite Hcfg' in Hr. unfold in_range in Hr. apply andb_true_iff in Hr as [?%Z.leb_le ?%Z.leb_le]. done.
Qed.

Lemma link_rx_thread_ok `{!BusLaws read} s : app_ok s -> steps_ok (link_rx_thread s).
Proof.
  intros Hs. unfold link_rx_thread. pose proof (ao_link_rx s Hs) as Hpc. pose proof after_frame_ok as Haf.
  destruct (ap_link_rx s) as [|outs|ev t outs| |v| |sflags ok t| |t] eqn:E; cbn in Hpc.
  - destruct (ap_byteq s) as [|byte q] eqn:Eq; [keeps Hs|].
    destruct (ao_byteq s Hs) as [Hb Hlen]. rewrite Eq in Hb, Hlen. apply Forall_cons in Hb as [Hb Hq]. cbn in Hlen.
    destruct (link_receive_byte_ok _ byte Hb (ao_link s Hs)) as (l & outs & -> & Hl & Ho & Hr). cbn. keeps Hs.
    + split; [done|lia].
    + destruct (ap_link_tx s) as [| |? []| | | |]; cbn in *; by rewrite ?Hr.
  - destruct outs as [|[f|[|byte bytes]] outs]; cbn in Hpc; [keeps Hs| |keeps Hs; lia|].
    + destruct (on_app_deliver f) as [ev|] eqn:Ef; keeps Hs; [|lia]. split_and!; [by apply (on_app_deliver_event f)|clia..|lia].
    + pose proof (link_wire_out_ok LinkRx byte s Hs) as Hs'. destruct (b_uart brd); [keeps Hs'|keeps Hs]; cbn; lia.
  - destruct Hpc as (Hev & Ht & Ho). unfold locked_post_event.
    assert (Hs' : app_ok (set_ap_node (node_post_event (ap_node s) ev t) s)).
    { apply app_ok_node; [done| |apply post_driver, Hs|apply node_post_numeric].
      apply sm_resync_ok; [apply (ao_shadow s Hs)|done|by destruct Hev as [-> | ->]]. }
    keeps Hs'. lia.
  - destruct (ao_sensor s Hs Hpc) as [[b Hb] _]. rewrite Hb. cbn [mbind option_bind].
    destruct (sensor_poll_ok s b Hs Hpc Hb) as (b' & sen & -> & Hcfg & Hrep & Hv). cbn.
    keeps Hs.
    + intros _. split; [by eexists|]. destruct Hrep as [h Hh]. by exists h.
    + destruct (bool_decide _); cbn; [|done]. destruct (gov_sensor_has_value sen) eqn:Eh; [split; [done|by apply Hv]|done].
  - destruct Hpc as [Hb Hv]. keeps Hs.
  - destruct (ao_sensor s Hs Hpc) as (_ & h & Hrep & _). pose proof (sensor_flags_driver _ _ _ Hrep). keeps Hs.
  - destruct Hpc as [Ht Hf]. assert (Hs' : app_ok (set_ap_node (report (ap_node s) (SrcSensor sflags) ok t) s)).
    { apply app_ok_report; [done|done|]. by intros f [= <-]. }
    cbn [report] in Hs'. unfold locked_note_sensor. keeps Hs'.
  - keeps Hs.
  - destruct (note_alive_ok GOV_HS_LINK t s Hs) as (h & -> & Hh). cbn. pose proof (ao_with_health s h Hs Hh) as Hs'. keeps Hs'.
Qed.

Lemma ao_with_tx s tx :
  app_ok s -> tx_ok tx -> link_tx_pc_ok tx s.(ap_link_tx) -> app_ok (set_ap_link (set_l_tx tx s.(ap_link)) s).
Proof. intros [] Htx Hpc. split; cbn; try done. destruct ao_link0 as (H1 & H2 & _ & H3). exact (conj H1 (conj H2 (conj Htx H3))). Qed.

Lemma wire_byte_ok l i n : link_ok l -> 0 <= i -> n <= 72 -> wire_more i n = true -> exists byte, load l.(l_tx).(tx_frame) i = Some byte.
Proof.
  intros (_ & _ & (_ & Hlen & _) & _) Hi Hn [_ Hlt%Z.ltb_lt]%andb_true_iff. unfold load. rewrite bool_decide_true by lia.
  apply lookup_lt_is_Some_2. lia.
Qed.

Lemma link_tx_thread_ok s : app_ok s -> steps_ok (link_tx_thread s).
Proof.
  intros Hs. unfold link_tx_thread. pose proof (ao_link_tx s Hs) as Hpc. pose proof (proj1 (proj2 (proj2 (ao_link s Hs)))) as Htx.
  destruct (ap_link_tx s) as [|t|t act|i n|ok|ok t|ok] eqn:E; cbn in Hpc.
  - keeps Hs.
  - keeps Hs. destruct (poll_decide _ _) eqn:Ed; try done. by apply poll_decide_retry in Ed.
  - destruct (poll_commit_ok _ t act Htx) as (tx & out & -> & Htx' & Hlen); [by intros ->|]. cbn.
    assert (Hs' : app_ok (set_ap_link_tx TX_time s)) by (destruct Hs; by split).
    pose proof (ao_with_tx _ tx Hs' Htx' I) as Hs''. keeps Hs''. lia.
  - destruct Hpc as [Hi Hn]. destruct (wire_more i n) eqn:Ew; [|keeps Hs].
    destruct (wire_byte_ok _ i n (ao_link s Hs) Hi Hn Ew) as [byte ->]. cbn.
    pose proof (link_wire_out_ok LinkTx byte s Hs) as Hs'. keeps Hs'. lia.
  - keeps Hs.
  - pose proof (app_ok_report s SrcLink ok t Hs Hpc ltac:(done)) as Hs'. cbn [report] in Hs'. unfold locked_note_link. keeps Hs'.
  - destruct ok; [keeps Hs|]. assert (Htx' : tx_ok (gov_tx_clear_fault (l_tx (ap_link s)))) by (unfold gov_tx_clear_fault; by case_match).
    pose proof (ao_with_tx s _ Hs Htx' ltac:(by rewrite E)) as Hs'. keeps Hs'.
Qed.

Lemma telemetry_thread_ok s : app_ok s -> steps_ok (telemetry_thread s).
Proof.
  intros Hs. unfold telemetry_thread. pose proof (ao_telemetry s Hs) as Hpc. pose proof (proj1 (proj2 (proj2 (ao_link s Hs)))) as Htx.
  pose proof (ao_ring s Hs : @q_ok _ _ ring_queue (ap_ring s)) as Hr.
  destruct (ap_telemetry s) as [|rec|rec|payload n t rec|i n rec|rec] eqn:E; cbn in Hpc.
  - unfold locked_fill_telemetry, node_telemetry. destruct (ao_setpoint s Hs) as [H1 H2], (ao_last s Hs) as [H3 H4].
    destruct (f_to_i32_inside _ H1 H2) as (? & -> & _), (f_to_i32_inside _ H3 H4) as (? & -> & _).
    destruct (no_output _ (ao_node s Hs)) as (u & Hu & Eu). destruct (sample_castable u Hu) as [H5 H6].
    rewrite Eu. destruct (f_to_i32_inside _ H5 H6) as (? & -> & _). cbn. keeps Hs.
  - assert (Hp : exists r b, gov_telem_ring_push (ap_ring s) rec = Some (r, b) /\ ring_ok r).
    { destruct (decide (length (ring_items (ap_ring s)) = 8%nat)) as [Hf|Hf].
      - destruct (q_push_full (ap_ring s) rec Hr Hf) as (r & Hp & Hok & _). by exists r, false.
      - destruct (q_push_room (ap_ring s) rec Hr) as (r & Hp & Hok & _); [|by exists r, true].
        pose proof (q_bounded (ap_ring s) Hr). cbn in *. lia. }
    destruct Hp as (r & b & -> & Hok). cbn. keeps Hs.
  - destruct (b_uart brd); [|keeps Hs]. destruct (q_pop_spec (ap_ring s) Hr) as (r & Hp & Hok & _). cbn in Hp. rewrite Hp.
    cbn [mbind option_bind]. destruct (head (ring_items (ap_ring s))) as [out|]; [|keeps Hs].
    rewrite telem_encode_at by (done || cbn; lia). cbn -[telem_bytes]. keeps Hs.
  - destruct Hpc as [-> Hl]. destruct (tx_send_data_ok _ payload t Htx Hl) as (tx & st & out & -> & Htx' & Hlen & Hret). cbn.
    assert (Hs' : app_ok (set_ap_link (set_l_tx tx s.(ap_link)) s)).
    { apply ao_with_tx; [done|done|]. pose proof (ao_link_tx s Hs) as H. destruct (ap_link_tx s) as [| |? []| | | |]; cbn in *; try done. lia. }
    keeps Hs'. lia.
  - destruct Hpc as [Hi Hn]. destruct (wire_more i n) eqn:Ew; [|keeps Hs].
    destruct (wire_byte_ok _ i n (ao_link s Hs) Hi Hn Ew) as [byte ->]. cbn.
    pose proof (link_wire_out_ok Telemetry byte s Hs) as Hs'. keeps Hs'. lia.
  - destruct (_ =? 0); keeps Hs.
Qed.

Lemma health_thread_ok s : app_ok s -> steps_ok (health_thread s).
Proof.
  intros Hs. unfold health_thread. pose proof (ao_health_th s Hs) as Hpc.
  destruct (ap_health_th s) as [|t| |ok t| |t] eqn:E; cbn in Hpc.
  - keeps Hs.
  - destruct (note_alive_ok GOV_HS_SENSOR t s Hs) as (h & -> & Hh). cbn. pose proof (ao_with_health s h Hs Hh) as Hs'. keeps Hs'.
  - keeps Hs.
  - pose proof (app_ok_report s SrcTiming ok t Hs Hpc ltac:(done)) as Hs'. cbn [report] in Hs'. unfold locked_note_timing. keeps Hs'.
  - keeps Hs.
  - destruct (ao_health s Hs) as [[r Hr] _]. destruct (all_alive_spec _ r t (3 * GOV_HEALTH_PERIOD_MS) Hr) as (a & Ha & _).
    unfold gov_health_feed_watchdog. rewrite Ha. cbn. unfold watchdog_feed. repeat case_match; keeps Hs.
Qed.
(** ** Runs from boot *)
Lemma app_step_ok `{!BusLaws read} s a : app_ok s -> act_ok a -> steps_ok (app_step s a).
Proof.
  intros Hs Ha. destruct a as [[| | | |]| |ready fifo|d]; cbn [app_step].
  - by apply control_thread_ok.
  - by apply link_rx_thread_ok.
  - by apply link_tx_thread_ok.
  - by apply telemetry_thread_ok.
  - by apply health_thread_ok.
  - keeps Hs.
  - unfold link_uart_isr. destruct ready; [|keeps Hs]. destruct (ao_byteq s Hs) as [Hb Hl].
    pose proof (msgq_put_ok _ fifo Hb Ha Hl). keeps Hs.
  - keeps Hs. apply u32_range.
Qed.

Lemma app_run_ok `{!BusLaws read} acts s :
  app_ok s -> Forall act_ok acts -> exists s', app_run s acts = Some s' /\ app_ok s'.
Proof.
  intros Hs Ha. revert s Hs. induction Ha as [|a acts Ha _ IH]; intros s Hs; [by exists s|].
  destruct (app_step_ok s a Hs Ha) as (s1 & E & Hs1). cbn. rewrite E. by apply IH.
Qed.

Lemma sensor_setup_ok hal :
  (brd.(b_sensor) = true -> is_Some hal) ->
  let '(sen, bus, ok) := sensor_setup hal in
  ok = true /\ (brd.(b_sensor) = true -> is_Some bus /\ exists h, sensor_rep sen None h /\ sen_cfg sen = sensor_cfg).
Proof.
  intros Hh. unfold sensor_setup. destruct (b_sensor brd); [|done]. destruct (Hh eq_refl) as [b ->].
  split; [done|]. intros _. split; [by eexists|]. exists []. split; [|done]. apply init_rep; [|done].
  unfold cfg_ints; cbn. split_and!; clia.
Qed.

Lemma boot_ok setpoint wd hal wdt t :
  castable setpoint -> (brd.(b_sensor) = true -> is_Some hal) -> is_u32 t -> app_ok (boot setpoint wd hal wdt t).
Proof.
  intros [Hsp Hsp'] Hh Ht. unfold boot. pose proof (sensor_setup_ok hal Hh) as Hset. destruct (sensor_setup hal) as [[sen bus] ok].
  destruct Hset as [-> Hset]. set (n := if wd then _ else _).
  assert (Hn : shadow_ok n /\ numeric_eq (node_init setpoint) n).
  { pose proof (node_init_shadow_ok setpoint) as [[]]. destruct wd; (split; [|done]); [|by split; [split|]].
    split; [|done]. split; cbn; try done. apply init_sticky_inv. }
  destruct Hn as [Hsh (E1 & E2 & E3 & E4 & E5)].
  assert (Hz : castable f_zero) by (split; [split|]; by vm_compute).
  split; cbn -[n]; try done.
  - apply (node_ok_frame (node_init setpoint)); try done. by apply node_init_ok.
  - by apply selftest_shadow_ok.
  - unfold n. by destruct wd.
  - by rewrite E3.
  - by rewrite E5.
  - split; [apply init_ok|]. split; [done|]. split; [|done].
    unfold tx_ok, GOV_MAX_RETRIES. cbn. split_and!; try done; clia.
  - split; [|done]. exists []. unfold health_rep. split_and!; try done. intros sys Hsys. by destruct sys.
  - split; [constructor|]. unfold rx_byteq_depth. lia.
Qed.

(** C6: No interleaving of the threads has undefined behaviour. From boot with a set point a cast accepts and,
    on a board with a sensor, a bus that is ready, in any sequence of thread steps, timer ticks, UART
    interrupts with any bytes and advances of the clock (wrapping included): no array is accessed out of
    range, no missing callback is called, no float is cast out of range and no loop of a step hangs;
    and every object stays well formed - the safety machine and its fault shadow, the controller and the
    plant within their envelopes, the decoder, the sender, the ring, the health record, the sensor and
    the 256-byte queue. *)
Theorem app_never_undefined `{!BusLaws read} setpoint wd hal wdt t acts :
  castable setpoint -> (brd.(b_sensor) = true -> is_Some hal) -> is_u32 t -> Forall act_ok acts ->
  exists s, app_run (boot setpoint wd hal wdt t) acts = Some s /\ app_ok s.
Proof. intros. apply app_run_ok; [by apply boot_ok|done]. Qed.

(** The control thread reports every deadline as met, so the timing fault (T10) is never raised. *)
Lemma timing_fault_unreachable s : app_ok s -> gov_health_timing_fault s.(ap_health) = false.
Proof. intros Hs. unfold gov_health_timing_fault. by rewrite (proj2 (ao_health s Hs)). Qed.

(** When the bus is not ready, [main] takes the node to SAFE_STOP but starts the threads all the same, and
    the first poll of the sensor follows the null bus pointer. *)
Lemma bus_not_ready_undefined setpoint wd wdt t :
  brd.(b_sensor) = true -> is_u32 t ->
  let s := boot setpoint wd None wdt t in
  node_state s.(ap_node) = GOV_ST_SAFE_STOP /\ app_run s [Run LinkRx; Run LinkRx] = None.
Proof.
  intros Hb Ht. unfold boot, sensor_setup. rewrite Hb. cbn -[f_zero]. unfold after_frame. rewrite Hb. split; [|done].
  assert (E : forall f, (safety_step GOV_EV_SELFTEST_FAIL t (safety_init_sticky f)).(s_state) = GOV_ST_SAFE_STOP).
  { intros f. rewrite safety_step_plain; [done|done|]. cbn. clia. }
  unfold node_post_event. assert (node_state (sm GOV_EV_SELFTEST_FAIL t
    (if wd then set_n_safety (safety_init_sticky GOV_FAULT_WATCHDOG) (node_init setpoint) else node_init setpoint)) = GOV_ST_SAFE_STOP) as Est.
  { destruct wd; apply E. }
  rewrite resync_keeps; by rewrite Est.
Qed.
End app.

(** ** Concrete boards *)
Definition renode : board := mkBoard true true.

(** A sensor that answers 42, and one whose bus fails. *)
Definition good_read : bus_read unit := fun b _ _ len => (b, GOV_BUS_OK, replicate (Z.to_nat len - 1) 0 ++ replicate (Z.to_nat len `min` 1) 42).
Definition bad_read : bus_read unit := fun b _ _ _ => (b, GOV_BUS_ERR, []).

#[export] Instance good_read_laws : BusLaws good_read.
Proof.
  split. intros b addr reg len b' data Hl [= <- <-]. rewrite length_app, !length_replicate. split; [lia|].
  apply Forall_app. split; apply Forall_replicate; by vm_compute.
Qed.

(** Every thread once around its loop, with a garbled frame on the wire and a clock that wraps. *)
Definition once_around : list action :=
  [Isr true [0x7E; 0x01; 0x04; 0x00; 0x00]; Timer] ++ concat (replicate 14 [Run LinkRx; Elapse 7; Run Control]) ++
  concat (replicate 6 [Run Telemetry; Run LinkTx; Run Health]) ++ [Elapse (2 ^ 32 - 50); Timer] ++ replicate 6 (Run Control).

Lemma app_never_undefined_witness :
  exists s, app_run good_read renode (boot renode (f_of_Z 50) false (Some tt) (Some (true, 0)) 5) once_around = Some s /\
    app_ok renode s.
Proof.
  apply (app_never_undefined good_read renode (f_of_Z 50) false (Some tt) (Some (true, 0)) 5 once_around).
  - apply sample_castable. lia.
  - intros _. by exists tt.
  - clia.
  - repeat constructor; by vm_compute.
Defined.

(** A report that is preempted between reading the clock and taking the lock arrives with a time before
    the machine's: the control thread posts its tick at 25, then the sensor fault sampled at 15 comes in.
    A single recoverable fault, which degrades the node otherwise, halts it. *)
Lemma preempted_report_halts :
  let start := boot renode (f_of_Z 50) false (Some tt) None 5 in
  let report := [Elapse 10; Run LinkRx; Run LinkRx; Run LinkRx] in
  let preempt := [Timer; Elapse 10; Run Control; Run Control; Run Control; Run Control] in
  ((fun s => node_state s.(ap_node)) <$> app_run bad_read renode start (report ++ [Run LinkRx] ++ preempt)) = Some GOV_ST_DEGRADED /\
  ((fun s => node_state s.(ap_node)) <$> app_run bad_read renode start (report ++ preempt ++ [Run LinkRx])) = Some GOV_ST_FAULT_HALT.
Proof. split; by vm_compute. Qed.
