(* ===== verification/Sched.v ===== *)
(** * Sched: thread priorities and the shared sender (src/main.c)

    Nothing guards the sender: the telemetry thread fills its buffer, the link_tx thread sends from it
    again and the link_rx thread frees it.  The five fixed priorities are what keeps a frame whole while it
    goes out.  The runs that respect them; what each thread puts on the wire in such a run; and what the
    priorities do not exclude. *)
From S2P Require Import Prelude Faults Safety Crc16 Frame Reliable Arq Telem Ring Health Sensor Float32 Control Node App.

(** ** Priorities *)
Definition CONTROL_PRIO : Z := 4.
Definition LINK_RX_PRIO : Z := 5.
Definition LINK_TX_PRIO : Z := 6.
Definition TELEMETRY_PRIO : Z := 7.
Definition HEALTH_PRIO : Z := 8.

Definition priority (th : thread) : Z :=
  match th with
  | Control => CONTROL_PRIO | LinkRx => LINK_RX_PRIO | LinkTx => LINK_TX_PRIO
  | Telemetry => TELEMETRY_PRIO | Health => HEALTH_PRIO
  end.

#[export] Instance thread_eq_dec : EqDecision thread.
Proof. solve_decision. Defined.
#[export] Instance action_eq_dec : EqDecision action.
Proof. solve_decision. Defined.

Definition thread_eqb (th th' : thread) : bool := priority th =? priority th'.

(** ** The wire, thread by thread *)

(** The bytes a thread has put on the wire. *)
Definition bytes_of (th : thread) (w : list (thread * Z)) : list Z :=
  (filter (fun x => thread_eqb th x.1 = true) w).*2.

#[global] Arguments bytes_of : simpl never.

(** The DATA frames that carry the records, numbered from 0 modulo 256. *)
Definition data_frame (sq : Z) (rec : gov_telem_record) : list Z :=
  frame_bytes (mkFrame GOV_TYPE_DATA sq (telem_bytes rec)).
Definition data_frames (recs : list gov_telem_record) : list (list Z) :=
  imap (fun k => data_frame (u8 (Z.of_nat k))) recs.

(** The bytes in a frame's callbacks still to be sent. *)
Definition to_emit (outs : list rx_out) : list Z :=
  concat ((fun o => match o with rx_emits bytes => bytes | rx_delivers _ => [] end) <$> outs).

Section app.
Context {B : Type} (read : bus_read B) (brd : board).

(** A thread lets those of lower priority run at its blocking call only: the control thread waits for the
    timer's semaphore, link_rx for a byte, the others sleep at the end of their loop. *)
Definition may_wait (th : thread) (s : @app B) : bool :=
  match th with
  | Control => match s.(ap_control) with CT_wait => negb s.(ap_tick) | _ => false end
  | LinkRx => match s.(ap_link_rx), s.(ap_byteq) with RX_get, [] => true | _, _ => false end
  | LinkTx => match s.(ap_link_tx) with TX_time => true | _ => false end
  | Telemetry => match s.(ap_telemetry) with TM_fill => true | _ => false end
  | Health => match s.(ap_health_th) with HE_stamp => true | _ => false end
  end.

Definition schedulable (th : thread) (s : @app B) : bool :=
  forallb (fun h => (priority th <=? priority h) || may_wait h s) [Control; LinkRx; LinkTx; Telemetry; Health].

(** The run respects the priorities. *)
Fixpoint respects (s : @app B) (acts : list action) : bool :=
  match acts with
  | [] => true
  | a :: acts =>
      match a with Run th => schedulable th s | _ => true end &&
      match app_step read brd s a with Some s' => respects s' acts | None => true end
  end.

(** The snapshots of the node the telemetry thread takes, in order. *)
Definition takes (s : @app B) (a : action) : list gov_telem_record :=
  match a, s.(ap_telemetry) with
  | Run Telemetry, TM_fill => match locked_fill_telemetry s with Some rec => [rec] | None => [] end
  | _, _ => []
  end.

Fixpoint taken (s : @app B) (acts : list action) : list gov_telem_record :=
  match acts with
  | [] => []
  | a :: acts => takes s a ++ match app_step read brd s a with Some s' => taken s' acts | None => [] end
  end.

(** What a thread that is sending has yet to put on the wire: bytes [i .. n-1] of the shared buffer. *)
Definition rest_of (s : @app B) (i n : Z) : list Z :=
  if brd.(b_uart) then drop (Z.to_nat i) (take (Z.to_nat n) s.(ap_link).(l_tx).(tx_frame)) else [].
Definition unsent_telemetry (s : @app B) : list Z :=
  match s.(ap_telemetry) with TM_out i n _ => rest_of s i n | _ => [] end.
Definition unsent_tx (s : @app B) : list Z := match s.(ap_link_tx) with TX_out i n => rest_of s i n | _ => [] end.
Definition unsent_rx (s : @app B) : list Z :=
  if brd.(b_uart) then
    match s.(ap_link_rx) with RX_outs outs | RX_post _ _ outs => to_emit outs | _ => [] end
  else [].

(** ** The invariant *)

(** The record in the local payload, and the one about to be pushed. *)
Definition in_hand (s : @app B) : list gov_telem_record := match s.(ap_telemetry) with TM_push rec => [rec] | _ => [] end.
Definition encoded (s : @app B) (recs : list gov_telem_record) : Prop :=
  match s.(ap_telemetry) with
  | TM_send payload _ _ _ => brd.(b_uart) = true /\ exists rec, recs = [rec] /\ payload = telem_bytes rec
  | _ => recs = []
  end.

(** A range of the buffer being sent is the whole current frame. *)
Definition whole (tx : gov_tx) (n : Z) : Prop := n = 0 \/ n = tx.(tx_frame_len).

Record wire_ok (h sent : list gov_telem_record) (retx : list (list Z)) (acks : list Z) (s : @app B) : Prop := {
  wo_records : exists enc, encoded s enc /\ sent ++ enc ++ ring_items s.(ap_ring) ++ in_hand s `sublist_of` h;
  wo_seq : s.(ap_link).(l_tx).(tx_next_seq) = u8 (Z.of_nat (length sent));
  wo_slot : s.(ap_link).(l_tx).(tx_frame_len) = 0 \/ brd.(b_uart) = true /\ slot s.(ap_link).(l_tx) ∈ data_frames sent;
  wo_retx : Forall (fun f => f ∈ data_frames sent) retx;
  wo_tx_out : match s.(ap_link_tx) with TX_out i n => 0 <= i /\ whole s.(ap_link).(l_tx) n | _ => True end;
  wo_tm_out : match s.(ap_telemetry) with TM_out i n _ => 0 <= i /\ whole s.(ap_link).(l_tx) n | _ => True end;
  wo_telemetry : bytes_of Telemetry s.(ap_wire) ++ unsent_telemetry s = concat (data_frames sent);
  wo_tx : bytes_of LinkTx s.(ap_wire) ++ unsent_tx s = concat retx;
  wo_rx : bytes_of LinkRx s.(ap_wire) ++ unsent_rx s = concat ((fun sq => frame_bytes (ack_frame sq)) <$> acks)
}.

(** ** Bytes and frames *)
Lemma bytes_of_put th th' b w : bytes_of th (w ++ [(th', b)]) = bytes_of th w ++ (if thread_eqb th th' then [b] else []).
Proof. unfold bytes_of. rewrite filter_app, fmap_app, filter_cons, filter_nil. cbn [fst]. case_decide as E; [by rewrite E|by destruct (thread_eqb th th')]. Qed.

Lemma data_frames_snoc recs rec : data_frames (recs ++ [rec]) = data_frames recs ++ [data_frame (u8 (Z.of_nat (length recs))) rec].
Proof. unfold data_frames. rewrite imap_app. cbn. by rewrite Nat.add_0_r. Qed.

(** The next byte of a range being sent. *)
Lemma rest_of_next s i n byte :
  0 <= i -> wire_more brd i n = true -> load s.(ap_link).(l_tx).(tx_frame) i = Some byte ->
  rest_of s i n = byte :: rest_of s (i + 1) n.
Proof.
  intros Hi [Hb Hn%Z.ltb_lt]%andb_true_iff. unfold load, rest_of. rewrite Hb, bool_decide_true by done. intros Hl.
  replace (Z.to_nat (i + 1)) with (S (Z.to_nat i)) by lia. apply drop_S. rewrite lookup_take_lt by lia. exact Hl.
Qed.

Lemma rest_of_done s i n : 0 <= i -> wire_more brd i n = false -> rest_of s i n = [].
Proof.
  unfold wire_more, rest_of. intros Hi. destruct (b_uart brd); [|done]. intros Hn%Z.ltb_ge.
  apply drop_ge. rewrite length_take. lia.
Qed.

(** The callbacks of a received byte send acknowledgements, and leave the sender's buffer alone. *)
Definition same_buffer (tx tx' : gov_tx) : Prop :=
  tx_frame tx' = tx_frame tx /\ tx_frame_len tx' = tx_frame_len tx /\ tx_next_seq tx' = tx_next_seq tx.

Lemma receive_acks l b l' outs :
  is_u8 b -> link_ok l -> link_receive l [b] = Some (l', outs) ->
  same_buffer (l_tx l) (l_tx l') /\ exists acks, to_emit outs = concat ((fun sq => frame_bytes (ack_frame sq)) <$> acks).
Proof.
  intros Hb Hl. destruct (receive_byte l b Hb Hl) as (d' & fs & _ & _ & _ & Hlen & ->).
  destruct Hl as (_ & _ & _ & Hw & Hdel).
  destruct fs as [|f [|? ?]]; cbn in Hlen; [|..|lia]; cbn [feed]; [intros [= <- <-]; split; [done|by exists []]|].
  unfold on_decoded_frame. destruct ((f_type f =? GOV_TYPE_ACK) && _) eqn:E.
  - destruct (load (f_payload f) 0); [|done]. cbn. intros [= <- <-]. split; [|by exists []]. cbn. unfold gov_tx_on_ack. by case_match.
  - rewrite gov_rx_on_frame_spec. cbn [l_rx set_l_dec]. rewrite Hw, Hdel. cbn -[frame_bytes].
    destruct (rx_have_last _ && _); cbn -[frame_bytes]; intros [= <- <-]; (split; [done|]); exists [f_seq f]; unfold to_emit; cbn -[frame_bytes]; by rewrite ?app_nil_r.
Qed.

(** ** Preservation *)

(** A step that moves neither end of the sending path. *)
Lemma wire_ok_quiet h sent retx acks s s' :
  wire_ok h sent retx acks s -> same_buffer s.(ap_link).(l_tx) s'.(ap_link).(l_tx) ->
  s'.(ap_ring) = s.(ap_ring) -> s'.(ap_telemetry) = s.(ap_telemetry) -> s'.(ap_link_tx) = s.(ap_link_tx) ->
  bytes_of Telemetry s'.(ap_wire) = bytes_of Telemetry s.(ap_wire) -> bytes_of LinkTx s'.(ap_wire) = bytes_of LinkTx s.(ap_wire) ->
  forall acks', bytes_of LinkRx s'.(ap_wire) ++ unsent_rx s' = concat ((fun sq => frame_bytes (ack_frame sq)) <$> acks') ->
  wire_ok h sent retx acks' s'.
Proof.
  intros [] (E1 & E2 & E3) E4 E5 E6 E7 E8 acks' Hrx.
  split; unfold encoded, in_hand, whole, slot, unsent_telemetry, unsent_tx, rest_of in *; rewrite ?E1, ?E2, ?E3, ?E4, ?E5, ?E6, ?E7, ?E8; done.
Qed.

Ltac quiet_step Hw := eapply (wire_ok_quiet _ _ _ _ _ _ Hw); [done|reflexivity..|apply (wo_rx _ _ _ _ _ Hw)].

Lemma control_wire h sent retx acks s s' :
  wire_ok h sent retx acks s -> control_thread brd s = Some s' -> wire_ok h sent retx acks s'.
Proof.
  intros Hw. unfold control_thread, gov_slot_get, note_alive, locked_control_step.
  destruct (ap_control s); intros H; repeat (progress simplify_option_eq || case_match); quiet_step Hw.
Qed.

Lemma health_wire h sent retx acks s s' :
  wire_ok h sent retx acks s -> health_thread s = Some s' -> wire_ok h sent retx acks s'.
Proof.
  intros Hw. unfold health_thread, note_alive, watchdog_feed.
  destruct (ap_health_th s); intros H; repeat (progress simplify_option_eq || case_match); quiet_step Hw.
Qed.

(** A step of link_rx that sends nothing, and leaves nothing unsent or what was unsent. *)
Lemma link_rx_quiet h sent retx acks s s' :
  wire_ok h sent retx acks s -> s'.(ap_link) = s.(ap_link) -> s'.(ap_ring) = s.(ap_ring) ->
  s'.(ap_telemetry) = s.(ap_telemetry) -> s'.(ap_link_tx) = s.(ap_link_tx) -> s'.(ap_wire) = s.(ap_wire) ->
  unsent_rx s' = unsent_rx s -> wire_ok h sent retx acks s'.
Proof.
  intros Hw E1 E2 E3 E4 E5 E6. eapply (wire_ok_quiet _ _ _ _ _ _ Hw); rewrite ?E1, ?E5; try done. rewrite E6. apply (wo_rx _ _ _ _ _ Hw).
Qed.

Ltac rest_quiet E Hw acks :=
  intros H; repeat (progress simplify_option_eq || case_match); exists acks; apply (link_rx_quiet _ _ _ _ _ _ Hw); try done; unfold unsent_rx; cbn; by rewrite E.

Lemma link_rx_wire h sent retx acks s s' :
  app_ok brd s -> wire_ok h sent retx acks s -> link_rx_thread read brd s = Some s' -> exists acks', wire_ok h sent retx acks' s'.
Proof.
  intros Hs Hw. pose proof (wo_rx _ _ _ _ _ Hw) as Hrx. unfold link_rx_thread, note_alive, after_frame.
  assert (Hsame : forall t : gov_tx, same_buffer t t) by done.
  unfold unsent_rx in Hrx. destruct (ap_link_rx s) as [|[|[f|[|byte bytes]] outs]|ev t outs| |v| |sflags ok t| |t] eqn:E.
  - destruct (ap_byteq s) as [|byte q] eqn:Eq.
    + intros [= <-]. exists acks. eapply (wire_ok_quiet _ _ _ _ _ _ Hw); try done. unfold unsent_rx. cbn. by destruct (b_uart brd), (b_sensor brd).
    + destruct (ao_byteq _ s Hs) as [Hb _]. rewrite Eq in Hb. apply Forall_cons in Hb as [Hb _].
      destruct (link_receive _ _) as [[l outs]|] eqn:El; [|done]. cbn. intros [= <-].
      destruct (receive_acks _ _ _ _ Hb (ao_link _ s Hs) El) as [Hsb [new Hnew]].
      destruct (b_uart brd) eqn:Eu.
      * exists (acks ++ new). eapply (wire_ok_quiet _ _ _ _ _ _ Hw); try done. unfold unsent_rx. cbn -[frame_bytes]. rewrite Eu, fmap_app, concat_app, Hnew, <-Hrx. cbn -[frame_bytes]. by rewrite app_nil_r.
      * exists acks. eapply (wire_ok_quiet _ _ _ _ _ _ Hw); try done. unfold unsent_rx. cbn -[frame_bytes]. by rewrite Eu.
  - intros [= <-]. exists acks. apply (link_rx_quiet _ _ _ _ _ _ Hw); try done. unfold unsent_rx. cbn. rewrite E. by destruct (b_uart brd), (b_sensor brd).
  - intros [= <-]. exists acks. apply (link_rx_quiet _ _ _ _ _ _ Hw); try done. unfold unsent_rx. cbn. rewrite E. by destruct (on_app_deliver f).
  - intros [= <-]. exists acks. apply (link_rx_quiet _ _ _ _ _ _ Hw); try done. unfold unsent_rx. cbn. by rewrite E.
  - destruct (b_uart brd) eqn:Eu; intros [= <-]; exists acks.
    + eapply (wire_ok_quiet _ _ _ _ _ _ Hw); try done; cbn; rewrite bytes_of_put; cbn; rewrite ?app_nil_r; try done.
      unfold unsent_rx. cbn. rewrite Eu, <-Hrx, <-app_assoc. done.
    + apply (link_rx_quiet _ _ _ _ _ _ Hw); try done. unfold unsent_rx. by rewrite Eu.
  - intros [= <-]. exists acks. apply (link_rx_quiet _ _ _ _ _ _ Hw); try done. unfold unsent_rx. cbn. by rewrite E.
  - rest_quiet E Hw acks.
  - rest_quiet E Hw acks.
  - rest_quiet E Hw acks.
  - rest_quiet E Hw acks.
  - rest_quiet E Hw acks.
  - rest_quiet E Hw acks.

Qed.

Lemma clear_same_buffer tx : same_buffer tx (gov_tx_clear_fault tx).
Proof. unfold gov_tx_clear_fault. by destruct (bool_decide _). Qed.

(** A poll sends nothing, or the whole slot. *)
Lemma poll_commit_sends tx t act tx' out :
  poll_commit tx t act = Some (tx', out) -> same_buffer tx tx' /\ (concat out = [] \/ concat out = slot tx).
Proof.
  destruct act; cbn [poll_commit]; [intros [= <- <-]; (split; [done|by left])..|].
  unfold call_wire. cbn -[load_bytes u8]. destruct (tx_wire tx); [|done].
  unfold load_bytes. case_bool_decide; [|done]. cbn -[u8]. intros [= <- <-]. split; [done|]. right. cbn. by rewrite drop_0, app_nil_r.
Qed.

(** What is about to be sent again is one frame more, or nothing. *)
Lemma send_whole h sent retx acks s (bytes : list Z) :
  tx_ok s.(ap_link).(l_tx) -> wire_ok h sent retx acks s -> bytes = [] \/ bytes = slot s.(ap_link).(l_tx) ->
  whole s.(ap_link).(l_tx) (Z.of_nat (length bytes)) /\ rest_of s 0 (Z.of_nat (length bytes)) = bytes /\
  exists more, Forall (fun f => f ∈ data_frames sent) more /\ concat more = bytes.
Proof.
  intros (_ & Hlen & Hfl & _) Hw [->| ->]; [split_and!; [by left|unfold rest_of; cbn; by destruct (b_uart brd)|by exists []]|].
  pose proof (wo_slot _ _ _ _ _ Hw) as Hslot.
  assert (Hl : Z.of_nat (length (slot (l_tx (ap_link s)))) = tx_frame_len (l_tx (ap_link s))) by (unfold slot; rewrite length_take; lia).
  assert (He : tx_frame_len (l_tx (ap_link s)) = 0 -> slot (l_tx (ap_link s)) = []) by (intros E; unfold slot; by rewrite E).
  split_and!.
  - right. exact Hl.
  - rewrite Hl. unfold rest_of. destruct (b_uart brd) eqn:Eu; [unfold slot; cbn; by rewrite drop_0|]. destruct Hslot as [?|[? _]]; [by rewrite He|done].
  - destruct Hslot as [?|[_ ?]]; [exists []; by rewrite He|]. exists [slot (l_tx (ap_link s))]. split; [by apply Forall_singleton|apply app_nil_r].
Qed.

Lemma link_tx_wire h sent retx acks s s' :
  app_ok brd s -> wire_ok h sent retx acks s -> link_tx_thread brd s = Some s' -> exists retx', wire_ok h sent retx' acks s'.
Proof.
  intros Hs Hw. pose proof (wo_tx _ _ _ _ _ Hw) as Htx. pose proof (wo_tx_out _ _ _ _ _ Hw) as Hout. unfold unsent_tx in Htx.
  unfold link_tx_thread. destruct (ap_link_tx s) as [|t|t act|i n|ok|ok t|ok] eqn:E.
  - intros [= <-]. exists retx. destruct Hw. by split.
  - intros [= <-]. exists retx. destruct Hw. by split.
  - destruct (poll_commit _ _ _) as [[tx out]|] eqn:Ec; [|done]. cbn. intros [= <-].
    destruct (poll_commit_sends _ _ _ _ _ Ec) as [Hsb Ho]. set (s1 := set_ap_link_tx (TX_out 0 (Z.of_nat (length (concat out)))) s).
    assert (Hw1 : exists retx', wire_ok h sent retx' acks s1).
    { pose proof (proj1 (proj2 (proj2 (ao_link _ s Hs)))) as Hok. destruct (send_whole _ _ _ _ _ _ Hok Hw Ho) as (H1 & H2 & more & H3 & H4).
      exists (retx ++ more). destruct Hw. split; try done; [by apply Forall_app|].
      rewrite concat_app, H4, <-Htx, app_nil_r. f_equal. exact H2. }
    destruct Hw1 as [retx' Hw1]. exists retx'. eapply (wire_ok_quiet _ _ _ _ _ _ Hw1); try done. apply (wo_rx _ _ _ _ _ Hw1).
  - destruct Hout as [Hi Hn]. destruct (wire_more brd i n) eqn:Em.
    + destruct (load _ _) as [byte|] eqn:El; [|done]. cbn. intros [= <-]. exists retx. destruct Hw.
      split; try done; cbn; rewrite ?bytes_of_put; cbn; rewrite ?app_nil_r; try done; [split; [lia|done]|].
      rewrite (rest_of_next s i n byte) in Htx by done. rewrite <-Htx, <-app_assoc. done.
    + intros [= <-]. rewrite rest_of_done in Htx by done. exists retx. destruct Hw. by split.
  - intros [= <-]. exists retx. destruct Hw. by split.
  - intros [= <-]. exists retx. destruct Hw. by split.
  - intros [= <-]. exists retx. assert (Hw1 : wire_ok h sent retx acks (set_ap_link_tx TX_time s)) by (destruct Hw; by split).
    destruct ok; [exact Hw1|]. eapply (wire_ok_quiet _ _ _ _ _ _ Hw1); try done; [apply clear_same_buffer|apply (wo_rx _ _ _ _ _ Hw1)].
Qed.

(** The telemetry thread queues its record, or drops it when the ring is full. *)
Lemma telemetry_push_wire h sent retx acks s s' rec :
  app_ok brd s -> wire_ok h sent retx acks s -> s.(ap_telemetry) = TM_push rec -> telemetry_thread brd s = Some s' ->
  wire_ok h sent retx acks s'.
Proof.
  intros Hs Hw E. pose proof (wo_records _ _ _ _ _ Hw) as (enc & Henc & Hsub). pose proof (wo_telemetry _ _ _ _ _ Hw) as Htm.
  pose proof (ao_ring _ s Hs : @q_ok _ _ ring_queue (ap_ring s)) as Hr.
  unfold telemetry_thread, encoded, in_hand, unsent_telemetry in *. rewrite E in *. subst enc. cbn in Hsub.
  assert (Hp : exists r b, gov_telem_ring_push (ap_ring s) rec = Some (r, b) /\ (sent ++ ring_items r) `sublist_of` h).
  { destruct (decide (length (ring_items (ap_ring s)) = 8%nat)) as [Hf|Hf].
    - destruct (q_push_full (ap_ring s) rec Hr Hf) as (r & Hp & _ & Hi & _). exists r, false. split; [done|]. cbn in Hi. rewrite Hi.
      etransitivity; [|exact Hsub]. apply sublist_app; [done|]. by apply sublist_inserts_r.
    - destruct (q_push_room (ap_ring s) rec Hr) as (r & Hp & _ & Hi & _); [pose proof (q_bounded (ap_ring s) Hr); cbn in *; lia|].
      exists r, true. split; [done|]. cbn in Hi. by rewrite Hi. }
  destruct Hp as (r & b & -> & Hp). cbn. intros [= <-]. destruct Hw. split; try done.
  exists []. split; [done|]. cbn. by rewrite app_nil_r.
Qed.

(** It takes the oldest record off the ring and encodes it. *)
Lemma telemetry_pop_wire h sent retx acks s s' rec :
  app_ok brd s -> wire_ok h sent retx acks s -> s.(ap_telemetry) = TM_pop rec -> telemetry_thread brd s = Some s' ->
  wire_ok h sent retx acks s'.
Proof.
  intros Hs Hw E. pose proof (wo_records _ _ _ _ _ Hw) as (enc & Henc & Hsub). pose proof (wo_telemetry _ _ _ _ _ Hw) as Htm.
  pose proof (ao_ring _ s Hs : @q_ok _ _ ring_queue (ap_ring s)) as Hr.
  unfold telemetry_thread, encoded, in_hand, unsent_telemetry in *. rewrite E in *. subst enc.
  destruct (b_uart brd) eqn:Eu; [|intros [= <-]; destruct Hw; split; try done; by exists []].
  destruct (q_pop_spec (ap_ring s) Hr) as (r & Hp & _ & Hi & _). cbn in Hp, Hi. rewrite Hp. cbn [mbind option_bind].
  destruct (ring_items (ap_ring s)) as [|out items] eqn:Ei; cbn [head tail] in *.
  - intros [= <-]. destruct Hw. split; try done. exists []. split; [done|]. cbn. by rewrite Hi.
  - rewrite telem_encode_at by (done || cbn; lia). cbn -[telem_bytes]. intros [= <-]. destruct Hw. split; try done.
    exists [out]. split; [|cbn; by rewrite Hi]. split; [done|]. by exists out.
Qed.

(** It sends the record as the next frame if the sender is free, and drops it otherwise. Nobody else may be
    sending: link_tx, of higher priority, sleeps. *)
Lemma telemetry_send_wire h sent retx acks s s' payload n t rec :
  app_ok brd s -> s.(ap_link_tx) = TX_time -> wire_ok h sent retx acks s -> s.(ap_telemetry) = TM_send payload n t rec ->
  telemetry_thread brd s = Some s' -> exists sent', wire_ok h sent' retx acks s'.
Proof.
  intros Hs Hlt Hw E. pose proof (wo_records _ _ _ _ _ Hw) as (enc & Henc & Hsub). pose proof (wo_telemetry _ _ _ _ _ Hw) as Htm.
  pose proof (ao_telemetry _ s Hs) as Hpc. pose proof (proj1 (proj2 (proj2 (ao_link _ s Hs)))) as Htx.
  unfold telemetry_thread, encoded, in_hand, unsent_telemetry in *. rewrite E in *. cbn in Hpc.
  destruct Henc as (Eu & out & -> & ->). destruct Hpc as [-> Hl]. change (u16 21) with 21.
  pose proof Htx as (Hwire & Hlen & _).
  destruct (decide (tx_state (l_tx (ap_link s)) = GOV_TX_IDLE)) as [Hi|Hi].
  2: { rewrite tx_send_busy by done. cbn. intros [= <-]. exists sent. destruct Hw. split; try done.
       - exists []. split; [done|]. cbn. etransitivity; [|exact Hsub]. apply sublist_app; [done|]. by apply sublist_inserts_l.
       - cbn. split; [lia|by left].
       - unfold unsent_telemetry, rest_of. cbn. by destruct (b_uart brd). }
  assert (Ef : mkFrame GOV_TYPE_DATA (tx_next_seq (l_tx (ap_link s))) (take (Z.to_nat 21) (default [] (Some (telem_bytes out)))) =
    mkFrame GOV_TYPE_DATA (u8 (Z.of_nat (length sent))) (telem_bytes out)) by (rewrite (wo_seq _ _ _ _ _ Hw); done).
  rewrite tx_send_ok; [|done..|lia|done|intros ? [= <-]; lia]. rewrite Ef. set (f := mkFrame _ _ _).
  assert (Hf : length (frame_bytes f) = 29%nat) by by rewrite frame_bytes_length.
  set (tx' := Reliable.sent _ f t). cbn [mbind option_bind]. intros [= <-]. exists (sent ++ [out]).
  assert (En : concat [frame_bytes f] = frame_bytes f) by apply app_nil_r.
  assert (Efl : tx_frame_len tx' = 29) by (unfold tx', Reliable.sent; cbn -[frame_bytes Z.of_nat]; by rewrite Hf).
  assert (Esl : take 29 (tx_frame tx') = frame_bytes f) by (unfold tx', Reliable.sent; cbn -[frame_bytes take]; rewrite <-Hf; apply take_app_length).
  assert (Edf : data_frames (sent ++ [out]) = data_frames sent ++ [frame_bytes f]) by apply data_frames_snoc.
  destruct Hw. split.
  + exists []. split; [done|]. cbn. by rewrite <-app_assoc.
  + cbn. rewrite wo_seq0, length_app. cbn. rewrite Nat2Z.inj_add. unfold u8. by rewrite Zplus_mod_idemp_l.
  + right. split; [done|]. unfold slot. cbn [ap_link set_ap_telemetry set_ap_link l_tx set_l_tx]. rewrite Efl, Edf. change (Z.to_nat 29) with 29%nat.
    rewrite Esl. apply elem_of_app. right. by apply list_elem_of_singleton.
  + rewrite Edf. eapply Forall_impl; [exact wo_retx0|]. intros x Hx. apply elem_of_app. by left.
  + cbn. by rewrite Hlt.
  + cbn [ap_telemetry set_ap_telemetry]. split; [done|]. right. exact (eq_sym Efl).
  + rewrite Edf, concat_app, En, <-Htm, app_nil_r. f_equal. unfold unsent_telemetry, rest_of. cbn [ap_telemetry set_ap_telemetry].
    rewrite Eu. exact Esl.
  + unfold unsent_tx in *. cbn. rewrite Hlt in *. done.
  + done.
Qed.

Lemma telemetry_wire h sent retx acks s s' :
  app_ok brd s -> s.(ap_link_tx) = TX_time -> wire_ok h sent retx acks s -> telemetry_thread brd s = Some s' ->
  exists sent', wire_ok (h ++ takes s (Run Telemetry)) sent' retx acks s'.
Proof.
  intros Hs Hlt Hw H. pose proof (wo_records _ _ _ _ _ Hw) as (enc & Henc & Hsub). pose proof (wo_telemetry _ _ _ _ _ Hw) as Htm.
  pose proof (wo_tm_out _ _ _ _ _ Hw) as Hout. unfold takes, encoded, in_hand, unsent_telemetry in *.
  destruct (ap_telemetry s) as [|rec|rec|payload n t rec|i n rec|rec] eqn:E; rewrite ?app_nil_r;
    [|exists sent; by eapply telemetry_push_wire|exists sent; by eapply telemetry_pop_wire|by eapply telemetry_send_wire|..];
    unfold telemetry_thread in H; rewrite E in H; subst enc.
  - unfold locked_fill_telemetry in *. destruct (node_telemetry _) as [rec|]; [|done]. cbn in H. injection H as <-.
    exists sent. destruct Hw. split; try done. exists []. split; [done|]. cbn. rewrite app_nil_r in Hsub. rewrite app_assoc. by apply sublist_app.
  - destruct Hout as [Hi Hn]. exists sent. destruct (wire_more brd i n) eqn:Em.
    + destruct (load _ _) as [byte|] eqn:El; [|done]. cbn in H. injection H as <-. destruct Hw.
      split; [by exists []|try done..]; cbn; rewrite ?bytes_of_put; cbn; rewrite ?app_nil_r; try done; [split; [lia|done]|].
      rewrite (rest_of_next s i n byte) in Htm by done. rewrite <-Htm, <-app_assoc. done.
    + injection H as <-. rewrite rest_of_done in Htm by done. destruct Hw. split; try done. by exists [].
  - injection H as <-. exists sent. assert (Hw1 : wire_ok h sent retx acks (set_ap_telemetry TM_fill s)).
    { destruct Hw. split; try done. by exists []. }
    destruct (_ =? 0); destruct Hw1; by split.
Qed.

Lemma telemetry_alone s : schedulable Telemetry s = true -> s.(ap_link_tx) = TX_time.
Proof. unfold schedulable. cbn. destruct (ap_link_tx s); [done|rewrite ?andb_false_r; intros H; repeat apply andb_true_iff in H as [? H]; done..]. Qed.

(** ** Runs *)
Section runs.
Context `{!BusLaws read}.

Lemma wire_step h sent retx acks s a s' :
  app_ok brd s -> wire_ok h sent retx acks s -> match a with Run th => schedulable th s | _ => true end = true ->
  app_step read brd s a = Some s' -> exists sent' retx' acks', wire_ok (h ++ takes s a) sent' retx' acks' s'.
Proof.
  intros Hs Hw Ha. destruct a as [[| | | |]| |ready fifo|d]; cbn [app_step takes]; rewrite ?app_nil_r.
  - intros H. exists sent, retx, acks. by eapply control_wire.
  - intros H. exists sent, retx. by eapply link_rx_wire.
  - intros H. destruct (link_tx_wire _ _ _ _ _ _ Hs Hw H) as [retx' ?]. by exists sent, retx', acks.
  - intros H. destruct (telemetry_wire _ _ _ _ _ _ Hs (telemetry_alone _ Ha) Hw H) as [sent' ?]. by exists sent', retx, acks.
  - intros H. exists sent, retx, acks. by eapply health_wire.
  - intros [= <-]. exists sent, retx, acks. quiet_step Hw.
  - unfold link_uart_isr. intros [= <-]. exists sent, retx, acks. destruct ready; [|done]. quiet_step Hw.
  - intros [= <-]. exists sent, retx, acks. quiet_step Hw.
Qed.

Lemma wire_run acts : forall h sent retx acks s s',
  app_ok brd s -> wire_ok h sent retx acks s -> Forall act_ok acts -> respects s acts = true ->
  app_run read brd s acts = Some s' -> exists sent' retx' acks', wire_ok (h ++ taken s acts) sent' retx' acks' s'.
Proof.
  induction acts as [|a acts IH]; intros h sent retx acks s s' Hs Hw Ha Hr.
  - intros [= <-]. cbn. rewrite app_nil_r. by eauto.
  - apply Forall_cons in Ha as [Ha Hacts]. cbn [respects taken app_run] in *. apply andb_true_iff in Hr as [Hr1 Hr2].
    destruct (app_step_ok read brd s a Hs Ha) as (s1 & E & Hs1). rewrite E in *. cbn [mbind option_bind]. intros H.
    destruct (wire_step _ _ _ _ _ _ _ Hs Hw Hr1 E) as (sent1 & retx1 & acks1 & Hw1). rewrite app_assoc. by eapply IH.
Qed.

Lemma boot_wire setpoint wd hal wdt t : wire_ok [] [] [] [] (boot brd setpoint wd hal wdt t).
Proof.
  unfold boot. destruct (sensor_setup brd hal) as [[sen bus] ok]. destruct ok; (split; try done; [by exists []|by left|unfold unsent_rx; by destruct (b_uart brd)]).
Qed.

(** C11: Each thread puts whole and truthful frames on the wire. Take any run from boot that respects
    the five priorities, with any ticks, clock and received bytes. The bytes of the telemetry thread, with those it
    has left to send of a frame it has begun, are whole DATA frames with valid CRCs, numbered 0, 1, 2 ...
    modulo 256, whose payloads are snapshots of the node that [locked_fill_telemetry] took under the
    lock, in the order they were taken (one is dropped when the sender still waits for an acknowledgement). Those of the
    link_tx thread are whole copies of frames the telemetry thread has sent, and those of the link_rx
    thread whole acknowledgements. This is said of each thread's own bytes: nothing guards the wire, so an
    acknowledgement may still come to lie in the middle of another thread's frame ([acknowledgement_splits_frame]). *)
Theorem wire_tells_truth setpoint wd hal wdt t acts s :
  castable setpoint -> (brd.(b_sensor) = true -> is_Some hal) -> is_u32 t -> Forall act_ok acts ->
  respects (boot brd setpoint wd hal wdt t) acts = true -> app_run read brd (boot brd setpoint wd hal wdt t) acts = Some s ->
  exists recs retx acks,
    recs `sublist_of` taken (boot brd setpoint wd hal wdt t) acts /\
    bytes_of Telemetry s.(ap_wire) ++ unsent_telemetry s = concat (data_frames recs) /\
    Forall (fun f => f ∈ data_frames recs) retx /\
    bytes_of LinkTx s.(ap_wire) ++ unsent_tx s = concat retx /\
    bytes_of LinkRx s.(ap_wire) ++ unsent_rx s = concat ((fun sq => frame_bytes (ack_frame sq)) <$> acks).
Proof.
  intros Hsp Hh Ht Ha Hr Hrun. pose proof (boot_ok brd setpoint wd hal wdt t Hsp Hh Ht) as Hs.
  destruct (wire_run acts _ _ _ _ _ _ Hs (boot_wire setpoint wd hal wdt t) Ha Hr Hrun) as (recs & retx & acks & []).
  exists recs, retx, acks. split_and!; try done. destruct wo_records0 as (enc & _ & Hsub).
  etransitivity; [|exact Hsub]. by apply sublist_inserts_r.
Qed.
(** ** The telemetry ring *)

(** On a board with a link the thread pops the record it has just pushed, whether or not the sender is free. *)
Definition ring_passes (s : @app B) : Prop :=
  s.(ap_ring).(r_drops) = 0 /\
  s.(ap_ring).(r_head) = match s.(ap_telemetry) with TM_pop _ => next s.(ap_ring).(r_tail) | _ => s.(ap_ring).(r_tail) end.

Lemma other_ring s a s' :
  a <> Run Telemetry -> app_step read brd s a = Some s' -> s'.(ap_ring) = s.(ap_ring) /\ s'.(ap_telemetry) = s.(ap_telemetry).
Proof.
  intros Ha. destruct a as [[| | | |]| |ready fifo|d]; cbn [app_step]; try done.
  - unfold control_thread, gov_slot_get, locked_control_step, note_alive. destruct (ap_control s); intros H; repeat (progress simplify_option_eq || case_match); done.
  - unfold link_rx_thread, note_alive, link_wire_out. destruct (ap_link_rx s); intros H; repeat (progress simplify_option_eq || case_match); done.
  - unfold link_tx_thread, link_wire_out. destruct (ap_link_tx s); intros H; repeat (progress simplify_option_eq || case_match); done.
  - unfold health_thread, note_alive, watchdog_feed. destruct (ap_health_th s); intros H; repeat (progress simplify_option_eq || case_match); done.
  - by intros [= <-].
  - intros [= <-]. unfold link_uart_isr. by destruct ready.
  - by intros [= <-].
Qed.

Lemma ring_passes_step s a s' :
  app_ok brd s -> brd.(b_uart) = true -> ring_passes s -> app_step read brd s a = Some s' -> ring_passes s'.
Proof.
  intros Hs Hu [Hd Hh] H. destruct (decide (a = Run Telemetry)) as [->|Ha].
  2: { destruct (other_ring s a s' Ha H) as [E1 E2]. unfold ring_passes. by rewrite E1, E2. }
  pose proof (ao_ring _ s Hs) as (_ & Hhr & Htr). revert H. cbn [app_step]. unfold telemetry_thread, ring_passes, link_wire_out. rewrite Hu.
  assert (Hne : next (r_tail (ap_ring s)) <> r_tail (ap_ring s)).
  { rewrite next_mod by done. dlia. }
  destruct (ap_telemetry s) eqn:E; unfold gov_telem_ring_push, gov_telem_ring_pop; rewrite ?Hh, ?(proj2 (Z.eqb_neq _ _) Hne);
    intros H; repeat (progress simplify_option_eq || case_match); cbn; try done; try lia.
Qed.

(** So the ring holds one record at most, and never counts a drop. *)
Lemma ring_never_fills setpoint wd hal wdt t acts s :
  castable setpoint -> (brd.(b_sensor) = true -> is_Some hal) -> is_u32 t -> Forall act_ok acts -> brd.(b_uart) = true ->
  app_run read brd (boot brd setpoint wd hal wdt t) acts = Some s ->
  0 <= gov_telem_ring_count s.(ap_ring) <= 1 /\ gov_telem_ring_drops s.(ap_ring) = 0.
Proof.
  intros Hsp Hhal Ht Ha Hu. assert (H0 : app_ok brd (boot brd setpoint wd hal wdt t)) by by apply boot_ok.
  assert (Hr : ring_passes (boot brd setpoint wd hal wdt t)).
  { unfold boot, sensor_setup. destruct (b_sensor brd); [destruct hal|]; done. }
  revert H0 Hr. generalize (boot brd setpoint wd hal wdt t). clear Hsp Hhal Ht. induction Ha as [|a acts Ha _ IH]; intros s0 Hs Hr; cbn [app_run].
  - intros [= <-]. destruct Hr as [Hd Hh]. pose proof (ao_ring _ s0 Hs) as (_ & _ & Htr). split; [|exact Hd].
    unfold gov_telem_ring_count. rewrite Hh. destruct (ap_telemetry s0); rewrite ?next_mod by done; change GOV_TELEM_RING_SLOTS with 9; dlia.
  - destruct (app_step_ok read brd s0 a Hs Ha) as (s1 & E & Hs1). rewrite E. cbn [mbind option_bind].
    apply IH; [done|]. by apply (ring_passes_step s0 a).
Qed.
End runs.
End app.

(** ** Concrete runs *)

(** A board with a link and no sensor. *)
Definition link_board : board := mkBoard false true.
Definition link_start : @app unit := boot link_board (f_of_Z 50) false None None 5.
Definition start_frame : list action := replicate 4 (Run Telemetry).
Definition link_loop : list action := replicate 7 (Run LinkTx).
Definition retry_loop : list action := replicate 36 (Run LinkTx).

(** A period of telemetry with a retransmission, an acknowledgement of frame 0, and a second period. *)
Definition two_periods : list action :=
  start_frame ++ replicate 31 (Run Telemetry) ++ [Elapse 100] ++ retry_loop ++
  [Isr true (frame_bytes (ack_frame 0))] ++ replicate 36 (Run LinkRx) ++ [Elapse 100] ++ start_frame ++ replicate 20 (Run Telemetry).

Lemma wire_tells_truth_witness :
  respects good_read link_board link_start two_periods = true /\
  exists s recs retx, app_run good_read link_board link_start two_periods = Some s /\ length (bytes_of Telemetry s.(ap_wire)) = 49%nat /\
    sublist recs (taken good_read link_board link_start two_periods) /\
    bytes_of Telemetry s.(ap_wire) ++ unsent_telemetry link_board s = concat (data_frames recs) /\
    Forall (fun f => f ∈ data_frames recs) retx /\ bytes_of LinkTx s.(ap_wire) ++ unsent_tx link_board s = concat retx.
Proof.
  assert (Hr : respects good_read link_board link_start two_periods = true) by (vm_compute; reflexivity). split; [exact Hr|].
  assert (Hsp : castable (f_of_Z 50)) by (apply sample_castable; lia).
  assert (Ha : Forall act_ok two_periods) by (repeat constructor; by vm_compute).
  assert (Hl : (fun s => length (bytes_of Telemetry s.(ap_wire))) <$> app_run good_read link_board link_start two_periods = Some 49%nat)
    by (vm_compute; reflexivity).
  destruct (app_run good_read link_board link_start two_periods) as [s|] eqn:E; [|discriminate Hl]. injection Hl as Hl.
  destruct (wire_tells_truth good_read link_board (f_of_Z 50) false None None 5 two_periods s Hsp ltac:(discriminate) ltac:(clia) Ha Hr E)
    as (recs & retx & acks & H1 & H2 & H3 & H4 & _).
  exists s, recs, retx. exact (conj eq_refl (conj Hl (conj H1 (conj H2 (conj H3 H4))))).
Defined.

(** Frame 0 is being sent when a command arrives: link_rx preempts the telemetry thread and sends its
    acknowledgement in the middle of the frame. All 38 bytes of both frames are on the wire, and the
    receiver decodes neither. *)
Definition command : frame := mkFrame GOV_TYPE_CMD 9 [0].
Lemma acknowledgement_splits_frame :
  let acts := start_frame ++ replicate 10 (Run Telemetry) ++ [Isr true (frame_bytes command)] ++ replicate 47 (Run LinkRx) ++
              replicate 21 (Run Telemetry) in
  respects good_read link_board link_start acts = true /\
  exists s d, app_run good_read link_board link_start acts = Some s /\
    bytes_of LinkRx s.(ap_wire) = frame_bytes (ack_frame 9) /\ length (bytes_of Telemetry s.(ap_wire)) = 29%nat /\
    decode (gov_decoder_init true) (s.(ap_wire).*2) = Some (d, []).
Proof.
  split; [by vm_compute|]. eexists _, _. split; [vm_compute; reflexivity|]. split_and!; by vm_compute.
Qed.

(** The last retransmission is acknowledged after the poll has found the retries exhausted and before it writes
    LINK_FAULT: the sender is free and then faulted all the same, and the node degrades although the
    frame has arrived. Had the acknowledgement come a step later or earlier, as it may, the node would have stayed in RUN. *)
Lemma acknowledgement_lost_to_fault :
  let late := [Isr true (frame_bytes (ack_frame 0))] ++ replicate 36 (Run LinkRx) in
  let acts := start_frame ++ replicate 31 (Run Telemetry) ++ concat (replicate 3 ([Elapse 100] ++ retry_loop)) ++ [Elapse 100] in
  let run rest := ((fun s => ((l_tx s.(ap_link)).(tx_state), node_state s.(ap_node))) <$>
    app_run good_read link_board link_start (acts ++ rest)) in
  respects good_read link_board link_start (acts ++ replicate 2 (Run LinkTx) ++ late ++ replicate 4 (Run LinkTx)) = true /\
  run (replicate 2 (Run LinkTx) ++ late) = Some (GOV_TX_IDLE, GOV_ST_RUN) /\
  run (replicate 2 (Run LinkTx) ++ late ++ replicate 4 (Run LinkTx)) = Some (GOV_TX_LINK_FAULT, GOV_ST_DEGRADED) /\
  run (replicate 1 (Run LinkTx) ++ late ++ replicate 5 (Run LinkTx)) = Some (GOV_TX_IDLE, GOV_ST_RUN).
Proof. split_and!; by vm_compute. Qed.

(** Without the priorities a frame can be torn: link_tx is half way through a retransmission, frame 0 is
    acknowledged, and the telemetry thread refills the buffer with frame 1. What link_tx has sent in the
    end is neither frame. *)
Lemma torn_without_priorities :
  let acts := start_frame ++ replicate 31 (Run Telemetry) ++ [Elapse 100] ++ replicate 8 (Run LinkTx) ++
              [Isr true (frame_bytes (ack_frame 0))] ++ replicate 36 (Run LinkRx) ++ start_frame ++ replicate 31 (Run Telemetry) ++
              replicate 28 (Run LinkTx) in
  respects good_read link_board link_start acts = false /\
  exists s, app_run good_read link_board link_start acts = Some s /\ s.(ap_link_tx) = TX_time /\
    exists recs, recs = taken good_read link_board link_start acts /\ length recs = 2%nat /\
      Forall (fun f => f <> bytes_of LinkTx s.(ap_wire)) (data_frames recs).
Proof.
  split; [by vm_compute|]. eexists. split; [vm_compute; reflexivity|]. split; [done|]. eexists. split; [done|].
  split; [by vm_compute|]. vm_compute. repeat constructor; discriminate.
Qed.

(** A link that does not acknowledge: the first record is on its way and the second is gone - not on the wire, not in
    the ring, which is empty, and not among its drops. *)
Lemma stalled_link_loses_record :
  let acts := start_frame ++ replicate 31 (Run Telemetry) ++ [Elapse 100] ++ start_frame ++ replicate 2 (Run Telemetry) in
  respects good_read link_board link_start acts = true /\
  exists s rec0 rec1, app_run good_read link_board link_start acts = Some s /\
    taken good_read link_board link_start acts = [rec0; rec1] /\ s.(ap_telemetry) = TM_fill /\
    bytes_of Telemetry s.(ap_wire) = data_frame 0 rec0 /\
    gov_telem_ring_empty s.(ap_ring) = true /\ gov_telem_ring_drops s.(ap_ring) = 0.
Proof.
  split; [by vm_compute|]. eexists _, _, _. split; [vm_compute; reflexivity|]. split; [vm_compute; reflexivity|]. split_and!; by vm_compute.
Qed.
