(* ===== verification/Posts.v ===== *)
(** * Posts: the events the threads post (src/main.c)

    After boot no thread posts the result of a self-test or a watchdog reset; every step of the
    application moves the safety machine by at most one other event. *)
From S2P Require Import Prelude Faults Safety Crc16 Frame Reliable Arq Telem Ring Health Sensor Float32 Control Node App.

(** Neither a self-test's result, which [main] alone posts, nor a watchdog reset; and a divergence only
    when the controller of the resulting node reports one. *)
Definition posted (n : gov_node) (ev : gov_event_t) : Prop :=
  ev <> GOV_EV_SELFTEST_OK /\ ev <> GOV_EV_WATCHDOG /\ (ev = GOV_EV_DIVERGE -> gov_pid_diverging n.(n_pid) = true).

(** The machine does not move, or makes one step on an event the threads post. *)
Definition moves (n n' : gov_node) : Prop :=
  n_safety n' = n_safety n \/ exists ev t, posted n' ev /\ n_safety n' = safety_step ev t (n_safety n).

Lemma resync_moves n n' : moves n n' -> moves n (resync_shadow n').
Proof. unfold moves, posted. by destruct (resync_frame n') as (-> & -> & _). Qed.

Lemma sm_moves n ev t : posted n ev -> moves n (sm ev t n).
Proof. intros Hev. right. by exists ev, t. Qed.

Lemma note_cause_moves n cause ev healthy t : posted n ev -> moves n (note_cause n cause ev healthy t).
Proof.
  intros Hev. apply resync_moves. destruct healthy; cbn [negb].
  - destruct (negb _); [|by left]. destruct (_ =? 0); [|by left]. by apply (sm_moves (set_n_active_causes _ n)).
  - destruct (_ && _); [by apply (sm_moves (set_n_active_causes _ n))|by apply (sm_moves (set_n_active_causes _ n))].
Qed.

Lemma report_moves n src healthy t : moves n (report n src healthy t).
Proof.
  destruct src; cbn [report]; unfold node_note_sensor; [|by apply note_cause_moves..].
  destruct healthy; cbn [negb]; [destruct (gov_safety_actuation_allowed _)|];
    match goal with |- moves n (note_cause ?q ?c ?e ?h ?u) => exact (note_cause_moves q c e h u ltac:(done)) end.
Qed.

Lemma control_step_pid n m t n' out :
  node_control_step n m t = Some (n', out) -> n_pid n' = (gov_pid_step n.(n_pid) n.(n_setpoint) m GOV_CTRL_PERIOD_MS).1.
Proof.
  unfold node_control_step. destruct (gov_pid_step _ _ _ _) as [p desired]. cbn -[f_to_i32 resync_shadow].
  set (n1 := if gov_pid_diverging p then _ else _). assert (E : n_pid n1 = p) by (unfold n1; by destruct (gov_pid_diverging p)). clearbody n1.
  destruct (f_to_i32 desired); cbn -[resync_shadow]; [|done]. destruct (clamp_output _ _); cbn -[resync_shadow]; [|done].
  intros [= <- _]. etransitivity; [apply (proj1 (proj2 (resync_frame _)))|exact E].
Qed.

Lemma control_event_moves n m t n' out :
  node_control_step n m t = Some (n', out) -> n_safety n' = safety_step (control_event n m) t (n_safety n) -> moves n n'.
Proof.
  intros Hstep E. right. eexists _, t. split; [|exact E]. unfold posted, control_event. rewrite (control_step_pid _ _ _ _ _ Hstep).
  by destruct (gov_pid_diverging _).
Qed.

Section app.
Context {B : Type} (read : bus_read B) `{!BusLaws read} (brd : board).

Lemma moves_refl n : moves n n.
Proof. by left. Qed.

(** A step that does not touch the node. *)
Ltac quiet := intros H; repeat (progress simplify_option_eq || case_match); apply moves_refl.

(** What a step of each thread does to the machine. *)
Lemma control_thread_moves (s s' : @app B) : app_ok brd s -> control_thread brd s = Some s' -> moves s.(ap_node) s'.(ap_node).
Proof.
  intros Hs. pose proof (ao_control _ s Hs) as Hpc. unfold control_thread, gov_slot_get, note_alive, locked_control_step.
  destruct (ap_control s) as [| | |t| | | |t]; cbn [control_pc_ok] in Hpc.
  4: { destruct (control_step_app_ok brd s t Hs Hpc) as (n' & u & Hstep & _ & _ & Hn & _). rewrite Hstep. cbn. intros [= <-].
       by eapply control_event_moves. }
  all: quiet.
Qed.

Lemma link_rx_thread_moves (s s' : @app B) : app_ok brd s -> link_rx_thread read brd s = Some s' -> moves s.(ap_node) s'.(ap_node).
Proof.
  intros Hs. pose proof (ao_link_rx _ s Hs) as Hpc. unfold link_rx_thread, note_alive, link_wire_out.
  destruct (ap_link_rx s) as [|outs|ev t outs| |v| |sflags ok t| |t]; cbn [link_rx_pc_ok] in Hpc.
  3: { intros [= <-]. apply resync_moves, sm_moves. by destruct Hpc as [[-> | ->] _]. }
  6: { intros [= <-]. apply (report_moves _ (SrcSensor sflags)). }
  all: quiet.
Qed.

Lemma link_tx_thread_moves (s s' : @app B) : link_tx_thread brd s = Some s' -> moves s.(ap_node) s'.(ap_node).
Proof.
  unfold link_tx_thread, link_wire_out. destruct (ap_link_tx s) as [|t|t act|i n|ok|ok t|ok].
  6: { intros [= <-]. apply (report_moves _ SrcLink). }
  all: quiet.
Qed.

Lemma telemetry_thread_moves (s s' : @app B) : telemetry_thread brd s = Some s' -> moves s.(ap_node) s'.(ap_node).
Proof.
  unfold telemetry_thread, link_wire_out. destruct (ap_telemetry s); quiet.
Qed.

Lemma health_thread_moves (s s' : @app B) : health_thread s = Some s' -> moves s.(ap_node) s'.(ap_node).
Proof.
  unfold health_thread, note_alive, watchdog_feed. destruct (ap_health_th s) as [|t| |ok t| |t].
  4: { intros [= <-]. apply (report_moves _ SrcTiming). }
  all: quiet.
Qed.

Lemma app_step_moves (s : @app B) a s' : app_ok brd s -> app_step read brd s a = Some s' -> moves s.(ap_node) s'.(ap_node).
Proof.
  intros Hs. destruct a as [[| | | |]| |ready fifo|d]; cbn [app_step].
  - by apply control_thread_moves.
  - by apply link_rx_thread_moves.
  - apply link_tx_thread_moves.
  - apply telemetry_thread_moves.
  - apply health_thread_moves.
  - intros [= <-]. apply moves_refl.
  - intros [= <-]. unfold link_uart_isr. case_match; apply moves_refl.
  - intros [= <-]. apply moves_refl.
Qed.

(** What only the control thread moves; its semaphore stays given. *)
Lemma other_control s a s' :
  a <> Run Control -> app_step read brd s a = Some s' ->
  s'.(ap_control) = s.(ap_control) /\ (s.(ap_tick) = true -> s'.(ap_tick) = true).
Proof.
  intros Ha. destruct a as [[| | | |]| |ready fifo|d]; cbn [app_step]; try done.
  - unfold link_rx_thread, note_alive, link_wire_out. destruct (ap_link_rx s); intros H; repeat (progress simplify_option_eq || case_match); done.
  - unfold link_tx_thread, link_wire_out. destruct (ap_link_tx s); intros H; repeat (progress simplify_option_eq || case_match); done.
  - unfold telemetry_thread, link_wire_out. destruct (ap_telemetry s); intros H; repeat (progress simplify_option_eq || case_match); done.
  - unfold health_thread, note_alive, watchdog_feed. destruct (ap_health_th s); intros H; repeat (progress simplify_option_eq || case_match); done.
  - by intros [= <-].
  - intros [= <-]. unfold link_uart_isr. by destruct ready.
  - by intros [= <-].
Qed.

End app.
