(* ===== verification/Shutdown.v ===== *)
(** * Shutdown: the operator's stop, from the wire to the actuator (src/main.c over the whole stack)

    An operator stop in the receive queue takes the machine to a safe state within a bounded number of the link
    thread's steps, however the other threads interleave, and only an operator clear can take it out again.
    Once the machine is out of RUN and DEGRADED no thread brings it back, a clear included, since only [main] posts
    the self-test's result. *)
From S2P Require Import Prelude Faults Safety Crc16 Frame Reliable Arq Telem Ring Health Sensor Float32 Control Node App Posts.

(** ** Parked: actuation is inhibited *)
Definition parked (n : gov_node) : Prop := gov_safety_actuation_allowed (Some n.(n_safety)) = false.

Definition idle (s : gov_safety_t) : Prop := gov_safety_actuation_allowed (Some s) = false.

Lemma idle_states s : idle s <-> s.(s_state) <> GOV_ST_RUN /\ s.(s_state) <> GOV_ST_DEGRADED.
Proof. unfold idle, gov_safety_actuation_allowed. destruct (s_state s); split; try done; by intros []. Qed.

Lemma service_timers_idle now s : idle s -> idle (service_timers now s).
Proof.
  intros H. apply idle_states in H. unfold service_timers, to_safe_stop.
  destruct (s_state s) eqn:E; try (apply idle_states; by rewrite E); repeat case_match;
    apply idle_states; rewrite ?enter_state, ?E; by destruct H.
Qed.

(** Only the self-test takes an idle machine to RUN. *)
Lemma step_idle ev now s : ev <> GOV_EV_SELFTEST_OK -> idle s -> idle (safety_step ev now s).
Proof.
  intros Hev Hs. unfold safety_step, to_fault_halt, to_safe_stop.
  destruct (now <? s_now_ms s); [apply idle_states; by rewrite enter_state|].
  repeat case_decide; try (apply idle_states; by rewrite enter_state). unfold dispatch. cbn [s_state set_s_now_ms].
  apply idle_states in Hs as [Hnr Hnd].
  destruct (s_state s) eqn:E; try done; try apply service_timers_idle; apply idle_states;
    unfold to_fault_halt; rewrite ?enter_state; try done; destruct ev; try done; cbn; rewrite ?enter_state, ?E; try done.
  all: unfold step_fault_halt; case_decide; cbn; rewrite ?E; done.
Qed.

(** An operator stop latches the machine at any time, even a stale one. *)
Lemma operator_stop_latched now s : safety_ok s -> safe_latched (safety_step GOV_EV_OPERATOR_STOP now s).
Proof.
  intros Hs. pose proof (ok_state s Hs) as Hc.
  assert (Hl : safe_latched s \/ s_state s = GOV_ST_RUN \/ s_state s = GOV_ST_DEGRADED \/ s_state s = GOV_ST_INIT)
    by (unfold safe_latched; destruct (s_state s); tauto).
  destruct Hl as [Hl|Hl]; [by apply step_latched|].
  destruct (Z.lt_ge_cases now (s_now_ms s)); [right; by apply time_reversal_halts|left; by apply state_after_stop].
Qed.

(** A latched machine stays latched under every report, and under a control step. *)
Lemma note_cause_latched n cause ev healthy t :
  ev <> GOV_EV_OPERATOR_CLEAR -> ev <> GOV_EV_WATCHDOG -> safe_latched n.(n_safety) ->
  safe_latched (note_cause n cause ev healthy t).(n_safety).
Proof.
  intros H1 H2 Hn. unfold note_cause.
  match goal with |- context [resync_shadow ?q] => rewrite (proj1 (resync_frame q)) end.
  repeat case_match; try done; by apply step_latched.
Qed.

Lemma report_latched n src healthy t : safe_latched n.(n_safety) -> safe_latched (report n src healthy t).(n_safety).
Proof.
  destruct src; cbn [report]; unfold node_note_sensor; [|by apply note_cause_latched..].
  intros Hn. destruct healthy; cbn [negb]; [destruct (gov_safety_actuation_allowed _)|]; by apply note_cause_latched.
Qed.

Lemma control_event_latched n m t :
  safe_latched n.(n_safety) -> safe_latched (safety_step (control_event n m) t n.(n_safety)).
Proof. unfold control_event. destruct (gov_pid_diverging _); intros Hl; by apply step_latched. Qed.

(** No event the threads post takes the node out of parking. *)
Lemma moves_parked n n' : moves n n' -> parked n -> parked n'.
Proof. unfold parked. intros [-> | (ev & t & [Hev _] & ->)] Hn; [done|]. by apply step_idle. Qed.

Section app.
Context {B : Type} (read : bus_read B) `{!BusLaws read} (brd : board).

(** ** The stop on its way *)

(** What the link thread alone changes: its decoder, its receiver and its program counter; the interrupt
    only appends to the queue. *)
Definition rx_same (s s' : @app B) : Prop :=
  l_dec s'.(ap_link) = l_dec s.(ap_link) /\ l_rx s'.(ap_link) = l_rx s.(ap_link) /\
  s'.(ap_link_rx) = s.(ap_link_rx) /\ exists more, s'.(ap_byteq) = s.(ap_byteq) ++ more.

Lemma rx_same_queue (s s' : @app B) :
  l_dec s'.(ap_link) = l_dec s.(ap_link) -> l_rx s'.(ap_link) = l_rx s.(ap_link) ->
  s'.(ap_link_rx) = s.(ap_link_rx) -> s'.(ap_byteq) = s.(ap_byteq) -> rx_same s s'.
Proof. intros H1 H2 H3 H4. split_and!; try done. exists []. by rewrite app_nil_r. Qed.

Ltac elsewhere := intros H; repeat (progress simplify_option_eq || case_match); by apply rx_same_queue.

Lemma msgq_put_app fifo q : exists more, fold_left msgq_put fifo q = q ++ more.
Proof.
  revert q. induction fifo as [|b fifo IH]; intros q; cbn; [exists []; by rewrite app_nil_r|].
  destruct (IH (msgq_put q b)) as [more ->]. unfold msgq_put. case_match; [|by eexists].
  rewrite <- app_assoc. by eexists.
Qed.

Lemma other_threads_rx_same (s s' : @app B) a :
  a <> Run LinkRx -> app_step read brd s a = Some s' -> rx_same s s'.
Proof.
  intros Ha. destruct a as [[| | | |]| |ready fifo|d]; cbn [app_step]; try done.
  - unfold control_thread, gov_slot_get, note_alive, locked_control_step. destruct (ap_control s); elsewhere.
  - unfold link_tx_thread, link_wire_out. destruct (ap_link_tx s); elsewhere.
  - unfold telemetry_thread, link_wire_out. destruct (ap_telemetry s); elsewhere.
  - unfold health_thread, note_alive, watchdog_feed. destruct (ap_health_th s); elsewhere.
  - elsewhere.
  - intros [= <-]. unfold link_uart_isr. destruct ready; [|by apply rx_same_queue]. split_and!; try done. apply msgq_put_app.
  - elsewhere.
Qed.

(** A frame that posts the stop, and one the receiver has not just accepted. *)
Definition is_stop (f : frame) : Prop := on_app_deliver f = Some GOV_EV_OPERATOR_STOP.
Definition fresh (rx : gov_rx) (f : frame) : Prop := rx.(rx_have_last) && (f.(f_seq) =? rx.(rx_last_seq)) = false.

(** How many steps of the link thread are left before it looks at the queue again. *)
Definition rank (pc : link_rx_pc) : nat :=
  match pc with
  | RX_get => 0 | RX_alive _ => 1 | RX_stamp => 2 | RX_note _ _ _ => 3 | RX_report => 4 | RX_push _ => 5 | RX_poll => 6
  | RX_outs outs => 7 + cost outs
  | RX_post _ _ outs => 8 + cost outs
  end.

(** The stop is in the queue, with [pre] left to read of it; or about to be delivered; or about to be
    posted. [k] bounds the steps left. *)
Inductive coming (s : @app B) (k : nat) : Prop :=
  | in_queue pre rest d' f :
      s.(ap_byteq) = pre ++ rest -> decode (l_dec s.(ap_link)) pre = Some (d', [f]) -> is_stop f ->
      fresh (l_rx s.(ap_link)) f -> (20 * length pre + rank s.(ap_link_rx) <= k)%nat -> coming s k
  | in_delivery f outs :
      s.(ap_link_rx) = RX_outs (rx_delivers f :: outs) -> is_stop f -> (2 <= k)%nat -> coming s k
  | in_post t outs : s.(ap_link_rx) = RX_post GOV_EV_OPERATOR_STOP t outs -> (1 <= k)%nat -> coming s k.

Lemma coming_other s s' k : rx_same s s' -> coming s k -> coming s' k.
Proof.
  intros (E1 & E2 & E3 & more & E4) [pre rest d' f H1 H2 H3 H4 H5|f outs H1 H2 H3|t outs H1 H2].
  - apply (in_queue s' k pre (rest ++ more) d' f); rewrite ?E1, ?E2, ?E3; try done. by rewrite E4, H1, app_assoc.
  - apply (in_delivery s' k f outs); congruence.
  - apply (in_post s' k t outs); congruence.
Qed.

(** The link thread away from the queue: the rank decreases, the link's receive side stays. *)
Lemma link_rx_away s s' :
  app_ok brd s -> s.(ap_link_rx) <> RX_get -> link_rx_thread read brd s = Some s' ->
  l_dec s'.(ap_link) = l_dec s.(ap_link) /\ l_rx s'.(ap_link) = l_rx s.(ap_link) /\ s'.(ap_byteq) = s.(ap_byteq) /\
  (rank s'.(ap_link_rx) < rank s.(ap_link_rx))%nat.
Proof.
  intros Hs Hpc. unfold link_rx_thread, note_alive, link_wire_out, after_frame.
  destruct (ap_link_rx s) as [|[|[f|[|byte bytes]] outs]|ev t outs| |v| |sflags ok t| |t] eqn:E; try done;
    intros H; repeat (progress simplify_option_eq || case_match); cbn; rewrite ?E; cbn; split_and!; try done; try lia.
Qed.

Lemma is_stop_cmd f : is_stop f -> (f_type f =? GOV_TYPE_ACK) = false.
Proof.
  unfold is_stop, on_app_deliver. destruct (Z.eqb_spec (f_type f) GOV_TYPE_CMD) as [->|]; [done|done].
Qed.

(** The link thread takes a byte off the queue. *)
Lemma coming_get s s' b pre rest d' f k :
  app_ok brd s -> s.(ap_link_rx) = RX_get -> s.(ap_byteq) = b :: pre ++ rest ->
  decode (l_dec s.(ap_link)) (b :: pre) = Some (d', [f]) -> is_stop f -> fresh (l_rx s.(ap_link)) f ->
  (20 * S (length pre) <= S k)%nat -> link_rx_thread read brd s = Some s' -> coming s' k.
Proof.
  intros Hs Hpc Hq Hd Hf Hfr Hk. unfold link_rx_thread. rewrite Hpc, Hq.
  destruct (ao_byteq _ s Hs) as [Hb _]. rewrite Hq in Hb. apply Forall_cons in Hb as [Hb _].
  destruct (receive_byte _ b Hb (ao_link _ s Hs)) as (d1 & fs & Hp & _ & _ & Hlen & ->).
  unfold decode in Hd. cbn [feed] in Hd. rewrite Hp in Hd. cbn in Hd.
  destruct (feed gov_decoder_push d1 pre) as [[d2 fs2]|] eqn:Efeed; cbn in Hd; [|done]. injection Hd as -> Hfs.
  destruct fs as [|f1 [|? ?]]; cbn in Hlen; [| |lia].
  - cbn in Hfs. subst fs2. cbn. intros [= <-]. apply (in_queue _ k pre rest d' f); try done. cbn. lia.
  - cbn in Hfs. injection Hfs as -> _. cbn [feed].
    unfold on_decoded_frame. rewrite (is_stop_cmd f Hf). cbn [andb]. rewrite gov_rx_on_frame_spec.
    destruct (ao_link _ s Hs) as (_ & _ & _ & Hw & Hdel). cbn [l_rx set_l_dec]. rewrite Hw, Hdel, Hfr. cbn.
    intros [= <-]. apply (in_delivery _ k f [rx_emits (frame_bytes (ack_frame (f_seq f)))]); try done. lia.
Qed.

Lemma coming_step s s' k :
  app_ok brd s -> coming s k -> link_rx_thread read brd s = Some s' ->
  safe_latched s'.(ap_node).(n_safety) \/ coming s' (k - 1).
Proof.
  intros Hs Hc H. destruct Hc as [pre rest d' f H1 H2 H3 H4 H5|f outs H1 H2 H3|t outs H1 H2].
  - right. assert (Hpc : s.(ap_link_rx) = RX_get \/ s.(ap_link_rx) <> RX_get) by (destruct (ap_link_rx s); (by left) || by right).
    destruct Hpc as [Hpc|Hpc].
    + destruct pre as [|b pre]; [done|]. cbn [length] in H5. rewrite Hpc in H5. cbn [rank] in H5.
      eapply (coming_get s s' b pre rest d' f); try done. lia.
    + destruct (link_rx_away s s' Hs Hpc H) as (E1 & E2 & E3 & Hr).
      apply (in_queue s' _ pre rest d' f); rewrite ?E1, ?E2, ?E3; try done. lia.
  - right. unfold link_rx_thread in H. rewrite H1, H2 in H. injection H as <-. eapply in_post; [reflexivity|lia].
  - left. unfold link_rx_thread in H. rewrite H1 in H. injection H as <-.
    unfold locked_post_event, node_post_event. cbn [ap_node set_ap_node set_ap_link_rx].
    match goal with |- context [resync_shadow ?q] => destruct (resync_frame q) as (-> & _) end.
    apply operator_stop_latched, (sh_safety _ (proj1 (ao_shadow _ s Hs))).
Qed.

(** How often the link thread gets to run. *)
Fixpoint turns (acts : list action) : nat :=
  match acts with
  | [] => 0
  | Run LinkRx :: acts => S (turns acts)
  | _ :: acts => turns acts
  end.

Lemma coming_run s a s' k :
  app_ok brd s -> coming s k -> app_step read brd s a = Some s' ->
  safe_latched s'.(ap_node).(n_safety) \/ coming s' (k - turns [a]).
Proof.
  intros Hs Hc H.
  assert (Ha : a = Run LinkRx \/ a <> Run LinkRx) by (destruct a as [[| | | |]| | |]; (by left) || by right).
  destruct Ha as [->|Ha]; [by eapply coming_step|].
  right. replace (turns [a]) with 0%nat by (by destruct a as [[| | | |]| | |]). rewrite Nat.sub_0_r.
  eapply coming_other; [by eapply other_threads_rx_same|done].
Qed.

Lemma turns_cons a acts : turns (a :: acts) = (turns [a] + turns acts)%nat.
Proof. by destruct a as [[| | | |]| | |]. Qed.

Lemma not_coming_now s : ~ coming s 0.
Proof. intros [pre rest d' f H1 H2 H3 H4 H5|f outs H1 H2 H3|t outs H1 H2]; [|lia..]. destruct pre; [done|cbn in H5; lia]. Qed.

(** A stop on its way is posted within [k] turns of the link thread. *)
Lemma stop_arrives acts s s' k :
  app_ok brd s -> coming s k -> Forall act_ok acts -> app_run read brd s acts = Some s' -> (k <= turns acts)%nat ->
  exists before after s1, acts = before ++ after /\ (turns before <= k)%nat /\ app_run read brd s before = Some s1 /\
    app_ok brd s1 /\ safe_latched s1.(ap_node).(n_safety) /\ app_run read brd s1 after = Some s'.
Proof.
  intros Hs Hk Ha. revert s k Hs Hk. induction Ha as [|a acts Ha _ IH]; intros s k Hs Hk; cbn [app_run].
  - cbn. intros _ H. replace k with 0%nat in Hk by lia. by apply not_coming_now in Hk.
  - destruct (app_step_ok read brd s a Hs Ha) as (s1 & E & Hs1). rewrite E. cbn [mbind option_bind]. intros H.
    rewrite turns_cons. intros Hle. assert (Hpos : (1 <= k)%nat) by (destruct k; [by apply not_coming_now in Hk|lia]).
    destruct (coming_run s a s1 k Hs Hk E) as [Hl|Hc].
    + exists [a], acts, s1. cbn [app_run]. rewrite E. split_and!; try done. destruct a as [[| | | |]| | |]; cbn; lia.
    + destruct (IH s1 (k - turns [a])%nat Hs1 Hc H) as (before & after & s2 & -> & Hb & Hr & Hs2 & Hl & Hr'); [lia|].
      exists (a :: before), after, s2. cbn [app_run]. rewrite E, (turns_cons a before). split_and!; try done.
      destruct (decide (turns [a] <= k)%nat); [lia|]. destruct a as [[| | | |]| | |]; cbn in *; lia.
Qed.

(** The step is the link thread posting an operator clear; no step of the run is. *)
Definition clears (s : @app B) (a : action) : bool :=
  match a, s.(ap_link_rx) with Run LinkRx, RX_post GOV_EV_OPERATOR_CLEAR _ _ => true | _, _ => false end.

Fixpoint uncleared (s : @app B) (acts : list action) : bool :=
  match acts with
  | [] => true
  | a :: acts => negb (clears s a) && match app_step read brd s a with Some s' => uncleared s' acts | None => true end
  end.

Lemma app_step_latched s a s' :
  app_ok brd s -> clears s a = false -> app_step read brd s a = Some s' ->
  safe_latched s.(ap_node).(n_safety) -> safe_latched s'.(ap_node).(n_safety).
Proof.
  intros Hs Hc H Hl. destruct a as [[| | | |]| |ready fifo|d]; cbn [app_step] in H.
  - pose proof (ao_control _ s Hs) as Hpc. unfold control_thread, gov_slot_get, note_alive, locked_control_step in H.
    destruct (ap_control s) as [| | |t| | | |t]; cbn [control_pc_ok] in Hpc.
    4: { destruct (control_step_app_ok brd s t Hs Hpc) as (n' & u & Hstep & _ & _ & Hn & _). rewrite Hstep in H. injection H as <-.
         cbn. rewrite Hn. by apply control_event_latched. }
    all: repeat (progress simplify_option_eq || case_match); done.
  - pose proof (ao_link_rx _ s Hs) as Hpc. unfold link_rx_thread, note_alive, link_wire_out in H.
    unfold clears in Hc. destruct (ap_link_rx s) as [|outs|ev t outs| |v| |sflags ok t| |t]; cbn [link_rx_pc_ok] in Hpc.
    3: { injection H as <-. unfold locked_post_event, node_post_event. cbn [ap_node set_ap_node set_ap_link_rx].
         match goal with |- context [resync_shadow ?q] => rewrite (proj1 (resync_frame q)) end.
         destruct Hpc as [[-> | ->] _]; [by apply step_latched|done]. }
    6: { injection H as <-. by apply (report_latched _ (SrcSensor sflags)). }
    all: repeat (progress simplify_option_eq || case_match); done.
  - unfold link_tx_thread, link_wire_out in H. destruct (ap_link_tx s) as [|t|t act|i n|ok|ok t|ok].
    6: { injection H as <-. by apply (report_latched _ SrcLink). }
    all: repeat (progress simplify_option_eq || case_match); done.
  - unfold telemetry_thread, link_wire_out in H. destruct (ap_telemetry s);
      repeat (progress simplify_option_eq || case_match); done.
  - unfold health_thread, note_alive, watchdog_feed in H. destruct (ap_health_th s) as [|t| |ok t| |t].
    4: { injection H as <-. by apply (report_latched _ SrcTiming). }
    all: repeat (progress simplify_option_eq || case_match); done.
  - by injection H as <-.
  - injection H as <-. unfold link_uart_isr. by case_match.
  - by injection H as <-.
Qed.

Lemma latched_run acts s s' :
  app_ok brd s -> safe_latched s.(ap_node).(n_safety) -> Forall act_ok acts -> uncleared s acts = true ->
  app_run read brd s acts = Some s' -> app_ok brd s' /\ safe_latched s'.(ap_node).(n_safety).
Proof.
  intros Hs Hl Ha. revert s Hs Hl. induction Ha as [|a acts Ha _ IH]; intros s Hs Hl; cbn [app_run uncleared]; [by intros _ [= <-]|].
  destruct (app_step_ok read brd s a Hs Ha) as (s1 & E & Hs1). rewrite E. cbn [mbind option_bind].
  intros [Hc Hu]%andb_true_iff. apply IH; [done| |done]. apply (app_step_latched s a s1 Hs); [by destruct (clears s a)|done..].
Qed.

(** An idle machine is not driven back to RUN by any run of the threads, operator clears included. *)
Lemma clear_never_recovers acts s s' :
  app_ok brd s -> parked s.(ap_node) -> Forall act_ok acts -> app_run read brd s acts = Some s' -> parked s'.(ap_node).
Proof.
  intros Hs Hp Ha. revert s Hs Hp. induction Ha as [|a acts Ha _ IH]; intros s Hs Hp; cbn [app_run]; [by intros [= <-]|].
  destruct (app_step_ok read brd s a Hs Ha) as (s1 & E & Hs1). rewrite E. cbn [mbind option_bind].
  apply IH; [done|]. exact (moves_parked _ _ (app_step_moves read brd s a s1 Hs E) Hp).
Qed.

(** A control step of a latched machine applies the safe output. *)
Lemma latched_output s t :
  app_ok brd s -> safe_latched s.(ap_node).(n_safety) -> s.(ap_control) = CT_step t ->
  exists s', app_step read brd s (Run Control) = Some s' /\ s'.(ap_node).(n_last_output) = f_of_Z 0.
Proof.
  intros Hs Hl Ht. pose proof (ao_control _ s Hs) as Hpc. rewrite Ht in Hpc.
  destruct (control_step_app_ok brd s t Hs Hpc) as (n' & u & Hstep & Ho & _ & Hn & _).
  cbn [app_step]. unfold control_thread, locked_control_step. rewrite Ht, Hstep. cbn. eexists. split; [reflexivity|].
  cbn. rewrite Ho. assert (Hl' : safe_latched (n_safety n')).
  { rewrite Hn. by apply control_event_latched. }
  unfold node_state. by destruct Hl' as [-> | ->].
Qed.

(** C7: The operator's stop reaches the machine and latches it. In any well-formed state of the application,
    let the receive queue hold bytes that the decoder turns into exactly one frame, a CMD frame with the
    stop code that does not repeat the last accepted sequence number, followed by anything. However the
    threads, the interrupt and the clock are interleaved from there, the machine is in SAFE_STOP or FAULT_HALT
    before the link thread has had more than 20 steps per byte and 20 more. From that point on, for as long as no
    operator clear is posted, it stays there: actuation is inhibited and every control step applies the safe output 0. *)
Theorem operator_stop_latches s pre rest d' f acts s' :
  app_ok brd s -> s.(ap_byteq) = pre ++ rest -> decode (l_dec s.(ap_link)) pre = Some (d', [f]) ->
  on_app_deliver f = Some GOV_EV_OPERATOR_STOP -> fresh (l_rx s.(ap_link)) f ->
  Forall act_ok acts -> app_run read brd s acts = Some s' -> (20 * length pre + 20 <= turns acts)%nat ->
  exists before after s1, acts = before ++ after /\ (turns before <= 20 * length pre + 20)%nat /\
    app_run read brd s before = Some s1 /\ safe_latched s1.(ap_node).(n_safety) /\ app_run read brd s1 after = Some s' /\
    (uncleared s1 after = true ->
       safe_latched s'.(ap_node).(n_safety) /\ gov_safety_actuation_allowed (Some s'.(ap_node).(n_safety)) = false /\
       forall t, s'.(ap_control) = CT_step t ->
         exists s'', app_step read brd s' (Run Control) = Some s'' /\ s''.(ap_node).(n_last_output) = f_of_Z 0).
Proof.
  intros Hs Hq Hd Hf Hfr Ha Hrun Hturns.
  assert (Hc : coming s (20 * length pre + 20)).
  { apply (in_queue s _ pre rest d' f); try done. pose proof (ao_link_rx _ s Hs) as Hpc.
    destruct (ap_link_rx s); cbn in *; lia. }
  destruct (stop_arrives acts s s' _ Hs Hc Ha Hrun Hturns) as (before & after & s1 & -> & Hb & Hr & Hs1 & Hl & Hr').
  exists before, after, s1. split_and!; try done. intros Hu. apply Forall_app in Ha as [_ Ha].
  destruct (latched_run after s1 s' Hs1 Hl Ha Hu Hr') as [Hs' Hl']. split_and!; [done|by destruct Hl' as [E|E]; cbn; rewrite E|].
  intros t Ht. by apply (latched_output s' t).
Qed.
End app.

(** A board without a sensor, in RUN, gets a stop and then a clear; every thread runs. *)
Definition stop_frame : frame := mkFrame GOV_TYPE_CMD 7 [0xE5].
Definition clear_frame : frame := mkFrame GOV_TYPE_CMD 8 [0xC1].
Definition qemu : board := mkBoard false true.
Definition stop_start : @app unit := boot qemu (f_of_Z 50) false None None 5.
Definition stop_queued : @app unit := link_uart_isr true (frame_bytes stop_frame ++ frame_bytes clear_frame) stop_start.
Definition all_run : list action :=
  concat (replicate 210 [Timer; Run LinkRx; Run Control; Run Telemetry; Run LinkTx; Run Health; Elapse 3]).

Lemma stop_start_ok : app_ok qemu stop_start.
Proof. apply boot_ok; [apply sample_castable; lia|done|clia]. Qed.

Lemma all_run_ok : Forall act_ok all_run.
Proof. apply Forall_concat, Forall_replicate. by repeat constructor. Qed.

Lemma operator_stop_latches_witness :
  node_state stop_queued.(ap_node) = GOV_ST_RUN /\
  exists s' before after s1, app_run good_read qemu stop_queued all_run = Some s' /\ all_run = before ++ after /\
    app_run good_read qemu stop_queued before = Some s1 /\ safe_latched s1.(ap_node).(n_safety).
Proof.
  split; [by vm_compute|].
  destruct (app_step_ok good_read qemu stop_start (Isr true (frame_bytes stop_frame ++ frame_bytes clear_frame)) stop_start_ok)
    as (s & Hs & Hok).
  { cbn [act_ok]. apply Forall_app. split; by repeat (constructor; [by vm_compute|]). }
  injection Hs as <-. destruct (app_run_ok good_read qemu all_run stop_queued Hok all_run_ok) as (s' & Hrun & _).
  assert (Hd : exists d', decode (l_dec (ap_link stop_queued)) (frame_bytes stop_frame) = Some (d', [stop_frame]))
    by (eexists; vm_compute; reflexivity).
  destruct Hd as [d' Hd].
  destruct (operator_stop_latches good_read qemu stop_queued (frame_bytes stop_frame) (frame_bytes clear_frame) d'
    stop_frame all_run s' Hok eq_refl Hd ltac:(by vm_compute) ltac:(by vm_compute) all_run_ok Hrun
    ltac:(apply Nat.leb_le; by vm_compute)) as (before & after & s1 & Ha & _ & Hr & Hl & _).
  exists s', before, after, s1. exact (conj Hrun (conj Ha (conj Hr Hl))).
Defined.

(** A NAK, which the receiver handles like a message, hides a stop that carries the same sequence
    number: the stop is acknowledged as a duplicate and not delivered. *)
Lemma nak_hides_stop :
  exists l, link_receive link_init (frame_bytes (mkFrame GOV_TYPE_NAK 7 []) ++ frame_bytes stop_frame) =
    Some (l, [rx_delivers (mkFrame GOV_TYPE_NAK 7 []); rx_emits (frame_bytes (ack_frame 7)); rx_emits (frame_bytes (ack_frame 7))]).
Proof. eexists. vm_compute. reflexivity. Qed.
