(* ===== verification/Watchdog.v ===== *)
(** * Watchdog: the hardware watchdog over the whole application (src/main.c)

    Before a reset: a thread that hangs starves the watchdog, however the other threads go on.  After
    it: the cause stays in every telemetry record until the next boot, and only a watchdog reset
    puts it there. *)
From S2P Require Import Prelude Faults Safety Crc16 Frame Reliable Arq Telem Ring Health Sensor Float32 Control Node App Posts.

(** ** The sticky cause *)

(** Bit 8 is FAULT_WATCHDOG. *)
Definition wd (m : Z) : bool := Z.testbit m 8.

(** The fault word shows the sticky bit. *)
Definition shows_sticky (s : gov_safety_t) : Prop := wd s.(s_faults) = wd s.(s_sticky).

Definition keeps_wd (s s' : gov_safety_t) : Prop :=
  s'.(s_sticky) = s.(s_sticky) /\ (shows_sticky s -> shows_sticky s').

Lemma keeps_refl s : keeps_wd s s.
Proof. done. Qed.

Lemma keeps_trans s1 s2 s3 : keeps_wd s1 s2 -> keeps_wd s2 s3 -> keeps_wd s1 s3.
Proof. intros [E1 H1] [E2 H2]. split; [congruence|auto]. Qed.

Lemma keeps_enter next now s : keeps_wd s (enter next now s).
Proof. by destruct next. Qed.

Lemma keeps_raise f s : wd f = false -> keeps_wd s (set_s_faults (s.(s_faults) .| f) s).
Proof. intros Hf. split; [done|]. unfold shows_sticky, wd in *. cbn [s_faults s_sticky set_s_faults]. by rewrite Z.lor_spec, Hf, orb_false_r. Qed.

Lemma keeps_stop f now s : wd f = false -> keeps_wd s (to_safe_stop f now s).
Proof. intros Hf. eapply keeps_trans; [by apply (keeps_raise f)|apply keeps_enter]. Qed.

Lemma keeps_halt now s : keeps_wd s (to_fault_halt now s).
Proof. eapply keeps_trans; [by apply (keeps_raise GOV_FAULT_INTERNAL)|apply keeps_enter]. Qed.

Lemma keeps_fault f now s :
  wd f = false -> keeps_wd s (enter GOV_ST_DEGRADED now (set_s_faults (s.(s_faults) .| f) s)).
Proof. intros Hf. eapply keeps_trans; [by apply (keeps_raise f)|apply keeps_enter]. Qed.

Lemma keeps_timers now s : keeps_wd s (service_timers now s).
Proof.
  unfold service_timers. repeat case_match; try apply keeps_refl; try by apply keeps_stop.
  eapply keeps_trans; [|apply keeps_enter]. split; [done|]. unfold shows_sticky, wd. cbn [s_faults s_sticky set_s_faults].
  rewrite Z.land_spec, Z.lor_spec. change (Z.testbit GOV_FAULT_WATCHDOG 8) with true. by rewrite andb_true_r.
Qed.

Lemma keeps_dispatch ev now s : keeps_wd s (dispatch ev now s).
Proof.
  unfold dispatch. destruct (s_state s); [..|apply keeps_halt]; (eapply keeps_trans; [|apply keeps_timers]).
  - destruct ev; cbn; try (by split); try apply keeps_enter; by apply keeps_stop.
  - destruct ev; cbn; try (by split); try (by apply keeps_fault); by apply keeps_stop.
  - destruct ev; cbn; try (by split); try (by apply keeps_stop); try by apply (keeps_raise _ (set_s_cause_clear_ms 0 s)).
    by case_match.
  - destruct ev; cbn; by split.
  - unfold step_fault_halt. by case_decide.
Qed.

Lemma step_keeps_wd ev now s : ev <> GOV_EV_WATCHDOG -> keeps_wd s (safety_step ev now s).
Proof.
  intros Hev. unfold safety_step. destruct (now <? s_now_ms s); [apply keeps_halt|].
  apply (keeps_trans _ (set_s_now_ms now s)); [done|].
  case_decide; [apply keeps_halt|]. rewrite decide_False by done. case_decide; [by apply keeps_stop|apply keeps_dispatch].
Qed.

Lemma moves_keeps_wd n n' : moves n n' -> keeps_wd n.(n_safety) n'.(n_safety).
Proof. intros [-> | (ev & t & (_ & Hev & _) & ->)]; [apply keeps_refl|by apply step_keeps_wd]. Qed.

Lemma has_watchdog m : has m GOV_FAULT_WATCHDOG <-> wd m = true.
Proof.
  rewrite has_spec. unfold wd. split; [by intros H; apply H|]. intros H i Hi.
  change GOV_FAULT_WATCHDOG with (2 ^ 8) in Hi. rewrite Z.pow2_bits_eqb in Hi by lia. apply Z.eqb_eq in Hi as <-. done.
Qed.

Lemma driver_no_watchdog m : driver_bits m -> wd m = false.
Proof.
  intros [_ H]. destruct (wd m) eqn:E; [|done]. rewrite within_spec in H. specialize (H 8 E). done.
Qed.

Section app.
Context {B : Type} (read : bus_read B) `{!BusLaws read} (brd : board).

Lemma run_keeps_wd acts (s s' : @app B) :
  app_ok brd s -> Forall act_ok acts -> app_run read brd s acts = Some s' ->
  keeps_wd s.(ap_node).(n_safety) s'.(ap_node).(n_safety).
Proof.
  intros Hs Ha. revert s Hs. induction Ha as [|a acts Ha _ IH]; intros s Hs; cbn.
  - intros [= <-]. apply keeps_refl.
  - destruct (app_step_ok read brd s a Hs Ha) as (s1 & E & Hs1). rewrite E. cbn. intros H.
    eapply keeps_trans; [by eapply moves_keeps_wd, app_step_moves|by apply IH].
Qed.

(** The record the telemetry thread would take now. *)
Lemma fill_telemetry_flags (s : @app B) :
  app_ok brd s -> exists rec, locked_fill_telemetry s = Some rec /\ tm_fault_flags rec = node_faults s.(ap_node).
Proof.
  intros Hs. unfold locked_fill_telemetry, node_telemetry. destruct (ao_setpoint _ s Hs) as [H1 H2], (ao_last _ s Hs) as [H3 H4].
  destruct (f_to_i32_inside _ H1 H2) as (? & -> & _), (f_to_i32_inside _ H3 H4) as (? & -> & _).
  destruct (no_output _ (ao_node _ s Hs)) as (u & Hu & ->). destruct (sample_castable u Hu) as [H5 H6].
  destruct (f_to_i32_inside _ H5 H6) as (? & -> & _). by eexists.
Qed.

(** C25: A watchdog reset is reported for as long as the node runs, and nothing else is reported as one.
    At any moment of any run from boot, whatever the operator, the faults and the recoveries did, the
    telemetry record taken then is defined and carries FAULT_WATCHDOG exactly if the last reset was
    the watchdog's. *)
Theorem watchdog_reset_reported setpoint wd_reset hal wdt t acts s :
  castable setpoint -> (brd.(b_sensor) = true -> is_Some hal) -> is_u32 t -> Forall act_ok acts ->
  app_run read brd (boot brd setpoint wd_reset hal wdt t) acts = Some s ->
  exists rec, locked_fill_telemetry s = Some rec /\ (has (tm_fault_flags rec) GOV_FAULT_WATCHDOG <-> wd_reset = true).
Proof.
  intros Hsp Hhal Ht Ha Hrun. pose proof (boot_ok brd setpoint wd_reset hal wdt t Hsp Hhal Ht) as H0.
  destruct (app_run_ok read brd acts _ H0 Ha) as (s1 & E1 & Hs). rewrite Hrun in E1. injection E1 as <-.
  destruct (fill_telemetry_flags s Hs) as (rec & Hrec & Hf). exists rec. split; [done|].
  rewrite Hf, has_watchdog. unfold node_faults, wd. rewrite Z.lor_spec.
  pose proof (driver_no_watchdog _ (ao_driver _ s Hs)) as Hd. unfold wd in Hd. rewrite Hd, orb_false_r.
  destruct (run_keeps_wd acts _ s H0 Ha Hrun) as [Hst Hsh].
  assert (Hboot : n_safety (ap_node (boot brd setpoint wd_reset hal wdt t)) =
    safety_step GOV_EV_SELFTEST_OK t (safety_init_sticky (if wd_reset then GOV_FAULT_WATCHDOG else GOV_FAULT_NONE))).
  { unfold boot. pose proof (sensor_setup_ok brd hal Hhal) as Hset. destruct (sensor_setup brd hal) as [[sen bus] ok].
    destruct Hset as [-> _]. by destruct wd_reset. }
  rewrite Hboot in Hst, Hsh.
  destruct (step_keeps_wd GOV_EV_SELFTEST_OK t (safety_init_sticky (if wd_reset then GOV_FAULT_WATCHDOG else GOV_FAULT_NONE)))
    as [Hst0 Hsh0]; [done|].
  specialize (Hsh (Hsh0 ltac:(by destruct wd_reset))). unfold shows_sticky, wd in Hsh. rewrite Hsh, Hst, Hst0. by destruct wd_reset.
Qed.

(** ** A hung thread *)

(** The thread whose reports a subsystem's freshness depends on; the sensor's are the health thread's. *)
Definition reporter (sys : gov_health_subsys) : thread :=
  match sys with GOV_HS_CONTROL => Control | GOV_HS_LINK => LinkRx | _ => Health end.

(** The thread does not run; the clock only advances. *)
Definition without (th : thread) (a : action) : Prop :=
  act_ok a /\ match a with Run th' => th' <> th | Elapse d => 0 <= d | _ => True end.

Fixpoint elapsed (acts : list action) : Z :=
  match acts with [] => 0 | Elapse d :: acts => d + elapsed acts | _ :: acts => elapsed acts end.

(** The last report of [sys] is from [t0], more than the threshold ago by the clock and by the clock
    reading the health thread is about to decide on. *)
Definition stale (sys : gov_health_subsys) (t0 : Z) (s : @app B) : Prop :=
  load s.(ap_health).(h_last_seen) (subsys_index sys) = Some t0 /\
  3 * GOV_HEALTH_PERIOD_MS < u32 (s.(ap_now) - t0) /\
  forall t, s.(ap_health_th) = HE_feed t -> 3 * GOV_HEALTH_PERIOD_MS < u32 (t - t0).

(** What a step of another thread, the interrupt or the timer leaves alone. *)
Definition seen_same (sys : gov_health_subsys) (s s' : @app B) : Prop :=
  load s'.(ap_health).(h_last_seen) (subsys_index sys) = load s.(ap_health).(h_last_seen) (subsys_index sys) /\
  load s'.(ap_health).(h_seen) (subsys_index sys) = load s.(ap_health).(h_seen) (subsys_index sys) /\
  s'.(ap_now) = s.(ap_now) /\ s'.(ap_feeds) = s.(ap_feeds).

Lemma note_alive_same sys sys' t (s s' : @app B) :
  sys <> sys' -> note_alive sys' t s = Some s' ->
  seen_same sys s s' /\ s'.(ap_health_th) = s.(ap_health_th).
Proof.
  intros Hne. unfold note_alive, gov_health_note_alive. destruct (_ <=? _); cbn; [by intros [= <-]|].
  destruct (store (h_last_seen _) _ _) as [l|] eqn:El; cbn; [|done].
  destruct (store (h_seen _) _ _) as [l'|] eqn:El'; cbn; [|done]. intros [= <-]. split; [|done].
  assert (Hi : subsys_index sys' <> subsys_index sys) by (intros E%subsys_index_inj; by subst).
  split_and!; try done; cbn; (eapply load_store_ne; [eassumption|by destruct sys|done]).
Qed.

Ltac untouched := intros H; repeat (progress simplify_option_eq || case_match); done.

Lemma control_thread_seen sys (s s' : @app B) :
  sys <> GOV_HS_CONTROL -> control_thread brd s = Some s' -> seen_same sys s s' /\ s'.(ap_health_th) = s.(ap_health_th).
Proof.
  intros Hs. unfold control_thread, gov_slot_get, locked_control_step. destruct (ap_control s).
  8: { destruct (note_alive _ _ _) eqn:E; cbn; [|done]. intros [= <-]. by apply (note_alive_same sys) in E. }
  all: untouched.
Qed.

Lemma link_rx_thread_seen sys (s s' : @app B) :
  sys <> GOV_HS_LINK -> link_rx_thread read brd s = Some s' -> seen_same sys s s' /\ s'.(ap_health_th) = s.(ap_health_th).
Proof.
  intros Hs. unfold link_rx_thread, link_wire_out. destruct (ap_link_rx s).
  9: { destruct (note_alive _ _ _) eqn:E; cbn; [|done]. intros [= <-]. by apply (note_alive_same sys) in E. }
  all: untouched.
Qed.

Lemma link_tx_thread_seen sys (s s' : @app B) :
  link_tx_thread brd s = Some s' -> seen_same sys s s' /\ s'.(ap_health_th) = s.(ap_health_th).
Proof. unfold link_tx_thread, link_wire_out. destruct (ap_link_tx s); untouched. Qed.

Lemma telemetry_thread_seen sys (s s' : @app B) :
  telemetry_thread brd s = Some s' -> seen_same sys s s' /\ s'.(ap_health_th) = s.(ap_health_th).
Proof. unfold telemetry_thread, link_wire_out. destruct (ap_telemetry s); untouched. Qed.

(** A stale report forbids the feed. *)
Lemma stale_report_no_feed (s : @app B) sys t0 t :
  app_ok brd s -> sys <> GOV_HEALTH_SUBSYS_COUNT ->
  load s.(ap_health).(h_last_seen) (subsys_index sys) = Some t0 -> 3 * GOV_HEALTH_PERIOD_MS < u32 (t - t0) ->
  gov_health_feed_watchdog s.(ap_health) t (3 * GOV_HEALTH_PERIOD_MS) = Some false.
Proof.
  intros Hs Hsys Hl Ht. destruct (ao_health _ s Hs) as [[r Hr] _].
  destruct (all_alive_spec _ r t (3 * GOV_HEALTH_PERIOD_MS) Hr) as (a & Ha & Hiff). unfold gov_health_feed_watchdog. rewrite Ha. cbn.
  destruct a; [|done]. exfalso. pose proof (proj1 Hiff eq_refl) as Hf. rewrite Forall_forall in Hf.
  destruct (Hf sys) as (t' & Hlast & Hage).
  { destruct sys; cbn; [by left|by right; left|by right; right; left|done]. }
  destruct Hr as (_ & _ & _ & Hr). specialize (Hr sys Hsys). rewrite Hlast in Hr. destruct Hr as [_ Hr].
  rewrite Hl in Hr. injection Hr as <-. lia.
Qed.

Lemma stale_health_step sys t0 (s s' : @app B) :
  app_ok brd s -> sys = GOV_HS_CONTROL \/ sys = GOV_HS_LINK -> stale sys t0 s -> health_thread s = Some s' ->
  stale sys t0 s' /\ s'.(ap_feeds) = s.(ap_feeds) /\ s'.(ap_now) = s.(ap_now).
Proof.
  intros Hs Hsys (Hl & Hnow & Hfeed). unfold health_thread, stale. destruct (ap_health_th s) as [|t| |ok t| |t] eqn:E.
  2: { destruct (note_alive _ _ _) as [s1|] eqn:Ea; cbn; [|done]. intros [= <-].
       destruct (note_alive_same sys GOV_HS_SENSOR t s s1) as [(E1 & _ & E2 & E3) _]; [by destruct Hsys as [-> | ->]|done|].
       cbn. rewrite E1, E2, E3. by split_and!. }
  5: { rewrite (stale_report_no_feed s sys t0 t); [|done|by destruct Hsys as [-> | ->]|done|by apply Hfeed].
       cbn. intros [= <-]. by split_and!. }
  all: intros [= <-]; cbn; split_and!; try done. by intros t [= <-].
Qed.

Lemma stale_step sys t0 (s s' : @app B) a :
  app_ok brd s -> sys = GOV_HS_CONTROL \/ sys = GOV_HS_LINK -> stale sys t0 s -> without (reporter sys) a ->
  u32 (s.(ap_now) - t0) + elapsed [a] < 2 ^ 32 -> app_step read brd s a = Some s' ->
  stale sys t0 s' /\ s'.(ap_feeds) = s.(ap_feeds) /\ u32 (s'.(ap_now) - t0) = u32 (s.(ap_now) - t0) + elapsed [a].
Proof.
  intros Hs Hsys Hst [Ha Hw] Hage H.
  assert (Hother : seen_same sys s s' /\ s'.(ap_health_th) = s.(ap_health_th) -> elapsed [a] = 0 ->
    stale sys t0 s' /\ s'.(ap_feeds) = s.(ap_feeds) /\ u32 (s'.(ap_now) - t0) = u32 (s.(ap_now) - t0) + elapsed [a]).
  { intros [(E1 & _ & E2 & E3) E4] E0. destruct Hst as (Hl & Hnow & Hfeed). unfold stale. rewrite E0, E1, E2, E4. split_and!; try done. lia. }
  destruct a as [[| | | |]| |ready fifo|d]; cbn [app_step] in H.
  - apply Hother; [|done]. eapply control_thread_seen; [|exact H]. by intros ->.
  - apply Hother; [|done]. eapply link_rx_thread_seen; [|exact H]. by intros ->.
  - apply Hother; [|done]. by apply link_tx_thread_seen.
  - apply Hother; [|done]. by apply telemetry_thread_seen.
  - destruct (stale_health_step sys t0 s s' Hs Hsys Hst H) as (? & ? & ->). cbn. split_and!; try done. lia.
  - injection H as <-. by apply Hother.
  - injection H as <-. apply Hother; [|done]. unfold link_uart_isr. by destruct ready.
  - injection H as <-. cbn [elapsed] in *. destruct Hst as (Hl & Hnow & Hfeed).
    assert (E : u32 (u32 (ap_now s + d) - t0) = u32 (ap_now s - t0) + d).
    { revert Hage Hw. rewrite Z.add_0_r. generalize (ap_now s). clear. intros n. dlia. }
    unfold stale. cbn. rewrite E. split_and!; try done; lia.
Qed.

(** C8: A hung thread starves the hardware watchdog. Take a well-formed state in which the last report of the
    control loop (or of the link) is more than the threshold of 150 ms old by the clock, and also, if the health
    thread has read the clock and is about to decide, by that reading (a decision on an older reading may
    still feed once). However the other threads, the interrupt and the timer go on, and for as long as the
    clock has not gone all the way round: if the thread does not run, the watchdog is not fed once. *)
Theorem hung_thread_starves_watchdog sys t0 acts (s s' : @app B) :
  app_ok brd s -> sys = GOV_HS_CONTROL \/ sys = GOV_HS_LINK -> stale sys t0 s ->
  Forall (without (reporter sys)) acts -> u32 (s.(ap_now) - t0) + elapsed acts < 2 ^ 32 ->
  app_run read brd s acts = Some s' -> s'.(ap_feeds) = s.(ap_feeds).
Proof.
  intros Hs Hsys Hst Ha. revert s Hs Hst. induction Ha as [|a acts Ha Hacts IH]; intros s Hs Hst Hage; cbn [app_run].
  { by intros [= <-]. }
  destruct (app_step_ok read brd s a Hs (proj1 Ha)) as (s1 & E & Hs1). rewrite E. cbn [mbind option_bind]. intros Hrun.
  assert (He : elapsed (a :: acts) = elapsed [a] + elapsed acts) by (destruct a; cbn; lia).
  assert (H0 : 0 <= elapsed acts).
  { clear -Hacts. induction Hacts as [|b acts [_ Hb] _ IH]; [done|]. destruct b; cbn; lia. }
  destruct (stale_step sys t0 s s1 a Hs Hsys Hst Ha ltac:(lia) E) as (Hst1 & <- & Hnow).
  apply (IH s1); try done. lia.
Qed.
End app.

(** ** Witnesses *)

(** A board that came back from a watchdog reset. *)
Lemma watchdog_reset_reported_witness :
  exists s rec, app_run good_read renode (boot renode (f_of_Z 50) true (Some tt) (Some (true, 0)) 5) once_around = Some s /\
    locked_fill_telemetry s = Some rec /\ has (tm_fault_flags rec) GOV_FAULT_WATCHDOG.
Proof.
  assert (Hsp : castable (f_of_Z 50)) by (apply sample_castable; lia).
  assert (Hh : b_sensor renode = true -> is_Some (Some tt)) by (intros _; by exists tt).
  assert (Ha : Forall act_ok once_around) by (repeat constructor; by vm_compute).
  destruct (app_run_ok good_read renode once_around _ (boot_ok renode (f_of_Z 50) true (Some tt) (Some (true, 0)) 5 Hsp Hh ltac:(clia)) Ha)
    as (s & Hrun & _).
  destruct (watchdog_reset_reported good_read renode (f_of_Z 50) true (Some tt) (Some (true, 0)) 5 once_around s Hsp Hh ltac:(clia) Ha Hrun)
    as (rec & Hrec & Hiff).
  exists s, rec. split; [exact Hrun|]. split; [exact Hrec|]. by apply Hiff.
Defined.

(** Every subsystem reports and the watchdog is fed; then the control thread hangs. *)
Definition lively : list action := [Timer] ++ replicate 9 (Run LinkRx) ++ replicate 8 (Run Control) ++ replicate 6 (Run Health).
Definition hung : list action := concat (replicate 20 [Elapse 25; Run LinkRx; Timer; Run LinkTx; Run Health; Run Telemetry]).
Definition lively_boot : @app unit := boot renode (f_of_Z 50) false (Some tt) (Some (true, 0)) 5.
Definition lively_state : @app unit := default lively_boot (app_run good_read renode lively_boot (lively ++ [Elapse 160])).

Lemma lively_ok : app_ok renode lively_state.
Proof.
  destruct (app_run_ok good_read renode (lively ++ [Elapse 160]) lively_boot) as (s & Hrun & Hs).
  - apply boot_ok; [apply sample_castable; lia|intros _; by exists tt|clia].
  - by repeat constructor.
  - unfold lively_state. by rewrite Hrun.
Qed.

Lemma hung_thread_starves_watchdog_witness :
  lively_state.(ap_feeds) = 1%nat /\
  exists s', app_run good_read renode lively_state hung = Some s' /\ s'.(ap_feeds) = lively_state.(ap_feeds).
Proof.
  split; [by vm_compute|].
  destruct (app_run_ok good_read renode hung lively_state lively_ok) as (s' & Hrun & _); [by repeat constructor|].
  exists s'. split; [exact Hrun|].
  refine (hung_thread_starves_watchdog good_read renode GOV_HS_CONTROL 5 hung lively_state s' lively_ok (or_introl eq_refl) _ _ _ Hrun).
  - split; [by vm_compute|]. split; [by vm_compute|]. assert (E : ap_health_th lively_state = HE_stamp) by (by vm_compute).
    intros t. rewrite E. discriminate.
  - repeat constructor; try discriminate; by vm_compute.
  - by vm_compute.
Defined.
