(* ===== verification/Alive.v ===== *)
(** * Alive: a system that is scheduled correctly keeps its watchdog fed (src/main.c)

    The converse of Watchdog.  Three threads report to the health record: each reads the clock, then reports
    the reading.  The class [Reporter] is that protocol; what follows about the age of the
    reports is proved once, from its laws.  If every thread gets round its loop in time, each feed
    decision finds all reports fresh, and the hardware counter never reaches its window - provided that the
    health thread decides on a current reading of the clock. *)
From S2P Require Import Prelude Faults Safety Crc16 Frame Reliable Arq Telem Ring Health Sensor Float32 Control Node App Sched Posts Shutdown Watchdog.

(** The window of the hardware watchdog, in milliseconds. *)
Definition wdt_window_max : Z := 500.

(** The turns a thread gets. *)
Fixpoint turns (th : thread) (acts : list action) : nat :=
  match acts with
  | [] => 0
  | a :: acts => (match a with Run th' => if decide (th' = th) then 1 else 0 | _ => 0 end + turns th acts)%nat
  end.

(** Time does not go back. *)
Definition forth (a : action) : Prop := act_ok a /\ match a with Elapse d => 0 <= d | _ => True end.

Lemma forth_ok acts : Forall forth acts -> Forall act_ok acts.
Proof. intros H. apply (Forall_impl _ _ _ H). by intros a []. Qed.

Lemma elapsed_cons a acts : elapsed (a :: acts) = elapsed [a] + elapsed acts.
Proof. destruct a; cbn; lia. Qed.

Lemma elapsed_app acts1 acts2 : elapsed (acts1 ++ acts2) = elapsed acts1 + elapsed acts2.
Proof. induction acts1 as [|a acts1 IH]; [done|]. change ((a :: acts1) ++ acts2) with (a :: (acts1 ++ acts2)). rewrite (elapsed_cons a (acts1 ++ acts2)), (elapsed_cons a acts1), IH. lia. Qed.

Lemma forth_elapsed acts : Forall forth acts -> 0 <= elapsed acts.
Proof. induction 1 as [|a acts [_ Ha] _ IH]; [done|]. rewrite elapsed_cons. destruct a; cbn in *; lia. Qed.

Lemma elapsed_one a : forth a -> 0 <= elapsed [a].
Proof. intros Ha. by apply forth_elapsed, Forall_singleton. Qed.

Lemma turns_app th acts1 acts2 : turns th (acts1 ++ acts2) = (turns th acts1 + turns th acts2)%nat.
Proof. induction acts1 as [|a acts1 IH]; [done|]. change ((a :: acts1) ++ acts2) with (a :: (acts1 ++ acts2)). cbn [turns]. rewrite IH. lia. Qed.

Section app.
Context {B : Type} (read : bus_read B) `{!BusLaws read} (brd : board).

(** ** The age of a reading *)
Definition age (t : Z) (s : @app B) : Z := u32 (s.(ap_now) - t).

Lemma step_now a (s s' : @app B) :
  app_step read brd s a = Some s' -> s'.(ap_now) = match a with Elapse d => u32 (s.(ap_now) + d) | _ => s.(ap_now) end.
Proof.
  destruct a as [[| | | |]| |ready fifo|d]; cbn [app_step].
  - unfold control_thread, gov_slot_get, locked_control_step, note_alive. destruct (ap_control s); intros H; repeat (progress simplify_option_eq || case_match); done.
  - unfold link_rx_thread, link_wire_out, note_alive. destruct (ap_link_rx s); intros H; repeat (progress simplify_option_eq || case_match); done.
  - intros H. by destruct (link_tx_thread_seen brd GOV_HS_CONTROL s s' H) as [(_ & _ & H2 & _) _].
  - intros H. by destruct (telemetry_thread_seen brd GOV_HS_CONTROL s s' H) as [(_ & _ & H2 & _) _].
  - unfold health_thread, note_alive, watchdog_feed. destruct (ap_health_th s); intros H; repeat (progress simplify_option_eq || case_match); done.
  - by intros [= <-].
  - intros [= <-]. unfold link_uart_isr. by destruct ready.
  - by intros [= <-].
Qed.

Lemma step_age t a (s s' : @app B) : forth a -> app_step read brd s a = Some s' -> age t s' <= age t s + elapsed [a].
Proof.
  intros [_ Ha] H. unfold age. rewrite (step_now a s s' H). destruct a; cbn [elapsed] in *; try lia.
  rewrite Z.add_0_r. revert Ha. generalize (ap_now s). clear. intros n Hd. dlia.
Qed.

Lemma age_now (s : @app B) : age s.(ap_now) s = 0.
Proof. unfold age. by rewrite Z.sub_diag. Qed.

(** ** Reporters *)

(** The subsystem's last report is the reading [t]. *)
Definition reported (sys : gov_health_subsys) (t : Z) (s : @app B) : Prop :=
  load s.(ap_health).(h_seen) (subsys_index sys) = Some true /\ load s.(ap_health).(h_last_seen) (subsys_index sys) = Some t.

Definition kept (sys : gov_health_subsys) (s s' : @app B) : Prop := forall t, reported sys t s -> reported sys t s'.

Lemma seen_same_kept sys (s s' : @app B) : seen_same sys s s' -> kept sys s s'.
Proof. intros (E1 & E2 & _) t. unfold reported. by rewrite E1, E2. Qed.

(** A thread that reports for a subsystem: the reading it is about to report, its turns until it reads the clock
    again, and when it need not wait on the way. *)
Class Reporter (sys : gov_health_subsys) (th : thread) := {
  pending : @app B -> option Z;
  owed : @app B -> nat;
  ready : @app B -> Prop
}.

Class ReporterLaws (sys : gov_health_subsys) (th : thread) `{R : Reporter sys th} := {
  (* its own step reports what is pending; else it leaves the last report alone, and may read the clock *)
  own_step s s' : app_ok brd s -> app_step read brd s (Run th) = Some s' ->
    match pending s with
    | Some t => reported sys t s' /\ pending s' = None
    | None => kept sys s s' /\ (pending s' = None \/ pending s' = Some s.(ap_now))
    end;
  own_progress s s' : app_ok brd s -> app_step read brd s (Run th) = Some s' -> ready s ->
    (0 < owed s)%nat /\ (pending s' <> None \/ ready s' /\ (owed s' < owed s)%nat);
  other_step s s' a : app_ok brd s -> a <> Run th -> app_step read brd s a = Some s' ->
    kept sys s s' /\ pending s' = pending s /\ owed s' = owed s /\ (ready s -> ready s')
}.

Section reporter.
Context {sys : gov_health_subsys} {th : thread} `{RL : ReporterLaws sys th}.

(** The last report and the reading about to replace it are at most [age] old. *)
Definition fresh_by (T : Z) (s : @app B) : Prop :=
  (exists t, reported sys t s /\ age t s <= T) /\ forall t, pending s = Some t -> age t s <= T.
(** A reading at most that old is about to be reported. *)
Definition stamped_by (T : Z) (s : @app B) : Prop := exists t, pending s = Some t /\ age t s <= T.

Lemma fresh_step T a s s' :
  app_ok brd s -> forth a -> 0 <= T -> fresh_by T s -> app_step read brd s a = Some s' -> fresh_by (T + elapsed [a]) s'.
Proof.
  intros Hs Ha HT [(t & Hrep & Hage) Hpend] H. pose proof (fun t => step_age t a s s' Ha H) as Hstep.
  pose proof (elapsed_one a Ha) as Hel.
  destruct (decide (a = Run th)) as [->|Hne].
  - pose proof (own_step s s' Hs H) as Hown. destruct (pending s) as [t1|].
    + destruct Hown as [Hrep' Hp']. split; [|by rewrite Hp']. exists t1. split; [done|]. specialize (Hpend t1 eq_refl). specialize (Hstep t1). lia.
    + destruct Hown as [Hk Hp]. split; [exists t; split; [by apply Hk|specialize (Hstep t); lia]|].
      intros t1. destruct Hp as [-> | ->]; [done|]. intros [= <-]. specialize (Hstep s.(ap_now)). rewrite age_now in Hstep. lia.
  - destruct (other_step s s' a Hs Hne H) as (Hk & Hp & _). split; [exists t; split; [by apply Hk|specialize (Hstep t); lia]|].
    intros t1. rewrite Hp. intros H1. specialize (Hpend t1 H1). specialize (Hstep t1). lia.
Qed.

Lemma fresh_run acts : forall T s s',
  app_ok brd s -> Forall forth acts -> 0 <= T -> fresh_by T s -> app_run read brd s acts = Some s' -> fresh_by (T + elapsed acts) s'.
Proof.
  induction acts as [|a acts IH]; intros T s s' Hs Ha HT Hf; cbn [app_run].
  { intros [= <-]. by rewrite Z.add_0_r. }
  apply Forall_cons in Ha as [Ha Hacts]. destruct (app_step_ok read brd s a Hs (proj1 Ha)) as (s1 & E & Hs1). rewrite E.
  cbn [mbind option_bind]. intros H. pose proof (elapsed_one a Ha) as Hel.
  rewrite elapsed_cons, Z.add_assoc. apply (IH _ s1); try done; [lia|]. by apply (fresh_step T a s).
Qed.

Lemma stamped_run acts : forall T s s',
  app_ok brd s -> Forall forth acts -> 0 <= T -> stamped_by T s -> (1 <= turns th acts)%nat ->
  app_run read brd s acts = Some s' -> fresh_by (T + elapsed acts) s'.
Proof.
  induction acts as [|a acts IH]; intros T s s' Hs Ha HT (t & Hp & Hage) Hn; [cbn in Hn; lia|]. cbn [app_run].
  apply Forall_cons in Ha as [Ha Hacts]. destruct (app_step_ok read brd s a Hs (proj1 Ha)) as (s1 & E & Hs1). rewrite E.
  cbn [mbind option_bind]. intros H. pose proof (elapsed_one a Ha) as Hel.
  pose proof (step_age t a s s1 Ha E) as Hstep. rewrite elapsed_cons, Z.add_assoc. destruct (decide (a = Run th)) as [->|Hne].
  - pose proof (own_step s s1 Hs E) as Hown. rewrite Hp in Hown. destruct Hown as [Hrep Hp1].
    apply (fresh_run acts _ s1); try done; [lia|]. split; [exists t; split; [done|lia]|]. by rewrite Hp1.
  - destruct (other_step s s1 a Hs Hne E) as (_ & Hp1 & _). apply (IH _ s1); try done; [lia|exists t; rewrite Hp1; split; [done|lia]|].
    cbn [turns] in Hn. destruct a as [th'| | |]; try done. rewrite decide_False in Hn by congruence. exact Hn.
Qed.

(** A reporter that need not wait and gets its turns has reported a reading taken on the way. *)
Lemma ready_run acts : forall s s',
  app_ok brd s -> Forall forth acts -> ready s -> (owed s < turns th acts)%nat ->
  app_run read brd s acts = Some s' -> fresh_by (elapsed acts) s'.
Proof.
  induction acts as [|a acts IH]; intros s s' Hs Ha Hr Hn; [cbn in Hn; lia|]. cbn [app_run].
  apply Forall_cons in Ha as [Ha Hacts]. destruct (app_step_ok read brd s a Hs (proj1 Ha)) as (s1 & E & Hs1). rewrite E.
  cbn [mbind option_bind]. intros H. rewrite elapsed_cons. pose proof (elapsed_one a Ha) as Hel.
  assert (Hmore : fresh_by (elapsed acts) s' -> fresh_by (elapsed [a] + elapsed acts) s').
  { intros [(t & Hrep & Hage) Hpend]. split; [exists t; split; [done|lia]|]. intros t1 H1. specialize (Hpend t1 H1). lia. }
  destruct (decide (a = Run th)) as [->|Hne].
  - cbn [turns] in Hn. rewrite decide_True in Hn by done. destruct (own_progress s s1 Hs E Hr) as [H0 [Hp|[Hr1 Ho]]].
    + pose proof (own_step s s1 Hs E) as Hown. destruct (pending s); [by destruct Hown as [_ ?]|]. destruct Hown as [_ [?|Hp1]]; [done|].
      apply Hmore. apply (stamped_run acts 0 s1 s' Hs1 Hacts); [lia| |lia|done]. exists s.(ap_now). split; [done|].
      pose proof (step_age (ap_now s) (Run th) s s1 Ha E) as Hstep. rewrite age_now in Hstep. change (elapsed [Run th]) with 0 in Hstep. lia.
    + apply Hmore, (IH s1); try done. lia.
  - destruct (other_step s s1 a Hs Hne E) as (_ & _ & Ho & Hr1). apply Hmore, (IH s1); try done; [by apply Hr1|].
    rewrite Ho. cbn [turns] in Hn. destruct a as [th'| | |]; try done. rewrite decide_False in Hn by congruence. exact Hn.
Qed.
End reporter.
#[global] Arguments fresh_by sys {th R} T s.

(** ** The three reporters *)
Lemma note_alive_reports sys t (s s' : @app B) :
  sys <> GOV_HEALTH_SUBSYS_COUNT -> note_alive sys t s = Some s' -> reported sys t s'.
Proof.
  intros Hsys. unfold note_alive, gov_health_note_alive. rewrite (proj2 (Z.leb_gt _ _)) by (destruct sys; cbn; lia || done).
  destruct (store (h_last_seen _) _ _) as [l|] eqn:El; cbn; [|done].
  destruct (store (h_seen _) _ _) as [l'|] eqn:El'; cbn; [|done]. intros [= <-]. split; cbn; by eapply load_store_eq.
Qed.

(** A step of another thread, of the interrupt, the timer or the clock leaves the reports alone. *)
Lemma step_kept sys a (s s' : @app B) :
  match a with Run Control => sys <> GOV_HS_CONTROL | Run LinkRx => sys <> GOV_HS_LINK | Run Health => False | _ => True end ->
  app_step read brd s a = Some s' -> kept sys s s' /\ s'.(ap_health_th) = s.(ap_health_th).
Proof.
  destruct a as [[| | | |]| |ready fifo|d]; cbn [app_step]; intros Hsys H.
  - destruct (control_thread_seen brd sys s s' Hsys H). split; [by apply seen_same_kept|done].
  - destruct (link_rx_thread_seen read brd sys s s' Hsys H). split; [by apply seen_same_kept|done].
  - destruct (link_tx_thread_seen brd sys s s' H). split; [by apply seen_same_kept|done].
  - destruct (telemetry_thread_seen brd sys s s' H). split; [by apply seen_same_kept|done].
  - done.
  - injection H as <-. split; [by intros t|done].
  - injection H as <-. unfold link_uart_isr. destruct ready; (split; [by intros t|done]).
  - injection H as <-. split; [by intros t|done].
Qed.

Lemma health_thread_kept sys (s s' : @app B) : sys <> GOV_HS_SENSOR -> health_thread s = Some s' -> kept sys s s'.
Proof.
  intros Hsys. unfold health_thread, watchdog_feed. destruct (ap_health_th s); intros H.
  2: { destruct (note_alive _ _ _) as [s1|] eqn:E; cbn in H; [|done]. injection H as <-.
       apply (note_alive_same sys) in E as [E _]; [|done]. exact (seen_same_kept _ _ _ E). }
  all: repeat (progress simplify_option_eq || case_match); by intros ?.
Qed.

Lemma step_kept_but sys a (s s' : @app B) :
  sys <> GOV_HEALTH_SUBSYS_COUNT -> a <> Run (reporter sys) -> app_step read brd s a = Some s' -> kept sys s s'.
Proof.
  intros Hsys Ha H. destruct (decide (a = Run Health)) as [->|Hh].
  - apply health_thread_kept; [|exact H]. by intros ->.
  - apply (step_kept sys a s s'); [|exact H]. by destruct a as [[| | | |]| | |]; try done; intros ->.
Qed.

(** The control thread waits for its semaphore only. *)
#[export] Instance control_reporter : Reporter GOV_HS_CONTROL Control := {
  pending s := match s.(ap_control) with CT_alive t => Some t | _ => None end;
  owed s := (match s.(ap_control) with
             | CT_stamp => 1 | CT_deadline => 2 | CT_plant => 3 | CT_step _ => 4
             | CT_time => 5 | CT_slot => 6 | CT_wait => 7 | CT_alive _ => 8
             end)%nat;
  ready s := s.(ap_tick) = true \/ match s.(ap_control) with CT_wait | CT_alive _ => False | _ => True end
}.

#[export] Instance control_reporter_laws : ReporterLaws GOV_HS_CONTROL Control.
Proof.
  split.
  - intros s s' Hs. cbn [app_step pending control_reporter]. unfold control_thread, gov_slot_get, locked_control_step. destruct (ap_control s) eqn:E.
    8: { destruct (note_alive _ _ _) as [s1|] eqn:Ea; cbn; [|done]. intros [= <-]. split; [|done]. by apply note_alive_reports in Ea. }
    all: intros H; repeat (progress simplify_option_eq || case_match); (split; [by intros ?|auto]).
  - intros s s' Hs. cbn [app_step pending owed ready control_reporter]. unfold control_thread, gov_slot_get, locked_control_step, note_alive.
    destruct (ap_control s) eqn:E; intros H Hr; (split; [lia|]); repeat (progress simplify_option_eq || case_match);
      cbn; rewrite ?E; try (by left); right; (split; [tauto|lia]) || by destruct Hr.
  - intros s s' a Hs Ha H. destruct (other_control read brd s a s' Ha H) as [E1 E2]. cbn [pending owed ready control_reporter]. rewrite E1.
    split; [apply (step_kept_but _ a s s'); done|]. split_and!; try done. tauto.
Qed.

(** The link thread's wait for a byte times out; what it owes is bounded by the callbacks of a frame. *)
#[export] Instance link_reporter : Reporter GOV_HS_LINK LinkRx := {
  pending s := match s.(ap_link_rx) with RX_alive t => Some t | _ => None end;
  owed s := (match s.(ap_link_rx) with RX_alive _ => 20 | RX_get => 19 | pc => rank pc - 1 end)%nat;
  ready _ := True
}.

#[export] Instance link_reporter_laws : ReporterLaws GOV_HS_LINK LinkRx.
Proof.
  split.
  - intros s s' Hs. cbn [app_step pending link_reporter]. unfold link_rx_thread, link_wire_out, after_frame. destruct (ap_link_rx s) eqn:E.
    9: { destruct (note_alive _ _ _) as [s1|] eqn:Ea; cbn; [|done]. intros [= <-]. split; [|done]. by apply note_alive_reports in Ea. }
    all: intros H; repeat (progress simplify_option_eq || case_match); cbn in *; simplify_eq; (split; [by intros ?|auto]).
  - intros s s' Hs H _. cbn [pending owed ready link_reporter].
    destruct (app_step_ok read brd s (Run LinkRx) Hs I) as (s1 & E1 & Hs1). rewrite E1 in H. injection H as ->.
    pose proof (ao_link_rx _ s' Hs1) as Hpc. cbn [app_step] in E1. revert E1. unfold link_rx_thread, note_alive, link_wire_out, after_frame.
    destruct (ap_link_rx s) as [|[|[f|[|byte bytes]] outs]|ev t outs| |v| |sflags ok t| |t]; intros E; (split; [cbn; lia|]);
      repeat (progress simplify_option_eq || case_match); cbn in *; try (by left); right; (split; [done|lia]).
  - intros s s' a Hs Ha H. destruct (other_threads_rx_same read brd s s' a Ha H) as (_ & _ & E & _).
    cbn [pending owed ready link_reporter]. rewrite E. split; [apply (step_kept_but _ a s s'); done|]. by split_and!.
Qed.

(** The health thread reports for the sensor. *)
#[export] Instance health_reporter : Reporter GOV_HS_SENSOR Health := {
  pending s := match s.(ap_health_th) with HE_alive t => Some t | _ => None end;
  owed s := (match s.(ap_health_th) with
             | HE_stamp => 1 | HE_feed _ => 2 | HE_time => 3 | HE_note _ _ => 4 | HE_report => 5 | HE_alive _ => 6
             end)%nat;
  ready _ := True
}.

#[export] Instance health_reporter_laws : ReporterLaws GOV_HS_SENSOR Health.
Proof.
  split.
  - intros s s' Hs. cbn [app_step pending health_reporter]. unfold health_thread, watchdog_feed. destruct (ap_health_th s) eqn:E.
    2: { destruct (note_alive _ _ _) as [s1|] eqn:Ea; cbn; [|done]. intros [= <-]. split; [|done]. by apply note_alive_reports in Ea. }
    all: intros H; repeat (progress simplify_option_eq || case_match); cbn in *; (split; [by intros ?|auto]).
  - intros s s' Hs. cbn [app_step pending owed ready health_reporter]. unfold health_thread, watchdog_feed, note_alive.
    destruct (ap_health_th s) eqn:E; intros H _; (split; [lia|]); repeat (progress simplify_option_eq || case_match);
      cbn; try (by left); right; (split; [done|lia]).
  - intros s s' a Hs Ha H. cbn [pending owed ready health_reporter].
    assert (E : ap_health_th s' = ap_health_th s).
    { apply (step_kept GOV_HS_SENSOR a s s'); [by destruct a as [[| | | |]| | |]|exact H]. }
    rewrite E. split; [apply (step_kept_but _ a s s'); done|]. by split_and!.
Qed.

(** ** The feed decision *)
Definition threshold : Z := 3 * GOV_HEALTH_PERIOD_MS.

Record all_fresh (T : Z) (s : @app B) : Prop := {
  fresh_control : fresh_by GOV_HS_CONTROL T s;
  fresh_link : fresh_by GOV_HS_LINK T s;
  fresh_sensor : fresh_by GOV_HS_SENSOR T s
}.

Lemma all_fresh_step T a s s' :
  app_ok brd s -> forth a -> 0 <= T -> all_fresh T s -> app_step read brd s a = Some s' -> all_fresh (T + elapsed [a]) s'.
Proof. intros Hs Ha HT [H1 H2 H3] H. split; by eapply fresh_step. Qed.

(** On a current reading of the clock, fresh reports allow the feed. *)
Lemma fresh_feed T s :
  app_ok brd s -> T <= threshold -> all_fresh T s -> gov_health_feed_watchdog s.(ap_health) s.(ap_now) threshold = Some true.
Proof.
  intros Hs HT [[(t1 & [S1 L1] & A1) _] [(t2 & [S2 L2] & A2) _] [(t3 & [S3 L3] & A3) _]]. unfold age in *.
  unfold gov_health_feed_watchdog, gov_health_all_alive, all_subsys, alive_from, gov_health_subsys_alive.
  cbn [subsys_index Z.leb Z.compare Pos.compare Pos.compare_cont] in *. rewrite S1, S2, S3. cbn [mbind option_bind negb]. rewrite L1, L2, L3. cbn [mbind option_bind].
  rewrite !(proj2 (Z.leb_le _ _)) by lia. cbn. by rewrite (timing_fault_unreachable brd s Hs).
Qed.

(** ** The hardware counter *)

(** The milliseconds since the last feed (or the start); [None] when the counter passes its window. *)
Definition dog_step (c : Z) (s : @app B) (a : action) : option (Z * @app B) :=
  s' ← app_step read brd s a;
  let c := if (s'.(ap_feeds) =? s.(ap_feeds))%nat then c + elapsed [a] else 0 in
  if c <=? wdt_window_max then Some (c, s') else None.
Fixpoint dog_run (c : Z) (s : @app B) (acts : list action) : option (Z * @app B) :=
  match acts with
  | [] => Some (c, s)
  | a :: acts => '(c, s) ← dog_step c s a; dog_run c s acts
  end.

(** The clock stands still between the health thread's reading of it and its decision. *)
Definition prompt_act (s : @app B) (a : action) : bool :=
  match a, s.(ap_health_th) with Elapse d, HE_feed _ => d =? 0 | _, _ => true end.
Fixpoint prompt (s : @app B) (acts : list action) : bool :=
  match acts with
  | [] => true
  | a :: acts => prompt_act s a && match app_step read brd s a with Some s => prompt s acts | None => true end
  end.
Definition current (s : @app B) : Prop := forall t, s.(ap_health_th) = HE_feed t -> t = s.(ap_now).

(** The turns of the health thread up to and including its decision. *)
Definition to_feed (s : @app B) : nat :=
  (match s.(ap_health_th) with
   | HE_feed _ => 1 | HE_time => 2 | HE_note _ _ => 3 | HE_report => 4 | HE_alive _ => 5 | HE_stamp => 6
   end)%nat.

Lemma step_wdt a s s' : app_step read brd s a = Some s' -> s'.(ap_wdt) = s.(ap_wdt).
Proof.
  destruct a as [[| | | |]| |ready fifo|d]; cbn [app_step].
  - unfold control_thread, gov_slot_get, locked_control_step, note_alive. destruct (ap_control s); intros H; repeat (progress simplify_option_eq || case_match); done.
  - unfold link_rx_thread, link_wire_out, note_alive. destruct (ap_link_rx s); intros H; repeat (progress simplify_option_eq || case_match); done.
  - unfold link_tx_thread, link_wire_out. destruct (ap_link_tx s); intros H; repeat (progress simplify_option_eq || case_match); done.
  - unfold telemetry_thread, link_wire_out. destruct (ap_telemetry s); intros H; repeat (progress simplify_option_eq || case_match); done.
  - unfold health_thread, note_alive, watchdog_feed. destruct (ap_health_th s); intros H; repeat (progress simplify_option_eq || case_match); done.
  - by intros [= <-].
  - intros [= <-]. unfold link_uart_isr. by destruct ready.
  - by intros [= <-].
Qed.

(** Only the health thread feeds. *)
Lemma step_no_feed a s s' :
  a <> Run Health -> app_step read brd s a = Some s' -> s'.(ap_feeds) = s.(ap_feeds) /\ s'.(ap_health_th) = s.(ap_health_th).
Proof.
  intros Ha H. destruct (step_kept GOV_HS_SENSOR a s s') as [_ Eh]; [by destruct a as [[| | | |]| | |]|exact H|]. split; [|exact Eh].
  destruct a as [[| | | |]| |ready fifo|d]; try done; cbn [app_step] in H.
  - by destruct (control_thread_seen brd GOV_HS_LINK s s' ltac:(done) H) as [(_ & _ & _ & ?) _].
  - by destruct (link_rx_thread_seen read brd GOV_HS_CONTROL s s' ltac:(done) H) as [(_ & _ & _ & ?) _].
  - by destruct (link_tx_thread_seen brd GOV_HS_CONTROL s s' H) as [(_ & _ & _ & ?) _].
  - by destruct (telemetry_thread_seen brd GOV_HS_CONTROL s s' H) as [(_ & _ & _ & ?) _].
  - by injection H as <-.
  - injection H as <-. unfold link_uart_isr. by destruct ready.
  - by injection H as <-.
Qed.

Lemma current_step a s s' :
  app_ok brd s -> current s -> prompt_act s a = true -> app_step read brd s a = Some s' -> current s'.
Proof.
  intros Hs Hc Hp H t. pose proof (step_now a s s' H) as En. destruct (decide (a = Run Health)) as [->|Ha].
  - cbn [app_step] in H. rewrite En. revert H. unfold health_thread, watchdog_feed, note_alive.
    destruct (ap_health_th s); intros H; repeat (progress simplify_option_eq || case_match); cbn in *; congruence.
  - destruct (step_no_feed a s s' Ha H) as [_ ->]. intros E. rewrite (Hc t E). rewrite En. destruct a; try done.
    unfold prompt_act in Hp. rewrite E in Hp. apply Z.eqb_eq in Hp as ->. rewrite Z.add_0_r. symmetry. apply u32_small, (ao_now _ s Hs).
Qed.

(** A step of the health thread towards its decision, and the decision. *)
Lemma health_step_feed s s' :
  app_ok brd s -> current s -> 0 <= s.(ap_wdt) -> app_step read brd s (Run Health) = Some s' ->
  (s'.(ap_feeds) = s.(ap_feeds) /\ (to_feed s' < to_feed s)%nat \/
   (exists t, s.(ap_health_th) = HE_feed t) /\ forall T, T <= threshold -> all_fresh T s -> s'.(ap_feeds) = S s.(ap_feeds)) /\
  (s'.(ap_feeds) = s.(ap_feeds) \/ s'.(ap_feeds) = S s.(ap_feeds)).
Proof.
  intros Hs Hc Hw. cbn [app_step]. unfold health_thread, watchdog_feed, note_alive, to_feed. destruct (ap_health_th s) as [|t| |ok t| |t] eqn:E.
  6: { destruct (gov_health_feed_watchdog _ _ _) as [feed|] eqn:Ef; cbn; [|done]. intros [= <-]. split; [right|].
       - split; [by exists t|]. intros T HT Hf. pose proof (fresh_feed T s Hs HT Hf) as H1. rewrite <- (Hc t E) in H1.
         unfold threshold in H1. rewrite H1 in Ef. injection Ef as <-. by rewrite (proj2 (Z.leb_le _ _)).
       - destruct feed; [|by left]. rewrite (proj2 (Z.leb_le _ _)) by done. by right. }
  all: intros H; repeat (progress simplify_option_eq || case_match); cbn; (split; [left; split; [done|lia]|by left]).
Qed.

(** What a stretch of a run that fits in the window does to the counter; with fresh reports and its turns, the
    health thread resets it on the way. *)
Record round_result (c : Z) (s : @app B) (acts : list action) (c' : Z) (s' : @app B) : Prop := {
  rr_dog : dog_run c s acts = Some (c', s');
  rr_run : app_run read brd s acts = Some s';
  rr_ok : app_ok brd s';
  rr_current : current s';
  rr_wdt : 0 <= s'.(ap_wdt);
  rr_count : 0 <= c' <= c + elapsed acts;
  rr_fed : forall T, 0 <= T -> T + elapsed acts <= threshold -> all_fresh T s -> (to_feed s <= turns Health acts)%nat -> c' <= elapsed acts
}.

Lemma round_cons c s a acts c1 s1 c' s' :
  dog_step c s a = Some (c1, s1) -> app_step read brd s a = Some s1 -> round_result c1 s1 acts c' s' -> c1 <= c + elapsed [a] ->
  0 <= elapsed [a] ->
  (forall T, 0 <= T -> T + elapsed [a] <= threshold -> all_fresh T s -> c1 = 0 \/ all_fresh (T + elapsed [a]) s1 /\
    (to_feed s1 + (if decide (a = Run Health) then 1 else 0) <= to_feed s)%nat) ->
  0 <= elapsed acts -> round_result c s (a :: acts) c' s'.
Proof.
  intros Hd Ha [H1 H2 H3 H4 H5 H6 H7] Hc Hel Hfr Hacts. assert (He : elapsed (a :: acts) = elapsed [a] + elapsed acts) by apply elapsed_cons.
  split; try done.
  - cbn [dog_run]. rewrite Hd. exact H1.
  - cbn [app_run]. rewrite Ha. exact H2.
  - lia.
  - intros T HT Hle Hf Hn. destruct (Hfr T HT ltac:(lia) Hf) as [-> |[Hf1 Ht]]; [lia|].
    assert (c' <= elapsed acts); [|lia]. apply (H7 (T + elapsed [a])); [lia|lia|done|]. cbn [turns] in Hn.
    destruct (decide (a = Run Health)) as [->|Hne]; [rewrite decide_True in Hn by done; lia|].
    destruct a as [th'| | |]; try lia. rewrite decide_False in Hn by congruence. lia.
Qed.

Lemma dog_round acts : forall c s,
  app_ok brd s -> Forall forth acts -> current s -> 0 <= s.(ap_wdt) -> 0 <= c -> c + elapsed acts <= wdt_window_max ->
  prompt s acts = true -> exists c' s', round_result c s acts c' s'.
Proof.
  induction acts as [|a acts IH]; intros c s Hs Ha Hcur Hw Hc Hle Hp.
  { exists c, s. split; try done; cbn in *; [lia|]. intros T _ _ _ Hn. destruct (ap_health_th s) eqn:E; unfold to_feed in Hn; rewrite E in Hn; lia. }
  apply Forall_cons in Ha as [Ha Hacts]. destruct (app_step_ok read brd s a Hs (proj1 Ha)) as (s1 & E & Hs1).
  cbn [prompt] in Hp. rewrite E in Hp. apply andb_true_iff in Hp as [Hp1 Hp2].
  pose proof (current_step a s s1 Hs Hcur Hp1 E) as Hcur1. pose proof (step_wdt a s s1 E) as Ew. rewrite elapsed_cons in Hle.
  pose proof (elapsed_one a Ha) as Hel. pose proof (forth_elapsed acts Hacts) as Hela.
  set (c1 := if (ap_feeds s1 =? ap_feeds s)%nat then c + elapsed [a] else 0).
  assert (Hc1 : 0 <= c1 <= c + elapsed [a]) by (unfold c1; case_match; lia).
  assert (Hd : dog_step c s a = Some (c1, s1)).
  { unfold dog_step. rewrite E. cbn [mbind option_bind]. fold c1. by rewrite (proj2 (Z.leb_le _ _)) by lia. }
  destruct (IH c1 s1 Hs1 Hacts Hcur1 ltac:(by rewrite Ew) ltac:(lia) ltac:(lia) Hp2) as (c' & s' & Hr).
  exists c', s'. apply (round_cons c s a acts c1 s1 c' s' Hd E Hr); try lia. intros T HT HTe Hf.
  pose proof (all_fresh_step T a s s1 Hs Ha HT Hf E) as Hf1. destruct (decide (a = Run Health)) as [->|Hne].
  - destruct (health_step_feed s s1 Hs Hcur Hw E) as [[[Ef Ht]|[_ Hfeed]] _].
    + right. split; [done|lia].
    + left. specialize (Hfeed T ltac:(cbn in HTe; lia) Hf). unfold c1. destruct (Nat.eqb_spec (ap_feeds s1) (ap_feeds s)); [lia|done].
  - right. split; [done|]. destruct (step_no_feed a s s1 Hne E) as [_ Eh]. unfold to_feed. rewrite Eh. lia.
Qed.

(** ** Regular rounds *)

(** Half the threshold. In a round no longer than that every reporter gets the turns its loop takes: the control thread
    after the timer has fired. *)
Definition round_ms : Z := 75.

Definition regular (round : list action) : Prop :=
  Forall forth round /\ elapsed round <= round_ms /\ (21 <= turns LinkRx round)%nat /\ (7 <= turns Health round)%nat /\
  exists before rest, round = before ++ Timer :: rest /\ (9 <= turns Control rest)%nat.

Lemma app_run_app acts1 : forall s acts2, app_run read brd s (acts1 ++ acts2) = (s1 ← app_run read brd s acts1; app_run read brd s1 acts2).
Proof.
  induction acts1 as [|a acts1 IH]; intros s acts2; [done|]. change ((a :: acts1) ++ acts2) with (a :: (acts1 ++ acts2)). cbn [app_run].
  destruct (app_step read brd s a); [apply IH|done].
Qed.

Lemma fresh_weaken sys th `{R : Reporter sys th} T T' s : T <= T' -> fresh_by sys T s -> fresh_by sys T' s.
Proof.
  intros HT [(t & Hrep & Hage) Hpend]. split; [exists t; split; [done|lia]|]. intros t1 H1. specialize (Hpend t1 H1). lia.
Qed.

(** After a regular round all reports are fresh. *)
Lemma regular_fresh round s s' :
  app_ok brd s -> regular round -> app_run read brd s round = Some s' -> all_fresh round_ms s'.
Proof.
  intros Hs (Ha & Hel & Hl & Hh & before & rest & -> & Hc) H. split.
  - rewrite app_run_app in H. apply Forall_app in Ha as [Ha1 Ha2]. apply Forall_cons in Ha2 as [_ Ha2].
    destruct (app_run_ok read brd before s Hs (forth_ok _ Ha1)) as (s1 & E1 & Hs1). rewrite E1 in H. cbn [mbind option_bind app_run] in H.
    destruct (app_step_ok read brd s1 Timer Hs1 I) as (s2 & E2 & Hs2). rewrite E2 in H. cbn [mbind option_bind] in H.
    rewrite elapsed_app, elapsed_cons in Hel. pose proof (forth_elapsed before Ha1) as H0. change (elapsed [Timer]) with 0 in Hel.
    apply (fresh_weaken _ Control (elapsed rest)); [lia|]. apply (ready_run rest s2 s' Hs2 Ha2); [|cbn; destruct (ap_control s2); lia|exact H].
    cbn [app_step] in E2. injection E2 as <-. by left.
  - apply (fresh_weaken _ LinkRx _ _ s' Hel). refine (ready_run (sys:=GOV_HS_LINK) (th:=LinkRx) _ s s' Hs Ha _ _ H); [exact I|]. cbn. destruct (ap_link_rx s) eqn:E; try lia.
    all: pose proof (ao_link_rx _ s Hs) as Hpc; rewrite E in Hpc; cbn in *; lia.
  - apply (fresh_weaken _ Health _ _ s' Hel). refine (ready_run (sys:=GOV_HS_SENSOR) (th:=Health) _ s s' Hs Ha _ _ H); [exact I|]. cbn. destruct (ap_health_th s); lia.
Qed.

Lemma dog_run_app acts1 : forall c s acts2, dog_run c s (acts1 ++ acts2) = ('(c1, s1) ← dog_run c s acts1; dog_run c1 s1 acts2).
Proof.
  induction acts1 as [|a acts1 IH]; intros c s acts2; [done|]. change ((a :: acts1) ++ acts2) with (a :: (acts1 ++ acts2)). cbn [dog_run].
  destruct (dog_step c s a) as [[c1 s1]|]; [apply IH|done].
Qed.

Lemma prompt_app acts1 : forall s acts2 s1,
  app_run read brd s acts1 = Some s1 -> prompt s (acts1 ++ acts2) = prompt s acts1 && prompt s1 acts2.
Proof.
  induction acts1 as [|a acts1 IH]; intros s acts2 s1; cbn [app_run]; [by intros [= <-]|].
  change ((a :: acts1) ++ acts2) with (a :: (acts1 ++ acts2)). cbn [prompt].
  destruct (app_step read brd s a) as [s2|]; cbn [mbind option_bind]; [|done]. intros H. by rewrite (IH s2 acts2 s1 H), andb_assoc.
Qed.

(** A regular round from a state with the counter in its first half. *)
Lemma dog_regular round acts c s :
  app_ok brd s -> regular round -> current s -> 0 <= s.(ap_wdt) -> 0 <= c <= round_ms -> prompt s (round ++ acts) = true ->
  exists c' s', round_result c s round c' s' /\ all_fresh round_ms s' /\ prompt s' acts = true /\
    (all_fresh round_ms s \/ c = 0 -> c' <= round_ms).
Proof.
  intros Hs Hr Hcur Hw Hc Hp. pose proof Hr as (Ha & Hel & _ & Hh & _).
  destruct (app_run_ok read brd round s Hs (forth_ok _ Ha)) as (s1 & E & _). rewrite (prompt_app round s acts s1 E) in Hp.
  apply andb_true_iff in Hp as [Hp1 Hp2]. unfold round_ms in *.
  destruct (dog_round round c s Hs Ha Hcur Hw ltac:(lia) ltac:(unfold wdt_window_max; lia) Hp1) as (c' & s' & Hres).
  pose proof (rr_run _ _ _ _ _ Hres) as Hrun. rewrite E in Hrun. injection Hrun as ->. exists c', s'. split_and!; try done.
  - by apply (regular_fresh round s).
  - intros Hf. pose proof (rr_count _ _ _ _ _ Hres). destruct Hf as [Hf| ->]; [|lia].
    assert (c' <= elapsed round); [|lia]. apply (rr_fed _ _ _ _ _ Hres 75); try done; [unfold threshold, GOV_HEALTH_PERIOD_MS; lia|].
    assert (to_feed s <= 6)%nat by (unfold to_feed; destruct (ap_health_th s); lia). lia.
Qed.

Lemma warm_rounds rounds : forall c s,
  app_ok brd s -> Forall regular rounds -> current s -> 0 <= s.(ap_wdt) -> 0 <= c <= round_ms -> all_fresh round_ms s ->
  prompt s (concat rounds) = true -> exists c' s', dog_run c s (concat rounds) = Some (c', s') /\ c' <= round_ms.
Proof.
  induction rounds as [|round rounds IH]; intros c s Hs Hr Hcur Hw Hc Hf Hp; [exists c, s; split; [done|lia]|].
  apply Forall_cons in Hr as [Hr Hrs]. cbn [concat] in *.
  destruct (dog_regular round (concat rounds) c s Hs Hr Hcur Hw Hc Hp) as (c1 & s1 & Hres & Hf1 & Hp1 & Hc1).
  rewrite dog_run_app, (rr_dog _ _ _ _ _ Hres). cbn [mbind option_bind]. pose proof (rr_count _ _ _ _ _ Hres).
  apply (IH c1 s1); try done; [apply Hres..|]. split; [lia|]. apply Hc1. by left.
Qed.

(** C9: A system that is scheduled correctly is never reset by its watchdog. Take any run from boot on a board
    with a watchdog (and a sensor bus that is ready, if it has a sensor), cut into rounds of at most 75 ms
    in each of which the timer fires, and the control, link_rx and health threads get as many turns as one
    way round their loop takes: control after the tick, the others anywhere in the round, whatever the
    remaining threads, the interrupt and the operator do. If
    the health thread decides in the millisecond in which it read the clock, then the 500 ms window of the hardware
    watchdog never runs out; after every round the last feed is at most 75 ms ago. *)
Theorem healthy_system_never_reset setpoint wd_reset hal channel t rounds :
  castable setpoint -> (brd.(b_sensor) = true -> is_Some hal) -> is_u32 t -> 0 <= channel -> Forall regular rounds ->
  let start := boot brd setpoint wd_reset hal (Some (true, channel)) t in
  prompt start (concat rounds) = true ->
  exists c s, dog_run 0 start (concat rounds) = Some (c, s) /\ c <= round_ms.
Proof.
  intros Hsp Hhal Ht Hch Hr start Hp. assert (Hs : app_ok brd start) by by apply boot_ok.
  assert (Hboot : ap_health_th start = HE_stamp /\ ap_wdt start = channel).
  { unfold start, boot, sensor_setup. destruct (b_sensor brd); [|done]. by destruct (Hhal eq_refl) as [b ->]. }
  destruct Hboot as [Eh Ew]. assert (Hcur : current start) by (intros t1; by rewrite Eh). rewrite <- Ew in Hch. clearbody start.
  destruct rounds as [|round rounds]; [by exists 0, start|]. apply Forall_cons in Hr as [Hr Hrs]. cbn [concat] in *.
  destruct (dog_regular round (concat rounds) 0 start Hs Hr Hcur Hch ltac:(done) Hp) as (c1 & s1 & Hres & Hf1 & Hp1 & Hc1).
  rewrite dog_run_app, (rr_dog _ _ _ _ _ Hres). cbn [mbind option_bind]. pose proof (rr_count _ _ _ _ _ Hres).
  apply (warm_rounds rounds c1 s1); try done; [apply Hres..|]. split; [lia|]. apply Hc1. by right.
Qed.
End app.

(** ** Witness, and what a late reading does *)

(** A 50 ms round of the emulated board, in which every thread runs and a byte arrives. *)
Definition good_round : list action :=
  [Timer] ++ replicate 9 (Run Control) ++ [Isr true [0]] ++ replicate 30 (Run LinkRx) ++ replicate 7 (Run LinkTx) ++ [Elapse 25] ++
  replicate 60 (Run Telemetry) ++ replicate 12 (Run Health) ++ [Elapse 25].

Lemma good_round_regular : regular good_round.
Proof.
  split; [|split; [by vm_compute|split; [by apply Nat.leb_le|split; [by apply Nat.leb_le|]]]].
  - unfold good_round. repeat (apply Forall_app; split); try apply Forall_replicate; repeat constructor; try done; by vm_compute.
  - exists [], (tail good_round). split; [done|]. by apply Nat.leb_le.
Qed.

Lemma healthy_system_never_reset_witness :
  exists c s, dog_run good_read renode 0 lively_boot (concat (replicate 40 good_round)) = Some (c, s) /\ c <= round_ms.
Proof.
  apply (healthy_system_never_reset good_read renode (f_of_Z 50) false (Some tt) 0 5 (replicate 40 good_round)).
  - apply sample_castable. lia.
  - intros _. by exists tt.
  - clia.
  - lia.
  - apply Forall_replicate, good_round_regular.
  - vm_compute. reflexivity.
Defined.

(** The reading is an argument of [gov_health_feed_watchdog], taken before the call. Twice in each of eleven rounds of
    50 ms the timer ticks in between, and the control thread, of higher priority, reports a later reading:
    its age wraps around to 4294967295 ms and the feed is withheld. Every thread has had its turns and the
    priorities are respected, and the watchdog resets the board. *)
Definition late_round : list action :=
  concat (replicate 2 ([Elapse 24; Timer] ++ replicate 9 (Run Control) ++ replicate 12 (Run LinkRx) ++ replicate 5 (Run Health) ++
    [Elapse 1; Timer] ++ replicate 8 (Run Control) ++ [Run Health])).

Lemma late_reading_resets :
  let start := boot (mkBoard false true) (f_of_Z 50) false None (Some (true, 0)) 5 in
  let acts := concat (replicate 11 late_round) in
  regular late_round /\ respects good_read (mkBoard false true) start acts = true /\
  dog_run good_read (mkBoard false true) 0 start acts = None /\ is_Some (app_run good_read (mkBoard false true) start acts).
Proof.
  cbv zeta. split; [|split; [by vm_compute|split; [by vm_compute|]]].
  - split; [|split; [by vm_compute|split; [by apply Nat.leb_le|split; [by apply Nat.leb_le|]]]].
    + apply Forall_concat, Forall_replicate. repeat (apply Forall_app; split); try apply Forall_replicate; repeat constructor; by vm_compute.
    + exists [Elapse 24], (tail (tail late_round)). split; [done|]. by apply Nat.leb_le.
  - eapply mk_is_Some. vm_compute. reflexivity.
Qed.
