(* ===== verification/Envelope.v ===== *)
(** * Envelope: what the controller can be shown (src/main.c over lib/control and drivers)

    A measurement is a range-checked sample or the output of the simulated plant, so it lies within 0..100
    in every run, and so do the readings the node reports.  A consequence: with a set point that is not more than
    150 away from that range the tracking error never exceeds the divergence limit, and the transition T5, which the
    documents mean for a runaway plant, is out of reach. *)
From S2P Require Import Prelude Faults Safety Crc16 Frame Reliable Arq Telem Ring Health Sensor Float32 Control Node App Posts Watchdog.

(** ** The controller within the limit *)
Definition in_envelope (m : float) : Prop := f_ok m /\ 0 <= fval m <= 100 * f_unit.
Definition reachable_setpoint (sp : float) : Prop := f_ok sp /\ -50 * f_unit <= fval sp <= 150 * f_unit.

Lemma envelope_bnd m : in_envelope m -> fbnd 31 m.
Proof. intros [Hok Hr]. split; [done|]. unfold f_unit in *. lia. Qed.

Lemma sample_envelope v : 0 <= v <= 100 -> in_envelope (f_of_Z v).
Proof. intros Hv. destruct (f_of_Z_exact v ltac:(lia)) as [Hok E]. split; [done|]. rewrite E. unfold f_unit. lia. Qed.

Lemma plant_envelope n : node_ok n -> in_envelope (gov_plant_output n.(n_plant)).
Proof. intros Hn. split; [apply Hn|apply (no_y_range n Hn)]. Qed.

Lemma error_in_band sp m dt : reachable_setpoint sp -> in_envelope m -> out_of_band PID_CFG (mkPidInput sp m dt) = false.
Proof.
  intros [Hsp Hr] [Hm Hmr]. unfold out_of_band. cbn [in_setpoint in_meas].
  assert (Hrep : representable 0 (150 * f_unit)) by (exists 150, 149; unfold f_unit; lia).
  assert (Hrep' : representable 0 (-150 * f_unit)) by (exists (-150), 149; unfold f_unit; lia).
  assert (Hlo : -150 * f_unit <= rnd 0 (fval sp - fval m)) by (apply rnd_ge; [done..|lia]).
  assert (Hhi : rnd 0 (fval sp - fval m) <= 150 * f_unit) by (apply rnd_le; [done..|lia]).
  destruct (f_sub_spec sp m Hsp Hm) as [Hok Hv]; [unfold f_unit in *; lia|].
  destruct (gov_fabsf_spec _ Hok) as [Hok' Hv']. rewrite f_lt_spec; [|by vm_compute|done].
  rewrite Hv', Hv. apply Z.ltb_ge. change (fval (pc_diverge_limit PID_CFG)) with (150 * f_unit). lia.
Qed.

(** A control step on such inputs does not report divergence. *)
Lemma step_not_diverging n m :
  pid_cfg n.(n_pid) = PID_CFG -> reachable_setpoint n.(n_setpoint) -> in_envelope m ->
  gov_pid_diverging (gov_pid_step n.(n_pid) n.(n_setpoint) m GOV_CTRL_PERIOD_MS).1 = false.
Proof.
  intros Hc Hsp Hm. pose proof (gov_pid_step_report n.(n_pid) (mkPidInput n.(n_setpoint) m GOV_CTRL_PERIOD_MS)) as (_ & _ & H).
  cbn [in_setpoint in_meas in_dt] in H. unfold gov_pid_diverging. by rewrite H, Hc, error_in_band.
Qed.

(** ** The fault bit *)

(** Bit 6 is FAULT_DIVERGE. *)
Definition diverged (m : Z) : bool := Z.testbit m 6.
Definition clean (s : gov_safety_t) : Prop := diverged s.(s_faults) = false /\ diverged s.(s_sticky) = false.

Lemma clean_enter next now s : clean s -> clean (enter next now s).
Proof. by destruct next. Qed.

Lemma clean_raise f s : diverged f = false -> clean s -> clean (set_s_faults (s.(s_faults) .| f) s).
Proof. intros Hf [H1 H2]. split; [|done]. unfold diverged in *. cbn [s_faults set_s_faults]. by rewrite Z.lor_spec, H1, Hf. Qed.

Lemma clean_stop f now s : diverged f = false -> clean s -> clean (to_safe_stop f now s).
Proof. intros Hf Hs. by apply clean_enter, clean_raise. Qed.

Lemma clean_halt now s : clean s -> clean (to_fault_halt now s).
Proof. intros Hs. by apply clean_enter, (clean_raise GOV_FAULT_INTERNAL). Qed.

Lemma clean_fault f now s : diverged f = false -> clean s -> clean (enter GOV_ST_DEGRADED now (set_s_faults (s.(s_faults) .| f) s)).
Proof. intros Hf Hs. by apply clean_enter, clean_raise. Qed.

Lemma clean_timers now s : clean s -> clean (service_timers now s).
Proof.
  intros Hs. unfold service_timers. repeat case_match; try done; try by apply clean_stop.
  apply clean_enter. destruct Hs as [Hf Hst]. split; [|done]. unfold diverged in *. cbn [s_faults set_s_faults].
  by rewrite Z.land_spec, Hf.
Qed.

Lemma clean_dispatch ev now s : ev <> GOV_EV_DIVERGE -> clean s -> clean (dispatch ev now s).
Proof.
  intros Hev Hs. unfold dispatch. destruct (s_state s); [apply clean_timers..|by apply clean_halt].
  - destruct ev; cbn; try done; try (by apply clean_enter); by apply clean_stop.
  - destruct ev; cbn; try done; try (by apply clean_fault); by apply clean_stop.
  - destruct ev; cbn; try done; try (by apply clean_stop); try by apply (clean_raise _ (set_s_cause_clear_ms 0 s)).
    by case_match.
  - destruct ev; cbn; try done. apply clean_enter. by destruct Hs.
  - unfold step_fault_halt. by case_decide.
Qed.

Lemma step_clean ev now s : ev <> GOV_EV_DIVERGE -> ev <> GOV_EV_WATCHDOG -> clean s -> clean (safety_step ev now s).
Proof.
  intros Hev Hw Hs. unfold safety_step. destruct (now <? s_now_ms s); [by apply clean_halt|].
  case_decide; [by apply clean_halt|]. rewrite decide_False by done. case_decide; [by apply clean_stop|by apply clean_dispatch].
Qed.

Lemma moves_clean n n' : moves n n' -> gov_pid_diverging n'.(n_pid) = false -> clean n.(n_safety) -> clean n'.(n_safety).
Proof.
  intros [-> | (ev & t & (_ & Hw & Hd) & ->)] Hpid Hs; [done|]. apply step_clean; [|done..]. intros ->. by rewrite Hd in Hpid.
Qed.

(** ** Runs *)
Section app.
Context {B : Type} (read : bus_read B) `{!BusLaws read} (brd : board).

(** A step leaves the numbers of the control loop alone, save for a new measurement; or is a control step. *)
Definition numbers_kept (s s' : @app B) : Prop :=
  numeric_eq s.(ap_node) s'.(ap_node) /\ (s'.(ap_measurement) = s.(ap_measurement) \/ in_envelope s'.(ap_measurement)).
Definition control_stepped (s s' : @app B) : Prop :=
  exists t out, s.(ap_control) = CT_step t /\ s'.(ap_measurement) = s.(ap_measurement) /\
    node_control_step s.(ap_node) s.(ap_measurement) t = Some (s'.(ap_node), out).

Lemma numeric_eq_refl n : numeric_eq n n.
Proof. done. Qed.

Lemma report_numeric n src ok t : numeric_eq n (report n src ok t).
Proof. destruct (report_frame n src ok t) as (H1 & H2 & H3 & H4 & H5). done. Qed.

Lemma kept_measurement (s s' : @app B) : s'.(ap_node) = s.(ap_node) -> s'.(ap_measurement) = s.(ap_measurement) -> numbers_kept s s'.
Proof. intros E1 E2. split; [by rewrite E1|by left]. Qed.

Lemma control_thread_numbers s s' :
  app_ok brd s -> control_thread brd s = Some s' -> numbers_kept s s' \/ control_stepped s s'.
Proof.
  intros Hs. unfold control_thread, gov_slot_get, note_alive, locked_control_step. pose proof (ao_slot _ s Hs) as Hsl.
  destruct (ap_control s) as [| | |t| | | |t] eqn:E.
  2: { destruct (ss_fresh (ap_slot s)); intros [= <-]; left; (split; [done|]); [right; by apply sample_envelope, Hsl|by left]. }
  3: { destruct (node_control_step _ _ _) as [[n out]|] eqn:Es; [|done]. cbn. intros [= <-]. right. by exists t, out. }
  3: { destruct (b_sensor brd); intros [= <-]; left; [by apply kept_measurement|split; [done|right]]. apply plant_envelope, (ao_node _ s Hs). }
  all: intros H; left; repeat (progress simplify_option_eq || case_match); by apply kept_measurement.
Qed.

Lemma app_step_numbers s a s' :
  app_ok brd s -> app_step read brd s a = Some s' -> numbers_kept s s' \/ control_stepped s s'.
Proof.
  intros Hs. destruct a as [[| | | |]| |ready fifo|d]; cbn [app_step]; [by apply control_thread_numbers|..]; intros H; left.
  - unfold link_rx_thread, note_alive, link_wire_out in H. destruct (ap_link_rx s) as [|outs|ev t outs| |v| |sflags ok t| |t].
    3: { injection H as <-. split; [apply node_post_numeric|by left]. }
    6: { injection H as <-. split; [apply (report_numeric _ (SrcSensor sflags))|by left]. }
    all: repeat (progress simplify_option_eq || case_match); by apply kept_measurement.
  - unfold link_tx_thread, link_wire_out in H. destruct (ap_link_tx s) as [|t|t act|i n|ok|ok t|ok].
    6: { injection H as <-. split; [apply (report_numeric _ SrcLink)|by left]. }
    all: repeat (progress simplify_option_eq || case_match); by apply kept_measurement.
  - unfold telemetry_thread, link_wire_out in H. destruct (ap_telemetry s);
      repeat (progress simplify_option_eq || case_match); by apply kept_measurement.
  - unfold health_thread, note_alive, watchdog_feed in H. destruct (ap_health_th s) as [|t| |ok t| |t].
    4: { injection H as <-. split; [apply (report_numeric _ SrcTiming)|by left]. }
    all: repeat (progress simplify_option_eq || case_match); by apply kept_measurement.
  - injection H as <-. by apply kept_measurement.
  - injection H as <-. unfold link_uart_isr. case_match; by apply kept_measurement.
  - injection H as <-. by apply kept_measurement.
Qed.

(** ** The readings *)
Definition readings_ok (s : @app B) : Prop := in_envelope s.(ap_measurement) /\ in_envelope s.(ap_node).(n_last_measurement).

Lemma readings_step s a s' : app_ok brd s -> readings_ok s -> app_step read brd s a = Some s' -> readings_ok s'.
Proof.
  intros Hs [Hm Hl] H. destruct (app_step_numbers s a s' Hs H) as [[(_ & _ & _ & _ & El) Hm']|(t & out & _ & E & Hstep)].
  - split; [by destruct Hm' as [-> |]|by rewrite El].
  - destruct (control_step_ok _ _ t (ao_node _ s Hs) (envelope_bnd _ Hm)) as (n' & z & _ & _ & Hstep' & _ & _ & El & _).
    rewrite Hstep' in Hstep. injection Hstep as En _. split; [by rewrite E|by rewrite <-En, El].
Qed.

Lemma readings_run acts s s' :
  app_ok brd s -> readings_ok s -> Forall act_ok acts -> app_run read brd s acts = Some s' -> app_ok brd s' /\ readings_ok s'.
Proof.
  intros Hs Hw Ha. revert s Hs Hw. induction Ha as [|a acts Ha _ IH]; intros s Hs Hw; cbn [app_run]; [by intros [= <-]|].
  destruct (app_step_ok read brd s a Hs Ha) as (s1 & E & Hs1). rewrite E. cbn [mbind option_bind].
  apply IH; [done|exact (readings_step _ _ _ Hs Hw E)].
Qed.

Lemma boot_readings setpoint wd_reset hal wdt t :
  (brd.(b_sensor) = true -> is_Some hal) -> readings_ok (boot brd setpoint wd_reset hal wdt t).
Proof.
  intros Hhal. unfold boot. pose proof (sensor_setup_ok brd hal Hhal) as Hset.
  destruct (sensor_setup brd hal) as [[sen bus] ok]. destruct Hset as [-> _].
  split; [by apply (sample_envelope 0)|]. destruct wd_reset; by apply (sample_envelope 0).
Qed.

(** The reported numbers are the readings without their fraction. *)
Lemma fill_telemetry_readings s :
  app_ok brd s -> readings_ok s ->
  exists rec, locked_fill_telemetry s = Some rec /\ 0 <= tm_measurement rec <= 100 /\ 0 <= tm_output rec <= 100.
Proof.
  intros Hs [_ [Hlok Hlr]]. unfold locked_fill_telemetry, node_telemetry. destruct (ao_setpoint _ s Hs) as [H1 H2].
  destruct (f_to_i32_inside _ H1 H2) as (? & -> & _).
  destruct (f_to_i32_spec (n_last_measurement (ap_node s)) 0 100 Hlok ltac:(lia) ltac:(lia) ltac:(lia)) as (zm & -> & Hzm & Hzm0 & _).
  destruct (no_output _ (ao_node _ s Hs)) as (u & Hu & ->). destruct (f_of_Z_exact u ltac:(lia)) as [Hok E].
  destruct (f_to_i32_spec (f_of_Z u) 0 100 Hok ltac:(lia) ltac:(lia) ltac:(rewrite E; unfold f_unit; lia)) as (zo & -> & Hzo & Hzo0 & _).
  eexists. split; [reflexivity|]. cbn. lia.
Qed.

(** C30: What the node measures and what it commands stays within 0..100. Take any run from boot, on any
    board, with any set point that can be reported, whatever the sensor answers and the operator and the threads do. A
    sample that waits for the controller is within the sensor's range of 0..100, since one outside it is
    discarded; the simulated plant cannot leave 0..100; so the measurement the controller sees is within it, and the
    telemetry record that would be taken now is defined and reports a measurement and an output within it. *)
Theorem readings_stay_in_range setpoint wd_reset hal wdt t acts s :
  castable setpoint -> (brd.(b_sensor) = true -> is_Some hal) -> is_u32 t -> Forall act_ok acts ->
  app_run read brd (boot brd setpoint wd_reset hal wdt t) acts = Some s ->
  (s.(ap_slot).(ss_fresh) = true -> 0 <= s.(ap_slot).(ss_value) <= 100) /\
  0 <= fval (gov_plant_output s.(ap_node).(n_plant)) <= 100 * f_unit /\
  0 <= fval s.(ap_measurement) <= 100 * f_unit /\
  exists rec, locked_fill_telemetry s = Some rec /\ 0 <= tm_measurement rec <= 100 /\ 0 <= tm_output rec <= 100.
Proof.
  intros Hsp Hhal Ht Ha Hrun. pose proof (boot_ok brd setpoint wd_reset hal wdt t Hsp Hhal Ht) as H0.
  destruct (readings_run acts _ s H0 (boot_readings _ _ _ _ _ Hhal) Ha Hrun) as [Hs Hr].
  split_and!; [by apply (ao_slot _ s Hs)..|apply (no_y_range _ (ao_node _ s Hs))|apply (no_y_range _ (ao_node _ s Hs))|apply Hr|apply Hr|].
  by apply fill_telemetry_readings.
Qed.

(** ** Divergence *)

(** The invariant. *)
Record within_limits (s : @app B) : Prop := {
  wl_measurement : in_envelope s.(ap_measurement);
  wl_setpoint : reachable_setpoint s.(ap_node).(n_setpoint);
  wl_pid : gov_pid_diverging s.(ap_node).(n_pid) = false;
  wl_clean : clean s.(ap_node).(n_safety)
}.

Lemma within_limits_step s a s' :
  app_ok brd s -> within_limits s -> app_step read brd s a = Some s' -> within_limits s'.
Proof.
  intros Hs [Hm Hsp Hp Hc] H. pose proof (app_step_moves read brd s a s' Hs H) as Hmv.
  assert (Hn : in_envelope (ap_measurement s') /\ n_setpoint (ap_node s') = n_setpoint (ap_node s) /\ gov_pid_diverging (n_pid (ap_node s')) = false).
  { destruct (app_step_numbers s a s' Hs H) as [[(E1 & _ & E3 & _) Hm']|(t & out & _ & E & Hstep)].
    - rewrite E1, E3. split_and!; try done. by destruct Hm' as [-> |].
    - destruct (control_step_ok _ _ t (ao_node _ s Hs) (envelope_bnd _ Hm)) as (n' & z & _ & _ & Hstep' & _ & _ & _ & Esp & _ & _ & Ep & _).
      rewrite Hstep' in Hstep. injection Hstep as <- _. rewrite E, Esp, Ep. split_and!; try done.
      apply step_not_diverging; [apply (no_pid_cfg _ (ao_node _ s Hs))|done..]. }
  destruct Hn as (Hm' & Esp & Hp'). split; [done|by rewrite Esp|done|]. by eapply moves_clean.
Qed.

Lemma within_limits_run acts s s' :
  app_ok brd s -> within_limits s -> Forall act_ok acts -> app_run read brd s acts = Some s' -> app_ok brd s' /\ within_limits s'.
Proof.
  intros Hs Hw Ha. revert s Hs Hw. induction Ha as [|a acts Ha _ IH]; intros s Hs Hw; cbn [app_run]; [by intros [= <-]|].
  destruct (app_step_ok read brd s a Hs Ha) as (s1 & E & Hs1). rewrite E. cbn [mbind option_bind].
  apply IH; [done|exact (within_limits_step _ _ _ Hs Hw E)].
Qed.

Lemma setpoint_castable sp : reachable_setpoint sp -> castable sp.
Proof. intros [Hok Hr]. unfold castable, fbnd, f_unit in *. split; [split; [done|]|]; lia. Qed.

Lemma boot_limits setpoint wd_reset hal wdt t :
  reachable_setpoint setpoint -> (brd.(b_sensor) = true -> is_Some hal) -> within_limits (boot brd setpoint wd_reset hal wdt t).
Proof.
  intros Hsp Hhal. unfold boot. pose proof (sensor_setup_ok brd hal Hhal) as Hset.
  destruct (sensor_setup brd hal) as [[sen bus] ok]. destruct Hset as [-> _].
  split; [by apply (sample_envelope 0)|by destruct wd_reset|by destruct wd_reset|].
  apply step_clean; [done|done|]. by destruct wd_reset.
Qed.

Lemma no_diverge_flag n : driver_bits n.(n_driver_faults) -> clean n.(n_safety) -> ~ has (node_faults n) GOV_FAULT_DIVERGE.
Proof.
  intros [_ Hd] [Hc _] H. rewrite has_spec in H. specialize (H 6 eq_refl). unfold node_faults in H.
  rewrite Z.lor_spec in H. unfold diverged in Hc. rewrite Hc in H. rewrite within_spec in Hd. specialize (Hd 6 H). done.
Qed.

(** Divergence (T5) is out of the plant's reach. Take a set point between -50 and 150, the compile-time 50
    among them, and any run from boot, on any board, whatever the sensor answers and the threads do. The
    measurement the controller sees stays within 0..100, since a sample outside that range is discarded
    and the simulated plant cannot leave it; so the tracking error never exceeds the limit of 150, every control
    step posts a plain tick, and no telemetry record ever carries FAULT_DIVERGE. A runaway plant shows
    as a sensor range fault; what the divergence check can detect is a set point out of reach. *)
Lemma plant_never_diverges setpoint wd_reset hal wdt t acts s :
  reachable_setpoint setpoint -> (brd.(b_sensor) = true -> is_Some hal) -> is_u32 t -> Forall act_ok acts ->
  app_run read brd (boot brd setpoint wd_reset hal wdt t) acts = Some s ->
  0 <= fval s.(ap_measurement) <= 100 * f_unit /\ gov_pid_diverging s.(ap_node).(n_pid) = false /\
  control_event s.(ap_node) s.(ap_measurement) = GOV_EV_TICK /\
  exists rec, locked_fill_telemetry s = Some rec /\ ~ has (tm_fault_flags rec) GOV_FAULT_DIVERGE.
Proof.
  intros Hsp Hhal Ht Ha Hrun. pose proof (boot_ok brd setpoint wd_reset hal wdt t (setpoint_castable _ Hsp) Hhal Ht) as H0.
  destruct (within_limits_run acts _ s H0 (boot_limits _ _ _ _ _ Hsp Hhal) Ha Hrun) as [Hs [Hm Hsp' Hp Hc]].
  split_and!; [apply Hm..|done| |].
  - unfold control_event. by rewrite step_not_diverging by (done || apply (no_pid_cfg _ (ao_node _ s Hs))).
  - destruct (fill_telemetry_flags brd s Hs) as (rec & Hrec & Hf). exists rec. split; [done|]. rewrite Hf.
    apply no_diverge_flag; [apply (ao_driver _ s Hs)|done].
Qed.
End app.

(** A board without a sensor, over control periods of 10 ms. *)
Definition bare : board := mkBoard false false.
Definition period : list action := Elapse 10 :: Timer :: replicate 8 (Run Control).
Definition periods (n : nat) : list action := concat (replicate n period).

Definition sensing : board := mkBoard true false.

(** Six turns of the sensor thread on a bus that answers 42, then a control period. *)
Lemma readings_stay_in_range_witness :
  exists s rec, app_run good_read sensing (boot sensing (f_of_Z 50) false (Some tt) None 5) (replicate 60 (Run LinkRx) ++ periods 3) = Some s /\
    locked_fill_telemetry s = Some rec /\ 0 <= tm_measurement rec <= 100.
Proof.
  assert (Hsp : castable (f_of_Z 50)) by (apply sample_castable; lia).
  assert (Hhal : b_sensor sensing = true -> is_Some (Some tt)) by (intros _; by exists tt).
  assert (Ha : Forall act_ok (replicate 60 (Run LinkRx) ++ periods 3)).
  { apply Forall_app. split; [apply Forall_replicate; done|]. apply Forall_concat, Forall_replicate. repeat constructor. }
  destruct (app_run_ok good_read sensing _ _ (boot_ok sensing (f_of_Z 50) false (Some tt) None 5 Hsp Hhal ltac:(clia)) Ha) as (s & Hrun & _).
  destruct (readings_stay_in_range good_read sensing (f_of_Z 50) false (Some tt) None 5 _ s Hsp Hhal ltac:(clia) Ha Hrun)
    as (_ & _ & _ & rec & Hrec & Hm & _).
  exists s, rec. exact (conj Hrun (conj Hrec Hm)).
Defined.

Lemma plant_never_diverges_witness :
  exists s rec, app_run good_read bare (boot bare (f_of_Z 150) false None None 5) (periods 30) = Some s /\
    locked_fill_telemetry s = Some rec /\ ~ has (tm_fault_flags rec) GOV_FAULT_DIVERGE.
Proof.
  assert (Hsp : reachable_setpoint (f_of_Z 150)).
  { destruct (f_of_Z_exact 150 ltac:(lia)) as [Hok E]. split; [exact Hok|]. rewrite E. unfold f_unit. lia. }
  assert (Hhal : b_sensor bare = true -> is_Some (@None unit)) by discriminate.
  assert (Ha : Forall act_ok (periods 30)) by (apply Forall_concat, Forall_replicate; repeat constructor).
  destruct (app_run_ok good_read bare (periods 30) _ (boot_ok bare (f_of_Z 150) false None None 5 (setpoint_castable _ Hsp) Hhal ltac:(clia)) Ha)
    as (s & Hrun & _).
  destruct (plant_never_diverges good_read bare (f_of_Z 150) false None None 5 (periods 30) s Hsp Hhal ltac:(clia) Ha Hrun)
    as (_ & _ & _ & rec & Hrec & Hf).
  exists s, rec. exact (conj Hrun (conj Hrec Hf)).
Defined.

(** A set point out of reach does trip the check, within 200 ms. *)
Lemma unreachable_setpoint_diverges :
  ((fun s => node_state s.(ap_node)) <$> app_run good_read bare (boot bare (f_of_Z 300) false None None 5) (periods 19)) = Some GOV_ST_RUN /\
  ((fun s => node_state s.(ap_node)) <$> app_run good_read bare (boot bare (f_of_Z 300) false None None 5) (periods 20)) = Some GOV_ST_SAFE_STOP.
Proof. split; by vm_compute. Qed.
