(* ===== verification/Standalone.v ===== *)
(** * Standalone: the whole application on a board with neither sensor nor link (src/main.c)

    The board closes the control loop over the simulated plant.  In every interleaving of the five threads with the
    timer, the node stays in RUN with no fault; and for a set point the actuator can
    hold the measurement reaches the set point and stays there. *)
From S2P Require Import Prelude Faults Safety Crc16 Frame Reliable Arq Telem Ring Health Sensor Float32 Control Node Settle App Posts Watchdog Envelope.

(** ** The node when nothing goes wrong *)

(** In RUN with no cause, showing the faults [f] it booted with. *)
Definition healthy (f : Z) (n : gov_node) : Prop :=
  node_state n = GOV_ST_RUN /\ n.(n_active_causes) = 0 /\ n.(n_driver_faults) = 0 /\ (n_safety n).(s_faults) = f.

Lemma healthy_report f n src t : (forall g, src <> SrcSensor g) -> healthy f n -> report n src true t = n.
Proof.
  intros Hsrc (Hst & Hc & _). assert (Hr : resync_shadow n = n) by (apply resync_keeps; by rewrite Hst).
  destruct src as [g| |]; [by destruct (Hsrc g)|..]; cbn [report]; unfold node_note_link, node_note_timing, note_cause; by rewrite Hc.
Qed.

Lemma control_step_healthy f n m t :
  node_ok n -> reachable_setpoint n.(n_setpoint) -> in_envelope m -> healthy f n -> (n_safety n).(s_now_ms) <= t ->
  exists n' out, node_control_step n m t = Some (n', out) /\ healthy f n' /\ (n_safety n').(s_now_ms) = t /\
    (n_pid n', n_plant n', gov_plant_output (n_plant n')) = loop_step n.(n_setpoint) (n.(n_pid), n.(n_plant), m).
Proof.
  intros Hn Hsp Hm (Hst & Hc & Hd & Hf) Ht.
  destruct (control_step_in_run n m t Hn (envelope_bnd _ Hm) Hst Ht) as (n' & out & Hstep & _ & Hst' & Hnow & _ & Hloop).
  { pose proof (step_not_diverging n m (no_pid_cfg _ Hn) Hsp Hm) as H. cbn [loop_step]. by destruct (gov_pid_step _ _ _ _). }
  exists n', out. split_and!; try done.
  destruct (control_step_shadow n m t n' out Hstep) as [E1 E2]; [by rewrite Hst'|].
  destruct (control_step_ok n m t Hn (envelope_bnd _ Hm)) as (n2 & z & _ & _ & Hstep2 & _ & _ & _ & _ & _ & _ & _ & _ & Es).
  rewrite Hstep2 in Hstep. injection Hstep as -> _.
  unfold control_event in Es. rewrite step_not_diverging in Es by (done || apply (no_pid_cfg _ Hn)).
  split_and!; [done|congruence..|]. by rewrite Es, safety_step_run_tick.
Qed.

(** ** The invariant *)
Section app.
Context {B : Type} (read : bus_read B) `{!BusLaws read} (brd : board).
Hypotheses (Hsensor : brd.(b_sensor) = false) (Huart : brd.(b_uart) = false).

(** There is no UART to interrupt; time does not go back. *)
Definition quiet_act (a : action) : Prop :=
  match a with Isr _ _ => False | Elapse d => 0 <= d | _ => True end.

Record alone (f : Z) (s : @app B) : Prop := {
  al_node : healthy f s.(ap_node);
  al_now : (n_safety s.(ap_node)).(s_now_ms) <= s.(ap_now);
  al_idle : (l_tx s.(ap_link)).(tx_state) = GOV_TX_IDLE;
  al_quiet : s.(ap_byteq) = [] /\ s.(ap_slot).(ss_fresh) = false;
  al_control : match s.(ap_control) with CT_step t => (n_safety s.(ap_node)).(s_now_ms) <= t <= s.(ap_now) | _ => True end;
  al_rx : match s.(ap_link_rx) with RX_get | RX_stamp | RX_alive _ => True | _ => False end;
  al_tx : match s.(ap_link_tx) with
          | TX_commit _ act => act = PollNone
          | TX_report ok | TX_note ok _ | TX_clear ok => ok = true
          | _ => True
          end;
  al_telemetry : match s.(ap_telemetry) with TM_send _ _ _ _ | TM_out _ _ _ => False | _ => True end;
  al_health : match s.(ap_health_th) with HE_note ok _ => ok = true | _ => True end
}.

(** What the other threads' steps leave alone. *)
Definition loop_same (s s' : @app B) : Prop :=
  s'.(ap_node) = s.(ap_node) /\ s'.(ap_measurement) = s.(ap_measurement) /\ s'.(ap_control) = s.(ap_control) /\ s'.(ap_now) = s.(ap_now).

Lemma alone_link_rx f s s' : alone f s -> link_rx_thread read brd s = Some s' -> alone f s' /\ loop_same s s'.
Proof.
  intros [Hn Hnow Hi [Hq Hsl] Hc Hrx Htx Htm Hhe]. unfold link_rx_thread, note_alive, after_frame. rewrite Hq, Hsensor.
  destruct (ap_link_rx s) as [|outs|ev t outs| |v| |sflags ok t| |t]; try done; intros H; simplify_option_eq; (split; [split|]; done).
Qed.

Lemma alone_link_tx f s s' : alone f s -> link_tx_thread brd s = Some s' -> alone f s' /\ loop_same s s'.
Proof.
  intros [Hn Hnow Hi [Hq Hsl] Hc Hrx Htx Htm Hhe]. unfold link_tx_thread, wire_more. rewrite Huart. cbn [andb].
  assert (Hrep : forall t, locked_note_link true t s = set_ap_node (ap_node s) s).
  { intros t. unfold locked_note_link. f_equal. by apply (healthy_report f _ SrcLink). }
  destruct (ap_link_tx s) as [|t|t act|i n|ok|ok t|ok]; try subst act; try subst ok; rewrite ?Hrep; cbn -[poll_decide];
    rewrite ?Hi; intros [= <-]; (split; [split|]); cbn; try done.
  unfold poll_decide. by rewrite Hi.
Qed.

Lemma alone_telemetry f s s' : alone f s -> telemetry_thread brd s = Some s' -> alone f s' /\ loop_same s s'.
Proof.
  intros [Hn Hnow Hi [Hq Hsl] Hc Hrx Htx Htm Hhe]. unfold telemetry_thread. rewrite Huart.
  destruct (ap_telemetry s) as [|rec|rec|payload n t rec|i n rec|rec]; try done.
  1: destruct (locked_fill_telemetry s); [|done].
  2: destruct (gov_telem_ring_push _ _) as [[r b]|]; [|done].
  4: destruct (_ =? 0).
  all: cbn; intros [= <-]; (split; [split|]; try done).
Qed.

Lemma alone_health f s s' : app_ok brd s -> alone f s -> health_thread s = Some s' -> alone f s' /\ loop_same s s'.
Proof.
  intros Hs [Hn Hnow Hi [Hq Hsl] Hc Hrx Htx Htm Hhe]. unfold health_thread, note_alive, watchdog_feed.
  assert (Hrep : forall t, locked_note_timing true t s = set_ap_node (ap_node s) s).
  { intros t. unfold locked_note_timing. f_equal. by apply (healthy_report f _ SrcTiming). }
  destruct (ap_health_th s) as [|t| |ok t| |t]; try subst ok; rewrite ?Hrep.
  2: destruct (gov_health_note_alive _ _ _); [|done].
  6: destruct (gov_health_feed_watchdog _ _ _) as [[|]|]; [destruct (0 <=? ap_wdt s)|..|done].
  all: rewrite ?(timing_fault_unreachable brd s Hs); cbn; intros [= <-]; (split; [split|]; done).
Qed.

(** ** The control thread *)

(** The loop's numbers: after [k] steps they are those of [loop_at], and the thread has or will have read
    the plant's output. *)
Definition shown (s : @app B) : float :=
  match s.(ap_control) with CT_plant => gov_plant_output s.(ap_node).(n_plant) | _ => s.(ap_measurement) end.
Definition numbers (s : @app B) : gov_pid * gov_plant * float := (s.(ap_node).(n_pid), s.(ap_node).(n_plant), shown s).

(** The control steps of a run. *)
Definition steps_control (s : @app B) (a : action) : nat :=
  match a, s.(ap_control) with Run Control, CT_step _ => 1 | _, _ => 0 end.
Fixpoint control_steps (s : @app B) (acts : list action) : nat :=
  match acts with
  | [] => 0
  | a :: acts => steps_control s a + match app_step read brd s a with Some s' => control_steps s' acts | None => 0 end
  end.

Definition loop_advances (s s' : @app B) (k : nat) : Prop :=
  numbers s' = Nat.iter k (loop_step s.(ap_node).(n_setpoint)) (numbers s).

Lemma alone_control f s s' :
  app_ok brd s -> within_limits s -> alone f s -> control_thread brd s = Some s' ->
  alone f s' /\ s'.(ap_now) = s.(ap_now) /\ loop_advances s s' (steps_control s (Run Control)).
Proof.
  intros Hs [Hm Hsp Hp _] [Hn Hnow Hi [Hq Hsl] Hc Hrx Htx Htm Hhe].
  unfold control_thread, loop_advances, numbers, shown, steps_control, note_alive, gov_slot_get, locked_control_step.
  rewrite Hsl, Hsensor. destruct (ap_control s) as [| | |t| | | |t] eqn:E.
  4: { destruct (control_step_healthy f _ _ t (ao_node _ s Hs) Hsp Hm Hn (proj1 Hc)) as (n' & out & -> & Hn' & Hnow' & Hloop).
       cbn [mbind option_bind]. intros [= <-]. split; [split; cbn; try done; lia|]. split; [done|]. exact Hloop. }
  7: destruct (gov_health_note_alive _ _ _); [|done].
  1: destruct (ap_tick s).
  all: cbn; intros [= <-]; (split; [split; cbn; rewrite ?E; done || lia|cbn; rewrite ?E; done]).
Qed.

(** ** Runs *)
Lemma loop_advances_same s s' : loop_same s s' -> loop_advances s s' 0.
Proof. intros (E1 & E2 & E3 & _). unfold loop_advances, numbers, shown. by rewrite E1, E2, E3. Qed.

Lemma alone_step f s a s' :
  app_ok brd s -> within_limits s -> alone f s -> quiet_act a -> s.(ap_now) + elapsed [a] < 2 ^ 32 ->
  app_step read brd s a = Some s' ->
  alone f s' /\ s'.(ap_now) = s.(ap_now) + elapsed [a] /\ loop_advances s s' (steps_control s a).
Proof.
  intros Hs Hw Hal Ha Ht. destruct a as [[| | | |]| |ready fifo|d]; cbn [app_step elapsed foldr steps_control quiet_act] in *.
  - intros H. rewrite Z.add_0_r. by apply alone_control.
  - intros H. rewrite Z.add_0_r. destruct (alone_link_rx f s s' Hal H) as [Hal' Hl]. split_and!; [done|apply Hl|by apply loop_advances_same].
  - intros H. rewrite Z.add_0_r. destruct (alone_link_tx f s s' Hal H) as [Hal' Hl]. split_and!; [done|apply Hl|by apply loop_advances_same].
  - intros H. rewrite Z.add_0_r. destruct (alone_telemetry f s s' Hal H) as [Hal' Hl]. split_and!; [done|apply Hl|by apply loop_advances_same].
  - intros H. rewrite Z.add_0_r. destruct (alone_health f s s' Hs Hal H) as [Hal' Hl]. split_and!; [done|apply Hl|by apply loop_advances_same].
  - intros [= <-]. rewrite Z.add_0_r. split_and!; [destruct Hal; by split|done..].
  - done.
  - intros [= <-]. pose proof (ao_now _ s Hs) as Hn. assert (E : u32 (ap_now s + d) = ap_now s + d) by (apply u32_small; clia).
    destruct Hal. split_and!; [split; try done; cbn; rewrite E; [lia|destruct (ap_control s); done || lia]|cbn; lia|done].
Qed.

Lemma setpoint_kept s a s' :
  app_ok brd s -> within_limits s -> app_step read brd s a = Some s' -> n_setpoint s'.(ap_node) = n_setpoint s.(ap_node).
Proof.
  intros Hs Hw H. destruct (app_step_numbers read brd s a s' Hs H) as [[(_ & _ & E & _) _]|(t & out & _ & _ & Hstep)]; [exact E|].
  destruct (control_step_ok _ _ t (ao_node _ s Hs) (envelope_bnd _ (wl_measurement s Hw))) as (n' & z & _ & _ & Hstep' & _ & _ & _ & E & _).
  rewrite Hstep' in Hstep. injection Hstep as <- _. exact E.
Qed.

Lemma quiet_act_ok a : quiet_act a -> act_ok a.
Proof. by destruct a. Qed.

Lemma elapsed_nonneg acts : Forall quiet_act acts -> 0 <= elapsed acts.
Proof. induction 1 as [|a acts Ha _ IH]; [done|]. unfold elapsed in *. destruct a; cbn in *; lia. Qed.

Lemma alone_run f acts : forall s s',
  app_ok brd s -> within_limits s -> alone f s -> Forall quiet_act acts -> s.(ap_now) + elapsed acts < 2 ^ 32 ->
  app_run read brd s acts = Some s' -> alone f s' /\ loop_advances s s' (control_steps s acts).
Proof.
  induction acts as [|a acts IH]; intros s s' Hs Hw Hal Hq Ht; cbn [app_run control_steps].
  { intros [= <-]. by split. }
  apply Forall_cons in Hq as [Ha Hq]. destruct (app_step_ok read brd s a Hs (quiet_act_ok a Ha)) as (s1 & E & Hs1).
  assert (Hel : elapsed (a :: acts) = elapsed [a] + elapsed acts) by (unfold elapsed; destruct a; cbn; lia).
  pose proof (elapsed_nonneg acts Hq) as Hpos.
  destruct (alone_step f s a s1 Hs Hw Hal Ha ltac:(lia) E) as (Hal1 & Hnow & Hadv).
  rewrite E. cbn [mbind option_bind]. intros H.
  destruct (IH s1 s' Hs1 (within_limits_step _ _ _ _ _ Hs Hw E) Hal1 Hq ltac:(lia) H) as [Hal' Hadv']. split; [done|].
  unfold loop_advances in *. rewrite Hadv', Hadv, (setpoint_kept s a s1 Hs Hw E), Nat.add_comm. symmetry. apply Nat.iter_add.
Qed.

(** ** Every period is served *)

(** The turns the control thread gets. *)
Fixpoint control_turns (acts : list action) : nat :=
  match acts with [] => 0 | Run Control :: acts => S (control_turns acts) | _ :: acts => control_turns acts end.

(** The turns until it has done a control step, once the timer has fired. *)
Definition due (s : @app B) : nat :=
  match s.(ap_control) with
  | CT_step _ => 1 | CT_time => 2 | CT_slot => 3 | CT_wait => 4
  | CT_alive _ => 5 | CT_stamp => 6 | CT_deadline => 7 | CT_plant => 8
  end.
Definition released (s : @app B) : Prop :=
  s.(ap_tick) = true \/ match s.(ap_control) with CT_slot | CT_time | CT_step _ => True | _ => False end.

Lemma control_due s s' :
  released s -> control_thread brd s = Some s' -> steps_control s (Run Control) = 1%nat \/ released s' /\ S (due s') = due s.
Proof.
  intros Hr. unfold control_thread, released, due, steps_control, gov_slot_get, note_alive, locked_control_step in *.
  destruct (ap_control s) eqn:E; try (by left); intros H; right; repeat (progress simplify_option_eq || case_match); cbn; rewrite ?E;
    (split; [tauto|done]) || by destruct Hr.
Qed.

Lemma step_served acts : forall s,
  app_ok brd s -> Forall act_ok acts -> released s -> (due s <= control_turns acts)%nat -> (1 <= control_steps s acts)%nat.
Proof.
  induction acts as [|a acts IH]; intros s Hs Ha Hr Hd; [unfold due in Hd; cbn in Hd; destruct (ap_control s); lia|].
  apply Forall_cons in Ha as [Ha Hacts]. destruct (app_step_ok read brd s a Hs Ha) as (s1 & E & Hs1). cbn [control_steps]. rewrite E.
  assert (Hc : a = Run Control \/ a <> Run Control) by (destruct a as [[| | | |]| | |]; (by left) || by right). destruct Hc as [->|Hc].
  - cbn [app_step] in E. destruct (control_due s s1 Hr E) as [-> | [Hr1 Hd1]]; [lia|]. cbn [control_turns] in Hd.
    pose proof (IH s1 Hs1 Hacts Hr1 ltac:(lia)). lia.
  - destruct (other_control read brd s a s1 Hc E) as [E1 E2].
    assert (Hr1 : released s1) by (unfold released in *; rewrite E1; tauto).
    assert (Hd1 : due s1 = due s) by (unfold due; by rewrite E1).
    replace (control_turns (a :: acts)) with (control_turns acts) in Hd by (by destruct a as [[| | | |]| | |]).
    pose proof (IH s1 Hs1 Hacts Hr1 ltac:(lia)). lia.
Qed.

(** The timer fires, and the control thread gets a whole loop's turns before the round ends. *)
Definition served (round : list action) : Prop := exists rest, round = Timer :: rest /\ (8 <= control_turns rest)%nat.

Lemma control_steps_app acts1 : forall s acts2 s1,
  app_run read brd s acts1 = Some s1 -> control_steps s (acts1 ++ acts2) = (control_steps s acts1 + control_steps s1 acts2)%nat.
Proof.
  induction acts1 as [|a acts1 IH]; intros s acts2 s1; cbn [app_run control_steps]; [by intros [= <-]|].
  destruct (app_step read brd s a) as [s2|] eqn:E; [|done]. cbn [mbind option_bind]. intros H.
  change ((a :: acts1) ++ acts2) with (a :: (acts1 ++ acts2)). cbn [control_steps]. rewrite E, (IH s2 acts2 s1 H). lia.
Qed.

Lemma rounds_served rounds : forall s,
  app_ok brd s -> Forall act_ok (concat rounds) -> Forall served rounds -> (length rounds <= control_steps s (concat rounds))%nat.
Proof.
  induction rounds as [|round rounds IH]; intros s Hs Ha Hr; [cbn; lia|]. cbn [concat] in *.
  apply Forall_app in Ha as [Ha1 Ha2]. apply Forall_cons in Hr as [(rest & -> & Hrest) Hr].
  destruct (app_run_ok read brd (Timer :: rest) s Hs Ha1) as (s1 & E & Hs1).
  rewrite (control_steps_app _ _ _ _ E). pose proof (IH s1 Hs1 Ha2 Hr).
  assert (1 <= control_steps s (Timer :: rest))%nat; [|cbn [length]; lia].
  cbn [control_steps app_step]. apply Forall_cons in Ha1 as [_ Ha1].
  destruct (app_step_ok read brd s Timer Hs I) as (s2 & E2 & Hs2). injection E2 as <-.
  pose proof (step_served rest _ Hs2 Ha1 (or_introl eq_refl)) as Hst. unfold due in Hst. cbn [ap_control set_ap_tick] in Hst.
  destruct (ap_control s); specialize (Hst ltac:(lia)); lia.
Qed.

(** ** From boot *)
Lemma loop_from_plant sp k : gov_plant_output (loop_from sp k).1.2 = (loop_from sp k).2.
Proof. pose proof (loop_from_wired sp k) as H. destruct (loop_from sp k) as [[p pl] m]. by destruct H as (_ & _ & _ & H). Qed.

Definition boot_faults (wd_reset : bool) : Z := if wd_reset then GOV_FAULT_WATCHDOG else GOV_FAULT_NONE.

Lemma selftest_step t s :
  s.(s_state) = GOV_ST_INIT -> s.(s_now_ms) <= t -> safety_step GOV_EV_SELFTEST_OK t s = enter GOV_ST_RUN t (set_s_now_ms t s).
Proof.
  intros Est Hle. rewrite safety_step_plain by done. unfold dispatch. cbn. rewrite Est. unfold service_timers. by rewrite enter_state.
Qed.

Lemma boot_alone setpoint wd_reset hal wdt t :
  is_u32 t -> alone (boot_faults wd_reset) (boot brd setpoint wd_reset hal wdt t).
Proof.
  intros Ht. unfold boot, sensor_setup. rewrite Hsensor. set (n0 := if wd_reset then _ else _).
  assert (E : n_safety (node_selftest_ok n0 t) = enter GOV_ST_RUN t (set_s_now_ms t (n_safety n0))).
  { apply (selftest_step t (n_safety n0)); unfold n0; destruct wd_reset; try done; cbn; clia. }
  split; try done; cbn [ap_node ap_now locked_selftest_ok set_ap_node].
  - unfold healthy, node_state. rewrite E. unfold n0. by destruct wd_reset.
  - rewrite E. by rewrite enter_now.
Qed.

Lemma boot_numbers setpoint wd_reset hal wdt t :
  numbers (boot brd setpoint wd_reset hal wdt t) = loop_start /\ n_setpoint (boot brd setpoint wd_reset hal wdt t).(ap_node) = setpoint.
Proof. unfold boot, sensor_setup, numbers. rewrite Hsensor. by destruct wd_reset. Qed.

(** C32: On a board without peripherals the node runs, healthy, and settles for ever, at every integer set
    point from 3 to 96, the compile-time 50 or a persisted one. Take any interleaving from boot
    of the five threads and the timer, up to the wrap of the 32-bit uptime. The node is in RUN at every
    moment, and telemetry says so: its fault word is empty but for a watchdog reset that preceded the
    boot. The plant never exceeds the set point by more than half a unit. If the timer has fired 38 times or more
    (78 for a set point above 50), each time followed by a full loop's turns for the control thread,
    then the plant is at most one unit below the set point - 0.38 s (0.78 s) after boot and at every moment after,
    although the truncation of the command to an integer and the rounding of binary32 keep it from coming to
    rest. *)
Theorem standalone_settles sp wd_reset hal wdt t acts :
  3 <= sp <= 96 -> is_u32 t -> Forall quiet_act acts -> t + elapsed acts < 2 ^ 32 ->
  let start := boot brd (f_of_Z sp) wd_reset hal wdt t in
  exists s rec, app_run read brd start acts = Some s /\ node_state s.(ap_node) = GOV_ST_RUN /\
    locked_fill_telemetry s = Some rec /\ tm_fault_flags rec = boot_faults wd_reset /\
    let y := fval (gov_plant_output s.(ap_node).(n_plant)) in
    0 <= y /\ 2 * y <= (2 * sp + 1) * f_unit /\
    forall rounds, acts = concat rounds -> Forall served rounds -> (settling_time sp <= length rounds)%nat -> (sp - 1) * f_unit <= y.
Proof.
  intros Hsp3 Ht Hq Hel start.
  assert (Hsp : reachable_setpoint (f_of_Z sp)).
  { destruct (f_of_Z_exact sp ltac:(lia)) as [Hok E]. split; [exact Hok|]. rewrite E. unfold f_unit. lia. }
  assert (Hhal : b_sensor brd = true -> is_Some hal) by by rewrite Hsensor.
  assert (H0 : app_ok brd start) by (apply boot_ok; [by apply setpoint_castable|done|done]).
  assert (Ha : Forall act_ok acts) by (eapply Forall_impl; [exact Hq|exact quiet_act_ok]).
  destruct (app_run_ok read brd acts start H0 Ha) as (s & Hrun & Hs).
  assert (Hnow : ap_now start = t) by (unfold start, boot, sensor_setup; by rewrite Hsensor).
  destruct (alone_run _ acts start s H0 (boot_limits brd _ _ _ _ _ Hsp Hhal) (boot_alone _ _ _ _ _ Ht) Hq ltac:(lia) Hrun) as [Hal Hadv].
  destruct (fill_telemetry_flags brd s Hs) as (rec & Hrec & Hf). destruct (al_node _ s Hal) as (Hst & _ & Hd & Hfa).
  exists s, rec. split; [exact Hrun|]. split; [exact Hst|]. split; [exact Hrec|]. split; [rewrite Hf; unfold node_faults; by rewrite Hd, Hfa, Z.lor_0_r|].
  intros y. unfold loop_advances in Hadv. destruct (boot_numbers (f_of_Z sp) wd_reset hal wdt t) as [E1 E2].
  fold start in E1, E2. rewrite E1, E2 in Hadv. fold (loop_from sp (control_steps start acts)) in Hadv.
  assert (Hy : y = fval (loop_from sp (control_steps start acts)).2) by (rewrite <-loop_from_plant, <-Hadv; done).
  pose proof (settled_forever sp Hsp3 (control_steps start acts)) as [Hhi Hlo]. rewrite <-Hy in Hhi, Hlo.
  split; [apply (no_y_range _ (ao_node _ s Hs))|]. split; [exact Hhi|].
  intros rounds -> Hr Hlen. apply Hlo. pose proof (rounds_served rounds start H0 Ha Hr). lia.
Qed.
End app.

(** 80 periods of 10 ms in which every thread runs. *)
Definition busy_period : list action :=
  [Timer; Run LinkRx; Run Health; Elapse 10; Run Telemetry] ++ concat (replicate 8 [Run Control; Run LinkTx]) ++ [Run Telemetry].
Definition busy_rounds : list (list action) := replicate 80 busy_period.

Lemma standalone_settles_witness :
  exists s, app_run good_read bare (boot bare (f_of_Z 75) true None None 5) (concat busy_rounds) = Some s /\
    node_state s.(ap_node) = GOV_ST_RUN /\ 74 * f_unit <= fval (gov_plant_output s.(ap_node).(n_plant)) /\
    2 * fval (gov_plant_output s.(ap_node).(n_plant)) <= 151 * f_unit.
Proof.
  assert (Hq : Forall quiet_act (concat busy_rounds)).
  { apply Forall_concat, Forall_replicate. unfold busy_period. repeat constructor. cbn. lia. }
  assert (Hr : Forall served busy_rounds).
  { apply Forall_replicate. eexists. split; [reflexivity|]. cbn. lia. }
  destruct (standalone_settles good_read bare eq_refl eq_refl 75 true None None 5 (concat busy_rounds) ltac:(lia) ltac:(clia) Hq)
    as (s & rec & Hrun & Hst & _ & _ & _ & Hhi & Hlo); [by vm_compute|].
  exists s. split; [exact Hrun|]. split; [exact Hst|]. split; [|exact Hhi].
  apply (Hlo busy_rounds eq_refl Hr). unfold busy_rounds. rewrite length_replicate. cbn. lia.
Defined.
