(* ===== verification/Outage.v ===== *)
(** * Outage: a sensor bus that dies, from the transfer to the actuator (src/main.c over the whole stack)

    From the moment no transfer succeeds any more, whatever kind of failure it is, the link thread takes a bounded
    number of steps to report the sensor unhealthy; the node is then out of RUN and stays so. *)
From S2P Require Import Prelude Faults Safety Crc16 Frame Reliable Arq Telem Ring Health Sensor Float32 Control Node App Posts Shutdown Envelope.

(** ** A cause held against the node *)

(** Actuation is inhibited, or the cause is on record. *)
Definition held (c : Z) (n : gov_node) : Prop := parked n \/ n.(n_active_causes) .& c <> 0.

Lemma init_parked n : node_state n = GOV_ST_INIT -> parked n.
Proof. unfold node_state, parked, gov_safety_actuation_allowed. by intros ->. Qed.

(** A move that keeps the cause on record, unless it ends in INIT. *)
Lemma held_moves c n n' :
  moves n n' -> (node_state n' <> GOV_ST_INIT -> n.(n_active_causes) .& c <> 0 -> n'.(n_active_causes) .& c <> 0) ->
  held c n -> held c n'.
Proof.
  intros Hm Hc [Hp|Ha]; [left; by eapply moves_parked|].
  destruct (decide (node_state n' = GOV_ST_INIT)) as [Hi|Hi]; [left; by apply init_parked|right; by apply Hc].
Qed.

Lemma resync_held c n : n.(n_active_causes) .& c <> 0 -> held c (resync_shadow n).
Proof.
  intros Hc. destruct (decide (node_state n = GOV_ST_INIT)) as [Hi|Hi].
  - left. apply init_parked. unfold node_state in *. by rewrite (proj1 (resync_frame n)).
  - right. by rewrite resync_keeps.
Qed.

(** Causes are single bits. *)
Lemma cause_distinct a c c' :
  0 <= a < 8 -> c = 1 \/ c = 2 \/ c = 4 -> c' = 1 \/ c' = 2 \/ c' = 4 ->
  (a .| c) .& c <> 0 /\ (a .& c <> 0 -> (a .| c') .& c <> 0 /\ (c <> c' -> (a .& not32 c') .& c <> 0)).
Proof.
  intros Ha Hc Hc'.
  assert (a = 0 \/ a = 1 \/ a = 2 \/ a = 3 \/ a = 4 \/ a = 5 \/ a = 6 \/ a = 7) as Hcases by lia. clear Ha.
  destruct Hcases as [-> | [-> | [-> | [-> | [-> | [-> | [-> | ->]]]]]]]; destruct Hc as [-> | [-> | ->]], Hc' as [-> | [-> | ->]];
    vm_compute; intuition congruence.
Qed.

Lemma report_bad_held n src t : shadow_core n -> held (src_cause src) (report n src false t).
Proof.
  intros Hn. rewrite report_unhealthy. apply resync_held.
  destruct (cause_distinct (n_active_causes n) (src_cause src) 1 (sh_causes n Hn) (src_cause_cases src) (or_introl eq_refl)) as [H _].
  by destruct src.
Qed.

(** What a report leaves on record. *)
Lemma note_cause_record n c' ev ok t :
  let a' := n_active_causes (note_cause n c' ev ok t) in
  node_state (note_cause n c' ev ok t) <> GOV_ST_INIT ->
  a' = n.(n_active_causes) .| c' \/ a' = n.(n_active_causes) .& not32 c' \/ a' = n.(n_active_causes).
Proof.
  cbv zeta. unfold note_cause. set (q := if negb ok then _ else _). intros Hst.
  assert (Hq : resync_shadow q = q).
  { apply resync_keeps. intros Hi. apply Hst. unfold node_state in *. by rewrite (proj1 (resync_frame q)). }
  rewrite Hq. unfold q. destruct ok; cbn [negb].
  - clear. destruct (n_active_causes n .& c' =? 0); cbn [negb]; [by right; right|]. right. left. by destruct (_ =? 0).
  - left. by destruct (_ && _).
Qed.

(** Another source's report, whatever it says. *)
Lemma report_other_held c n src ok t :
  shadow_core n -> c = 1 \/ c = 2 \/ c = 4 -> c <> src_cause src -> held c n -> held c (report n src ok t).
Proof.
  intros Hn Hc Hne Hh. apply (held_moves c n); [apply report_moves| |done]. intros Hst Ha.
  destruct (cause_distinct (n_active_causes n) c (src_cause src) (sh_causes n Hn) Hc (src_cause_cases src)) as (_ & H).
  specialize (H Ha) as [Hor Hand]. specialize (Hand Hne).
  assert (Hrec : exists m, n_active_causes m = n_active_causes n /\
    exists ev, report n src ok t = note_cause m (src_cause src) ev ok t).
  { destruct src; cbn [report src_cause]; unfold node_note_sensor, node_note_link, node_note_timing; eexists; (split; [|by eexists]);
      repeat case_match; done. }
  destruct Hrec as (m & Em & ev & E). rewrite E in *. destruct (note_cause_record m _ _ _ _ Hst) as [-> | [-> | ->]]; by rewrite Em.
Qed.

Lemma post_held c n ev t : posted n ev -> held c n -> held c (node_post_event n ev t).
Proof.
  intros Hev Hh. unfold node_post_event. destruct Hh as [Hp|Ha]; [left|by apply resync_held].
  eapply moves_parked; [apply resync_moves, sm_moves, Hev|done].
Qed.

Lemma control_held c n m t n' out :
  node_control_step n m t = Some (n', out) -> moves n n' -> held c n -> held c n'.
Proof.
  intros Hstep Hm Hh. apply (held_moves c n); [done| |done]. intros Hst. by rewrite (proj1 (control_step_shadow _ _ _ _ _ Hstep Hst)).
Qed.

(** ** Transfers on a dead bus *)
Section bus.
Context {B : Type} (read : bus_read B) (dead : B -> Prop).

(** Once dead, it never answers a transfer: NAK, no data, or an error of any kind. *)
Definition never_answers : Prop :=
  forall b addr reg len, dead b -> dead (read b addr reg len).1.1 /\ (read b addr reg len).1.2 <> GOV_BUS_OK.

Lemma retry_dead (Hd : never_answers) cfg fuel : forall b k b' st buf,
  dead b -> retry_loop read cfg fuel b k = Some (b', st, buf) -> dead b' /\ st <> GOV_BUS_OK.
Proof.
  induction fuel as [|fuel IH]; intros b k b' st buf Hb; [done|]. cbn [retry_loop].
  destruct (Hd b (cs_addr cfg) (cs_reg cfg) (cs_read_len cfg) Hb) as [H1 H2].
  destruct (read b _ _ _) as [[b1 st1] buf1]. cbn in H1, H2. destruct (negb _); [by intros [= <- <- <-]|].
  destruct (_ <=? _); [by apply IH|by intros [= <- <- <-]].
Qed.

Definition faulted (s : gov_sensor) : Prop := gov_sensor_health s = GOV_SENSOR_FAULTED.

Lemma faulted_flags s : faulted s <-> s.(sen_flags) <> 0.
Proof. unfold faulted, gov_sensor_health, GOV_SFLAG_NONE. destruct (Z.eqb_spec (sen_flags s) 0); split; done || (by intros H; congruence). Qed.

(** The polls left until the driver reports the sensor faulted. *)
Definition polls_left (s : gov_sensor) : nat := Nat.max 1 (Z.to_nat (5 - s.(sen_nodata_cnt))).

Lemma dispatch_failed s slot st buf s' slot' :
  s.(sen_cfg) = sensor_cfg -> 0 <= s.(sen_nodata_cnt) -> st <> GOV_BUS_OK -> sensor_dispatch s slot st buf = Some (s', slot') ->
  faulted s' \/ ~ faulted s /\ (S (polls_left s') <= polls_left s)%nat.
Proof.
  intros Hcfg Hc Hst. rewrite !faulted_flags. unfold sensor_dispatch. rewrite Hcfg. cbn [cs_dropout_limit sensor_cfg].
  destruct st; try done; try (intros [= <- <-]; left; cbn; rewrite Z.lor_eq_0_iff; by intros []).
  destruct (Z.ltb_spec (sen_nodata_cnt s) 5) as [Hlt|Hge]; cbn [sen_nodata_cnt set_sen_nodata_cnt sen_cfg];
    rewrite Hcfg; cbn [cs_dropout_limit sensor_cfg].
  - rewrite u16_small by clia. destruct (Z.leb_spec 5 (sen_nodata_cnt s + 1)); intros [= <- <-].
    + left. cbn. rewrite Z.lor_eq_0_iff. by intros [].
    + destruct (decide (sen_flags s = 0)) as [Hz|Hz]; [right|by left]. split; [by intros ?|]. unfold polls_left. cbn. lia.
  - rewrite (proj2 (Z.leb_le _ _) Hge). intros [= <- <-]. left. cbn. rewrite Z.lor_eq_0_iff. by intros [].
Qed.
End bus.

(** ** The application on a dead bus *)
Section app.
Context {B : Type} (read : bus_read B) `{!BusLaws read} (brd : board) (dead : B -> Prop).
Hypotheses (Hsensor : brd.(b_sensor) = true) (Hdead : never_answers read dead).

(** The report that has been sampled and not yet posted. *)
Definition good_report_pending (s : @app B) : bool := match s.(ap_link_rx) with RX_note _ ok _ => ok | _ => false end.

(** No step but the post of a healthy sensor report takes the cause off the record. *)
Lemma app_step_held s a s' :
  app_ok brd s -> (a = Run LinkRx -> good_report_pending s = false) -> app_step read brd s a = Some s' ->
  held GOV_CAUSE_SENSOR s.(ap_node) -> held GOV_CAUSE_SENSOR s'.(ap_node).
Proof.
  intros Hs Hg H. pose proof (proj1 (ao_shadow _ s Hs)) as Hsh. pose proof (app_step_moves read brd s a s' Hs H) as Hm.
  assert (Hc : GOV_CAUSE_SENSOR = 1 \/ GOV_CAUSE_SENSOR = 2 \/ GOV_CAUSE_SENSOR = 4) by by left.
  destruct a as [[| | | |]| |ready fifo|d]; cbn [app_step] in H.
  - unfold control_thread, gov_slot_get, note_alive, locked_control_step in H. destruct (ap_control s) as [| | |t| | | |t].
    4: { destruct (node_control_step _ _ _) as [[n out]|] eqn:E; [|done]. injection H as <-. by eapply control_held. }
    all: repeat (progress simplify_option_eq || case_match); done.
  - unfold link_rx_thread, note_alive, link_wire_out in H. unfold good_report_pending in Hg. pose proof (ao_link_rx _ s Hs) as Hpc.
    destruct (ap_link_rx s) as [|outs|ev t outs| |v| |sflags ok t| |t]; cbn in Hpc.
    3: { injection H as <-. apply post_held. by destruct Hpc as [[-> | ->] _]. }
    6: { injection H as <-. rewrite (Hg eq_refl). intros _. apply (report_bad_held _ (SrcSensor sflags) t Hsh). }
    all: repeat (progress simplify_option_eq || case_match); done.
  - unfold link_tx_thread, link_wire_out in H. destruct (ap_link_tx s) as [|t|t act|i n|ok|ok t|ok].
    6: { injection H as <-. by apply (report_other_held _ _ SrcLink). }
    all: repeat (progress simplify_option_eq || case_match); done.
  - unfold telemetry_thread, link_wire_out in H. destruct (ap_telemetry s); repeat (progress simplify_option_eq || case_match); done.
  - unfold health_thread, note_alive, watchdog_feed in H. destruct (ap_health_th s) as [|t| |ok t| |t].
    4: { injection H as <-. by apply (report_other_held _ _ SrcTiming). }
    all: repeat (progress simplify_option_eq || case_match); done.
  - by injection H as <-.
  - injection H as <-. unfold link_uart_isr. by case_match.
  - by injection H as <-.
Qed.

(** *** How far the report is *)

(** Steps of the link thread until it has polled, and until it has posted what it polled. *)
Definition to_poll (pc : link_rx_pc) : nat :=
  match pc with
  | RX_poll => 1 | RX_outs outs => 2 + cost outs | RX_post _ _ outs => 3 + cost outs | RX_get => 15
  | RX_alive _ => 16 | RX_stamp => 17 | RX_note _ _ _ => 18 | RX_report => 19 | RX_push _ => 20
  end.
Definition to_note (pc : link_rx_pc) : nat :=
  match pc with
  | RX_note _ false _ => 1 | RX_report => 2 | RX_poll | RX_push _ => 3 | RX_outs outs => 4 + cost outs
  | RX_post _ _ outs => 5 + cost outs | RX_get => 17 | RX_alive _ => 18 | RX_stamp => 19 | RX_note _ true _ => 20
  end.
Definition distance (s : @app B) : nat :=
  match gov_sensor_health s.(ap_sensor) with
  | GOV_SENSOR_FAULTED => to_note s.(ap_link_rx)
  | GOV_SENSOR_HEALTHY => 20 * polls_left s.(ap_sensor) + to_poll s.(ap_link_rx)
  end.

Definition bus_dead (s : @app B) : Prop := exists b, s.(ap_bus) = Some b /\ dead b.

(** The unhealthy report has been posted, and no healthy one can follow. *)
Definition out (s : @app B) : Prop :=
  faulted s.(ap_sensor) /\ held GOV_CAUSE_SENSOR s.(ap_node) /\ good_report_pending s = false.

(** The other threads leave the sensor and the link thread alone. *)
Lemma other_sensor (s s' : @app B) a :
  a <> Run LinkRx -> app_step read brd s a = Some s' -> s'.(ap_sensor) = s.(ap_sensor) /\ s'.(ap_bus) = s.(ap_bus).
Proof.
  intros Ha. destruct a as [[| | | |]| |ready fifo|d]; cbn [app_step]; try done.
  - unfold control_thread, gov_slot_get, note_alive, locked_control_step. destruct (ap_control s); intros H;
      repeat (progress simplify_option_eq || case_match); done.
  - unfold link_tx_thread, link_wire_out. destruct (ap_link_tx s); intros H; repeat (progress simplify_option_eq || case_match); done.
  - unfold telemetry_thread, link_wire_out. destruct (ap_telemetry s); intros H; repeat (progress simplify_option_eq || case_match); done.
  - unfold health_thread, note_alive, watchdog_feed. destruct (ap_health_th s); intros H; repeat (progress simplify_option_eq || case_match); done.
  - by intros [= <-].
  - intros [= <-]. unfold link_uart_isr. by destruct ready.
  - by intros [= <-].
Qed.

(** A poll on the dead bus. *)
Lemma poll_on_dead s b :
  app_ok brd s -> ap_bus s = Some b -> dead b ->
  exists b' sen, gov_sensor_poll read poll_fuel b s.(ap_sensor) None = Some (b', sen, None, gov_sensor_health sen) /\ dead b' /\
    (faulted sen \/ ~ faulted s.(ap_sensor) /\ (S (polls_left sen) <= polls_left s.(ap_sensor))%nat).
Proof.
  intros Hs Hb Hd. destruct (sensor_poll_ok read brd s b Hs Hsensor Hb) as (b' & sen & Hp & _). exists b', sen. split; [exact Hp|].
  destruct (ao_sensor _ s Hs Hsensor) as (_ & h & Hrep & Hcfg). destruct Hrep as (_ & _ & Hn & _).
  unfold gov_sensor_poll, read_with_retry in Hp. destruct (retry_loop _ _ _ _ _) as [[[b1 st] buf]|] eqn:Er; [|done]. cbn in Hp.
  destruct (sensor_dispatch _ _ _ _) as [[sen1 slot1]|] eqn:Ed; [|done]. cbn in Hp. injection Hp as -> -> -> _.
  destruct (retry_dead read dead Hdead _ _ _ _ _ _ _ Hd Er) as [Hd' Hst]. split; [done|].
  apply (dispatch_failed _ _ _ _ _ _ Hcfg) in Ed; [done| |done].
  rewrite Hn, Hcfg. cbn. pose proof (count_nonneg GOV_BUS_NODATA (since_ok h)). lia.
Qed.

Lemma link_rx_poll_step s s' :
  app_ok brd s -> bus_dead s -> s.(ap_link_rx) = RX_poll -> link_rx_thread read brd s = Some s' ->
  bus_dead s' /\ s'.(ap_node) = s.(ap_node) /\
  (faulted s'.(ap_sensor) /\ s'.(ap_link_rx) = RX_report \/
   ~ faulted s.(ap_sensor) /\ ~ faulted s'.(ap_sensor) /\ (S (polls_left s'.(ap_sensor)) <= polls_left s.(ap_sensor))%nat /\
   (to_poll s'.(ap_link_rx) <= 20)%nat).
Proof.
  intros Hs (b & Hb & Hd) Hpc. unfold link_rx_thread. rewrite Hpc, Hb. cbn [mbind option_bind].
  destruct (poll_on_dead s b Hs Hb Hd) as (b' & sen & -> & Hd' & Hf). cbn. intros [= <-].
  split; [by exists b'|]. split; [done|]. cbn.
  destruct (decide (faulted sen)) as [Hfs|Hfs]; [left|right].
  - split; [done|]. unfold faulted in Hfs. by rewrite Hfs.
  - destruct Hf as [?|[Hn Hl]]; [done|]. split_and!; try done. destruct (_ && _); cbn; lia.
Qed.

Ltac nearer := first [done | lia | intros _; left; lia].

(** Any other step of the link thread: one step nearer, or the report is posted. *)
Lemma link_rx_other_step s s' :
  app_ok brd s -> s.(ap_link_rx) <> RX_poll -> link_rx_thread read brd s = Some s' ->
  s'.(ap_sensor) = s.(ap_sensor) /\ s'.(ap_bus) = s.(ap_bus) /\
  (good_report_pending s' = true -> gov_sensor_health s.(ap_sensor) = GOV_SENSOR_HEALTHY) /\
  (to_poll s'.(ap_link_rx) < to_poll s.(ap_link_rx))%nat /\
  (faulted s.(ap_sensor) -> (to_note s'.(ap_link_rx) < to_note s.(ap_link_rx))%nat \/
     held GOV_CAUSE_SENSOR s'.(ap_node) /\ good_report_pending s' = false).
Proof.
  intros Hs Hpc. pose proof (ao_link_rx _ s Hs) as Hok. pose proof (proj1 (ao_shadow _ s Hs)) as Hsh.
  unfold link_rx_thread, note_alive, link_wire_out, after_frame, good_report_pending. rewrite Hsensor.
  destruct (ap_link_rx s) as [|[|[f|[|byte bytes]] outs]|ev t outs| |v| |sflags ok t| |t]; try done; cbn in Hok.
  - destruct (ap_byteq s) as [|byte q] eqn:Eq; [intros [= <-]; cbn; split_and!; nearer|].
    destruct (ao_byteq _ s Hs) as [Hb _]. rewrite Eq in Hb. apply Forall_cons in Hb as [Hb _].
    destruct (link_receive_byte_ok _ byte Hb (ao_link _ s Hs)) as (l & outs & -> & _ & Ho & _). cbn. intros [= <-]. cbn.
    split_and!; nearer.
  - intros [= <-]. cbn. split_and!; nearer.
  - intros [= <-]. destruct (on_app_deliver f); cbn; split_and!; nearer.
  - intros [= <-]. cbn. split_and!; nearer.
  - destruct (b_uart brd); intros [= <-]; cbn; split_and!; nearer.
  - intros [= <-]. cbn. split_and!; nearer.
  - intros [= <-]. cbn. split_and!; nearer.
  - intros [= <-]. unfold faulted. cbn. case_bool_decide as Eh; cbn; split_and!; try nearer.
    by destruct (gov_sensor_health (ap_sensor s)).
  - intros [= <-]. destruct ok; cbn; split_and!; try nearer.
    intros _. right. split; [|done]. exact (report_bad_held _ (SrcSensor sflags) t Hsh).
  - intros [= <-]. cbn. split_and!; nearer.
  - destruct (gov_health_note_alive _ _ _); [|done]. cbn. intros [= <-]. cbn. split_and!; nearer.
Qed.

Definition near (s : @app B) (k : nat) : Prop := bus_dead s /\ (out s \/ (distance s <= k)%nat).

Lemma health_cases s : gov_sensor_health s = GOV_SENSOR_FAULTED \/ gov_sensor_health s = GOV_SENSOR_HEALTHY.
Proof. destruct (gov_sensor_health s); [by right|by left]. Qed.

Lemma near_link_rx s s' k :
  app_ok brd s -> near s k -> app_step read brd s (Run LinkRx) = Some s' -> near s' (k - 1).
Proof.
  intros Hs [Hb Hn] H. assert (Hpc : s.(ap_link_rx) = RX_poll \/ s.(ap_link_rx) <> RX_poll) by (destruct (ap_link_rx s); (by left) || by right).
  destruct Hpc as [Hpc|Hpc].
  - destruct (link_rx_poll_step s s' Hs Hb Hpc H) as (Hb' & En & Hf). split; [done|]. destruct Hf as [[Hf Hpc']|(Hnf & Hnf' & Hl & Ht)].
    + destruct Hn as [(_ & Hh & _)|Hd].
      * left. split; [done|]. split; [by rewrite En|]. unfold good_report_pending. by rewrite Hpc'.
      * right. unfold distance in *. rewrite Hf, Hpc'. rewrite Hpc in Hd. unfold polls_left in Hd.
        destruct (gov_sensor_health (ap_sensor s)); cbn in *; lia.
    + destruct Hn as [(Hf & _)|Hd]; [done|]. right. unfold distance in *. rewrite Hpc in Hd.
      destruct (health_cases (ap_sensor s)) as [E|E]; [done|]. destruct (health_cases (ap_sensor s')) as [E'|E']; [done|].
      rewrite E in Hd. rewrite E'. cbn in Hd. lia.
  - destruct (link_rx_other_step s s' Hs Hpc H) as (Es & Eb & Hg & Ht & Hnote).
    split; [destruct Hb as (b & Hb & Hd); exists b; by rewrite Eb|]. destruct Hn as [(Hf & Hh & Hp)|Hd].
    + left. split; [by rewrite Es|]. split; [by eapply app_step_held|]. destruct (good_report_pending s'); [|done].
      specialize (Hg eq_refl). unfold faulted in Hf. congruence.
    + unfold distance in Hd. destruct (health_cases (ap_sensor s)) as [E|E]; rewrite E in Hd.
      * destruct (Hnote E) as [Hlt|[Hh Hp]]; [right; unfold distance; rewrite Es, E; lia|left]. split; [by rewrite Es|done].
      * right. unfold distance. rewrite Es, E. lia.
Qed.

Lemma near_other s s' a k : app_ok brd s -> a <> Run LinkRx -> near s k -> app_step read brd s a = Some s' -> near s' k.
Proof.
  intros Hs Ha [(b & Hb & Hd) Hn] H. destruct (other_sensor s s' a Ha H) as [Es Eb].
  destruct (other_threads_rx_same read brd s s' a Ha H) as (_ & _ & Epc & _).
  split; [exists b; by rewrite Eb|]. destruct Hn as [(Hf & Hh & Hp)|Hn].
  - left. split; [by rewrite Es|]. split; [by eapply app_step_held|]. unfold good_report_pending. by rewrite Epc.
  - right. unfold distance. by rewrite Es, Epc.
Qed.

Lemma near_run acts : forall s s' k,
  app_ok brd s -> near s k -> Forall act_ok acts -> app_run read brd s acts = Some s' -> app_ok brd s' /\ near s' (k - turns acts).
Proof.
  induction acts as [|a acts IH]; intros s s' k Hs Hn Ha; cbn [app_run]; [intros [= <-]; cbn; by rewrite Nat.sub_0_r|].
  apply Forall_cons in Ha as [Ha Hacts]. destruct (app_step_ok read brd s a Hs Ha) as (s1 & E & Hs1). rewrite E. cbn [mbind option_bind].
  intros H. rewrite turns_cons. replace (k - (turns [a] + turns acts))%nat with (k - turns [a] - turns acts)%nat by lia.
  apply (IH s1); [done| |done|done].
  assert (Hc : a = Run LinkRx \/ a <> Run LinkRx) by (destruct a as [[| | | |]| | |]; (by left) || by right). destruct Hc as [->|Hc].
  - exact (near_link_rx s s1 k Hs Hn E).
  - replace (turns [a]) with 0%nat by (by destruct a as [[| | | |]| | |]). rewrite Nat.sub_0_r. exact (near_other s s1 a k Hs Hc Hn E).
Qed.

Lemma near_start s b : app_ok brd s -> s.(ap_bus) = Some b -> dead b -> near s 120.
Proof.
  intros Hs Hb Hd. split; [by exists b|]. right. destruct (ao_sensor _ s Hs Hsensor) as (_ & h & (_ & _ & Hn & _) & Hcfg).
  pose proof (count_nonneg GOV_BUS_NODATA (since_ok h)). rewrite Hcfg in Hn. cbn in Hn. pose proof (ao_link_rx _ s Hs) as Hpc.
  unfold distance, polls_left. destruct (gov_sensor_health _), (ap_link_rx s); cbn in *; try destruct ok; lia.
Qed.

Lemma near_out s : near s 0 -> out s.
Proof.
  intros [_ [H|H]]; [done|]. exfalso. unfold distance, polls_left in H. destruct (gov_sensor_health _), (ap_link_rx s); cbn in H;
    try destruct ok; lia.
Qed.

Lemma held_not_run n : shadow_ok n -> held GOV_CAUSE_SENSOR n -> node_state n <> GOV_ST_RUN.
Proof.
  intros [Hn _] [Hp|Ha] Hr; [|by rewrite (sh_run n Hn Hr) in Ha].
  unfold parked, gov_safety_actuation_allowed, node_state in *. by rewrite Hr in Hp.
Qed.

(** C10: A sensor bus that dies takes the node out of RUN. In any well-formed state of the application on a
    board with a sensor, let the bus be dead: from now on no transfer succeeds, each failing in any way (no
    acknowledgement, no data, an error). However the threads, the interrupt and the clock are
    interleaved from there, as soon as the link thread has had 120 steps (five polls for the dropout
    limit, each within 20 steps, and 20 more to post the report), the node is not in RUN, and it is not for the rest of the run: the
    retries, the dropout counter, the fault routing and the safety machine pass the failure on, and
    nothing the other threads, the operator or late reports do puts full authority back. Every control step from
    then on applies at most half of the actuator's range. *)
Theorem dead_bus_degrades s b acts s' :
  app_ok brd s -> s.(ap_bus) = Some b -> dead b -> Forall act_ok acts ->
  app_run read brd s acts = Some s' -> (120 <= turns acts)%nat ->
  gov_sensor_health s'.(ap_sensor) = GOV_SENSOR_FAULTED /\ node_state s'.(ap_node) <> GOV_ST_RUN /\
  forall t, s'.(ap_control) = CT_step t ->
    exists s'' u, app_step read brd s' (Run Control) = Some s'' /\ s''.(ap_node).(n_last_output) = f_of_Z u /\ 0 <= u <= 50.
Proof.
  intros Hs Hb Hd Ha Hrun Hturns. destruct (near_run acts s s' 120 Hs (near_start s b Hs Hb Hd) Ha Hrun) as [Hs' Hn].
  replace (120 - turns acts)%nat with 0%nat in Hn by lia. destruct (near_out s' Hn) as (Hf & Hh & _).
  split; [exact Hf|]. split; [apply held_not_run; [apply (ao_shadow _ s' Hs')|done]|].
  intros t Ht. pose proof (ao_control _ s' Hs') as Hpc. rewrite Ht in Hpc.
  destruct (control_step_app_ok brd s' t Hs' Hpc) as (n' & u & Hstep & Ho & Hu & Hn' & Hs2).
  cbn [app_step]. unfold control_thread, locked_control_step. rewrite Ht, Hstep. cbn. eexists _, _. split; [reflexivity|].
  cbn. split; [exact Ho|].
  assert (Hr : node_state n' <> GOV_ST_RUN).
  { apply held_not_run; [apply (ao_shadow _ _ Hs2)|]. eapply control_held; [exact Hstep|by eapply control_event_moves|done]. }
  destruct (node_state n'); cbn [clamped]; [lia|done|split; [apply Z.div_pos; lia|apply Z.div_le_upper_bound; lia]|lia..].
Qed.
End app.

(** A bus that answers a number of transfers and then has no data for ever. *)
Definition failing_read : bus_read nat := fun n _ _ len =>
  match n with
  | O => (O, GOV_BUS_NODATA, [])
  | S n => (n, GOV_BUS_OK, replicate (Z.to_nat len - 1) 0 ++ replicate (Z.to_nat len `min` 1) 42)
  end.

#[export] Instance failing_read_laws : BusLaws failing_read.
Proof.
  split. intros [|n] addr reg len b' data Hl; [done|]. intros [= <- <-]. rewrite length_app, !length_replicate. split; [lia|].
  apply Forall_app. split; apply Forall_replicate; by vm_compute.
Qed.

Lemma failing_read_dead : never_answers failing_read (fun n => n = O).
Proof. intros n addr reg len ->. done. Qed.

(** Three good samples, and then 120 steps of the link thread with the others in between. *)
Definition healthy_start : list action := replicate 19 (Run LinkRx).
Definition outage : list action := concat (replicate 120 [Run LinkRx; Timer; Run Control; Elapse 1; Run Health]).

Lemma dead_bus_degrades_witness :
  exists s s', app_run failing_read renode (boot renode (f_of_Z 50) false (Some 3%nat) None 5) healthy_start = Some s /\
    node_state s.(ap_node) = GOV_ST_RUN /\ gov_sensor_health s.(ap_sensor) = GOV_SENSOR_HEALTHY /\
    app_run failing_read renode s outage = Some s' /\ node_state s'.(ap_node) <> GOV_ST_RUN.
Proof.
  assert (Hsp : castable (f_of_Z 50)) by (apply sample_castable; lia).
  assert (Hhal : b_sensor renode = true -> is_Some (Some 3%nat)) by (intros _; by exists 3%nat).
  assert (Ha : Forall act_ok healthy_start) by (apply Forall_replicate; exact I).
  assert (Ho : Forall act_ok outage) by (apply Forall_concat, Forall_replicate; repeat constructor).
  assert (Hs : (fun s => (ap_bus s, node_state s.(ap_node), gov_sensor_health s.(ap_sensor))) <$>
    app_run failing_read renode (boot renode (f_of_Z 50) false (Some 3%nat) None 5) healthy_start = Some (Some 0%nat, GOV_ST_RUN, GOV_SENSOR_HEALTHY))
    by (vm_compute; reflexivity).
  destruct (app_run_ok failing_read renode healthy_start _ (boot_ok renode (f_of_Z 50) false (Some 3%nat) None 5 Hsp Hhal ltac:(clia)) Ha)
    as (s & Hrun & Hok).
  rewrite Hrun in Hs. injection Hs as Hb Hst Hh.
  destruct (app_run_ok failing_read renode outage s Hok Ho) as (s' & Hrun' & _).
  destruct (dead_bus_degrades failing_read renode (fun n => n = O) eq_refl failing_read_dead s 0%nat outage s' Hok Hb eq_refl Ho Hrun')
    as (_ & Hn & _); [apply Nat.leb_le; by vm_compute|].
  exists s, s'. exact (conj Hrun (conj Hst (conj Hh (conj Hrun' Hn)))).
Defined.
